(* ===== verification/_CoqProject ===== *)
-Q . S2P
Prelude.v
Libc.v
Proc.v
Logic.v
Stdio.v
Family.v
Wait.v
Fork.v
Pthread.v
ForkTree.v
Clock.v
Sched.v
Sem.v
SemSafe.v
SemRefine.v
Shm.v
Control.v
Socket.v
Call64.v
Mkuidns.v
Futex.v
Msg.v
Iovec.v
Clone.v
Recvmsg.v
Files.v
Ident.v
ArchPrctl.v
Enough.v
LoopEnd.v
Formats.v
