(* ===== verification/Prelude.v ===== *)
(** Verification of the generic-tests programs

    The repository holds forty-four small C programs that exercise system
    calls: processes, threads, IPC, sockets, files, clocks.  They are used to
    compare an emulated or analysed machine with a real one, so what matters of
    a program is the sequence of its calls and of its lines of output, on every
    answer the system can give.  This library translates every program and
    proves what it does.

    ** Programs as trees of calls

    - [Prelude] (this file): the ABI facts the output depends on ([target]),
      machine integers as [Z] with their wrap-around, arrays whose out-of-bounds
      access is [None].
    - [Libc]: byte arrays as C strings, [atoi], [printf] formatting with the types
      of its arguments, the macros of sys/wait.h, byte order.
    - [Proc]: a C function is a value of [prog A], a tree of outputs ([Emit])
      and calls ([Vis]), each call followed by what the code does with the
      answer ([ans]: return value, errno, objects written).  It ends by a value
      or by a [stop]: [exit], [pthread_exit], a successful exec, an assertion,
      undefined behaviour.  [run] plays a tree against a script of answers.  The
      theorems quantify over the scripts: the kernel is not in the repository
      and nothing is assumed of it unless a hypothesis says so.
    - [Logic]: how runs compose ([run_bind], [runs_to]); [wp], a Hoare logic in
      which a monitor follows the events of a run, for safety; [enough] and
      [consumes], for fuel.
    - [Stdio]: the buffer of stdout and its copies at [fork]; [Family]: all the
      processes a program gives rise to, [fork] returning twice.
    - [Sched]: kernels with a state and processes that interleave over them
      ([pstep], [reachable]); [pstep_acc], every schedule of finite trees ends.

    A copied function is translated once where the copies do the same, and
    instantiated in each program's Module with the places where they differ; a
    C local or global is threaded as an argument and a result; pointers to
    memory the kernel or another process shares are calls ([ShLoad],
    [ShStore]) or objects of the answer.

    ** Programs and files

    - [Wait], [Fork]: fork.c, serialfork.c, parallelfork.c, forkexec.c,
      multiforkexec.c, exec.c (Modules [ForkC], [SerialFork], [ParallelFork],
      [ForkExec], [MultiForkExec], [ExecC]).  The status loop reports every
      outcome in order and stops at the terminal one; what the family of
      processes is; what each process prints under every buffering mode.
    - [Pthread]: pthread.c, fork_and_pthread.c, forkexec_and_pthread.c,
      forkmulti.c, forkexecwait_and_pthread.c, forkexecwait_and_pthreadchild.c,
      system.c, simplesystem.c, system_and_pthread.c, processesgalore.c.
      Arrays of threads in bounds or not, joining in order, status of system().
    - [ForkTree]: forktree_and_pthread.c, the geometric sum of processes.
    - [Clock]: clock.c ([ClockC]), timeclock64.c ([TimeClock64]), whose monitor
      follows the timers that exist.
    - [Sem], [SemSafe], [SemRefine]: semaphore.c.  [producer] and [consumer] run
      concurrently over any kernel with [SemLaws]; order and mutual exclusion in
      every interleaving, completion under [SemProgress], and a simulation by a
      channel of one place.
    - [Shm]: shmtest.c over any memory with [MemLaws].
    - [Control]: controlthreads.c (its seven thread functions by [thread_fn]) and
      waitkeyboard.c ([WaitKeyboard_main]).
    - [Socket]: socket.c ([SocketC]), socketforkserver.c ([ForkServer]), one model
      of server and client with the differences as a record.
    - [Call64]: call64.c, directory entries encoded by the kernel and read back.
    - [Mkuidns]: mkuidns.c.  [Futex]: threadlockfail.c over a lock word with
      [LockLaws], whose compare-and-exchange may fail on a free lock as the weak
      one does, and robustlist.c.  [Msg]: msgtest.c over [MsgLaws].
    - [Iovec]: iovec_demo.c over [IovLaws].  [Recvmsg]: recvmsg.c and
      recvmsg-flush.c, receiver and sender over [UdpLaws], which may lose what is
      sent.
    - [Clone]: clone.c ([CloneC]) and sample.c ([SampleC]).
    - [Files]: hellofile.c, fakeafile.c, devmemmadness.c, stat.c, the first over
      [NamesLaws].  [Ident]: hello.c, helloargs.c, identity.c, termios.c.
    - [ArchPrctl]: arch_prctl.c over [ArchLaws].
    - [Enough]: fuel above the number of answers decides a run, for the programs
      with a loop that waits (forktree_and_pthread.c: [forktree_enough]).
    - [LoopEnd]: such loops end at the answer they wait for and not before.
    - [Formats]: a type system for format strings, which tells int, long, long
      long and pointers apart, and that no output call of these programs is
      undefined, stat.c's on 64-bit targets apart; the programs that print what
      they receive are left to their own files, since it depends on the data.

    ** What the theorems show

    - functional: the trace, output and result of a run as a function of the
      answers, errors included ([fork_parent_run], [pthread_main_run],
      [clone_main_run], [waitfake_run], [displayClock_breakdown], ...);
    - invariants and safety over every script or every schedule
      ([serialfork_serial], [pthread_in_bounds], [server_replies],
      [shm_no_overrun], [mkuidns_maps_before_go], [hellofile_cleans_up]);
    - refinement ([semaphore_refines]), equivalence ([fork_loops_flush]) and
      round trips ([getdents_roundtrip], [atoi_show_int], [uint_value_bytes]);
    - types ([formats_typed]);
    - termination and progress: [semaphore_completes], [recvmsg_delivers],
      [loops_end];
    - errors and bounds: where a program is undefined, stops or computes the
      wrong value, the theorem says on which inputs exactly
      ([processesgalore_overflow], [semaphore_array_overflow],
      [displayClock_2038], [keyboard_eof], [map_line_complete], ...).

    The classes of laws ([SemLaws], [MemLaws], ...) state documented behaviour
    of calls over an abstraction of the kernel's state.  Calls may fail and
    datagrams be lost unless a law says otherwise.  Each file that uses one has an
    executable kernel that is an instance of it, over which the theorem is
    applied.

    ** Fuel

    The only unbounded loops are those that wait on the system; they take fuel
    and stop with [Fuel] when it runs out.  Each turn makes a call, so any fuel
    above the number n of answers of a script decides its run: [enough p] says
    so, by [enough_loop], and [loops_enough] proves it, and that the run does
    not depend on the fuel, of the programs with such a loop.  The walk of
    call64.c over a buffer makes no call: its turns are the entries of the
    buffer ([getdents_roundtrip]), and an entry of length zero keeps it going
    for ever ([getdents_zero_reclen]).  The depth of [ForkTree.spawnforks] is
    the number of levels plus one ([forktree_enough]); a negative number of
    levels exhausts every depth ([negative_levels_unbounded]).

    ** Parameters

    The target; which macros the headers define (clock.c, timeclock64.c,
    call64.c, arch_prctl.c); the text of strerror; addresses passed as plain
    numbers; the contents of uninitialised arrays and structures.

    ** Not modelled

    The makefiles, the container image and the shell scripts, which contain no
    code of the programs; the kernel and the C library beyond the definitions
    above.  Signals, process death and time are seen through the calls that
    report them: no signal is delivered to a running program, and the duration
    of [sleep] has no effect.  The output of a program replaced by exec, or run
    by system(), is not part of the model.  Threads of one process share the
    memory their code shares (the lock word, the segment); other locals are
    private.  An argument of [printf] has the type the source gives it, but signed
    and unsigned types of a rank count as one. *)

From stdpp Require Export base list strings list_numbers.
From Stdlib Require Export ZArith Lia Ascii.

(** * The machine a program is compiled for

    The test programs are built for x86_64, arm, aarch64, mips and ppc (see
    [arch-makefiles/]).  The ABI facts a program's behaviour depends on are the
    width of [long] (and of pointers), the signedness of plain [char] and the
    byte order. *)
Record target := Target {
  long_bits : Z;
  char_signed : bool;
  big_endian : bool
}.

Definition x86_64 : target := Target 64 true false.
Definition aarch64 : target := Target 64 false false.
Definition arm : target := Target 32 false false.
Definition ppc : target := Target 32 false true.
Definition mips : target := Target 32 true true.

(** * Machine integers: a [w]-bit integer is a [Z] in the type's range *)
Section Integers.
Local Open Scope Z_scope.

(** Conversion to an unsigned [w]-bit type. *)
Definition uwrap (w z : Z) : Z := z mod 2 ^ w.

(** Conversion to a signed [w]-bit type (two's complement). *)
Definition swrap (w z : Z) : Z := (z + 2 ^ (w - 1)) mod 2 ^ w - 2 ^ (w - 1).

Definition int_min : Z := - 2 ^ 31.
Definition int_max : Z := 2 ^ 31 - 1.
Definition is_int (z : Z) : Prop := int_min <= z <= int_max.

(** The result of an operation on [int]: an overflow is undefined. *)
Definition int_result (z : Z) : option Z :=
  if decide (int_min <= z <= int_max) then Some z else None.

(** [(int) z] *)
Definition to_int (z : Z) : Z := swrap 32 z.

(** [(char) z] on the target *)
Definition to_char (t : target) (z : Z) : Z :=
  if char_signed t then swrap 8 z else uwrap 8 z.

Lemma swrap_id w z : 0 < w -> - 2 ^ (w - 1) <= z < 2 ^ (w - 1) -> swrap w z = z.
Proof.
  intros Hw Hz. unfold swrap.
  assert (E : 2 ^ w = 2 * 2 ^ (w - 1)).
  { rewrite <- Z.pow_succ_r by lia. f_equal. lia. }
  rewrite Z.mod_small; lia.
Qed.

Lemma uwrap_id w z : 0 <= z < 2 ^ w -> uwrap w z = z.
Proof. intros. unfold uwrap. now apply Z.mod_small. Qed.

Lemma swrap_range w z : 0 < w -> - 2 ^ (w - 1) <= swrap w z < 2 ^ (w - 1).
Proof.
  intros Hw. unfold swrap.
  assert (E : 2 ^ w = 2 * 2 ^ (w - 1)).
  { rewrite <- Z.pow_succ_r by lia. f_equal. lia. }
  pose proof (Z.mod_pos_bound (z + 2 ^ (w - 1)) (2 ^ w)). lia.
Qed.

Lemma to_int_id z : is_int z -> to_int z = z.
Proof. unfold is_int, int_min, int_max, to_int. intros. apply swrap_id; lia. Qed.

Lemma int_result_is z : is_int z -> int_result z = Some z.
Proof. intros H. unfold int_result. now rewrite decide_True. Qed.

Lemma to_int_range z : is_int (to_int z).
Proof.
  unfold is_int, int_min, int_max, to_int.
  pose proof (swrap_range 32 z ltac:(lia)). change (32 - 1) with 31 in *. lia.
Qed.
End Integers.

(** * C arrays as lists

    [buf !! i] reads; [store] writes and is [None] out of bounds, where C's
    behaviour is undefined (stdpp's insert would silently do nothing). *)
Definition store {A} (i : nat) (x : A) (l : list A) : option (list A) :=
  if decide (i < length l) then Some (<[i:=x]> l) else None.

(** Store at a (possibly negative) C index. *)
Definition storeZ {A} (i : Z) (x : A) (l : list A) : option (list A) :=
  if decide (0 <= i)%Z then store (Z.to_nat i) x l else None.

Definition lookupZ {A} (l : list A) (i : Z) : option A :=
  if decide (0 <= i)%Z then l !! Z.to_nat i else None.

(** Overwrite a prefix of [l] with [xs] ([memcpy] into an array); bytes past
    the end of [l] are dropped by the callers' bounds. *)
Definition overwrite {A} (xs l : list A) : list A := xs ++ drop (length xs) l.

Section ArrayLemmas.
Context {A : Type}.
Implicit Types l xs : list A.

Lemma store_Some i x l : i < length l -> store i x l = Some (<[i:=x]> l).
Proof. intros H. unfold store. by rewrite decide_True. Qed.

Lemma store_None i x l : length l <= i -> store i x l = None.
Proof. intros H. unfold store. by rewrite decide_False by lia. Qed.

Lemma store_inv i x l l' : store i x l = Some l' -> i < length l /\ l' = <[i:=x]> l.
Proof. unfold store. case_decide; naive_solver. Qed.

Lemma storeZ_Some i x l :
  (0 <= i < Z.of_nat (length l))%Z -> storeZ i x l = Some (<[Z.to_nat i:=x]> l).
Proof. intros H. unfold storeZ. rewrite decide_True by lia. apply store_Some. lia. Qed.

Lemma storeZ_None i x l : (Z.of_nat (length l) <= i)%Z -> storeZ i x l = None.
Proof. intros H. unfold storeZ. case_decide; [|done]. apply store_None. lia. Qed.

Lemma length_overwrite xs l : length xs <= length l -> length (overwrite xs l) = length l.
Proof. intros. unfold overwrite. rewrite length_app, length_drop. lia. Qed.

Lemma take_overwrite xs l : take (length xs) (overwrite xs l) = xs.
Proof. unfold overwrite. apply take_app_length. Qed.
End ArrayLemmas.

(** * Automation shared by the files *)
Create HintDb gt discriminated.
#[export] Hint Resolve to_int_range : gt.

(** Split conjunctions and case on the boolean tests the code makes. *)
Ltac bool_cases :=
  repeat match goal with
  | H : (_ && _)%bool = true |- _ => apply andb_prop in H; destruct H
  | H : context [Z.eqb ?x ?y] |- _ => destruct (Z.eqb_spec x y)
  | H : context [Z.ltb ?x ?y] |- _ => destruct (Z.ltb_spec x y)
  | H : context [Z.leb ?x ?y] |- _ => destruct (Z.leb_spec x y)
  | |- context [Z.eqb ?x ?y] => destruct (Z.eqb_spec x y)
  | |- context [Z.ltb ?x ?y] => destruct (Z.ltb_spec x y)
  | |- context [Z.leb ?x ?y] => destruct (Z.leb_spec x y)
  end.

(** Storing in the cell just after a known prefix. *)
Lemma storeZ_app {A} (l r : list A) (x y : A) i :
  i = Z.of_nat (length l) -> storeZ i x (l ++ y :: r) = Some (l ++ x :: r).
Proof.
  intros ->. rewrite storeZ_Some by (rewrite length_app; cbn; lia).
  by rewrite Nat2Z.id, insert_app_r_alt, Nat.sub_diag by lia.
Qed.

Lemma lookupZ_app {A} (l r : list A) (y : A) i :
  i = Z.of_nat (length l) -> lookupZ (l ++ y :: r) i = Some y.
Proof.
  intros ->. unfold lookupZ. rewrite decide_True by lia.
  by rewrite Nat2Z.id, list_lookup_middle.
Qed.
