(* ===== verification/Libc.v ===== *)
(** The parts of the C library the programs use, as executable functions:
    C strings in byte arrays, [atoi], [printf] formatting and the wait-status
    macros of [<sys/wait.h>] (glibc's definitions). *)

From S2P Require Export Prelude.

Local Open Scope Z_scope.

(** * Bytes and C strings *)

Definition byte_of_ascii (c : ascii) : Z := Z.of_N (N_of_ascii c).
Definition ascii_of_byte (b : Z) : ascii := ascii_of_N (Z.to_N (b mod 256)).

(** The characters of a string literal, without the terminating NUL. *)
Fixpoint bytes (s : string) : list Z :=
  match s with
  | EmptyString => []
  | String c s => byte_of_ascii c :: bytes s
  end.

Fixpoint string_of_bytes (l : list Z) : string :=
  match l with
  | [] => EmptyString
  | b :: l => String (ascii_of_byte b) (string_of_bytes l)
  end.

(** A literal as the array it initialises. *)
Definition c_array (s : string) : list Z := bytes s ++ [0].

(** The C string at the start of an array; [None] when the array holds no NUL
    (reading it runs past the end). *)
Fixpoint cstr (buf : list Z) : option string :=
  match buf with
  | [] => None
  | b :: buf => if b =? 0 then Some EmptyString
                else String (ascii_of_byte b) <$> cstr buf
  end.

(** At most [n] characters of it, as the conversion [%.*s] reads. *)
Fixpoint cstr_n (n : nat) (buf : list Z) : option string :=
  match n, buf with
  | O, _ => Some EmptyString
  | S _, [] => None
  | S n, b :: buf => if b =? 0 then Some EmptyString
                     else String (ascii_of_byte b) <$> cstr_n n buf
  end.

(** [strlen] of an array. *)
Fixpoint strlen (buf : list Z) : option Z :=
  match buf with
  | [] => None
  | b :: buf => if b =? 0 then Some 0 else Z.succ <$> strlen buf
  end.

(** [strncmp(a, b, n) == 0] on arrays that hold enough characters. *)
Fixpoint strncmp_eq (n : nat) (a b : list Z) : bool :=
  match n, a, b with
  | O, _, _ => true
  | S n, x :: a, y :: b =>
      (x =? y) && ((x =? 0) || strncmp_eq n a b)
  | _, _, _ => false
  end.

(** * Integers to text *)

Definition digit (d : Z) : ascii :=
  ascii_of_N (Z.to_N (if d <? 10 then 48 + d else 87 + d)).

Fixpoint digits (fuel : nat) (base n : Z) (acc : string) : string :=
  match fuel with
  | O => acc
  | S fuel =>
      let acc := String (digit (n mod base)) acc in
      if n / base =? 0 then acc else digits fuel base (n / base) acc
  end.

(** The digits of [n >= 0]; [Z.log2 n + 1] bounds their number in any base. *)
Definition show_nat (base n : Z) : string :=
  digits (S (Z.to_nat (Z.log2 n))) base n EmptyString.

Definition show_int (z : Z) : string :=
  if z <? 0 then String "-" (show_nat 10 (- z)) else show_nat 10 z.

(** * [atoi]

    [atoi(s)] is [(int) strtol(s, NULL, 10)]: blanks, an optional sign, digits
    up to the first other character, saturation at the limits of [long]. *)

Definition is_space (c : ascii) : bool :=
  let b := byte_of_ascii c in (b =? 32) || ((9 <=? b) && (b <=? 13)).

Definition is_digit (c : ascii) : bool :=
  let b := byte_of_ascii c in (48 <=? b) && (b <=? 57).

Fixpoint read_digits (s : string) (acc : Z) : Z :=
  match s with
  | String c s => if is_digit c then read_digits s (10 * acc + (byte_of_ascii c - 48)) else acc
  | EmptyString => acc
  end.

Fixpoint skip_spaces (s : string) : string :=
  match s with
  | String c s' => if is_space c then skip_spaces s' else s
  | EmptyString => EmptyString
  end.

Definition strtol (t : target) (s : string) : Z :=
  let v := match skip_spaces s with
           | String "-" s => - read_digits s 0
           | String "+" s => read_digits s 0
           | s => read_digits s 0
           end in
  Z.max (- 2 ^ (long_bits t - 1)) (Z.min (2 ^ (long_bits t - 1) - 1) v).

Definition atoi (t : target) (s : string) : Z := to_int (strtol t s).

(** * [printf]

    Arguments are integers, string literals and argument strings, or the array a
    [char *] points into.  An integer is an [int] ([AI]: also a shorter type,
    which is promoted, and the unsigned types of the same width) or has another
    type ([AX]): a [long], a [long long], a [size_t] or [ssize_t], an [intmax_t]
    or a pointer. *)
Inductive cty := TLong | TLLong | TSize | TMax | TPtr.
Inductive arg := AI (z : Z) | AX (ty : cty) (z : Z) | AS (s : string) | AB (buf : list Z).

(** The types themselves: [size_t] and [intmax_t] are names of others.  Signed and
    unsigned types of a rank count as one. *)
Inductive rank := RInt | RLong | RLLong | RPtr.
#[global] Instance rank_eq_dec : EqDecision rank.
Proof. solve_decision. Defined.

Definition wide (t : target) : bool := long_bits t =? 64.
Definition rank_of (t : target) (ty : cty) : rank :=
  match ty with
  | TLong => RLong
  | TLLong => RLLong
  | TSize => if wide t then RLong else RInt
  | TMax => if wide t then RLong else RLLong
  | TPtr => RPtr
  end.

(** Formats are kept as they are written in the source: the escapes [\n],
    [\t], [\\] and octal [\ooo] are decoded here. *)
Fixpoint unescape (s : string) : string :=
  match s with
  | String "\" (String "n" s) => String "010" (unescape s)
  | String "\" (String "t" s) => String "009" (unescape s)
  | String "\" (String "\" s) => String "\" (unescape s)
  | String "\" (String a (String b (String c s))) =>
      String (ascii_of_byte (64 * (byte_of_ascii a - 48) + 8 * (byte_of_ascii b - 48)
                             + (byte_of_ascii c - 48))) (unescape s)
  | String c s => String c (unescape s)
  | EmptyString => EmptyString
  end.

Inductive len_mod := LNone | LH | LL | LLL | LJ | LZ.

Record spec := Spec {
  f_minus : bool; f_zero : bool;
  f_width : option Z; f_prec : option Z; f_len : len_mod }.

Definition spec0 : spec := Spec false false None None LNone.

Definition spec_bits (t : target) (l : len_mod) : Z :=
  match l with
  | LNone => 32 | LH => 16 | LL | LZ => long_bits t | LLL | LJ => 64
  end.

Fixpoint repeat_char (n : nat) (c : ascii) : string :=
  match n with O => EmptyString | S n => String c (repeat_char n c) end.

Definition pad_to (n : Z) (c : ascii) (s : string) : string :=
  repeat_char (Z.to_nat (n - Z.of_nat (String.length s))) c.

(** Field padding: blanks to the left, or to the right with [-]; zeros after
    the sign with [0]. *)
Definition field (sp : spec) (sign body : string) : string :=
  let body := (pad_to (default 0 (f_prec sp)) "0" body +:+ body)%stdpp in
  let w := default 0 (f_width sp) in
  let s := (sign +:+ body)%stdpp in
  if f_minus sp then (s +:+ pad_to w " " s)%stdpp
  else if f_zero sp then (sign +:+ (pad_to w "0" s +:+ body))%stdpp
  else (pad_to w " " s +:+ s)%stdpp.

Definition conv_int (t : target) (c : ascii) (sp : spec) (z : Z) : option string :=
  let w := spec_bits t (f_len sp) in
  match c with
  | "d"%char | "i"%char =>
      let v := swrap w z in
      Some (field sp (if v <? 0 then "-" else EmptyString) (show_nat 10 (Z.abs v)))
  | "u"%char => Some (field sp EmptyString (show_nat 10 (uwrap w z)))
  | "x"%char => Some (field sp EmptyString (show_nat 16 (uwrap w z)))
  | "o"%char => Some (field sp EmptyString (show_nat 8 (uwrap w z)))
  | "c"%char => Some (field (Spec (f_minus sp) false (f_width sp) None LNone) EmptyString
                   (String (ascii_of_byte (uwrap 8 z)) EmptyString))
  | "p"%char => Some (if z =? 0 then "(nil)" else ("0x" +:+ show_nat 16 (uwrap (long_bits t) z))%stdpp)
  | _ => None
  end.

Definition conv_str (sp : spec) (s : string) : string :=
  let s := match f_prec sp with
           | Some n => String.substring 0 (Z.to_nat n) s
           | None => s
           end in
  field (Spec (f_minus sp) false (f_width sp) None LNone) EmptyString s.

(** The type of argument a conversion of an integer asks for. *)
Definition wants (t : target) (c : ascii) (l : len_mod) : rank :=
  match c, l with
  | "p"%char, _ => RPtr
  | "c"%char, _ | _, (LNone | LH) => RInt
  | _, LL => RLong
  | _, LLL => RLLong
  | _, LJ => rank_of t TMax
  | _, LZ => rank_of t TSize
  end.

(** An argument of another type than the conversion asks for is undefined. *)
Definition conv (t : target) (c : ascii) (sp : spec) (a : arg) : option string :=
  match c, a with
  | "s"%char, AS s => Some (conv_str sp s)
  | "s"%char, AB buf =>
      match f_prec sp with
      | Some n => conv_str sp <$> (if n <? 0 then cstr buf else cstr_n (Z.to_nat n) buf)
      | None => conv_str sp <$> cstr buf
      end
  | _, AI z => if decide (wants t c (f_len sp) = RInt) then conv_int t c sp z else None
  | _, AX ty z =>
      if decide (wants t c (f_len sp) = rank_of t ty) then conv_int t c sp z else None
  | _, _ => None
  end.

Definition set_num (d : Z) (sp : spec) : spec :=
  match f_prec sp with
  | Some p => Spec (f_minus sp) (f_zero sp) (f_width sp) (Some (10 * p + d)) (f_len sp)
  | None => Spec (f_minus sp) (f_zero sp) (Some (10 * default 0 (f_width sp) + d)) None (f_len sp)
  end.

(** [%] flags, width, precision and length modifiers of one conversion. *)
Definition spec_step (c : ascii) (sp : spec) : option spec :=
  match c with
  | "-"%char => Some (Spec true (f_zero sp) (f_width sp) (f_prec sp) (f_len sp))
  | "."%char => Some (Spec (f_minus sp) (f_zero sp) (f_width sp) (Some 0) (f_len sp))
  | "h"%char => Some (Spec (f_minus sp) (f_zero sp) (f_width sp) (f_prec sp) LH)
  | "l"%char => Some (Spec (f_minus sp) (f_zero sp) (f_width sp) (f_prec sp)
                   (if f_len sp is LL then LLL else LL))
  | "j"%char => Some (Spec (f_minus sp) (f_zero sp) (f_width sp) (f_prec sp) LJ)
  | "z"%char => Some (Spec (f_minus sp) (f_zero sp) (f_width sp) (f_prec sp) LZ)
  | "0"%char => match f_width sp, f_prec sp with
           | None, None => Some (Spec (f_minus sp) true None None (f_len sp))
           | _, _ => Some (set_num 0 sp)
           end
  | c => if is_digit c then Some (set_num (byte_of_ascii c - 48) sp) else None
  end.

(** The value of an argument that has type [int]. *)
Definition as_int (t : target) (a : arg) : option Z :=
  match a with
  | AI n => Some n
  | AX ty n => if decide (rank_of t ty = RInt) then Some n else None
  | _ => None
  end.

Fixpoint vformat (t : target) (fmt : string) (st : option spec) (args : list arg)
  : option string :=
  match fmt, st with
  | EmptyString, None => Some EmptyString
  | EmptyString, Some _ => None
  | String "%"%char fmt, None => vformat t fmt (Some spec0) args
  | String c fmt, None => String c <$> vformat t fmt None args
  | String "%"%char fmt, Some _ => String "%" <$> vformat t fmt None args
  | String "*"%char fmt, Some sp =>
      match args with
      | a :: args =>
          match as_int t a with
          | Some n =>
              let sp' := match f_prec sp with
                         | Some _ => Spec (f_minus sp) (f_zero sp) (f_width sp) (Some n) (f_len sp)
                         | None => Spec (f_minus sp) (f_zero sp) (Some n) None (f_len sp)
                         end in
              vformat t fmt (Some sp') args
          | None => None
          end
      | [] => None
      end
  | String c fmt, Some sp =>
      match spec_step c sp with
      | Some sp' => vformat t fmt (Some sp') args
      | None =>
          match args with
          | a :: args =>
              match conv t c sp a, vformat t fmt None args with
              | Some s, Some s' => Some (s +:+ s')%stdpp
              | _, _ => None
              end
          | [] => None
          end
      end
  end.

(** The characters [printf(fmt, args...)] produces; [None] when the call has
    undefined behaviour (too few arguments, wrong kinds, unterminated string). *)
Definition sprintf (t : target) (fmt : string) (args : list arg) : option string :=
  vformat t (unescape fmt) None args.

(** * Wait statuses: the macros of [<sys/wait.h>] *)

Definition WUNTRACED : Z := 2.
Definition WCONTINUED : Z := 8.
Definition WEXITSTATUS (status : Z) : Z := Z.shiftr (Z.land status 0xff00) 8.
Definition WTERMSIG (status : Z) : Z := Z.land status 0x7f.
Definition WSTOPSIG (status : Z) : Z := WEXITSTATUS status.
Definition WIFEXITED (status : Z) : bool := WTERMSIG status =? 0.
Definition WIFSIGNALED (status : Z) : bool :=
  0 <? Z.shiftr (swrap 8 (Z.land status 0x7f + 1)) 1.
Definition WIFSTOPPED (status : Z) : bool := Z.land status 0xff =? 0x7f.
Definition WIFCONTINUED (status : Z) : bool := status =? 0xffff.

(** What a process did, as the kernel reports it to its parent. *)
Inductive wstatus :=
  | Exited (code : Z)
  | Signaled (sig : Z) (core : bool)
  | Stopped (sig : Z)
  | Continued.

(** The kernel's encoding of a status word. *)
Definition encode_status (w : wstatus) : Z :=
  match w with
  | Exited code => Z.shiftl (code mod 256) 8
  | Signaled sig core => sig + (if core then 128 else 0)
  | Stopped sig => Z.shiftl sig 8 + 0x7f
  | Continued => 0xffff
  end.

Definition wstatus_ok (w : wstatus) : Prop :=
  match w with
  | Exited code => 0 <= code < 256
  | Signaled sig _ => 1 <= sig <= 64
  | Stopped sig => 1 <= sig <= 64
  | Continued => True
  end.

Definition terminal (w : wstatus) : bool :=
  match w with Exited _ | Signaled _ _ => true | _ => false end.

(** * Byte order *)
Definition htons (t : target) (n : Z) : Z :=
  if big_endian t then n else 256 * (n mod 256) + n / 256.

(** * Integers in memory *)
Fixpoint le_bytes (n : nat) (z : Z) : list Z :=
  match n with O => [] | S n => z mod 256 :: le_bytes n (z / 256) end.

Fixpoint le_value (l : list Z) : Z :=
  match l with [] => 0 | b :: l => b + 256 * le_value l end.

(** The [n] bytes of an integer in the target's byte order, and back. *)
Definition int_bytes (t : target) (n : nat) (z : Z) : list Z :=
  if big_endian t then rev (le_bytes n z) else le_bytes n z.
Definition uint_value (t : target) (l : list Z) : Z :=
  le_value (if big_endian t then rev l else l).

Lemma length_le_bytes n z : length (le_bytes n z) = n.
Proof. revert z. induction n as [|n IH]; intros z; cbn; auto. Qed.

Lemma length_int_bytes t n z : length (int_bytes t n z) = n.
Proof. unfold int_bytes. case_match; rewrite ?length_rev; apply length_le_bytes. Qed.

Lemma le_value_bytes n z : le_value (le_bytes n z) = z mod 256 ^ Z.of_nat n.
Proof.
  revert z. induction n as [|n IH]; intros z; [by rewrite Z.mod_1_r|].
  cbn [le_bytes le_value]. rewrite IH, Nat2Z.inj_succ, Z.pow_succ_r by lia.
  rewrite (Z.rem_mul_r z 256 (256 ^ Z.of_nat n)); lia.
Qed.

(** What is stored is read back, in either byte order. *)
Lemma uint_value_bytes t n z : uint_value t (int_bytes t n z) = z mod 256 ^ Z.of_nat n.
Proof.
  unfold uint_value, int_bytes. destruct (big_endian t); rewrite ?rev_involutive;
    apply le_value_bytes.
Qed.

(** * [atoi] reads back what is printed in decimal *)
Section Decimal.
Lemma byte_of_ascii_of_N n : (n < 256)%N -> byte_of_ascii (ascii_of_N n) = Z.of_N n.
Proof. intros H. unfold byte_of_ascii. by rewrite N_ascii_embedding. Qed.

Lemma digit_value d : 0 <= d < 10 -> byte_of_ascii (digit d) = 48 + d.
Proof.
  intros H. unfold digit. destruct (Z.ltb_spec d 10); [|lia].
  rewrite byte_of_ascii_of_N; lia.
Qed.

Lemma is_digit_digit d : 0 <= d < 10 -> is_digit (digit d) = true.
Proof. intros H. unfold is_digit. rewrite digit_value by done. lia. Qed.

Lemma read_digits_digits fuel n acc a :
  0 <= n < 10 ^ Z.of_nat fuel -> (0 < fuel)%nat ->
  exists k, 0 <= k /\ n < 10 ^ k /\
    read_digits (digits fuel 10 n acc) a = read_digits acc (a * 10 ^ k + n).
Proof.
  revert n acc. induction fuel as [|fuel IH]; intros n acc Hn Hf; [lia|]. cbn [digits].
  pose proof (Z.mod_pos_bound n 10 ltac:(lia)) as Hm.
  pose proof (Z.div_mod n 10 ltac:(lia)) as Hdm.
  assert (Step : forall a0, read_digits (String (digit (n mod 10)) acc) a0
                          = read_digits acc (10 * a0 + n mod 10)).
  { intros a0. cbn. rewrite is_digit_digit, digit_value by done. f_equal. lia. }
  destruct (Z.eqb_spec (n / 10) 0) as [E|E].
  - exists 1. rewrite Step. split; [lia|]. split; [lia|]. f_equal. lia.
  - rewrite Nat2Z.inj_succ, Z.pow_succ_r in Hn by lia.
    assert (Hd : 0 <= n / 10 < 10 ^ Z.of_nat fuel).
    { split; [apply Z.div_pos; lia|apply Z.div_lt_upper_bound; lia]. }
    destruct fuel as [|fuel]; [cbn in Hd; lia|].
    destruct (IH (n / 10) (String (digit (n mod 10)) acc) Hd ltac:(lia)) as (k & Hk & Hlt & ->).
    exists (k + 1). rewrite Z.add_1_r, Z.pow_succ_r by lia.
    split; [lia|]. split; [lia|]. rewrite Step. f_equal. lia.
Qed.

Lemma show_nat_fuel n : 0 <= n -> n < 10 ^ Z.of_nat (S (Z.to_nat (Z.log2 n))).
Proof.
  intros Hn. pose proof (Z.log2_nonneg n).
  replace (Z.of_nat (S (Z.to_nat (Z.log2 n)))) with (Z.succ (Z.log2 n)) by lia.
  destruct (Z.eq_dec n 0) as [->|]; [cbn; lia|].
  pose proof (Z.log2_spec n ltac:(lia)).
  pose proof (Z.pow_le_mono_l 2 10 (Z.succ (Z.log2 n)) ltac:(lia)). lia.
Qed.

Lemma read_digits_show_nat n : 0 <= n -> read_digits (show_nat 10 n) 0 = n.
Proof.
  intros Hn. pose proof (show_nat_fuel n Hn).
  destruct (read_digits_digits (S (Z.to_nat (Z.log2 n))) n EmptyString 0)
    as (k & _ & _ & E); [lia|lia|].
  unfold show_nat. rewrite E. cbn [read_digits]. lia.
Qed.

(** The first character is a digit, never a blank or a sign. *)
Lemma digits_head fuel n acc :
  0 <= n -> (0 < fuel)%nat ->
  exists c s, digits fuel 10 n acc = String c s /\ is_digit c = true.
Proof.
  revert n acc. induction fuel as [|fuel IH]; intros n acc Hn Hf; [lia|]. cbn [digits].
  pose proof (Z.mod_pos_bound n 10 ltac:(lia)).
  destruct (n / 10 =? 0); [eauto using is_digit_digit|].
  destruct fuel as [|fuel]; [cbn; eauto using is_digit_digit|].
  apply IH; [apply Z.div_pos; lia|lia].
Qed.

Lemma strtol_digit_head t c s :
  is_digit c = true ->
  strtol t (String c s) =
  Z.max (- 2 ^ (long_bits t - 1)) (Z.min (2 ^ (long_bits t - 1) - 1) (read_digits (String c s) 0)).
Proof.
  intros Hc. unfold strtol.
  assert (Hs : is_space c = false).
  { revert Hc. unfold is_digit, is_space. cbn zeta. lia. }
  cbn [skip_spaces]. rewrite Hs.
  destruct c as [[] [] [] [] [] [] [] []]; try done; vm_compute in Hc; discriminate Hc.
Qed.

Lemma strtol_neg t s :
  strtol t (String "-" s) =
  Z.max (- 2 ^ (long_bits t - 1)) (Z.min (2 ^ (long_bits t - 1) - 1) (- read_digits s 0)).
Proof. done. Qed.

(** Round trip, on every target whose [long] holds an [int]. *)
Lemma atoi_show_int t z : 32 <= long_bits t -> is_int z -> atoi t (show_int z) = z.
Proof.
  intros Ht Hz.
  assert (Hp : 2 ^ 31 <= 2 ^ (long_bits t - 1)) by (apply Z.pow_le_mono_r; lia).
  assert (E : strtol t (show_int z) = z); [|by unfold atoi; rewrite E, to_int_id].
  unfold is_int, int_min, int_max in Hz. unfold show_int.
  destruct (Z.ltb_spec z 0).
  - rewrite strtol_neg, read_digits_show_nat by lia. lia.
  - destruct (digits_head (S (Z.to_nat (Z.log2 z))) z EmptyString) as (c & s & E & Hc);
      [lia|lia|].
    pose proof (read_digits_show_nat z ltac:(lia)) as R.
    unfold show_nat in R |- *. rewrite E in R |- *. rewrite strtol_digit_head, R by done. lia.
Qed.
End Decimal.

(** * Texts without NUL: what an array prints *)
Section Text.
Definition text_bytes (l : list Z) : Prop := Forall (fun b => 0 < b < 256) l.

Lemma bytes_app s1 s2 : bytes (s1 +:+ s2)%stdpp = bytes s1 ++ bytes s2.
Proof. induction s1 as [|c s1 IH]; cbn; [done|]. by rewrite <- IH. Qed.

Lemma length_bytes s : length (bytes s) = String.length s.
Proof. induction s as [|c s IH]; cbn; [done|]. by f_equal. Qed.

Lemma ascii_of_byte_of_ascii c : ascii_of_byte (byte_of_ascii c) = c.
Proof. by destruct c as [[] [] [] [] [] [] [] []]. Qed.

Lemma string_of_bytes_bytes s : string_of_bytes (bytes s) = s.
Proof. induction s as [|c s IH]; cbn; [done|]. by rewrite ascii_of_byte_of_ascii, IH. Qed.

(** A literal stored in an array is the C string the array holds. *)
Lemma cstr_bytes s r : text_bytes (bytes s) -> cstr (bytes s ++ 0 :: r) = Some s.
Proof.
  induction s as [|c s IH]; cbn; [done|]. intros [Hc Hs]%Forall_cons.
  destruct (Z.eqb_spec (byte_of_ascii c) 0); [lia|].
  by rewrite ascii_of_byte_of_ascii, IH.
Qed.

Lemma cstr_c_array s : text_bytes (bytes s) -> cstr (c_array s) = Some s.
Proof. apply cstr_bytes. Qed.

Lemma strlen_text l r : text_bytes l -> strlen (l ++ 0 :: r) = Some (Z.of_nat (length l)).
Proof.
  induction 1 as [|b l Hb Hl IH]; cbn; [done|].
  destruct (Z.eqb_spec b 0); [lia|]. rewrite IH. cbn. f_equal. lia.
Qed.

Lemma digits_bytes fuel n acc :
  0 <= n -> text_bytes (bytes acc) -> text_bytes (bytes (digits fuel 10 n acc)).
Proof.
  revert n acc. induction fuel as [|fuel IH]; intros n acc Hn Ha; cbn; [done|].
  pose proof (Z.mod_pos_bound n 10 ltac:(lia)).
  assert (text_bytes (bytes (String (digit (n mod 10)) acc))).
  { cbn. constructor; [rewrite digit_value; lia|done]. }
  case_match; [done|]. apply IH; [apply Z.div_pos; lia|done].
Qed.

Lemma show_int_bytes z : text_bytes (bytes (show_int z)).
Proof.
  unfold show_int, show_nat. case_match; cbn [bytes].
  - constructor; [done|]. apply digits_bytes; [lia|constructor].
  - apply digits_bytes; [lia|constructor].
Qed.

Lemma length_digits fuel base n acc :
  (String.length (digits fuel base n acc) <= fuel + String.length acc)%nat.
Proof.
  revert n acc. induction fuel as [|fuel IH]; intros n acc; cbn; [done|].
  case_match; cbn; [lia|]. etrans; [apply IH|]. cbn. lia.
Qed.

(** An [int] has at most 33 characters (in fact 11). *)
Lemma length_show_int z : is_int z -> (String.length (show_int z) <= 33)%nat.
Proof.
  intros Hz. unfold is_int, int_min, int_max in Hz.
  assert (Hl : forall n, 0 <= n <= 2 ^ 31 -> (String.length (show_nat 10 n) <= 32)%nat).
  { intros n Hn. unfold show_nat. etrans; [apply length_digits|]. cbn [String.length].
    assert (Z.log2 n <= Z.log2 (2 ^ 31)) by (apply Z.log2_le_mono; lia).
    rewrite Z.log2_pow2 in * by lia. lia. }
  unfold show_int. case_match; cbn; [apply le_n_S, Hl|etrans; [apply Hl|]]; lia.
Qed.

Lemma field_plain sign body : field spec0 sign body = (sign +:+ body)%stdpp.
Proof.
  unfold field, pad_to, repeat_char. cbn [f_minus f_zero f_width f_prec spec0 default].
  by rewrite !Z2Nat.nonpos by lia.
Qed.

(** [%d] of an [int] *)
Lemma conv_int_d t z : is_int z -> conv_int t "d" spec0 z = Some (show_int z).
Proof.
  intros Hz. cbn [conv_int spec_bits f_len spec0]. rewrite field_plain.
  change (swrap 32 z) with (to_int z).
  rewrite to_int_id by done. unfold show_int. case_match; [|by rewrite Z.abs_eq by lia].
  by rewrite Z.abs_neq by lia.
Qed.

Lemma conv_str_plain s : conv_str spec0 s = s.
Proof. unfold conv_str. cbn [f_prec f_minus f_width spec0]. apply field_plain. Qed.
End Text.
