(* ===== verification/Proc.v ===== *)
(** Processes as programs over system calls.

    A C function that interacts with the system is a value of [prog A]: a
    finite tree whose nodes are output operations on [stdout]/[stderr] and calls
    to the kernel (or to the thread library), each followed by what the code
    does with the answer.  The kernel is not part of the repository: it appears
    as the answers a run receives, quantified over in every theorem. *)

From S2P Require Export Libc.

Local Open Scope Z_scope.

(** * Operations *)

(** Operations on the standard streams: they need no answer. *)
Inductive out :=
  | OPrintf (fmt : string) (args : list arg)   (* printf to stdout *)
  | OFprintf (fmt : string) (args : list arg)  (* fprintf to stderr *)
  | OPerror (msg : string)
  | OFflush                                    (* fflush(stdout) *)
  | OSetbuf                                    (* setbuf(stdout, NULL) *)
  | OFree.                                     (* free(p) *)

(** Calls, with the arguments the code passes. *)
Inductive call :=
  (* processes *)
  | Fork | Clone (fn : string) (flags : Z) (data : option arg)
  | Waitpid (pid options : Z) | Wait | Kill (pid sig : Z)
  | Getpid | Getppid | Gettid | Getuid | Geteuid | Getgid | Getegid
  | Sleep (secs : Z) | Execve (path : string) (argv : list string) | System (cmd : string)
  (* threads and memory *)
  | PthreadCreate (fn : string) (arg : Z) | PthreadJoin (thread : Z)
  | PthreadSelf | Malloc (size : Z)
  (* files *)
  | Open (path : string) (flags mode : Z) | Openat (dirfd : Z) (path : string) (flags mode : Z)
  | Close (fd : Z) | Read (fd count : Z) | Write (fd : Z) (data : list Z)
  | Lseek (fd off whence : Z) | Pread (fd count off : Z) | Pwrite (fd : Z) (data : list Z) (off : Z)
  | Ftruncate (fd len : Z) | Truncate (path : string) (len : Z)
  | Dup (fd : Z) | Unlink (path : string) | Unlinkat (dirfd : Z) (path : string)
  | Rename (old new : string) | Mkstemp (template : string) | Fdopen (fd : Z) | Fclose (stream : Z)
  | Fputs (stream : Z) (data : string) | Fflush (stream : Z)
  | Access (path : string) (mode : Z) | Mkfifo (path : string) (mode : Z)
  | Chmod (path : string) (mode : Z) | Mkdir (path : string) (mode : Z)
  | Mount (from to : string) | Chroot (path : string) | Chdir (path : string)
  | Stat (path : string) | Fstat (fd : Z) | Lstat (path : string)
  | Ioctl (fd : Z) (request : string) (data : list Z)
  | Tcgetattr (fd : Z) | Getchar | Mmap (len fd off : Z) | Uname
  (* sockets *)
  | Socket (domain type : Z) | Socketpair | Bind (fd port : Z) | Listen (fd backlog : Z)
  | Accept (fd : Z) | Connect (fd port : Z) | Getpeername (fd : Z) | InetPton (text : string)
  | Send (fd : Z) (data : list Z) | Poll (events : list Z) (timeout : Z)
  | Sendmsg (fd : Z) (name : list Z) (iov : list (list Z)) | Recvmsg (fd : Z) (iov_lens : list Z)
  | Sendmmsg (fd : Z) (msgs : list (list (list Z))) | Recvmmsg (fd : Z) (iov_lens : list Z)
  (* System V IPC *)
  | Shmget (key size flags : Z) | Shmat (id : Z) | Shmdt (addr : Z) | Shmctl (id cmd : Z)
  | Semget (key num flags : Z) | SemSetval (id num val : Z) | SemRmid (id : Z)
  | Semop (id : Z) (ops : list (Z * Z * Z))
  | Ftok (path : string) (proj : Z) | Msgget (key flags : Z)
  | Msgsnd (id type : Z) (text : list Z) | Msgrcv (id size type : Z) | MsgRmid (id : Z)
  (* vectored I/O *)
  | Pipe | Writev (fd : Z) (iov : list (list Z)) | Readv (fd : Z) (iov_lens : list Z)
  | Pwritev (fd : Z) (iov : list (list Z)) (off : Z) | Preadv (fd : Z) (iov_lens : list Z) (off : Z)
  | Vmsplice (fd : Z) (iov : list (list Z))
  | ProcessVmReadv (pid : Z) (local_lens : list Z) (remote : list (list Z))
  | ProcessVmWritev (pid : Z) (data remote : list (list Z))
  (* clocks and raw system calls *)
  | ClockGettime (clock : Z) | ClockGetres (clock : Z)
  | TimerfdCreate (clock : Z) | TimerCreate (clock : Z) | TimerDelete (timer : Z)
  | Syscall (name : string) (args : list Z)
  (* memory shared with other processes or threads *)
  | ShLoad (off len : Z) | ShStore (off : Z) (data : list Z)
  | AtomicCas (expected desired : Z) | AtomicLoad | AtomicStore (val : Z)
  | FutexWait (val : Z) | FutexWake (n : Z).

(** An answer: the return value, [errno] after a failure, and what the call
    stored through its pointer arguments (one list per object written). *)
Record ans := Ans { a_ret : Z; a_errno : Z; a_out : list (list Z) }.

Definition ret_ans (z : Z) : ans := Ans z 0 [].
Definition err_ans (e : Z) : ans := Ans (-1) e [].

(** The [i]-th object written, and its first integer. *)
Definition out_obj (a : ans) (i : nat) : list Z := default [] (a_out a !! i).
Definition out_int (a : ans) : Z := default 0 (head (out_obj a 0)).

(** How a process or a thread ends other than by returning. *)
Inductive stop :=
  | Exit (code : Z)                 (* exit(code) *)
  | PthreadExit (value : option Z)  (* pthread_exit: the int pointed to, or NULL *)
  | Execed                          (* the process image was replaced *)
  | Aborted                         (* an assertion failed *)
  | Ub                              (* undefined behaviour *)
  | Fuel.                           (* a loop ran out of fuel: see [enough] *)

(** * Programs *)
Inductive prog (A : Type) : Type :=
  | Ret (a : A)
  | Halt (s : stop)
  | Emit (o : out) (p : prog A)
  | Vis (c : call) (k : ans -> prog A).
Arguments Ret {A} a.
Arguments Halt {A} s.
Arguments Emit {A} o p.
Arguments Vis {A} c k.

Fixpoint pbind {A B} (p : prog A) (f : A -> prog B) : prog B :=
  match p with
  | Ret a => f a
  | Halt s => Halt s
  | Emit o p => Emit o (pbind p f)
  | Vis c k => Vis c (fun a => pbind (k a) f)
  end.

Declare Scope prog_scope.
Delimit Scope prog_scope with prog.
Bind Scope prog_scope with prog.
Notation "x <- p ;; q" := (pbind p (fun x => q))
  (at level 100, p at next level, right associativity) : prog_scope.
Notation "p ;;; q" := (pbind p (fun _ => q)) (at level 100, right associativity) : prog_scope.
Open Scope prog_scope.

Definition sys (c : call) : prog ans := Vis c Ret.
Definition sysr (c : call) : prog Z := Vis c (fun a => Ret (a_ret a)).
Definition emit (o : out) : prog unit := Emit o (Ret tt).
Definition printf (fmt : string) (args : list arg) : prog unit := emit (OPrintf fmt args).
Definition perror (msg : string) : prog unit := emit (OPerror msg).
Definition fflush : prog unit := emit OFflush.
Definition exit {A} (code : Z) : prog A := Halt (Exit code).
Definition skip : prog unit := Ret tt.

(** A partial operation: undefined behaviour when it has no result. *)
Definition get {A} (o : option A) : prog A :=
  match o with Some a => Ret a | None => Halt Ub end.

Definition when (b : bool) (p : prog unit) : prog unit := if b then p else skip.

(** [execve] returns only to report a failure. *)
Definition execve (path : string) (argv : list string) : prog Z :=
  r <- sysr (Execve path argv) ;;
  if r =? -1 then Ret r else Halt Execed.

(** [argv[i]]; reading [argv[argc]] or further is not used by the models
    except where noted, and is undefined here. *)
Definition argn (argv : list string) (i : nat) : prog string := get (argv !! i).
Definition argc (argv : list string) : Z := Z.of_nat (length argv).

(** [for (i = lo; i < hi; i++)] threading the mutable variables [s]. *)
Fixpoint for_n {S} (n : nat) (i : Z) (s : S) (body : Z -> S -> prog S) : prog S :=
  match n with
  | O => Ret s
  | Datatypes.S n => s' <- body i s ;; for_n n (i + 1) s' body
  end.
Definition for_ {S} (lo hi : Z) (s : S) (body : Z -> S -> prog S) : prog S :=
  for_n (Z.to_nat (hi - lo)) lo s body.

(** A loop left by [inr]; [fuel] bounds the iterations, see [enough_loop]. *)
Fixpoint loop {S A} (fuel : nat) (s : S) (body : S -> prog (S + A)) : prog A :=
  match fuel with
  | O => Halt Fuel
  | Datatypes.S fuel =>
      r <- body s ;;
      match r with inl s' => loop fuel s' body | inr a => Ret a end
  end.

(** * Runs

    A run consumes the answers of a script; it is [Blocked] in the call for
    which the script has no answer.  Every finite observation of a process is a
    run of some script. *)
Inductive ev := EOut (o : out) | ECall (c : call) (a : ans).
Inductive res (A : Type) := Done (a : A) | Halted (s : stop) | Blocked (c : call).
Arguments Done {A} a.
Arguments Halted {A} s.
Arguments Blocked {A} c.

Fixpoint run {A} (p : prog A) (sc : list ans) : list ev * res A * list ans :=
  match p with
  | Ret a => ([], Done a, sc)
  | Halt s => ([], Halted s, sc)
  | Emit o p => let '(t, r, sc') := run p sc in (EOut o :: t, r, sc')
  | Vis c k =>
      match sc with
      | [] => ([], Blocked c, [])
      | a :: sc => let '(t, r, sc') := run (k a) sc in (ECall c a :: t, r, sc')
      end
  end.

Definition trace {A} (p : prog A) (sc : list ans) : list ev := (run p sc).1.1.
Definition result {A} (p : prog A) (sc : list ans) : res A := (run p sc).1.2.

(** What a process prints: the events that are output. *)
Definition printed (t : list ev) : list (string * list arg) :=
  omap (fun e => if e is EOut (OPrintf f l) then Some (f, l) else None) t.

Fixpoint concat_opt (l : list (option string)) : option string :=
  match l with
  | [] => Some EmptyString
  | o :: l => match o, concat_opt l with
              | Some s, Some s' => Some (s +:+ s')%stdpp
              | _, _ => None
              end
  end.

(** The text printed on [stdout] over a trace. *)
Definition stdout_text (t : target) (tr : list ev) : option string :=
  concat_opt ((fun fl => sprintf t fl.1 fl.2) <$> printed tr).

(** The calls made, with their answers. *)
Definition calls (t : list ev) : list (call * ans) :=
  omap (fun e => if e is ECall c a then Some (c, a) else None) t.
