(* ===== verification/Logic.v ===== *)
(** Reasoning about programs: how runs compose, when fuel is enough, and a
    Hoare-style logic in which a monitor follows the events of a run. *)

From S2P Require Export Proc.

Local Open Scope Z_scope.

(** * Runs compose *)
Section Runs.
Context {A B : Type}.

Lemma run_bind (p : prog A) (f : A -> prog B) sc :
  run (pbind p f) sc =
  let '(t, r, sc') := run p sc in
  match r with
  | Done a => let '(t2, r2, sc2) := run (f a) sc' in (t ++ t2, r2, sc2)
  | Halted s => (t, Halted s, sc')
  | Blocked c => (t, Blocked c, sc')
  end.
Proof.
  revert sc. induction p as [a|s|o p IH|c k IH]; intros sc; cbn.
  - destruct (run (f a) sc) as [[??]?]. done.
  - done.
  - rewrite IH. destruct (run p sc) as [[? [a|?|?]] ?]; try done.
    destruct (run (f a) _) as [[??]?]. done.
  - destruct sc as [|a sc]; [done|]. rewrite IH.
    destruct (run (k a) sc) as [[? [a'|?|?]] ?]; try done.
    destruct (run (f a') _) as [[??]?]. done.
Qed.

Lemma run_eta (p : prog A) sc : run p sc = (trace p sc, result p sc, (run p sc).2).
Proof. unfold trace, result. by destruct (run p sc) as [[??]?]. Qed.

Lemma run_length (p : prog A) sc t r sc' :
  run p sc = (t, r, sc') -> (length sc' <= length sc)%nat.
Proof.
  revert sc t r. induction p as [a|s|o p IH|c k IH]; intros sc t r; cbn.
  - naive_solver.
  - naive_solver.
  - destruct (run p sc) as [[??]?] eqn:E. intros [= <- <- <-]. eauto.
  - destruct sc as [|a sc]; [naive_solver|].
    destruct (run (k a) sc) as [[??]?] eqn:E. intros [= <- <- <-]. cbn.
    apply IH in E. lia.
Qed.

(** A run of [p] whose script grows continues the shorter run: what a process
    has done does not depend on answers it has not received. *)
Lemma run_app (p : prog A) sc1 sc2 t r sc' :
  run p sc1 = (t, r, sc') ->
  match r with
  | Blocked c => exists t2, trace p (sc1 ++ sc2) = t ++ t2
  | _ => run p (sc1 ++ sc2) = (t, r, sc' ++ sc2)
  end.
Proof.
  revert sc1 t r sc'. unfold trace.
  induction p as [a|s|o p IH|c k IH]; intros sc1 t r sc'; cbn.
  - intros [= <- <- <-]. done.
  - intros [= <- <- <-]. done.
  - destruct (run p sc1) as [[t1 r1] sc1'] eqn:E. intros [= <- <- <-].
    apply IH in E. destruct r1; cbn.
    1, 2: by rewrite E.
    destruct E as [t2 E]. destruct (run p (sc1 ++ sc2)) as [[??]?]. cbn in *.
    exists t2. by subst.
  - destruct sc1 as [|a sc1]; cbn.
    { intros [= <- <- <-]. eauto. }
    destruct (run (k a) sc1) as [[t1 r1] sc1'] eqn:E. intros [= <- <- <-].
    apply IH in E. destruct r1; cbn.
    1, 2: by rewrite E.
    destruct E as [t2 E]. destruct (run (k a) (sc1 ++ sc2)) as [[??]?]. cbn in *.
    exists t2. by subst.
Qed.
End Runs.

(** * Fuel

    [enough p] : whatever the script, fuel above its length never runs out, so
    every run of [p n] is a genuine observation of the C loop. *)
Definition enough {A} (p : nat -> prog A) : Prop :=
  forall n sc, (length sc < n)%nat -> result (p n) sc <> Halted Fuel.

(** [consumes P p] : a run of [p] that returns a value in [P] uses an answer. *)
Definition consumes {A} (P : A -> Prop) (p : prog A) : Prop :=
  forall sc t a sc', run p sc = (t, Done a, sc') -> P a -> (length sc' < length sc)%nat.

Section Fuel.
Lemma enough_ret {A} (a : A) : enough (fun _ => Ret a).
Proof. intros n sc _ [=]. Qed.

Lemma enough_halt {A} s : s <> Fuel -> enough (A:=A) (fun _ => Halt s).
Proof. intros Hs n sc _ [= E]. done. Qed.

Lemma enough_emit {A} o (p : nat -> prog A) : enough p -> enough (fun n => Emit o (p n)).
Proof.
  intros H n sc Hn. specialize (H n sc Hn). unfold result in *. cbn.
  by destruct (run (p n) sc) as [[??]?].
Qed.

Lemma enough_vis {A} c (k : nat -> ans -> prog A) :
  (forall a, enough (fun n => k n a)) -> enough (fun n => Vis c (k n)).
Proof.
  intros H n [|a sc] Hn; unfold result; cbn; [done|].
  specialize (H a n sc). unfold result in H. cbn in Hn.
  destruct (run (k n a) sc) as [[??]?]; cbn in *. apply H. lia.
Qed.

Lemma enough_bind {A B} (p : nat -> prog A) (f : nat -> A -> prog B) :
  enough p -> (forall a, enough (fun n => f n a)) -> enough (fun n => pbind (p n) (f n)).
Proof.
  intros Hp Hf n sc Hn. specialize (Hp n sc Hn). unfold result in *.
  rewrite run_bind. destruct (run (p n) sc) as [[t [a|s|c]] sc'] eqn:E; cbn in *; [|congruence|done].
  apply run_length in E. specialize (Hf a n sc' ltac:(lia)). unfold result in Hf.
  by destruct (run (f n a) sc') as [[??]?].
Qed.

Lemma enough_if {A} (b : bool) (p q : nat -> prog A) :
  enough p -> enough q -> enough (fun n => if b then p n else q n).
Proof. by destruct b. Qed.

Lemma enough_when (b : bool) p : enough (fun n => p n) -> enough (fun n => when b (p n)).
Proof. intros. unfold when. apply enough_if; [done|apply enough_ret]. Qed.

Lemma enough_get {A} (o : option A) : enough (fun _ => get o).
Proof. destruct o; cbn; [apply enough_ret|by apply enough_halt]. Qed.

Lemma enough_for {S} m (body : nat -> Z -> S -> prog S) :
  (forall i s, enough (fun n => body n i s)) ->
  forall i s, enough (fun n => for_n m i s (body n)).
Proof.
  intros H. induction m as [|m IH]; intros i s; cbn; [apply enough_ret|].
  apply enough_bind; [apply H|]. intros s'. apply IH.
Qed.

Lemma enough_loop {S A} (body : nat -> S -> prog (S + A)) :
  (forall s, enough (fun n => body n s)) ->
  (forall n s, consumes (fun r => exists s', r = inl s') (body n s)) ->
  forall s, enough (fun n => loop n s (body n)).
Proof.
  intros Hb Hc.
  assert (H : forall m n sc s, (length sc < n)%nat -> (length sc < m)%nat ->
            result (loop m s (body n)) sc <> Halted Fuel).
  { induction m as [|m IH]; intros n sc s Hn Hm; [lia|]. cbn.
    specialize (Hb s n sc Hn). unfold result in *. rewrite run_bind.
    destruct (run (body n s) sc) as [[t [r|s'|c]] sc'] eqn:E; cbn in *; [|congruence|done].
    destruct r as [s'|a]; [|done].
    pose proof (Hc n s _ _ _ _ E (ex_intro _ s' eq_refl)).
    specialize (IH n sc' s' ltac:(lia) ltac:(lia)).
    by destruct (run (loop m s' (body n)) sc') as [[??]?]. }
  intros s n sc Hn. by apply H.
Qed.

Lemma consumes_vis {A} P c (k : ans -> prog A) : consumes P (Vis c k).
Proof.
  intros [|a sc] t x sc'; cbn; [done|].
  destruct (run (k a) sc) as [[??]?] eqn:E. intros [= <- -> ->] _.
  apply run_length in E. lia.
Qed.

Lemma consumes_emit {A} P o (p : prog A) : consumes P p -> consumes P (Emit o p).
Proof.
  intros H sc t x sc'. cbn. destruct (run p sc) as [[??]?] eqn:E.
  intros [= <- -> ->]. eauto.
Qed.

Lemma consumes_ret {A} (P : A -> Prop) a : ~ P a -> consumes P (Ret a).
Proof. intros H sc t x sc' [= <- <- <-]. done. Qed.

Lemma consumes_halt {A} (P : A -> Prop) s : consumes P (Halt s).
Proof. intros sc t x sc' [=]. Qed.

Lemma consumes_bind_r {A B} P (p : prog A) (f : A -> prog B) :
  (forall a, consumes P (f a)) -> consumes P (pbind p f).
Proof.
  intros H sc t x sc'. rewrite run_bind.
  destruct (run p sc) as [[t1 [a|?|?]] sc1] eqn:E; [|done|done].
  destruct (run (f a) sc1) as [[??]?] eqn:E2. intros [= <- -> ->] HP.
  apply run_length in E. specialize (H a _ _ _ _ E2 HP). lia.
Qed.

Lemma consumes_bind_l {A B} P (p : prog A) (f : A -> prog B) :
  consumes (fun _ => True) p -> consumes P (pbind p f).
Proof.
  intros H sc t x sc'. rewrite run_bind.
  destruct (run p sc) as [[t1 [a|?|?]] sc1] eqn:E; [|done|done].
  destruct (run (f a) sc1) as [[??]?] eqn:E2. intros [= <- -> ->] HP.
  specialize (H _ _ _ _ E I). apply run_length in E2. lia.
Qed.
End Fuel.

(** * A monitor logic

    [wp p s Q H] : every run of [p] that starts with the monitor in state [s]
    takes only allowed steps; it returns values in [Q] and halts in [H], both
    with the monitor's final state.  [sat] is what the code may rely on in the
    kernel's answers. *)
Section Monitor.
Context {M : Type} (step : M -> ev -> M) (ok : M -> ev -> Prop) (sat : call -> ans -> Prop).

Fixpoint wp {A} (p : prog A) (s : M) (Q : M -> A -> Prop) (H : M -> stop -> Prop) : Prop :=
  match p with
  | Ret a => Q s a
  | Halt h => H s h
  | Emit o p => ok s (EOut o) /\ wp p (step s (EOut o)) Q H
  | Vis c k => forall a, sat c a ->
      ok s (ECall c a) /\ wp (k a) (step s (ECall c a)) Q H
  end.

Fixpoint accepts (s : M) (t : list ev) : Prop :=
  match t with
  | [] => True
  | e :: t => ok s e /\ accepts (step s e) t
  end.

Definition ev_sat (e : ev) : Prop := match e with ECall c a => sat c a | EOut _ => True end.

Definition final (s : M) (t : list ev) : M := foldl step s t.

Lemma accepts_app s t1 t2 : accepts s (t1 ++ t2) <-> accepts s t1 /\ accepts (final s t1) t2.
Proof.
  revert s. induction t1 as [|e t1 IH]; intros s; cbn; [tauto|].
  rewrite IH. tauto.
Qed.

Theorem wp_sound {A} (p : prog A) s Q H sc t r sc' :
  wp p s Q H -> run p sc = (t, r, sc') -> Forall ev_sat t ->
  accepts s t /\
  match r with
  | Done a => Q (final s t) a
  | Halted h => H (final s t) h
  | Blocked _ => True
  end.
Proof.
  revert s sc t r. induction p as [a|h|o p IH|c k IH]; intros s sc t r; cbn.
  - intros HQ [= <- <- <-] _. done.
  - intros HH [= <- <- <-] _. done.
  - intros [Ho Hw]. destruct (run p sc) as [[??]?] eqn:E. intros [= <- <- <-] Hs.
    inversion Hs; subst. destruct (IH _ _ _ _ Hw E) as [??]; [done|]. done.
  - intros Hw. destruct sc as [|a sc].
    { intros [= <- <- <-] _. done. }
    destruct (run (k a) sc) as [[??]?] eqn:E. intros [= <- <- <-] Hs.
    inversion Hs; subst. destruct (Hw a) as [Ho Hw']; [done|].
    destruct (IH _ _ _ _ _ Hw' E) as [??]; done.
Qed.

Lemma wp_mono {A} (p : prog A) s (Q Q' : M -> A -> Prop) (H H' : M -> stop -> Prop) :
  (forall s a, Q s a -> Q' s a) -> (forall s h, H s h -> H' s h) ->
  wp p s Q H -> wp p s Q' H'.
Proof.
  intros HQ HH. revert s. induction p as [a|h|o p IH|c k IH]; intros s; cbn; [auto|auto| |].
  - intros [? ?]. auto.
  - intros Hw a Ha. destruct (Hw a Ha). auto.
Qed.

Lemma wp_bind {A B} (p : prog A) (f : A -> prog B) s Q H :
  wp (pbind p f) s Q H <-> wp p s (fun s a => wp (f a) s Q H) H.
Proof.
  revert s. induction p as [a|h|o p IH|c k IH]; intros s; cbn; try done.
  - by rewrite IH.
  - split; intros Hw a Ha; (split; [apply (Hw a Ha)|]); apply IH, Hw, Ha.
Qed.

Lemma wp_bind_intro {A B} (R : M -> A -> Prop) (p : prog A) (f : A -> prog B) s Q H :
  wp p s R H -> (forall s a, R s a -> wp (f a) s Q H) -> wp (pbind p f) s Q H.
Proof. intros Hp Hf. apply wp_bind. eapply wp_mono; [apply Hf| |apply Hp]. done. Qed.

Lemma wp_for {S} (I : Z -> M -> S -> Prop) (lo hi : Z) (x : S) body s Q H :
  I lo s x ->
  (forall i s x, lo <= i < hi -> I i s x ->
     wp (body i x) s (fun s x => I (i + 1) s x) H) ->
  (forall s x, I (Z.max lo hi) s x -> Q s x) ->
  wp (for_ lo hi x body) s Q H.
Proof.
  intros Hlo Hbody Hend. unfold for_.
  assert (G : forall n i s x, i = Z.max lo hi - Z.of_nat n -> lo <= i -> I i s x ->
            wp (for_n n i x body) s Q H).
  { induction n as [|n IH]; intros i s' x' Hi Hl HI; cbn.
    - apply Hend. by replace (Z.max lo hi) with i by lia.
    - apply (wp_bind_intro (fun s x => I (i + 1) s x)); [apply Hbody; [lia|done]|].
      intros s2 x2 H2. apply IH; [lia|lia|done]. }
  apply G; [lia|lia|done].
Qed.

Lemma wp_loop {S A} (I : M -> S -> Prop) fuel (x : S) (body : S -> prog (S + A)) s Q H :
  I s x ->
  (forall s x, I s x -> H s Fuel) ->
  (forall s x, I s x -> wp (body x) s
     (fun s r => match r with inl x => I s x | inr a => Q s a end) H) ->
  wp (loop fuel x body) s Q H.
Proof.
  intros HI HF Hb. revert s x HI. induction fuel as [|n IH]; intros s x HI; cbn; [eauto|].
  eapply wp_bind_intro; [by apply Hb|]. intros s' [x'|a] Hr; cbn; auto.
Qed.
End Monitor.

(** ** The logic whose monitor records the trace: functional specifications *)
Definition record (t : list ev) (e : ev) : list ev := t ++ [e].
Definition wp_trace (sat : call -> ans -> Prop) {A} (p : prog A) (t : list ev)
  (Q : list ev -> A -> Prop) (H : list ev -> stop -> Prop) : Prop :=
  wp record (fun _ _ => True) sat p t Q H.

Lemma final_record t0 t : final record t0 t = t0 ++ t.
Proof.
  revert t0. induction t as [|e t IH]; intros t0; cbn; [by rewrite app_nil_r|].
  unfold final in IH. rewrite IH. unfold record. by rewrite <- app_assoc.
Qed.

Lemma printed_app t1 t2 : printed (t1 ++ t2) = printed t1 ++ printed t2.
Proof. apply omap_app. Qed.

Lemma calls_app t1 t2 : calls (t1 ++ t2) = calls t1 ++ calls t2.
Proof. apply omap_app. Qed.

(** Sequencing runs whose lines and calls are known. *)
Definition runs_to {A} (p : prog A) (sc : list ans) (a : A) (lines : list (string * list arg))
    (cs : list (call * ans)) (sc' : list ans) : Prop :=
  exists t, run p sc = (t, Done a, sc') /\ printed t = lines /\ calls t = cs.

Lemma runs_bind {A B} (p : prog A) (f : A -> prog B) sc a l c sc1 b l' c' sc2 :
  runs_to p sc a l c sc1 -> runs_to (f a) sc1 b l' c' sc2 ->
  runs_to (pbind p f) sc b (l ++ l') (c ++ c') sc2.
Proof.
  intros (t & E & <- & <-) (t' & E' & <- & <-). exists (t ++ t'). rewrite run_bind, E, E'.
  split; [done|]. by rewrite printed_app, calls_app.
Qed.

Lemma runs_emit f l sc : runs_to (printf f l) sc tt [(f, l)] [] sc.
Proof. by eexists. Qed.

Lemma runs_flush sc : runs_to fflush sc tt [] [] sc.
Proof. by eexists. Qed.

(** A loop over the arguments of a program that prints a line for each. *)
Lemma run_for_argv (line : Z -> string -> string * list arg) name args sc :
  runs_to (for_ 1 (argc (name :: args)) tt (fun i _ =>
      a <- argn (name :: args) (Z.to_nat i) ;; printf (line i a).1 (line i a).2)) sc tt
    (imap (fun i => line (Z.of_nat (S i))) args) [] sc.
Proof.
  assert (Hfor : forall pre (suf : list string), exists t,
    run (for_n (length suf) (Z.of_nat (length pre)) tt (fun i _ =>
           a <- argn (pre ++ suf) (Z.to_nat i) ;; printf (line i a).1 (line i a).2)) sc =
      (t, Done tt, sc) /\
    printed t = imap (fun i => line (Z.of_nat (length pre + i))) suf /\ calls t = []).
  { intros pre suf. revert pre. induction suf as [|a suf IH]; intros pre; [by exists []|].
    cbn [length for_n]. unfold argn at 1. rewrite Nat2Z.id, list_lookup_middle by done.
    destruct (IH (pre ++ [a])) as (t & E & Hp & Hc).
    rewrite length_app, <- app_assoc, Nat2Z.inj_add in E. cbn -[argn] in E |- *.
    change (Z.of_nat 1) with 1%Z in E. rewrite E.
    eexists. split; [reflexivity|]. cbn. split; [|done].
    unfold printed in Hp. rewrite Hp, Nat.add_0_r. destruct (line (Z.of_nat (length pre)) a).
    f_equal. apply imap_ext. intros i x _. cbn. rewrite length_app. cbn.
    by replace (length pre + 1 + i)%nat with (length pre + S i)%nat by lia. }
  destruct (Hfor [name] args) as (t & E & H). exists t. split; [|exact H].
  unfold for_. replace (Z.to_nat (argc (name :: args) - 1)) with (length args) by (unfold argc; cbn; lia).
  exact E.
Qed.

(** * Automation *)

(** The definition a program is a call of. *)
Ltac head_of p := match p with ?f _ => head_of f | _ => p end.

(** Discharge [enough] for programs built from the combinators. *)
Ltac enough_tac :=
  repeat first
    [ apply enough_ret | apply enough_get | apply enough_emit; [] | apply enough_vis; intros
    | (apply enough_halt; discriminate)
    | apply enough_bind; [|intros]
    | apply enough_if | apply enough_when
    | apply enough_for; intros ].

Ltac consumes_tac :=
  repeat first
    [ apply consumes_vis | apply consumes_emit | apply consumes_halt
    | (apply consumes_bind_l; solve [consumes_tac])
    | (apply consumes_bind_r; intros) ].

Lemma Forall_True {A} (P : A -> Prop) (l : list A) : (forall x, P x) -> Forall P l.
Proof. intros H. induction l; auto. Qed.

Lemma ev_sat_any (t : list ev) : Forall (ev_sat (fun _ _ => True)) t.
Proof. apply Forall_True. by intros []. Qed.
