(* ===== verification/Stdio.v ===== *)
(** The buffer of [stdout] across [fork].

    [stdout] is fully buffered when it is redirected, line buffered on a
    terminal, unbuffered after [setbuf(stdout, NULL)].  [fork] copies the
    buffer, so text that was printed and not flushed is written by the parent
    and by the child. *)

From S2P Require Export Logic.

(** How the C library buffers [stdout] when the program starts. *)
Inductive mode := Unbuffered | LineBuffered | FullyBuffered.

Notation text := (string * list arg)%type.

(** [done] is what this process has written, [buf] what its buffer holds. *)
Record stdio := Stdio { sm : mode; buf : list text; written : list text }.

(** A format that ends in a newline empties a line buffer. *)
Fixpoint ends_nl (s : string) : bool :=
  match s with
  | EmptyString => false
  | String "\" (String "n" EmptyString) => true
  | String _ s => ends_nl s
  end.

Definition flush_all (s : stdio) : stdio := Stdio (sm s) [] (written s ++ buf s).

Definition stdio_step (s : stdio) (e : ev) : stdio :=
  match e with
  | EOut (OPrintf f l) =>
      let s' := Stdio (sm s) (buf s ++ [(f, l)]) (written s) in
      match sm s with
      | Unbuffered => flush_all s'
      | LineBuffered => if ends_nl f then flush_all s' else s'
      | FullyBuffered => s'
      end
  | EOut OFflush => flush_all s
  | EOut OSetbuf => Stdio Unbuffered (buf s) (written s)
  (* in the child: the copy of the buffer, none of the parent's writes *)
  | ECall Fork a => if (a_ret a =? 0)%Z then Stdio (sm s) (buf s) [] else s
  | _ => s
  end.

(** What the process that saw the trace [t] writes to its standard output,
    when it ends by [exit] (which flushes). *)
Definition own_output (m : mode) (t : list ev) : list text :=
  written (flush_all (foldl stdio_step (Stdio m [] []) t)).

(** What it printed itself: since the last [fork] it returned from as a child. *)
Definition own_step (l : list text) (e : ev) : list text :=
  match e with
  | EOut (OPrintf f a) => l ++ [(f, a)]
  | ECall Fork a => if (a_ret a =? 0)%Z then [] else l
  | _ => l
  end.
Definition own_printed (t : list ev) : list text := foldl own_step [] t.

(** ** The flushing discipline: no unflushed text at a [fork] *)
Definition dirty_step (d : bool) (e : ev) : bool :=
  match e with
  | EOut (OPrintf _ _) => true
  | EOut OFflush => false
  | _ => d
  end.
Definition dirty_ok (d : bool) (e : ev) : Prop :=
  match e with ECall Fork _ => d = false | _ => True end.

Definition flush_safe (t : list ev) : Prop := accepts dirty_step dirty_ok false t.

Section Discipline.
(** Invariant: written and buffered text together are the text printed, and
    the buffer is empty while the monitor is clean. *)
Definition stdio_inv (d : bool) (s : stdio) (own : list text) : Prop :=
  written s ++ buf s = own /\ (d = false -> buf s = []).

Lemma stdio_inv_step d s own e :
  stdio_inv d s own -> dirty_ok d e ->
  stdio_inv (dirty_step d e) (stdio_step s e) (own_step own e).
Proof.
  intros [<- Hb] Hok. destruct s as [m b w]; cbn in *.
  destruct e as [[]|[] a]; cbn in *;
    try (split; cbn; [by rewrite ?app_nil_r|naive_solver]).
  - destruct m; [| case_match |]; split; cbn;
      rewrite ?app_nil_r, <- ?app_assoc; naive_solver.
  - rewrite (Hb Hok) in *. destruct (a_ret a =? 0)%Z; split; cbn; auto.
Qed.

Lemma stdio_inv_run d s own t :
  stdio_inv d s own -> accepts dirty_step dirty_ok d t ->
  exists d', stdio_inv d' (foldl stdio_step s t) (foldl own_step own t).
Proof.
  revert d s own. induction t as [|e t IH]; intros d s own Hi; cbn; [eauto|].
  intros [Hok Ht]. eapply IH; [|done]. by apply stdio_inv_step.
Qed.

(** Under the discipline every process writes exactly what it printed,
    whatever the buffering: nothing is duplicated or lost. *)
Lemma flush_safe_own_output m t :
  flush_safe t -> own_output m t = own_printed t.
Proof.
  intros Ht. destruct (stdio_inv_run false (Stdio m [] []) [] t) as [d [H _]].
  - split; auto.
  - done.
  - unfold own_output, flush_all. cbn. done.
Qed.
End Discipline.

(** The discipline as a property of programs, for the logic's rules. *)
Definition clean {A} (p : prog A) (d : bool) (Q : bool -> A -> Prop) : Prop :=
  wp dirty_step dirty_ok (fun _ _ => True) p d Q (fun _ _ => True).

Lemma clean_flush_safe {A} (p : prog A) Q sc :
  clean p false Q -> flush_safe (trace p sc).
Proof.
  intros H. unfold trace. destruct (run p sc) as [[t r] sc'] eqn:E.
  eapply wp_sound in E; [|done|apply ev_sat_any]. apply E.
Qed.
