(* ===== verification/Family.v ===== *)
(** The processes a program forks.

    [fork] returns twice: the same continuation goes on with the child's pid in
    the parent and with 0 in the child, each with its own copy of the program's
    memory.  [family] runs every process a program gives rise to, answering the
    other calls by a policy. *)

From S2P Require Export Logic.

Local Open Scope Z_scope.

Notation proc_run A := (list ev * res A)%type.

Definition add_ev {A} (e : ev) (r : proc_run A) : proc_run A := (e :: r.1, r.2).

Section Family.
(** [pid] is the answer of [fork] in the parent. *)
Context (pol : call -> ans) (pid : Z).

Fixpoint family {A} (p : prog A) : list (proc_run A) :=
  match p with
  | Ret a => [([], Done a)]
  | Halt s => [([], Halted s)]
  | Emit o p => add_ev (EOut o) <$> family p
  | Vis c k =>
      match c with
      | Fork => (add_ev (ECall Fork (ret_ans pid)) <$> family (k (ret_ans pid)))
             ++ (add_ev (ECall Fork (ret_ans 0)) <$> family (k (ret_ans 0)))
      | c => add_ev (ECall c (pol c)) <$> family (k (pol c))
      end
  end.

(** The processes that go on after [p] with [f]. *)
Definition continue {A B} (f : A -> prog B) (r : proc_run A) : list (proc_run B) :=
  match r.2 with
  | Done a => (fun r2 : proc_run B => (r.1 ++ r2.1, r2.2)) <$> family (f a)
  | Halted s => [(r.1, Halted s)]
  | Blocked c => [(r.1, Blocked c)]
  end.

Lemma continue_add {A B} (f : A -> prog B) e r :
  continue f (add_ev e r) = add_ev e <$> continue f r.
Proof.
  destruct r as [t []]; cbn; try done. by rewrite <- list_fmap_compose.
Qed.

Lemma continue_add_all {A B} (f : A -> prog B) e (l : list (proc_run A)) :
  (add_ev e <$> l) ≫= continue f = add_ev e <$> (l ≫= continue f).
Proof.
  induction l as [|r l IH]; [done|]. cbn [fmap list_fmap mbind list_bind].
  rewrite fmap_app, <- IH. by rewrite continue_add.
Qed.

Lemma family_bind {A B} (p : prog A) (f : A -> prog B) :
  family (pbind p f) = family p ≫= continue f.
Proof.
  induction p as [a|s|o p IH|c k IH].
  - cbn. rewrite app_nil_r. unfold continue. cbn.
    rewrite <- (list_fmap_id (family (f a))) at 1. apply list_fmap_ext. by intros i [].
  - done.
  - cbn [pbind family]. by rewrite IH, continue_add_all.
  - cbn [pbind family].
    destruct c; try (by rewrite IH, continue_add_all).
    by rewrite bind_app, !IH, !continue_add_all.
Qed.

(** Every member of the family is a run of the program. *)
Lemma family_run {A} (p : prog A) t r :
  (t, r) ∈ family p -> exists sc, run p sc = (t, r, []).
Proof.
  revert t r. induction p as [a|s|o p IH|c k IH]; intros t r.
  - cbn. intros [= -> ->]%list_elem_of_singleton. by exists [].
  - cbn. intros [= -> ->]%list_elem_of_singleton. by exists [].
  - cbn. intros ([t' r'] & [= -> ->] & [sc E]%IH)%list_elem_of_fmap.
    exists sc. cbn. by rewrite E.
  - assert (G : forall a, (t, r) ∈ add_ev (ECall c a) <$> family (k a) ->
               exists sc, run (Vis c k) sc = (t, r, [])).
    { intros a ([t' r'] & [= -> ->] & [sc E]%IH)%list_elem_of_fmap.
      exists (a :: sc). cbn. by rewrite E. }
    cbn [family]. destruct c; try apply G.
    intros [?|?]%elem_of_app; by eapply G.
Qed.

End Family.

(** The processes that return from the program (the others have exited). *)
Definition is_done {A} (r : proc_run A) : bool := if r.2 is Done _ then true else false.
Definition returning {A} (l : list (proc_run A)) : nat :=
  length (filter (fun r => is_done r = true) l).

(** ** Outcomes: how the processes of a family end *)
Definition outcomes (pol : call -> ans) (pid : Z) {A} (p : prog A) : list (res A) :=
  snd <$> family pol pid p.
#[global] Arguments outcomes : simpl never.

Definition carry (pol : call -> ans) (pid : Z) {A B} (f : A -> prog B) (r : res A) : list (res B) :=
  match r with
  | Done a => outcomes pol pid (f a)
  | Halted s => [Halted s]
  | Blocked c => [Blocked c]
  end.

Section Outcomes.
Context (pol : call -> ans) (pid : Z).

Lemma snd_add_ev {A} e (l : list (proc_run A)) : snd <$> (add_ev e <$> l) = snd <$> l.
Proof. rewrite <- list_fmap_compose. by apply list_fmap_ext. Qed.

Lemma outcomes_ret {A} (a : A) : outcomes pol pid (Ret a) = [Done a].
Proof. done. Qed.

Lemma outcomes_halt {A} s : outcomes pol pid (Halt (A:=A) s) = [Halted s].
Proof. done. Qed.

Lemma outcomes_emit {A} o (p : prog A) : outcomes pol pid (Emit o p) = outcomes pol pid p.
Proof. unfold outcomes. cbn [family]. apply snd_add_ev. Qed.

Lemma outcomes_fork {A} (k : ans -> prog A) :
  outcomes pol pid (Vis Fork k) =
  outcomes pol pid (k (ret_ans pid)) ++ outcomes pol pid (k (ret_ans 0)).
Proof. unfold outcomes. cbn [family]. by rewrite fmap_app, !snd_add_ev. Qed.

(** Any call but [fork]. *)
Lemma outcomes_vis {A} c (k : ans -> prog A) :
  c <> Fork -> outcomes pol pid (Vis c k) = outcomes pol pid (k (pol c)).
Proof. intros Hc. unfold outcomes. by destruct c; try done; cbn [family]; rewrite snd_add_ev. Qed.

Lemma outcomes_bind {A B} (p : prog A) (f : A -> prog B) :
  outcomes pol pid (pbind p f) = outcomes pol pid p ≫= carry pol pid f.
Proof.
  unfold outcomes. rewrite family_bind.
  induction (family pol pid p) as [|[t r] l IH]; [done|].
  rewrite bind_cons, fmap_app, IH, fmap_cons, bind_cons. f_equal.
  destruct r; cbn; try done. rewrite <- list_fmap_compose. by apply list_fmap_ext.
Qed.

Lemma outcomes_assoc {A B C} (p : prog A) (f : A -> prog B) (g : B -> prog C) :
  outcomes pol pid (pbind (pbind p f) g) = outcomes pol pid (pbind p (fun x => pbind (f x) g)).
Proof.
  induction p as [a|s|o p IH|c k IH]; cbn; [done|done|by rewrite !outcomes_emit, IH|].
  assert (D : c = Fork \/ c <> Fork) by (destruct c; auto).
  destruct D as [->|D]; [by rewrite !outcomes_fork, !IH|by rewrite !outcomes_vis, IH].
Qed.
End Outcomes.

(** A program that does not fork under the policy is a single process, and the
    logic's postconditions hold of its outcome. *)
Definition no_fork {M} (_ : M) (e : ev) : Prop := if e is ECall Fork _ then False else True.

Lemma outcomes_single {M A} (step : M -> ev -> M) pol pid (p : prog A) s Q H :
  wp step no_fork (fun c a => a = pol c) p s Q H ->
  exists r, outcomes pol pid p = [r] /\
    match r with
    | Done a => exists s', Q s' a
    | Halted h => exists s', H s' h
    | Blocked _ => False
    end.
Proof.
  revert s. induction p as [a|h|o p IH|c k IH]; intros s; cbn.
  - intros HQ. exists (Done a). eauto.
  - intros HH. exists (Halted h). eauto.
  - intros [_ Hw]. rewrite outcomes_emit. eauto.
  - intros Hw. destruct (Hw _ eq_refl) as [Hc Hk].
    rewrite outcomes_vis by (by destruct c). eauto.
Qed.
