(* ===== verification/Wait.v ===== *)
(** Waiting for children: the status report and the [waitpid] loops that the
    forking programs share (each program has its own copy of this code). *)

From S2P Require Export Logic.

Local Open Scope Z_scope.

Definition wait_options : Z := Z.lor WUNTRACED WCONTINUED.

(** The [if (WIFEXITED(status)) ... else if (WIFCONTINUED(status)) ...] chain.
    The programs differ in what they print before the outcome: [pre] is the
    text and [who] its arguments. *)
Definition report_as (pre : string) (who : list arg) (status : Z) : prog unit :=
  if WIFEXITED status then
    printf (pre +:+ "exited, status=%d\n") (who ++ [AI (WEXITSTATUS status)])
  else if WIFSIGNALED status then
    printf (pre +:+ "killed by signal %d\n") (who ++ [AI (WTERMSIG status)])
  else if WIFSTOPPED status then
    printf (pre +:+ "stopped by signal %d\n") (who ++ [AI (WSTOPSIG status)])
  else when (WIFCONTINUED status) (printf (pre +:+ "continued\n") who).

Definition report : Z -> prog unit := report_as "" [].

(** [!WIFEXITED(status) && !WIFSIGNALED(status)] *)
Definition still_running (status : Z) : bool :=
  negb (WIFEXITED status) && negb (WIFSIGNALED status).

(** [do { w = waitpid(...); if (w == -1) on_error; report } while (...)] *)
Definition wait_loop (fuel : nat) (pid : Z) (on_error : prog (unit + unit)) : prog unit :=
  loop fuel tt (fun _ =>
    a <- sys (Waitpid pid wait_options) ;;
    if a_ret a =? -1 then on_error
    else
      report (out_int a) ;;;
      Ret (if still_running (out_int a) then inl tt else inr tt)).

(** [perror("Waitpid failed"); exit(-1)] *)
Definition wait_fail : prog (unit + unit) := perror "Waitpid failed" ;;; exit (-1).

(** No child left: [break]. *)
Definition wait_break : prog (unit + unit) := Ret (inr tt).

(** * Status words decode to what the kernel encoded *)
Section Decode.
Lemma check_range (lo : Z) (n : nat) (P : Z -> bool) :
  forallb P (seqZ lo (Z.of_nat n)) = true ->
  forall z, lo <= z < lo + Z.of_nat n -> P z = true.
Proof.
  intros H z Hz. rewrite forallb_forall in H. apply H.
  apply list_elem_of_In, elem_of_seqZ. lia.
Qed.

Definition decode_agrees (w : wstatus) : bool :=
  let st := encode_status w in
  match w with
  | Exited c => WIFEXITED st && (WEXITSTATUS st =? c)
  | Signaled s _ => negb (WIFEXITED st) && WIFSIGNALED st && (WTERMSIG st =? s)
  | Stopped s => negb (WIFEXITED st) && negb (WIFSIGNALED st) && WIFSTOPPED st
                 && (WSTOPSIG st =? s)
  | Continued => negb (WIFEXITED st) && negb (WIFSIGNALED st) && negb (WIFSTOPPED st)
                 && WIFCONTINUED st
  end.

Lemma decode_encode w : wstatus_ok w -> decode_agrees w = true.
Proof.
  destruct w as [c|s core|s|]; cbn [wstatus_ok]; intros Hw; [| | |done].
  - apply (check_range 0 256 (fun c => decode_agrees (Exited c))); [by vm_compute|lia].
  - destruct core.
    + apply (check_range 1 64 (fun s => decode_agrees (Signaled s true))); [by vm_compute|lia].
    + apply (check_range 1 64 (fun s => decode_agrees (Signaled s false))); [by vm_compute|lia].
  - apply (check_range 1 64 (fun s => decode_agrees (Stopped s))); [by vm_compute|lia].
Qed.

Lemma still_running_encode w :
  wstatus_ok w -> still_running (encode_status w) = negb (terminal w).
Proof.
  intros H%decode_encode. unfold still_running. destruct w; cbn [decode_agrees terminal] in *;
    repeat match goal with H : (_ && _) = true |- _ => apply andb_prop in H as [? ?] end;
    repeat match goal with
    | H : negb ?b = true |- _ => apply negb_true_iff in H
    | H : ?b = true |- context [?b] => rewrite H
    | H : ?b = false |- context [?b] => rewrite H
    end; cbn; try done.
Qed.
End Decode.

(** The line a parent prints about an outcome. *)
Definition describe_as (pre : string) (who : list arg) (w : wstatus) : string * list arg :=
  match w with
  | Exited c => ((pre +:+ "exited, status=%d\n")%stdpp, who ++ [AI c])
  | Signaled s _ => ((pre +:+ "killed by signal %d\n")%stdpp, who ++ [AI s])
  | Stopped s => ((pre +:+ "stopped by signal %d\n")%stdpp, who ++ [AI s])
  | Continued => ((pre +:+ "continued\n")%stdpp, who)
  end.
Definition describe : wstatus -> string * list arg := describe_as "" [].

Definition line_ev (l : string * list arg) : ev := EOut (OPrintf l.1 l.2).

(** What [waitpid] returns for the child [pid] in state [w]. *)
Definition wait_ans (pid : Z) (w : wstatus) : ans := Ans pid 0 [[encode_status w]].

Lemma report_as_encode pre who w :
  wstatus_ok w ->
  report_as pre who (encode_status w) =
  printf (describe_as pre who w).1 (describe_as pre who w).2.
Proof.
  intros H%decode_encode. unfold report_as. destruct w; cbn [decode_agrees describe_as] in *;
    repeat match goal with H : (_ && _) = true |- _ => apply andb_prop in H as [? ?] end;
    repeat match goal with
    | H : negb ?b = true |- _ => apply negb_true_iff in H
    | H : (_ =? _) = true |- _ => apply Z.eqb_eq in H
    | H : ?b = true |- context [?b] => rewrite H
    | H : ?b = false |- context [?b] => rewrite H
    end; cbn [fst snd when]; congruence.
Qed.

(** The events of a wait loop that sees the outcomes [ws]. *)
Definition wait_events (pid : Z) (ws : list wstatus) : list ev :=
  ws ≫= fun w => [ECall (Waitpid pid wait_options) (wait_ans pid w); line_ev (describe w)].

Section WaitLoop.
Context (pid : Z) (Hpid : 0 < pid).

Lemma run_wait_step fuel on_error w sc :
  wstatus_ok w ->
  run (wait_loop (S fuel) pid on_error) (wait_ans pid w :: sc) =
  let '(t, r, sc') :=
    if terminal w then ([], Done tt, sc) else run (wait_loop fuel pid on_error) sc in
  (ECall (Waitpid pid wait_options) (wait_ans pid w) :: line_ev (describe w) :: t, r, sc').
Proof.
  intros Hw. unfold wait_loop. cbn [loop]. rewrite run_bind.
  cbn [run sys pbind a_ret wait_ans].
  destruct (Z.eqb_spec pid (-1)); [lia|].
  change (out_int (wait_ans pid w)) with (encode_status w).
  unfold report. rewrite report_as_encode, still_running_encode by done.
  unfold printf, emit. cbn [run pbind].
  destruct (terminal w); cbn [negb run app]; [done|].
  by destruct (run (loop fuel tt _) sc) as [[??]?].
Qed.

(** A wait loop reports every outcome in order and stops after the first
    terminal one. *)
Lemma run_wait_loop fuel on_error ws w sc :
  Forall wstatus_ok ws -> Forall (fun w => terminal w = false) ws ->
  wstatus_ok w -> terminal w = true ->
  (length ws < fuel)%nat ->
  run (wait_loop fuel pid on_error) ((wait_ans pid <$> ws ++ [w]) ++ sc) =
  (wait_events pid (ws ++ [w]), Done tt, sc).
Proof.
  intros Hok Hnt Hw Ht. revert fuel Hok Hnt. induction ws as [|w0 ws IH];
    intros fuel Hok Hnt Hf; (destruct fuel as [|fuel]; [cbn in Hf; lia|]).
  - cbn [app fmap list_fmap]. by rewrite run_wait_step, Ht.
  - inversion Hok; inversion Hnt; subst. cbn [app fmap list_fmap].
    rewrite run_wait_step by done. rewrite H5.
    change (list_fmap _ _ (wait_ans pid)) with (fmap (M:=list) (wait_ans pid)).
    rewrite IH; [done..|]. cbn in Hf; lia.
Qed.
End WaitLoop.

(** Every iteration of a wait loop takes an answer, so fuel above the length of
    the script is enough. *)
Lemma enough_wait_loop pid on_error :
  (on_error = wait_fail \/ on_error = wait_break) ->
  enough (fun n => wait_loop n pid on_error).
Proof.
  intros He. unfold wait_loop.
  apply (enough_loop (fun _ _ => _)); intros _.
  - unfold sys, report, report_as, printf, emit, when, skip.
    apply enough_vis. intros a. apply enough_if.
    + destruct He as [-> | ->]; enough_tac.
    + enough_tac.
  - intros. apply consumes_vis.
Qed.

(** The monitor rule for wait loops. *)
Section WaitRule.
Context {M : Type} (step : M -> ev -> M) (ok : M -> ev -> Prop) (sat : call -> ans -> Prop).

Lemma wp_report s st (Q : M -> Prop) H :
  (forall f l, ok s (EOut (OPrintf f l)) /\ Q (step s (EOut (OPrintf f l)))) -> Q s ->
  wp step ok sat (report st) s (fun s _ => Q s) H.
Proof.
  intros HQ Hs. unfold report, report_as, printf, emit, when, skip.
  repeat case_match; cbn; try apply HQ; done.
Qed.

Lemma wp_wait_loop (I : M -> Prop) fuel pid on_error s (Q : M -> unit -> Prop) H :
  I s -> (forall s, I s -> H s Fuel) ->
  (forall s a, I s -> sat (Waitpid pid wait_options) a ->
     ok s (ECall (Waitpid pid wait_options) a) /\
     let s' := step s (ECall (Waitpid pid wait_options) a) in
     if a_ret a =? -1 then
       wp step ok sat on_error s' (fun s r => if r is inl tt then I s else Q s tt) H
     else
       wp step ok sat (report (out_int a)) s'
          (fun s _ => if still_running (out_int a) then I s else Q s tt) H) ->
  wp step ok sat (wait_loop fuel pid on_error) s Q H.
Proof.
  intros HI HF Hb. unfold wait_loop.
  apply (wp_loop step ok sat (fun s _ => I s)); [done|auto|]. intros s' [] Hs.
  apply wp_bind. cbn. intros a Ha. destruct (Hb s' a Hs Ha) as [Hok Hw]. split; [done|].
  cbn zeta in Hw. destruct (a_ret a =? -1).
  - eapply wp_mono; [|done|exact Hw]. by intros ? [[]|[]].
  - eapply wp_bind_intro; [exact Hw|]. cbn. intros s2 [] H2. by destruct (still_running _).
Qed.
End WaitRule.

Lemma printed_wait_events pid ws : printed (wait_events pid ws) = describe <$> ws.
Proof.
  induction ws as [|w ws IH]; [done|]. cbn. unfold printed in IH. rewrite <- IH.
  by destruct (describe w).
Qed.

(** A whole script seen by a wait loop. *)
Lemma run_wait_loop_all fuel pid on_error ws w :
  0 < pid -> Forall wstatus_ok ws -> Forall (fun w => terminal w = false) ws ->
  wstatus_ok w -> terminal w = true -> (length ws < fuel)%nat ->
  run (wait_loop fuel pid on_error) (wait_ans pid <$> ws ++ [w]) =
  (wait_events pid (ws ++ [w]), Done tt, []).
Proof. intros. rewrite <- (app_nil_r (wait_ans pid <$> _)). by apply run_wait_loop. Qed.
