(* ===== verification/Fork.v ===== *)
(** The programs that fork and wait: fork.c, serialfork.c, parallelfork.c,
    forkexec.c, multiforkexec.c and exec.c, a Module each. *)

From S2P Require Export Wait Stdio Family.

Local Open Scope Z_scope.

(** * Shared by the programs *)

(** The variables whose copies the programs follow: a local, a static and a
    global variable and the first cell of a heap array. *)
Record vars := Vars { localvar : Z; staticvar : Z; globalvar : Z; heapval : Z }.

Definition vars_initial : vars := Vars 0x01 0x11 0x21 0x31.
Definition vars_child : vars := Vars 0x02 0x12 0x22 0x32.
Definition vars_parent : vars := Vars 0x03 0x13 0x23 0x33.

Definition vars_args (v : vars) : list arg :=
  [AI (localvar v); AI (staticvar v); AI (globalvar v); AI (heapval v)].
Definition print_vars (fmt : string) (v : vars) : prog unit := printf fmt (vars_args v).

(** [heapptr = malloc(8*sizeof(int)); ... heapptr[0] = 0x31], which is
    undefined when [malloc] fails. *)
Definition init_vars : prog vars :=
  heapptr <- sysr (Malloc 32) ;;
  if heapptr =? 0 then Halt Ub else Ret vars_initial.

(** The six identity calls of the children's first line. *)
Definition ids : prog (list arg) :=
  pid <- sysr Getpid ;; ppid <- sysr Getppid ;; uid <- sysr Getuid ;;
  euid <- sysr Geteuid ;; gid <- sysr Getgid ;; egid <- sysr Getegid ;;
  Ret [AI pid; AI ppid; AI uid; AI euid; AI gid; AI egid].

(** [numforks = argc > 1 ? atoi(argv[1]) : 5] *)
Definition num_forks (t : target) (argv : list string) : prog Z :=
  if 1 <? argc argv then a <- argn argv 1 ;; Ret (atoi t a) else Ret 5.

Definition fork_failed (forkno : Z) {A} : prog A :=
  printf "Fork %d failed\n" [AI forkno] ;;; perror "fork failed" ;;; exit (-1).

(** * fork.c *)
Module ForkC.
Definition child (v : vars) : prog Z :=
  l <- ids ;;
  printf "Child PID %d, parent PID %d, uid %d, euid %d, gid %d, egid %d\n" l ;;;
  print_vars "child local, static, global = %02x %02x %02x %02x\n" v ;;;
  print_vars "child changed local, static, global = %02x %02x %02x %02x\n" vars_child ;;;
  Ret 0.

Definition parent (fuel : nat) (cpid : Z) (v : vars) : prog Z :=
  print_vars "parent before check if child exitted local, static, global = %02x %02x %02x %02x\n" v ;;;
  wait_loop fuel cpid wait_fail ;;;
  print_vars "parent after child exitted local, static, global = %02x %02x %02x %02x\n" v ;;;
  print_vars "parent changed local, static, global = %02x %02x %02x %02x\n" vars_parent ;;;
  Ret 0.

Definition main (fuel : nat) (argv : list string) : prog Z :=
  a0 <- argn argv 0 ;;
  printf "Main program %s started with %d args\n" [AS a0; AI (argc argv)] ;;;
  v <- init_vars ;;
  print_vars "Initial local, static, global, heap = %02x %02x %02x %02x\n" v ;;;
  cpid <- sysr Fork ;;
  if cpid =? -1 then perror "fork failed" ;;; exit (-1)
  else if cpid =? 0 then child v
  else parent fuel cpid v.
End ForkC.

(** * serialfork.c *)
Module SerialFork.
Definition child (forkno : Z) (v : vars) : prog vars :=
  l <- ids ;;
  printf "Child %d: PID %d, parent PID %d, uid %d, euid %d, gid %d, egid %d\n" (AI forkno :: l) ;;;
  print_vars " child local, static, global = %02x %02x %02x %02x\n" v ;;;
  fflush ;;;
  print_vars " child changed local, static, global = %02x %02x %02x %02x\n" vars_child ;;;
  fflush ;;;
  exit forkno.

Definition parent (fuel : nat) (cpid : Z) (v : vars) : prog vars :=
  print_vars "parent before check if child exitted local, static, global = %02x %02x %02x %02x\n" v ;;;
  fflush ;;;
  wait_loop fuel cpid wait_fail ;;;
  print_vars "parent after child exitted local, static, global = %02x %02x %02x %02x\n" v ;;;
  print_vars "parent changed local, static, global = %02x %02x %02x %02x\n" vars_parent ;;;
  fflush ;;;
  Ret vars_parent.

(** One iteration of the loop over [forkno]. *)
Definition fork_one (fuel : nat) (forkno : Z) (v : vars) : prog vars :=
  cpid <- sysr Fork ;;
  if cpid =? -1 then fork_failed forkno
  else if cpid =? 0 then child forkno v
  else parent fuel cpid v.

Definition main (t : target) (fuel : nat) (argv : list string) : prog Z :=
  numforks <- num_forks t argv ;;
  a0 <- argn argv 0 ;;
  printf "%s will fork %d times\n" [AS a0; AI numforks] ;;;
  fflush ;;;
  v <- init_vars ;;
  print_vars "Initial local, static, global, heap = %02x %02x %02x %02x\n" v ;;;
  fflush ;;;
  for_ 0 numforks v (fork_one fuel) ;;;
  Ret 0.
End SerialFork.

(** * parallelfork.c *)
Module ParallelFork.
Definition child (forkno : Z) (v : vars) : prog (option Z) :=
  l <- ids ;;
  printf "Child %d: PID %d, parent PID %d, uid %d, euid %d, gid %d, egid %d\n" (AI forkno :: l) ;;;
  print_vars " child local, static, global = %02x %02x %02x %02x\n" v ;;;
  fflush ;;;
  print_vars " child changed local, static, global = %02x %02x %02x %02x\n" vars_child ;;;
  fflush ;;;
  sys (Sleep 10) ;;;
  exit forkno.

(** The loop's variable is [cpid], not initialised before the first fork. *)
Definition fork_one (v : vars) (forkno : Z) (_ : option Z) : prog (option Z) :=
  cpid <- sysr Fork ;;
  if cpid =? -1 then fork_failed forkno
  else if cpid =? 0 then child forkno v
  else Ret (Some cpid).

Definition main (t : target) (fuel : nat) (argv : list string) : prog Z :=
  numforks <- num_forks t argv ;;
  a0 <- argn argv 0 ;;
  printf "%s will fork %d times\n" [AS a0; AI numforks] ;;;
  fflush ;;;
  v <- init_vars ;;
  print_vars "Initial local, static, global, heap = %02x %02x %02x %02x\n" v ;;;
  fflush ;;;
  cpid <- for_ 0 numforks None (fork_one v) ;;
  pid <- get cpid ;;
  wait_loop fuel pid wait_break ;;;
  print_vars "parent after all children exitted local, static, global = %02x %02x %02x %02x\n" v ;;;
  print_vars "parent changed local, static, global = %02x %02x %02x %02x\n" vars_parent ;;;
  fflush ;;;
  Ret 0.
End ParallelFork.

(** * forkexec.c *)
Module ForkExec.
Definition child (argv : list string) : prog Z :=
  (if argc argv =? 1 then printf "Need name of command to exec as first argument\n" []
   else
     a1 <- argn argv 1 ;;
     r <- execve a1 (drop 1 argv) ;;
     printf "Failed to start %s with %d args\n" [AS a1; AI (argc argv)] ;;;
     perror "Could not execve") ;;;
  Ret 0.

Definition main (fuel : nat) (argv : list string) : prog Z :=
  a0 <- argn argv 0 ;;
  printf "Main program %s started with %d args\n" [AS a0; AI (argc argv)] ;;;
  cpid <- sysr Fork ;;
  if cpid =? -1 then perror "fork failed" ;;; exit (-1)
  else if cpid =? 0 then child argv
  else wait_loop fuel cpid wait_fail ;;; Ret 0.
End ForkExec.

(** * multiforkexec.c *)
Module MultiForkExec.
(** A child whose [execve] fails goes on with the loop. *)
Definition child (argv : list string) (v : vars) : prog vars :=
  (if argc argv =? 1 then printf "Need name of command to exec as first argument\n" []
   else
     a1 <- argn argv 1 ;;
     r <- execve a1 (drop 1 argv) ;;
     printf "Failed to start %s with %d args\n" [AS a1; AI (argc argv)] ;;;
     perror "Could not execve") ;;;
  Ret v.

Definition parent (fuel : nat) (cpid : Z) (v : vars) : prog vars :=
  print_vars "parent before check if child exitted local, static, global = %02x %02x %02x %02x\n" v ;;;
  fflush ;;;
  wait_loop fuel cpid wait_fail ;;;
  print_vars "parent after child exitted local, static, global = %02x %02x %02x %02x\n" v ;;;
  fflush ;;;
  print_vars "parent changed local, static, global = %02x %02x %02x %02x\n" vars_parent ;;;
  fflush ;;;
  Ret vars_parent.

Definition fork_one (fuel : nat) (argv : list string) (forkno : Z) (v : vars) : prog vars :=
  cpid <- sysr Fork ;;
  if cpid =? -1 then fork_failed forkno
  else if cpid =? 0 then child argv v
  else parent fuel cpid v.

Definition main (t : target) (fuel : nat) (argv : list string) : prog Z :=
  numforks <- num_forks t argv ;;
  (* argc--; argv++ when a count was given *)
  let argv := if 1 <? argc argv then drop 1 argv else argv in
  a0 <- argn argv 0 ;;
  printf "%s will fork %d times\n" [AS a0; AI numforks] ;;;
  fflush ;;;
  v <- init_vars ;;
  print_vars "Initial local, static, global, heap = %02x %02x %02x %02x\n" v ;;;
  fflush ;;;
  for_ 0 numforks v (fork_one fuel argv) ;;;
  Ret 0.
End MultiForkExec.

(** * exec.c *)
Module ExecC.
Definition main (argv : list string) : prog Z :=
  a0 <- argn argv 0 ;;
  printf "Main program %s started with %d args\n" [AS a0; AI (argc argv)] ;;;
  (if argc argv =? 1 then
     r <- execve "./hello-stat" ["argument1"; "argument with spaces"] ;;
     printf "Failed to start ./hello-stat\n" [] ;;;
     perror "Could not execve"
   else
     a1 <- argn argv 1 ;;
     r <- execve a1 (drop 1 argv) ;;
     printf "Failed to start %s with %d args\n" [AS a1; AI (argc argv)] ;;;
     perror "Could not execve") ;;;
  Ret 1.
End ExecC.

(** * fork.c: what the two processes print *)

(** The answers the parent receives: [malloc], [fork], then one per [waitpid]. *)
Definition fork_answers (heap pid : Z) (ws : list wstatus) : list ans :=
  ret_ans heap :: ret_ans pid :: (wait_ans pid <$> ws).

(** The lines printed before the fork. *)
Definition fork_head (argv : list string) : list (string * list arg) :=
  [("Main program %s started with %d args\n", [AS (default "" (head argv)); AI (argc argv)]);
   ("Initial local, static, global, heap = %02x %02x %02x %02x\n", vars_args vars_initial)].

Ltac zcase := repeat match goal with
  | |- context [Z.eqb ?x ?y] => destruct (Z.eqb_spec x y); [try lia; try done|try lia; try done]
  end.

(** C6: the parent of fork.c reports every outcome [waitpid] gives for its child,
    in order, stops after the terminal one and still has its own values of the
    four variables, which the child's assignments do not reach; it returns 0. *)
Theorem fork_parent_run a0 args heap pid ws w fuel :
  heap <> 0 -> 0 < pid ->
  Forall wstatus_ok ws -> Forall (fun w => terminal w = false) ws ->
  wstatus_ok w -> terminal w = true -> (length ws < fuel)%nat ->
  let sc := fork_answers heap pid (ws ++ [w]) in
  let p := ForkC.main fuel (a0 :: args) in
  result p sc = Done 0 /\
  printed (trace p sc) =
    fork_head (a0 :: args) ++
    [("parent before check if child exitted local, static, global = %02x %02x %02x %02x\n",
      vars_args vars_initial)] ++
    (describe <$> ws ++ [w]) ++
    [("parent after child exitted local, static, global = %02x %02x %02x %02x\n",
      vars_args vars_initial);
     ("parent changed local, static, global = %02x %02x %02x %02x\n", vars_args vars_parent)].
Proof.
  intros Hh Hp Hok Hnt Hw Ht Hf sc p. subst sc p.
  unfold result, trace, fork_answers. cbn.
  destruct (Z.eqb_spec heap 0); [done|]. cbn.
  destruct (Z.eqb_spec pid (-1)); [lia|]. destruct (Z.eqb_spec pid 0); [lia|]. cbn.
  rewrite run_bind, run_wait_loop_all by done. cbn. split; [done|].
  repeat f_equal. rewrite omap_app. f_equal. apply printed_wait_events.
Qed.

Lemma fork_parent_run_witness :
  result (ForkC.main 5 ["fork"]) (fork_answers 4096 77 ([Stopped 19; Continued] ++ [Exited 3])) = Done 0.
Proof.
  refine (proj1 (fork_parent_run "fork" [] 4096 77 [Stopped 19; Continued] (Exited 3) 5 _ _ _ _ _ _ _));
    try (repeat constructor; cbn; lia); done.
Defined.

(** C24: when [stdout] is fully buffered, the child of fork.c writes the two lines
    its parent printed before the fork once more, ahead of its own three;
    unbuffered, it writes only its own. *)
Theorem fork_child_duplicates a0 args heap pid ppid uid euid gid egid fuel :
  heap <> 0 ->
  let argv := a0 :: args in
  let tr := trace (ForkC.main fuel argv)
              (ret_ans heap :: ret_ans 0 :: (ret_ans <$> [pid; ppid; uid; euid; gid; egid])) in
  let own :=
    [("Child PID %d, parent PID %d, uid %d, euid %d, gid %d, egid %d\n",
      AI <$> [pid; ppid; uid; euid; gid; egid]);
     ("child local, static, global = %02x %02x %02x %02x\n", vars_args vars_initial);
     ("child changed local, static, global = %02x %02x %02x %02x\n", vars_args vars_child)] in
  own_output FullyBuffered tr = fork_head argv ++ own /\
  own_output Unbuffered tr = own.
Proof.
  intros Hh argv tr own. subst tr own. unfold trace. cbn.
  destruct (Z.eqb_spec heap 0); [done|]. done.
Qed.

Lemma fork_child_duplicates_witness :
  length (own_output FullyBuffered (trace (ForkC.main 1 ["fork"])
    (ret_ans 4096 :: ret_ans 0 :: (ret_ans <$> [8; 7; 0; 0; 0; 0])))) = 5%nat.
Proof.
  pose proof (fork_child_duplicates "fork" [] 4096 8 7 0 0 0 0 1 ltac:(lia)) as [-> _].
  reflexivity.
Defined.

(** * serialfork.c: one child at a time *)

(** The monitor counts the children that were forked and not yet seen to end. *)
Definition serial_step (live : nat) (e : ev) : nat :=
  match e with
  | ECall Fork a => if 0 <? a_ret a then S live else live
  | ECall (Waitpid _ _) a =>
      if negb (a_ret a =? -1) && negb (still_running (out_int a)) then pred live else live
  | _ => live
  end.
Definition serial_ok (live : nat) (e : ev) : Prop :=
  match e with ECall Fork _ => live = 0%nat | _ => True end.

Section Serial.
Let any : call -> ans -> Prop := fun _ _ => True.
Let halts : nat -> stop -> Prop := fun _ _ => True.

Lemma serial_wait fuel pid live Q :
  (live <= 1)%nat -> Q 0%nat tt ->
  wp serial_step serial_ok any (wait_loop fuel pid wait_fail) live Q halts.
Proof.
  intros Hl HQ. apply (wp_wait_loop _ _ _ (fun l => (l <= 1)%nat)); [done|done|].
  intros s a Hs _. split; [done|]. cbn zeta.
  destruct (a_ret a =? -1) eqn:Ea; [done|].
  apply (wp_report _ _ _ _ _ (fun s => if still_running (out_int a) then (s <= 1)%nat else Q s tt)).
  - intros f l. cbn. rewrite Ea. cbn. split; [done|].
    destruct (still_running (out_int a)); cbn; [done|].
    by replace (pred s) with 0%nat by lia.
  - cbn. rewrite Ea. cbn. destruct (still_running (out_int a)); cbn; [done|].
    by replace (pred s) with 0%nat by lia.
Qed.

Lemma serial_fork_one fuel i v :
  wp serial_step serial_ok any (SerialFork.fork_one fuel i v) 0%nat (fun l _ => l = 0%nat) halts.
Proof.
  unfold SerialFork.fork_one. cbn. intros a _. split; [done|].
  destruct (Z.eqb_spec (a_ret a) (-1)); [cbn; done|].
  destruct (Z.eqb_spec (a_ret a) 0) as [E|E].
  - rewrite E. cbn. repeat (intros ? _; split; [done|]). cbn. done.
  - unfold SerialFork.parent. cbn. split; [done|]. split; [done|].
    apply wp_bind, serial_wait; [case_match; lia|]. done.
Qed.

(** C7: in every run of serialfork.c, whatever the kernel answers, a child is
    forked only when every child forked before has been seen to exit or to be
    killed: the children are serialised. *)
Theorem serialfork_serial t fuel argv sc :
  accepts serial_step serial_ok 0%nat (trace (SerialFork.main t fuel argv) sc).
Proof.
  unfold trace. destruct (run _ sc) as [[tr r] sc'] eqn:E. cbn.
  eapply (wp_sound _ _ any _ _ (fun _ _ => True) halts) in E; [apply E| |apply ev_sat_any].
  clear. unfold SerialFork.main, num_forks, argn, init_vars.
  apply (wp_bind_intro _ _ _ (fun l _ => l = 0%nat)).
  { case_match; [|done]. by destruct (argv !! 1%nat). }
  intros l n ->. destruct (argv !! 0%nat); [|done]. cbn.
  split; [done|]. split; [done|]. intros a _. split; [done|].
  destruct (a_ret a =? 0); [done|]. cbn. split; [done|]. split; [done|].
  apply wp_bind.
  apply (wp_for _ _ _ (fun _ l _ => l = 0%nat)); [done| |done].
  intros i live x _ ->. apply serial_fork_one.
Qed.
End Serial.

(** * parallelfork.c: the processes and how many are waited for *)

(** The policy of a kernel that grants memory and whose children end in [w]. *)
Definition forking_policy (pid : Z) (w : wstatus) (c : call) : ans :=
  match c with
  | Malloc _ => ret_ans 4096
  | Waitpid _ _ => wait_ans pid w
  | Execve _ _ => err_ans 2
  | _ => ret_ans 0
  end.

Lemma outcomes_wait_gen pol pid wpid w {B} fuel on_error (f : unit -> prog B) :
  0 < pid -> wstatus_ok w -> terminal w = true ->
  pol (Waitpid wpid wait_options) = wait_ans pid w -> (0 < fuel)%nat ->
  outcomes pol pid (pbind (wait_loop fuel wpid on_error) f) = outcomes pol pid (f tt).
Proof.
  intros Hpid Hw Ht Hp Hf. destruct fuel as [|fuel]; [lia|]. unfold wait_loop. cbn.
  rewrite outcomes_vis by done. rewrite Hp. cbn.
  destruct (Z.eqb_spec pid (-1)); [lia|].
  change (out_int (wait_ans pid w)) with (encode_status w).
  unfold report. rewrite report_as_encode, still_running_encode, Ht by done.
  unfold printf, emit. cbn. by rewrite outcomes_emit.
Qed.

Section Families.
Context (pid : Z) (Hpid : 0 < pid) (w : wstatus) (Hw : wstatus_ok w) (Ht : terminal w = true).
Let pol := forking_policy pid w.
Notation outc := (outcomes pol pid).

Lemma outcomes_wait {B} fuel on_error (f : unit -> prog B) :
  (0 < fuel)%nat -> outc (pbind (wait_loop fuel pid on_error) f) = outc (f tt).
Proof. intros Hf. by apply (outcomes_wait_gen pol pid pid w). Qed.

Lemma outcomes_parallel_fork_one v i c :
  outc (ParallelFork.fork_one v i c) = [Done (Some pid); Halted (Exit i)].
Proof.
  unfold ParallelFork.fork_one, sysr. cbn. rewrite outcomes_fork. cbn.
  destruct (Z.eqb_spec pid (-1)); [lia|]. destruct (Z.eqb_spec pid 0); [lia|]. done.
Qed.

Lemma outcomes_parallel_for v n i c :
  outc (for_n n i c (ParallelFork.fork_one v)) =
  Done (if n is O then c else Some pid)
    :: ((fun j => Halted (Exit j)) <$> reverse (seqZ i (Z.of_nat n))).
Proof.
  revert i c. induction n as [|n IH]; intros i c; [done|].
  cbn [for_n]. rewrite outcomes_bind, outcomes_parallel_fork_one.
  cbn [mbind list_bind carry app]. rewrite IH.
  rewrite (seqZ_cons i (Z.of_nat (S n))) by lia. replace (Z.pred (Z.of_nat (S n))) with (Z.of_nat n) by lia.
  replace (Z.succ i) with (i + 1) by lia.
  rewrite reverse_cons, fmap_app. cbn. by destruct n.
Qed.

(** C8: with a positive count [n] on its command line, and when every fork
    succeeds, parallelfork.c gives rise to exactly [n + 1] processes: the parent
    returns 0 and the child forked in iteration [i] exits with status [i]. *)
Theorem parallelfork_family t a0 n rest fuel :
  32 <= long_bits t -> 0 < n <= int_max -> (0 < fuel)%nat ->
  outcomes (forking_policy pid w) pid (ParallelFork.main t fuel (a0 :: show_int n :: rest)) =
  Done 0 :: ((fun i => Halted (Exit i)) <$> reverse (seqZ 0 n)).
Proof.
  intros Hl Hn Hf. fold pol. unfold ParallelFork.main, num_forks, argc.
  assert (E1 : (1 <? Z.of_nat (length (a0 :: show_int n :: rest))) = true).
  { apply Z.ltb_lt. cbn. lia. }
  rewrite E1. cbn [argn lookup list_lookup get pbind].
  rewrite atoi_show_int by (unfold is_int, int_min in *; unfold int_max in *; lia).
  unfold printf, fflush, init_vars, print_vars, printf, emit, sysr. cbn [pbind].
  rewrite !outcomes_emit, outcomes_vis by done. cbn [pol forking_policy a_ret ret_ans].
  change (4096 =? 0) with false. cbn [pbind]. rewrite !outcomes_emit.
  unfold for_. rewrite outcomes_bind, outcomes_parallel_for.
  destruct (Z.to_nat (n - 0)) as [|m] eqn:Em; [lia|].
  rewrite bind_cons. cbn [carry get pbind].
  rewrite outcomes_wait by done. unfold print_vars, printf, fflush, emit. cbn [pbind].
  rewrite !outcomes_emit, outcomes_ret.
  cbn [app]. f_equal. replace (Z.of_nat (S m)) with n by lia.
  induction (reverse (seqZ 0 n)) as [|j l IH]; [done|]. cbn. by rewrite <- IH.
Qed.
End Families.

Lemma parallelfork_family_witness :
  outcomes (forking_policy 9 (Exited 0)) 9 (ParallelFork.main arm 1 ["p"; show_int 3]) =
  [Done 0; Halted (Exit 2); Halted (Exit 1); Halted (Exit 0)].
Proof.
  refine (parallelfork_family 9 _ (Exited 0) _ _ arm "p" 3 [] 1 _ _ _);
    try (unfold int_max; cbn; lia); done.
Defined.

(** * multiforkexec.c: what a failing command does *)
Section MultiFamilies.
Context (pid : Z) (Hpid : 0 < pid) (w : wstatus) (Hw : wstatus_ok w) (Ht : terminal w = true).
Let pol := forking_policy pid w.
Notation outc := (outcomes pol pid).

Lemma outcomes_multi_child a argv v : outc (MultiForkExec.child (a :: argv) v) = [Done v].
Proof.
  unfold MultiForkExec.child, argn, execve, printf, perror, emit, sysr.
  destruct argv as [|cmd argv]; [done|].
  destruct (Z.eqb_spec (argc (a :: cmd :: argv)) 1) as [E|E]; [done|].
  cbn. rewrite outcomes_vis by done. cbn. by rewrite !outcomes_emit.
Qed.

Lemma outcomes_multi_fork_one fuel a argv i v :
  (0 < fuel)%nat ->
  outc (MultiForkExec.fork_one fuel (a :: argv) i v) = [Done vars_parent; Done v].
Proof.
  intros Hf. unfold MultiForkExec.fork_one, sysr. cbn. rewrite outcomes_fork.
  cbn [a_ret ret_ans]. change (0 =? -1) with false. change (0 =? 0) with true.
  destruct (Z.eqb_spec pid (-1)); [lia|]. destruct (Z.eqb_spec pid 0); [lia|].
  rewrite outcomes_multi_child.
  unfold MultiForkExec.parent, print_vars, printf, fflush, emit. cbn [pbind].
  rewrite !outcomes_emit, (outcomes_wait pid Hpid w Hw Ht) by done. by rewrite !outcomes_emit.
Qed.

Lemma outcomes_multi_for fuel a argv n i v :
  (0 < fuel)%nat ->
  outc (pbind (for_n n i v (MultiForkExec.fork_one fuel (a :: argv))) (fun _ => Ret 0)) =
  replicate (2 ^ n) (Done 0).
Proof.
  intros Hf. revert i v. induction n as [|n IH]; intros i v; [done|].
  cbn [for_n]. rewrite outcomes_assoc, outcomes_bind, outcomes_multi_fork_one by done.
  cbn [mbind list_bind carry]. rewrite !IH, app_nil_r, <- replicate_add.
  f_equal. cbn. lia.
Qed.

(** C23: when every fork succeeds and the command cannot be executed (or none is
    named), a child of multiforkexec.c goes on with the loop as its parent does: a count [n]
    gives rise to [2 ^ n] processes instead of [n + 1], each returning 0. *)
Theorem multiforkexec_family t a0 n rest fuel :
  32 <= long_bits t -> 0 < n <= int_max -> (0 < fuel)%nat ->
  outcomes (forking_policy pid w) pid (MultiForkExec.main t fuel (a0 :: show_int n :: rest)) =
  replicate (2 ^ Z.to_nat n) (Done 0).
Proof.
  intros Hl Hn Hf. fold pol. unfold MultiForkExec.main, num_forks, argc.
  assert (E1 : (1 <? Z.of_nat (length (a0 :: show_int n :: rest))) = true).
  { apply Z.ltb_lt. cbn. lia. }
  rewrite !E1. cbn [argn lookup list_lookup get pbind].
  rewrite atoi_show_int by (unfold is_int, int_min in *; unfold int_max in *; lia).
  cbn [drop argn lookup list_lookup get pbind].
  unfold printf, fflush, init_vars, print_vars, printf, emit, sysr. cbn [pbind].
  rewrite !outcomes_emit, outcomes_vis by done. cbn [pol forking_policy a_ret ret_ans].
  change (4096 =? 0) with false. cbn [pbind]. rewrite !outcomes_emit.
  unfold for_. rewrite outcomes_multi_for by done. by rewrite Z.sub_0_r.
Qed.
End MultiFamilies.

Lemma multiforkexec_family_witness :
  outcomes (forking_policy 9 (Exited 0)) 9
    (MultiForkExec.main x86_64 1 ["p"; show_int 3; "./nope"]) = replicate 8 (Done 0).
Proof.
  refine (multiforkexec_family 9 _ (Exited 0) _ _ x86_64 "p" 3 ["./nope"] 1 _ _ _);
    try (unfold int_max; cbn; lia); done.
Defined.

(** * Flushing before [fork] *)
Section FlushBeforeFork.
Notation cwp := (wp dirty_step dirty_ok (fun _ _ => True)).
Notation halts := (fun (_ : bool) (_ : stop) => True).

Lemma clean_report st d (Q : bool -> Prop) :
  Q d -> Q true -> cwp (report st) d (fun d _ => Q d) halts.
Proof. intros Hd Ht. by apply wp_report. Qed.

Lemma clean_wait fuel pid d (Q : bool -> unit -> Prop) :
  Q true tt -> Q false tt -> cwp (wait_loop fuel pid wait_break) d Q halts /\
                            cwp (wait_loop fuel pid wait_fail) d Q halts.
Proof.
  intros Ht Hf.
  assert (HQ : forall d, Q d tt) by (by intros []).
  split; (apply (wp_wait_loop _ _ _ (fun _ => True)); [done|done|]); intros s a _ _;
    (split; [done|]); cbn zeta; (destruct (a_ret a =? -1); [by cbn|]);
    apply (clean_report _ _ (fun s => if still_running (out_int a) then True else Q s tt));
    by destruct (still_running (out_int a)).
Qed.

Lemma clean_num_forks t argv : cwp (num_forks t argv) false (fun d _ => d = false) halts.
Proof. unfold num_forks, argn. case_match; [|done]. by destruct (argv !! 1%nat). Qed.

Lemma clean_init : cwp init_vars false (fun d _ => d = false) halts.
Proof. unfold init_vars. cbn. intros a _. split; [done|]. by destruct (a_ret a =? 0). Qed.

Lemma clean_serial_fork_one fuel i v :
  cwp (SerialFork.fork_one fuel i v) false (fun d _ => d = false) halts.
Proof.
  unfold SerialFork.fork_one. cbn. intros a _. split; [done|].
  destruct (a_ret a =? -1); [cbn; done|]. destruct (a_ret a =? 0).
  - cbn. repeat (intros ? _; split; [done|]). done.
  - unfold SerialFork.parent. cbn. split; [done|]. split; [done|].
    by apply wp_bind, clean_wait.
Qed.

Lemma clean_parallel_fork_one v i c :
  cwp (ParallelFork.fork_one v i c) false (fun d _ => d = false) halts.
Proof.
  unfold ParallelFork.fork_one. cbn. intros a _. split; [done|].
  destruct (a_ret a =? -1); [cbn; done|]. destruct (a_ret a =? 0); [|done].
  cbn. repeat (intros ? _; split; [done|]). done.
Qed.

(** C25: the programs that fork in a loop flush before every [fork]: in every
    run of serialfork.c and parallelfork.c, however [stdout] is buffered, each
    process writes exactly the lines it printed itself, none twice and none
    lost. *)
Theorem fork_loops_flush t fuel argv m sc :
  own_output m (trace (SerialFork.main t fuel argv) sc) =
    own_printed (trace (SerialFork.main t fuel argv) sc) /\
  own_output m (trace (ParallelFork.main t fuel argv) sc) =
    own_printed (trace (ParallelFork.main t fuel argv) sc).
Proof.
  split; apply flush_safe_own_output, (clean_flush_safe _ (fun _ _ => True)).
  - unfold clean, SerialFork.main. eapply wp_bind_intro; [apply clean_num_forks|].
    intros d n ->. apply wp_bind. unfold argn. destruct (argv !! 0%nat); [|done].
    cbn. split; [done|]. split; [done|]. intros a _. split; [done|].
    destruct (a_ret a =? 0); [done|]. cbn. split; [done|]. split; [done|]. apply wp_bind.
    apply (wp_for _ _ _ (fun _ d _ => d = false)); [done| |done].
    intros i d x _ ->. apply clean_serial_fork_one.
  - unfold clean, ParallelFork.main. eapply wp_bind_intro; [apply clean_num_forks|].
    intros d n ->. apply wp_bind. unfold argn. destruct (argv !! 0%nat); [|done].
    cbn. split; [done|]. split; [done|]. intros a _. split; [done|].
    destruct (a_ret a =? 0); [done|]. cbn. split; [done|]. split; [done|].
    eapply (wp_bind_intro _ _ _ (fun d _ => d = false)).
    + apply (wp_for _ _ _ (fun _ d _ => d = false)); [done| |auto].
      intros i d x _ ->. apply clean_parallel_fork_one.
    + intros d [c|] ->; [|done]. cbn [get pbind]. by apply wp_bind, clean_wait.
Qed.
End FlushBeforeFork.

(** * parallelfork.c: how many children are reaped *)

(** The monitor counts the terminal statuses received. *)
Definition reap_step (n : nat) (e : ev) : nat :=
  match e with
  | ECall (Waitpid _ _) a =>
      if negb (a_ret a =? -1) && negb (still_running (out_int a)) then S n else n
  | _ => n
  end.
Definition reap_ok (n : nat) (e : ev) : Prop :=
  match e with ECall (Waitpid _ _) _ => n = 0%nat | _ => True end.

Section Reap.
Notation rwp := (wp reap_step reap_ok (fun _ _ => True)).
Notation halts := (fun (_ : nat) (_ : stop) => True).

Lemma reap_wait fuel pid :
  rwp (wait_loop fuel pid wait_break) 0%nat (fun n _ => (n <= 1)%nat) halts.
Proof.
  apply (wp_wait_loop _ _ _ (fun n => n = 0%nat)); [done|done|].
  intros s a -> _. split; [done|]. cbn. destruct (a_ret a =? -1) eqn:Ea; cbn; [lia|].
  apply (wp_report _ _ _ _ _ (fun s => if still_running (out_int a) then s = 0%nat else (s <= 1)%nat)).
  - intros f l. cbn. split; [done|]. by destruct (still_running (out_int a)).
  - by destruct (still_running (out_int a)).
Qed.

(** C29: however many children it forked, parallelfork.c calls [waitpid] only
    until the first child ends: every run receives at most one terminal status
    and makes no further [waitpid] call, so the line "parent after all children
    exitted" is printed when at most one child is known to have ended. *)
Theorem parallelfork_reaps_one t fuel argv sc :
  let tr := trace (ParallelFork.main t fuel argv) sc in
  accepts reap_step reap_ok 0%nat tr /\ (final reap_step 0%nat tr <= 1)%nat.
Proof.
  assert (W : forall A (p : prog A) Q,
    wp reap_step reap_ok (fun _ _ => True) p 0%nat Q halts ->
    accepts reap_step reap_ok 0%nat (trace p sc)).
  { intros A p Q H. unfold trace. destruct (run p sc) as [[tr r] sc'] eqn:E.
    eapply wp_sound in E; [apply E|done|apply ev_sat_any]. }
  assert (B : forall tr n, (n <= 1)%nat -> accepts reap_step reap_ok n tr ->
            (final reap_step n tr <= 1)%nat).
  { induction tr as [|e tr IH]; intros n Hn; [done|]. cbn. intros [He Ht].
    apply IH; [|done]. destruct e as [|[] a]; cbn in *; try lia. case_match; lia. }
  intros tr. subst tr. split; [|apply B; [lia|]];
    (apply (W _ _ (fun _ _ => True)); clear; unfold ParallelFork.main).
  all: apply (wp_bind_intro _ _ _ (fun n _ => n = 0%nat));
    [unfold num_forks, argn; case_match; [|done]; by destruct (argv !! 1%nat)|].
  all: intros n k ->; apply wp_bind; unfold argn; destruct (argv !! 0%nat); [|done].
  all: cbn; split; [done|]; split; [done|]; intros a _; split; [done|];
    destruct (a_ret a =? 0); [done|]; cbn; split; [done|]; split; [done|].
  all: apply (wp_bind_intro _ _ _ (fun n _ => n = 0%nat)).
  1, 3: apply (wp_for _ _ _ (fun _ n _ => n = 0%nat)); [done| |auto];
    intros i n x _ ->; unfold ParallelFork.fork_one; cbn; intros b _; split; [done|];
    destruct (a_ret b =? -1); [cbn; done|]; destruct (a_ret b =? 0); [|done];
    cbn; repeat (intros ? _; split; [done|]); done.
  all: intros n [c|] ->; [|done]; cbn [get pbind].
  all: eapply wp_bind_intro; [apply reap_wait|]; cbn; done.
Qed.
End Reap.

(** * The loops never run out of fuel *)

Lemma enough_num_forks t argv : enough (fun _ => num_forks t argv).
Proof. unfold num_forks. enough_tac. Qed.

#[export] Hint Resolve enough_num_forks enough_wait_loop : gt.

(** With fuel above the length of the script no run of the forking programs
    stops for lack of fuel: every wait loop takes an answer per iteration, so
    what the models observe is what the C loops do, for arbitrarily long runs. *)
Theorem fork_programs_enough t argv :
  enough (fun n => ForkC.main n argv) /\
  enough (fun n => SerialFork.main t n argv) /\
  enough (fun n => ParallelFork.main t n argv) /\
  enough (fun n => ForkExec.main n argv) /\
  enough (fun n => MultiForkExec.main t n argv).
Proof.
  unfold ForkC.main, SerialFork.main, ParallelFork.main, ForkExec.main, MultiForkExec.main,
    SerialFork.fork_one, ParallelFork.fork_one, MultiForkExec.fork_one, SerialFork.parent,
    MultiForkExec.parent, ForkC.parent, ForkC.child, SerialFork.child, ParallelFork.child,
    ForkExec.child, MultiForkExec.child, fork_failed, execve, init_vars, ids, argn, print_vars,
    for_, sys, sysr, exit, printf, fflush, perror, emit, skip.
  split_and!; repeat first [ apply enough_wait_loop; auto | apply enough_num_forks
    | progress enough_tac ].
Qed.
