(* ===== verification/Pthread.v ===== *)
(** The programs that create and join threads: pthread.c,
    fork_and_pthread.c, forkexec_and_pthread.c, forkexecwait_and_pthread.c,
    forkexecwait_and_pthreadchild.c, forkmulti.c, system_and_pthread.c,
    processesgalore.c, and the callers of [system]: system.c, simplesystem.c. *)

From S2P Require Export Wait Family.

Local Open Scope Z_scope.

(** * The [pad] array *)

(** [char pad[]="           "]: eleven blanks. *)
Definition pad_init : list Z := c_array "           ".

(** [if (i < strlen(pad)) pad[i] = c], the comparison being unsigned. *)
Definition pad_set (i c : Z) (pad : list Z) : prog (list Z) :=
  n <- get (strlen pad) ;;
  if uwrap 64 i <? n then get (storeZ i c pad) else Ret pad.

(** * Arrays of threads *)

(** [pthread_t threads[size]; int thread_ids[size]]: [None] is a cell that was
    not assigned. *)
Record tarrays := TArrays { threads : list (option Z); thread_ids : list (option Z) }.
Definition tarrays_init (size : nat) : tarrays :=
  TArrays (replicate size None) (replicate size None).

(** One iteration of the creation loops: [thread_ids[i] = id], then
    [pthread_create(&threads[i], NULL, fn, &thread_ids[i])]; a failure is
    reported with the number [shown]. *)
Definition create_one (fn : string) (i id shown : Z) (s : tarrays) : prog tarrays :=
  ids <- get (storeZ i (Some id) (thread_ids s)) ;;
  _ <- get (lookupZ (threads s) i) ;;
  a <- sys (PthreadCreate fn id) ;;
  if negb (a_ret a =? 0) then
    printf "Error: Unable to create thread %d\n" [AI shown] ;;; exit (-1)
  else
    th <- get (storeZ i (Some (out_int a)) (threads s)) ;;
    Ret (TArrays th ids).

(** [for(int i = 0; i < num_threads; i++) { thread_ids[i] = i + 1; ... }] *)
Definition create_threads (num : Z) (s : tarrays) : prog tarrays :=
  for_ 0 num s (fun i s => create_one "print_thread_id" i (i + 1) (i + 1) s).

(** [pthread_join(threads[i], &threadstatus)] and the value
    [*threadstatus]; a null status is dereferenced. *)
Definition join_value (i : Z) (s : tarrays) : prog Z :=
  cell <- get (lookupZ (threads s) i) ;;
  th <- get cell ;;
  a <- sys (PthreadJoin th) ;;
  get (head (out_obj a 0)).

(** One iteration of the joining loops; pthread.c also flushes. *)
Definition join_one (flush : bool) (s : tarrays) (i : Z) (pad : list Z) : prog (list Z) :=
  pad <- pad_set i 0 pad ;;
  status <- join_value i s ;;
  printf "Joined with thread %d which exited 0x%x %s\n" [AI i; AI status; AB pad] ;;;
  when flush fflush ;;;
  emit OFree ;;;
  pad_set i 32 pad.

Definition join_threads (flush : bool) (num : Z) (s : tarrays) : prog unit :=
  for_ 0 num pad_init (join_one flush s) ;;; skip.

(** The thread function the programs with five threads share. *)
Definition print_thread_id (thread_id : Z) : prog unit :=
  exitval <- sysr (Malloc 4) ;;
  pad <- pad_set thread_id 0 pad_init ;;
  pid <- sysr Getpid ;; tid <- sysr Gettid ;;
  printf "Our thread %d is running as pid, tid: %d,%d %s\n"
    [AI thread_id; AI pid; AI tid; AB pad] ;;;
  fflush ;;;
  if exitval =? 0 then Halt Ub else Halt (PthreadExit (Some thread_id)).

(** * pthread.c *)
Module PthreadC.

Definition MAXTHREADS : Z := 20.

Definition print_thread_id (thread_id : Z) : prog unit :=
  exitval <- sysr (Malloc 4) ;;
  pad <- pad_set thread_id 0 pad_init ;;
  pid <- sysr Getpid ;; tid <- sysr Gettid ;;
  printf "Our thread %d is running as pid, tid: %d,%d %s\n"
    [AI thread_id; AI pid; AI tid; AB pad] ;;;
  fflush ;;;
  sys (Sleep 10) ;;;
  pid <- sysr Getpid ;; tid <- sysr Gettid ;;
  printf "Our thread %d is running as pid, tid: %d,%d ready to exit\n"
    [AI thread_id; AI pid; AI tid] ;;;
  fflush ;;;
  if exitval =? 0 then Halt Ub else Halt (PthreadExit (Some thread_id)).

(** [num_threads], from the command line and clamped. *)
Definition num_threads (t : target) (argv : list string) : prog Z :=
  if 1 <? argc argv then
    a <- argn argv 1 ;;
    let n := atoi t a in
    Ret (if MAXTHREADS <? n then MAXTHREADS else n)
  else Ret 5.

Definition main (t : target) (argv : list string) : prog Z :=
  n <- num_threads t argv ;;
  a0 <- argn argv 0 ;;
  printf "%s will create %d threads\n" [AS a0; AI n] ;;;
  fflush ;;;
  s <- create_threads n (tarrays_init 20) ;;
  join_threads true n s ;;;
  Ret 0.

End PthreadC.

(** * The programs that also fork

    [callsys] forks; the value of a [callsys] that falls off its end is used by
    its caller, which is undefined: [None]. *)

(** [if (argc <= 1) childpid = callsys("./test.sh"); else ... argv[1]] *)
Definition call_callsys {A} (callsys : string -> prog A) (argv : list string) : prog A :=
  if argc argv <=? 1 then callsys "./test.sh" else a1 <- argn argv 1 ;; callsys a1.

(** Five threads created and joined. *)
Definition five_threads : prog unit :=
  s <- create_threads 5 (tarrays_init 5) ;; join_threads false 5 s.

(** The wait at the end of the main functions: one [waitpid], no loop. *)
Definition wait_childpid (childpid : Z) : prog unit :=
  a <- sys (Waitpid childpid wait_options) ;;
  if a_ret a =? -1 then perror "Waitpid failed" ;;; exit (-1)
  else
    report_as "childpid " [] (out_int a) ;;;
    printf "Childpid fork done\n" [] ;;;
    fflush.

(** [execve(path, {NULL}, {NULL})] and the report of its failure. *)
Definition exec_or_report (path msg : string) (args : list arg) : prog unit :=
  r <- execve path [] ;;
  printf msg args ;;; perror "Could not execve".

(** Bed time: the pause before an [execve] or an [exit]. *)
Definition bed_time : prog unit :=
  printf "Bed time for forked child\n" [] ;;; fflush ;;;
  sys (Sleep 4) ;;;
  printf "Forked child awoke\n" [] ;;; fflush.

Module ForkAndPthread.

Definition callsys (name : string) : prog (option Z) :=
  cpid <- sysr Fork ;;
  if cpid =? -1 then perror "fork failed" ;;; exit (-1)
  else if cpid =? 0 then bed_time ;;; exit 17
  else Ret (Some cpid).

Definition main (argv : list string) : prog Z :=
  r <- call_callsys callsys argv ;;
  childpid <- get r ;;
  five_threads ;;;
  wait_childpid childpid ;;;
  Ret 0.

End ForkAndPthread.

Module ForkExecAndPthread.

(** The program's own copy of the thread function. *)
Definition print_thread_id : Z -> prog unit := print_thread_id.

Definition callsys (name : string) : prog (option Z) :=
  cpid <- sysr Fork ;;
  if cpid =? -1 then perror "fork failed" ;;; exit (-1)
  else if cpid =? 0 then
    exec_or_report name "Failed to start %s\n" [AS name] ;;; Ret None
  else Ret (Some cpid).

Definition main (argv : list string) : prog Z :=
  r <- call_callsys callsys argv ;;
  childpid <- get r ;;
  five_threads ;;;
  wait_childpid childpid ;;;
  Ret 0.

End ForkExecAndPthread.

Module ForkMulti.

(** The program's own copy of the thread function. *)
Definition print_thread_id : Z -> prog unit := print_thread_id.

Definition callsys (name : string) : prog (option Z) :=
  cpid <- sysr Fork ;;
  if cpid =? -1 then perror "fork failed" ;;; exit (-1)
  else if cpid =? 0 then
    bed_time ;;;
    exec_or_report "./hello-stat" "Failed to start ./hello-stat\n" [] ;;; Ret None
  else Ret (Some cpid).

Definition main (argv : list string) : prog Z :=
  r <- call_callsys callsys argv ;;
  childpid <- get r ;;
  five_threads ;;;
  wait_childpid childpid ;;;
  Ret 0.

End ForkMulti.

Module ForkExecWaitAndPthread.

(** The program's own copy of the thread function. *)
Definition print_thread_id : Z -> prog unit := print_thread_id.

Definition callsys (name : string) : prog (option Z) :=
  childpid <- sysr Fork ;;
  if childpid =? -1 then perror "fork failed" ;;; exit (-1)
  else if childpid =? 0 then
    bed_time ;;;
    exec_or_report "./hello-stat" "Failed to start ./hello-stat\n" [] ;;; Ret None
  else wait_childpid childpid ;;; Ret (Some childpid).

Definition main (argv : list string) : prog Z :=
  r <- call_callsys callsys argv ;;
  childpid <- get r ;;
  five_threads ;;;
  Ret 0.

End ForkExecWaitAndPthread.

(** * forkexecwait_and_pthreadchild.c: the child has the threads, the parent
    executes another program. *)
Module PthreadChild.

(** The program's own copy of the thread function. *)
Definition print_thread_id : Z -> prog unit := print_thread_id.

Definition execorproceed : prog unit :=
  childpid <- sysr Fork ;;
  if childpid =? -1 then perror "fork failed" ;;; exit (-1)
  else if childpid =? 0 then five_threads
  else
    bed_time ;;;
    exec_or_report "./hello-stat" "Failed to start ./hello-stat\n" [].

Definition main (argv : list string) : prog Z := execorproceed ;;; Ret 0.

End PthreadChild.

(** * Calls to [system] *)
Definition callsys_system (name : string) : prog unit :=
  a <- sys (System name) ;;
  let ret := a_ret a in
  when (ret =? -1) (perror "Call to system failed") ;;;
  if WIFEXITED ret then
    if WEXITSTATUS ret =? 127 then
      printf "Call to system(%s) could not be executed\n" [AS name]
    else
      printf "Call to system(%s) returned %d\n" [AS name; AI (WEXITSTATUS ret)]
  else if WIFSIGNALED ret then
    printf "Call to system(%s) killed by signal %d\n" [AS name; AI (WTERMSIG ret)]
  else if WIFSTOPPED ret then
    printf "Call to system(%s) stopped by signal %d\n" [AS name; AI (WSTOPSIG ret)]
  else when (WIFCONTINUED ret)
    (printf "Call to system(%s) continued\n" [AS name]).

Module SystemC.

Definition main (argv : list string) : prog Z :=
  callsys_system "notfound.sh" ;;; callsys_system "./test.sh" ;;; Ret 0.

End SystemC.

Module SimpleSystem.

(** The program's own copy of [callsys]. *)
Definition callsys : string -> prog unit := callsys_system.

Definition main (argv : list string) : prog Z := callsys "./test.sh" ;;; Ret 0.

End SimpleSystem.

Module SystemAndPthread.

(** The program's own copy of [callsys]. *)
Definition callsys : string -> prog unit := callsys_system.

(** The program's own copy of the thread function. *)
Definition print_thread_id : Z -> prog unit := print_thread_id.

Definition main (argv : list string) : prog Z :=
  call_callsys callsys argv ;;; five_threads ;;; Ret 0.

End SystemAndPthread.

(** * processesgalore.c: threads that fork *)
Module ProcessesGalore.

(** The child forked in iteration [forkno]. *)
Definition child (thread_id forkno : Z) : prog (option Z) :=
  pid <- sysr Getpid ;; tid <- sysr Gettid ;; ppid <- sysr Getppid ;; uid <- sysr Getuid ;;
  euid <- sysr Geteuid ;; gid <- sysr Getgid ;; egid <- sysr Getegid ;;
  printf "Child  %d of thread %d: PID %d, tid %d, parent PID %d, uid %d, euid %d, gid %d, egid %d\n"
    [AI forkno; AI thread_id; AI pid; AI tid; AI ppid; AI uid; AI euid; AI gid; AI egid] ;;;
  fflush ;;;
  sys (Sleep (5 * (forkno + 1))) ;;;
  printf "Child  %d of thread %d done\n" [AI forkno; AI thread_id] ;;;
  exit forkno.

Definition fork_one (thread_id forkno : Z) (_ : option Z) : prog (option Z) :=
  cpid <- sysr Fork ;;
  if cpid =? -1 then
    printf "Fork %d failed\n" [AI forkno] ;;; perror "fork failed" ;;; fflush ;;; exit (-1)
  else if cpid =? 0 then child thread_id forkno
  else Ret (Some cpid).

(** [do { w = waitpid(cpid, ...); ... } while (...)] *)
Definition wait_children (fuel : nat) (thread_id cpid : Z) : prog unit :=
  loop fuel tt (fun _ =>
    a <- sys (Waitpid cpid wait_options) ;;
    if a_ret a =? -1 then perror "Waitpid failed" ;;; Ret (inr tt)
    else
      report_as "Parent of thread %d: saw child %d " [AI thread_id; AI (a_ret a)] (out_int a) ;;;
      fflush ;;;
      Ret (if still_running (out_int a) then inl tt else inr tt)).

Definition do_thread (fuel : nat) (thread_id : Z) : prog unit :=
  exitval <- sysr (Malloc 4) ;;
  fflush ;;;
  let numforks := thread_id + 2 in
  pid <- sysr Getpid ;; tid <- sysr Gettid ;;
  printf "In thread %d create %d forked children PID %d, tid %d\n"
    [AI thread_id; AI numforks; AI pid; AI tid] ;;;
  fflush ;;;
  c <- for_ 0 numforks None (fork_one thread_id) ;;
  pid <- sysr Getpid ;; tid <- sysr Gettid ;;
  printf "Parent of thread %d: PID %d, tid %d made all children\n"
    [AI thread_id; AI pid; AI tid] ;;;
  fflush ;;;
  cpid <- get c ;;
  wait_children fuel thread_id cpid ;;;
  if exitval =? 0 then Halt Ub else Halt (PthreadExit (Some thread_id)).

(** The joining loop, which does not free the status. *)
Definition join_all (num : Z) (s : tarrays) : prog unit :=
  for_ 0 num pad_init (fun i pad =>
    pad <- pad_set i 0 pad ;;
    status <- join_value i s ;;
    printf "Joined with thread %d which exited 0x%x %s\n" [AI i; AI status; AB pad] ;;;
    pad_set i 32 pad) ;;; skip.

(** The arrays have five cells; the count comes from the command line. *)
Definition main (t : target) (argv : list string) : prog Z :=
  num <- (if 1 <? argc argv then a <- argn argv 1 ;; Ret (atoi t a) else Ret 5) ;;
  printf "Creating %d threads\n" [AI num] ;;;
  fflush ;;;
  s <- for_ 0 num (tarrays_init 5) (fun i s => create_one "do_thread" i i i s) ;;
  printf "%d threads made, sleep a bit\n" [AI num] ;;;
  fflush ;;;
  sys (Sleep 5) ;;;
  join_all num s ;;;
  Ret 0.

End ProcessesGalore.

(** * pthread.c: creation and joining *)

(** [pthread_create] succeeds with a handle, [pthread_join] gives a value. *)
Definition create_ans (handle : Z) : ans := Ans 0 0 [[handle]].
Definition join_ans (value : Z) : ans := Ans 0 0 [[value]].

(** The [pad] the first joining iteration leaves, and every later one prints. *)
Definition pad_cut : list Z := 0 :: replicate 10 32 ++ [0].

Definition joined_line (i v : Z) : string * list arg :=
  ("Joined with thread %d which exited 0x%x %s\n", [AI i; AI v; AB pad_cut]).

#[local] Arguments pad_set : simpl never.

Section Joining.

Lemma pad_cut_set i c : 0 <= i < 2 ^ 64 -> pad_set i c pad_cut = Ret pad_cut.
Proof.
  intros Hi. unfold pad_set. cbn [strlen pad_cut get pbind Z.eqb].
  rewrite uwrap_id by lia. destruct (Z.ltb_spec i 0); [lia|done].
Qed.

Definition filled (hs ids : list Z) (k : nat) : tarrays :=
  TArrays ((Some <$> hs) ++ replicate k None) ((Some <$> ids) ++ replicate k None).

Fixpoint create_events (i : Z) (hs : list Z) : list ev :=
  match hs with
  | [] => []
  | h :: hs => ECall (PthreadCreate "print_thread_id" (i + 1)) (create_ans h) :: create_events (i + 1) hs
  end.

Lemma create_one_run i h k pre ids sc :
  i = Z.of_nat (length pre) -> length ids = length pre ->
  run (create_one "print_thread_id" i (i + 1) (i + 1) (filled pre ids (S k))) (create_ans h :: sc) =
  ([ECall (PthreadCreate "print_thread_id" (i + 1)) (create_ans h)],
   Done (filled (pre ++ [h]) (ids ++ [i + 1]) k), sc).
Proof.
  intros Hi Hl. unfold create_one, filled. cbn [threads thread_ids replicate].
  rewrite storeZ_app by (rewrite length_fmap; lia). cbn [get pbind].
  rewrite lookupZ_app by (rewrite length_fmap; lia). cbn [get pbind sys run].
  cbn [a_ret create_ans negb]. change (negb (0 =? 0)) with false. cbn [pbind].
  rewrite storeZ_app by (rewrite length_fmap; lia). cbn [get pbind run].
  by rewrite !fmap_app, <- !app_assoc.
Qed.

Lemma create_run hs : forall i k pre ids sc,
  i = Z.of_nat (length pre) -> length ids = length pre -> (length hs <= k)%nat ->
  exists ids', run (for_n (length hs) i (filled pre ids k)
         (fun i s => create_one "print_thread_id" i (i + 1) (i + 1) s)) ((create_ans <$> hs) ++ sc) =
  (create_events i hs, Done (filled (pre ++ hs) ids' (k - length hs)), sc).
Proof.
  induction hs as [|h hs IH]; intros i k pre ids sc Hi Hl Hk.
  { exists ids. cbn. by rewrite app_nil_r, Nat.sub_0_r. }
  destruct k as [|k]; [cbn in Hk; lia|].
  destruct (IH (i + 1) k (pre ++ [h]) (ids ++ [i + 1]) sc) as [ids' E].
  { rewrite length_app. cbn. lia. }
  { rewrite !length_app. cbn. lia. }
  { cbn in Hk. lia. }
  exists ids'. cbn [length for_n fmap list_fmap app].
  rewrite run_bind, create_one_run by done.
  change (list_fmap _ _ create_ans hs) with (create_ans <$> hs). rewrite E.
  cbn [create_events app Nat.sub]. by rewrite <- app_assoc.
Qed.

Fixpoint join_events (i : Z) (hs vs : list Z) : list ev :=
  match hs, vs with
  | h :: hs, v :: vs =>
      [ECall (PthreadJoin h) (join_ans v); line_ev (joined_line i v); EOut OFflush; EOut OFree]
        ++ join_events (i + 1) hs vs
  | _, _ => []
  end.

Lemma join_one_run i h v k pre post ids pad sc :
  i = Z.of_nat (length pre) -> 0 <= i < 2 ^ 64 ->
  pad = pad_cut \/ (i = 0 /\ pad = pad_init) ->
  run (join_one true (filled (pre ++ h :: post) ids k) i pad) (join_ans v :: sc) =
  ([ECall (PthreadJoin h) (join_ans v); line_ev (joined_line i v); EOut OFflush; EOut OFree],
   Done pad_cut, sc).
Proof.
  intros Hi Hb Hp. unfold join_one.
  assert (E : pad_set i 0 pad = Ret pad_cut).
  { destruct Hp as [->|[-> ->]]; [by apply pad_cut_set|by vm_compute]. }
  rewrite E. cbn [pbind]. unfold join_value, filled. cbn [threads].
  rewrite fmap_app, <- app_assoc, fmap_cons. cbn [app].
  rewrite lookupZ_app by (rewrite length_fmap; lia).
  cbn [get pbind sys run printf emit when fflush out_obj a_out join_ans head default].
  cbn. by rewrite pad_cut_set.
Qed.

Lemma join_run hs : forall i vs k pre ids pad,
  i = Z.of_nat (length pre) -> i + Z.of_nat (length hs) < 2 ^ 64 ->
  length vs = length hs -> pad = pad_cut \/ (i = 0 /\ pad = pad_init) ->
  exists pad', run (for_n (length hs) i pad (join_one true (filled (pre ++ hs) ids k)))
                 (join_ans <$> vs) =
  (join_events i hs vs, Done pad', []).
Proof.
  induction hs as [|h hs IH]; intros i [|v vs] k pre ids pad Hi Hb Hl Hp; try done.
  { by exists pad. }
  destruct (IH (i + 1) vs k (pre ++ [h]) ids pad_cut) as [pad' E].
  { rewrite length_app. cbn. lia. }
  { cbn in Hb. lia. }
  { cbn in Hl. lia. }
  { by left. }
  exists pad'. cbn [length for_n fmap list_fmap].
  rewrite run_bind, join_one_run by (first [done|cbn in Hb; lia]).
  change (list_fmap _ _ join_ans vs) with (join_ans <$> vs).
  rewrite <- app_assoc in E. cbn [app] in E. rewrite E. done.
Qed.

End Joining.

Lemma printed_create_events i hs : printed (create_events i hs) = [].
Proof. revert i. induction hs as [|h hs IH]; intros i; [done|]. apply IH. Qed.

Lemma printed_join_events hs : forall i vs,
  length vs = length hs ->
  printed (join_events i hs vs) = imap (fun j v => joined_line (i + Z.of_nat j) v) vs.
Proof.
  induction hs as [|h hs IH]; intros i [|v vs] Hl; try done.
  cbn in Hl. cbn [join_events imap app]. cbn. rewrite Z.add_0_r. f_equal.
  unfold printed in IH. rewrite IH by lia. apply imap_ext. intros j x _. unfold compose. f_equal. lia.
Qed.

Definition create_call (i : nat) (h : Z) : call * ans :=
  (PthreadCreate "print_thread_id" (Z.of_nat i + 1), create_ans h).
Definition join_call (h v : Z) : call * ans := (PthreadJoin h, join_ans v).

Lemma calls_create_events hs : forall k,
  calls (create_events (Z.of_nat k) hs) = imap (fun j h => create_call (k + j)%nat h) hs.
Proof.
  induction hs as [|h hs IH]; intros k; [done|]. cbn [create_events imap].
  change (calls (?e :: ?l)) with (calls [e] ++ calls l). cbn [calls omap list_omap app].
  change (omap _ ?l) with (calls l). replace (Z.of_nat k + 1) with (Z.of_nat (S k)) by lia.
  rewrite IH, Nat.add_0_r. unfold create_call. f_equal.
  { do 2 f_equal. lia. }
  apply imap_ext. intros j x _. unfold compose. do 3 f_equal. lia.
Qed.

Lemma calls_join_events hs : forall i vs,
  length vs = length hs -> calls (join_events i hs vs) = zip_with join_call hs vs.
Proof.
  induction hs as [|h hs IH]; intros i [|v vs] Hl; try done.
  cbn in Hl. cbn [join_events app zip_with]. cbn. unfold calls in IH. by rewrite IH by lia.
Qed.

(** The clamped count, for a decimal argument. *)
Lemma num_threads_decimal t a0 n rest :
  32 <= long_bits t -> is_int n ->
  PthreadC.num_threads t (a0 :: show_int n :: rest) = Ret (Z.min n PthreadC.MAXTHREADS).
Proof.
  intros Ht Hn. unfold PthreadC.num_threads.
  assert (E : (1 <? argc (a0 :: show_int n :: rest)) = true).
  { unfold argc. apply Z.ltb_lt. cbn. lia. }
  rewrite E. cbn [argn lookup list_lookup get pbind]. rewrite atoi_show_int by done.
  f_equal. destruct (Z.ltb_spec PthreadC.MAXTHREADS n); lia.
Qed.

(** C15: given a count [n] on the command line and thread calls that succeed,
    pthread.c creates [min n 20] threads, giving them the numbers from 1 on in
    order, then joins each once in creation order by the handle its creation
    gave, makes no other call, and prints one line per thread with the value it
    exited with.  The blanks that are meant to indent the lines never appear: the
    first iteration cuts [pad] to the empty string and no later test lets it be
    restored. *)
Theorem pthread_main_run t a0 n rest hs vs :
  32 <= long_bits t -> is_int n -> 0 <= n ->
  length hs = Z.to_nat (Z.min n 20) -> length vs = length hs ->
  let p := PthreadC.main t (a0 :: show_int n :: rest) in
  let sc := (create_ans <$> hs) ++ (join_ans <$> vs) in
  result p sc = Done 0 /\
  printed (trace p sc) =
    ("%s will create %d threads\n", [AS a0; AI (Z.min n 20)])
      :: imap (fun i v => joined_line (Z.of_nat i) v) vs /\
  calls (trace p sc) = imap create_call hs ++ zip_with join_call hs vs /\
  cstr pad_cut = Some EmptyString.
Proof.
  intros Ht Hn H0 Hh Hv p sc. subst p sc. unfold result, trace, PthreadC.main.
  rewrite num_threads_decimal by done. unfold PthreadC.MAXTHREADS.
  cbn [argn lookup list_lookup get pbind printf emit fflush run].
  unfold create_threads, for_. rewrite Z.sub_0_r, <- Hh.
  destruct (create_run hs 0 20 [] [] (join_ans <$> vs)) as [ids E]; [done|done|lia|].
  change (filled [] [] 20) with (tarrays_init 20) in E.
  unfold join_threads, for_. rewrite Z.sub_0_r, <- Hh.
  destruct (join_run hs 0 vs (20 - length hs) [] ids pad_init) as [pad' E2];
    [done|rewrite Hh; lia|done|by right|].
  rewrite !run_bind, E. cbn [app] in *.
  rewrite !run_bind, E2. cbn. split; [done|]. rewrite !app_nil_r. split_and!; [| |done].
  - f_equal. change (omap _ ?l) with (printed l).
    by rewrite printed_app, printed_create_events, printed_join_events by done.
  - change (omap _ ?l) with (calls l). rewrite calls_app.
    rewrite calls_join_events by done. f_equal. exact (calls_create_events hs 0).
Qed.

Lemma pthread_main_run_witness :
  calls (trace (PthreadC.main arm ["pthread"; show_int 2])
    [create_ans 100; create_ans 200; join_ans 1; join_ans 2]) =
  [(PthreadCreate "print_thread_id" 1, create_ans 100); (PthreadCreate "print_thread_id" 2, create_ans 200);
   (PthreadJoin 100, join_ans 1); (PthreadJoin 200, join_ans 2)].
Proof.
  refine (proj1 (proj2 (proj2 (pthread_main_run arm "pthread" 2 [] [100; 200] [1; 2] _ _ _ _ _))));
    try (unfold is_int, int_min, int_max; cbn; lia); done.
Defined.

(** * Bounds of the thread arrays *)

(** A joined thread hands back a status. *)
Definition join_sat (c : call) (a : ans) : Prop :=
  match c with PthreadJoin _ => out_obj a 0 <> [] | _ => True end.

Section Bounds.

(** Any monitor that lets every call but [fork] pass will do. *)
Context (ok : unit -> ev -> Prop) (sat : call -> ans -> Prop).
Context (Hok : forall u e, no_fork u e -> ok u e).
Context (Hsat : forall c a, sat c a -> join_sat c a).

Notation pwp := (wp (fun (_ : unit) (_ : ev) => tt) ok sat).

(** The only way to stop early is the report of a failed creation. *)
Definition only_exit (_ : unit) (h : stop) : Prop := h = Exit (-1).

(** [i] cells of both arrays are assigned. *)
Definition created (size : nat) (i : Z) (s : tarrays) : Prop :=
  length (threads s) = size /\ length (thread_ids s) = size /\
  forall j, 0 <= j < i -> exists h, lookupZ (threads s) j = Some (Some h).

Lemma created_init size : created size 0 (tarrays_init size).
Proof. split; [apply length_replicate|]. split; [apply length_replicate|]. lia. Qed.

Lemma lookupZ_Some {A} (l : list A) i :
  0 <= i < Z.of_nat (length l) -> exists x, lookupZ l i = Some x.
Proof.
  intros H. unfold lookupZ. rewrite decide_True by lia. apply lookup_lt_is_Some_2. lia.
Qed.

Lemma lookupZ_insert {A} (l : list A) i j x :
  0 <= i < Z.of_nat (length l) -> 0 <= j ->
  lookupZ (<[Z.to_nat i:=x]> l) j = if decide (j = i) then Some x else lookupZ l j.
Proof.
  intros Hi Hj. unfold lookupZ. rewrite (decide_True (P:=0 <= j)) by done. case_decide as E.
  - subst. apply list_lookup_insert_eq. lia.
  - rewrite list_lookup_insert_ne by lia. by rewrite decide_True.
Qed.

Lemma wp_create_one fn size i id shown s :
  created size i s -> 0 <= i < Z.of_nat size ->
  pwp (create_one fn i id shown s) tt (fun _ s' => created size (i + 1) s') only_exit.
Proof.
  intros (Ht & Hi & Hc) Hb. unfold create_one.
  rewrite storeZ_Some by lia. cbn [get pbind].
  destruct (lookupZ_Some (threads s) i) as [x ->]; [lia|]. cbn [get pbind sys].
  intros a _. split; [by apply Hok|]. destruct (a_ret a =? 0); cbn [negb];
    [|cbn; split; [by apply Hok|done]].
  rewrite storeZ_Some by lia. cbn.
  split; cbn; [by rewrite length_insert|]. split; [by rewrite length_insert|].
  intros j Hj. rewrite lookupZ_insert by lia. case_decide; [eauto|]. apply Hc. lia.
Qed.

(** [*threadstatus] of a thread that was created. *)
Lemma wp_join_value {B} size num s i (f : Z -> prog B) Q H :
  created size num s -> 0 <= i < num ->
  (forall v, pwp (f v) tt Q H) -> pwp (pbind (join_value i s) f) tt Q H.
Proof.
  intros (_ & _ & Hc) Hi Hf. unfold join_value.
  destruct (Hc i Hi) as [h ->]. cbn [get pbind sys]. intros a Ha. split; [by apply Hok|].
  apply Hsat in Ha. cbn in Ha. by destruct (out_obj a 0) as [|v l]; cbn.
Qed.

Lemma wp_join_one flush size num s i pad :
  created size num s -> 0 <= i < num -> num < 2 ^ 64 ->
  pad = pad_cut \/ (i = 0 /\ pad = pad_init) ->
  pwp (join_one flush s i pad) tt (fun _ pad' => pad' = pad_cut) only_exit.
Proof.
  intros Hc Hi Hn Hp. unfold join_one.
  assert (E : pad_set i 0 pad = Ret pad_cut).
  { destruct Hp as [->|[-> ->]]; [apply pad_cut_set; lia|by vm_compute]. }
  rewrite E. cbn [pbind]. apply (wp_join_value size num); [done|done|].
  intros v. cbn. rewrite pad_cut_set by lia.
  destruct flush; cbn; repeat (split; [by apply Hok|]); done.
Qed.

End Bounds.

(** C16: whatever its arguments and whatever the thread calls answer (as long as
    a join hands back a status), pthread.c stays within its arrays of twenty
    threads: no run has undefined behaviour, and it either returns 0 or exits
    with -1 after reporting a creation that failed. *)
Theorem pthread_in_bounds t a0 args sc :
  let p := PthreadC.main t (a0 :: args) in
  Forall (ev_sat join_sat) (trace p sc) ->
  match result p sc with
  | Done v => v = 0
  | Halted h => h = Exit (-1)
  | Blocked _ => True
  end.
Proof.
  intros p. subst p. unfold trace, result.
  destruct (run _ sc) as [[tr r] sc'] eqn:E. cbn. intros Hs.
  eapply (wp_sound (fun (_ : unit) _ => tt) (fun _ _ => True) join_sat _ tt
            (fun _ v => v = 0) only_exit) in E; [by destruct r; apply E| |done].
  unfold PthreadC.main. apply (wp_bind_intro _ _ _ (fun _ n => n <= 20)).
  { unfold PthreadC.num_threads, PthreadC.MAXTHREADS. case_match; [|cbn; lia].
    destruct args as [|a1 args]; [done|]. cbn. destruct (Z.ltb_spec 20 (atoi t a1)); lia. }
  intros [] n Hn. cbn. split; [done|]. split; [done|].
  apply (wp_bind_intro _ _ _ (fun _ s => created 20 (Z.max 0 n) s)).
  { apply (wp_for _ _ _ (fun i _ s => created 20 i s)); [apply created_init| |done].
    intros i [] s Hi Hs'. apply wp_create_one; [done|done|lia]. }
  intros [] s Hc. unfold join_threads. apply wp_bind, wp_bind.
  apply (wp_for _ _ _ (fun i _ pad => pad = pad_cut \/ (i = 0 /\ pad = pad_init)));
    [by right| |done].
  intros i [] pad Hi Hp. eapply wp_mono; [| |apply (wp_join_one (fun _ _ => True) join_sat ltac:(done) ltac:(done) true 20 (Z.max 0 n))];
    [|done|done|lia|lia|done]. intros [] pad' ->. by left.
Qed.

Lemma pthread_in_bounds_witness :
  exists v, result (PthreadC.main x86_64 ["p"; "1"]) [create_ans 7; join_ans 1] = Done v /\ v = 0.
Proof.
  exists 0. split; [reflexivity|].
  exact (pthread_in_bounds x86_64 "p" ["1"] [create_ans 7; join_ans 1]
           ltac:(repeat constructor; done)).
Defined.

(** * processesgalore.c writes past its arrays *)

(** C30: the arrays of processesgalore.c have five cells and its count is not
    clamped: with a count above 5 and creations that succeed, the sixth iteration
    stores outside [thread_ids], which is undefined behaviour. *)
Theorem processesgalore_overflow t a0 n rest hs sc :
  32 <= long_bits t -> 5 < n <= int_max -> length hs = 5%nat ->
  result (ProcessesGalore.main t (a0 :: show_int n :: rest)) ((create_ans <$> hs) ++ sc) = Halted Ub.
Proof.
  intros Ht Hn Hl.
  destruct hs as [|h1 [|h2 [|h3 [|h4 [|h5 [|]]]]]]; try done.
  unfold result, ProcessesGalore.main.
  assert (E : (1 <? argc (a0 :: show_int n :: rest)) = true).
  { unfold argc. apply Z.ltb_lt. cbn. lia. }
  rewrite E. cbn [argn lookup list_lookup get pbind].
  rewrite atoi_show_int by (unfold is_int, int_min in *; unfold int_max in *; lia).
  cbn [printf emit fflush pbind run]. unfold for_.
  destruct (Z.to_nat (n - 0)) as [|[|[|[|[|[|m]]]]]] eqn:Em; try lia.
  reflexivity.
Qed.

Lemma processesgalore_overflow_witness :
  result (ProcessesGalore.main x86_64 ["p"; show_int 6]) (create_ans <$> [1; 2; 3; 4; 5]) = Halted Ub.
Proof.
  exact (processesgalore_overflow x86_64 "p" 6 [] [1; 2; 3; 4; 5] []
    ltac:(cbn; lia) ltac:(unfold int_max; lia) eq_refl).
Defined.

(** * The thread function *)

Definition blanks (n : nat) : string := repeat_char n " ".

Lemma pad_set_init id :
  0 <= id < 2 ^ 31 ->
  exists pad, pad_set id 0 pad_init = Ret pad /\ cstr pad = Some (blanks (Nat.min (Z.to_nat id) 11)).
Proof.
  intros Hid. unfold pad_set. change (strlen pad_init) with (Some 11). cbn [get pbind].
  rewrite uwrap_id by lia. destruct (Z.ltb_spec id 11).
  - assert (E : forallb (fun i => match storeZ i 0 pad_init with
                 | Some pad => bool_decide (cstr pad = Some (blanks (Z.to_nat i)))
                 | None => false end) (seqZ 0 11) = true) by (by vm_compute).
    rewrite forallb_forall in E. specialize (E id).
    rewrite <- list_elem_of_In, elem_of_seqZ in E. specialize (E ltac:(lia)).
    destruct (storeZ id 0 pad_init) as [pad|]; [|done]. exists pad. split; [done|].
    rewrite Nat.min_l by lia. by apply bool_decide_eq_true in E.
  - exists pad_init. split; [done|]. rewrite Nat.min_r by lia. done.
Qed.

(** A thread with identifier [id] prints one line indented at its end by
    [min id 11] blanks, flushes it and exits with a pointer to [id], which is
    what [pthread_join] hands to the main thread. *)
Theorem thread_function_run id exitval pid tid :
  0 <= id < 2 ^ 31 -> exitval <> 0 ->
  let p := print_thread_id id in
  let sc := [ret_ans exitval; ret_ans pid; ret_ans tid] in
  result p sc = Halted (PthreadExit (Some id)) /\
  exists pad, printed (trace p sc) =
    [("Our thread %d is running as pid, tid: %d,%d %s\n", [AI id; AI pid; AI tid; AB pad])] /\
    cstr pad = Some (blanks (Nat.min (Z.to_nat id) 11)).
Proof.
  intros Hid He p sc. subst p sc. unfold result, trace, print_thread_id.
  cbn [pbind sysr run a_ret ret_ans].
  destruct (pad_set_init id Hid) as (pad & -> & Hc). cbn.
  destruct (Z.eqb_spec exitval 0); [done|]. cbn. eauto.
Qed.

Lemma thread_function_run_witness :
  result (print_thread_id 3) [ret_ans 4096; ret_ans 50; ret_ans 53] = Halted (PthreadExit (Some 3)).
Proof. exact (proj1 (thread_function_run 3 4096 50 53 ltac:(lia) ltac:(lia))). Defined.

(** * Reports of [system] *)

(** What the callers of [system] print about the status [w] of the command. *)
Definition describe_system (name : string) (w : wstatus) : string * list arg :=
  match w with
  | Exited c =>
      if c =? 127 then ("Call to system(%s) could not be executed\n", [AS name])
      else ("Call to system(%s) returned %d\n", [AS name; AI c])
  | Signaled s _ => ("Call to system(%s) killed by signal %d\n", [AS name; AI s])
  | Stopped s => ("Call to system(%s) stopped by signal %d\n", [AS name; AI s])
  | Continued => ("Call to system(%s) continued\n", [AS name])
  end.

(** C28: [callsys] of the programs that call [system] prints exactly one line
    for every status a command can end with, the exit status 127 being reported
    as a command that could not be executed; when [system] itself fails with -1
    it calls [perror] and prints no line, none of the four tests holding. *)
Theorem callsys_system_reports name w :
  wstatus_ok w ->
  run (callsys_system name) [ret_ans (encode_status w)] =
    ([ECall (System name) (ret_ans (encode_status w)); line_ev (describe_system name w)], Done tt, []) /\
  forall e, run (callsys_system name) [err_ans e] =
    ([ECall (System name) (err_ans e); EOut (OPerror "Call to system failed")], Done tt, []).
Proof.
  intros Hw. split; [|done]. pose proof (decode_encode w Hw) as H.
  assert (Hn : (encode_status w =? -1) = false).
  { apply Z.eqb_neq. destruct w as [c|s []|s|]; cbn [encode_status wstatus_ok] in *; [|lia|lia| |lia].
    - pose proof (Z.shiftl_nonneg (c mod 256) 8). pose proof (Z.mod_pos_bound c 256). lia.
    - pose proof (Z.shiftl_nonneg s 8). lia. }
  unfold callsys_system. cbn [sys pbind run a_ret ret_ans]. rewrite Hn. cbn [when skip pbind].
  destruct w; cbn [decode_agrees describe_system] in *;
    repeat match goal with H : (_ && _) = true |- _ => apply andb_prop in H as [? ?] end;
    repeat match goal with
    | H : negb ?b = true |- _ => apply negb_true_iff in H
    | H : (_ =? _) = true |- _ => apply Z.eqb_eq in H
    | H : ?b = true |- context [?b] => rewrite H
    | H : ?b = false |- context [?b] => rewrite H
    end; cbn [when]; try done.
  - match goal with H : WEXITSTATUS _ = _ |- _ => rewrite H end. by destruct (code =? 127).
  - match goal with H : WTERMSIG _ = _ |- _ => rewrite H end. done.
  - match goal with H : WSTOPSIG _ = _ |- _ => rewrite H end. done.
Qed.

Lemma callsys_system_reports_witness :
  result (callsys_system "./test.sh") [ret_ans (encode_status (Exited 10))] = Done tt.
Proof.
  unfold result. rewrite (proj1 (callsys_system_reports "./test.sh" (Exited 10) ltac:(cbn; lia))).
  reflexivity.
Defined.

(** * Children whose [execve] fails *)

(** In forkexec_and_pthread.c, forkmulti.c and forkexecwait_and_pthread.c a
    child whose [execve] fails falls off the end of [callsys], and [main] uses
    the value of that call: its behaviour is undefined.  The child of
    fork_and_pthread.c exits with 17. *)
Theorem failed_exec_child argv name e :
  match argv with [] | [_] => name = "./test.sh" | _ :: a1 :: _ => name = a1 end ->
  let failed := err_ans e in
  result (ForkExecAndPthread.main argv) [ret_ans 0; failed] = Halted Ub /\
  result (ForkMulti.main argv) [ret_ans 0; ret_ans 0; failed] = Halted Ub /\
  result (ForkExecWaitAndPthread.main argv) [ret_ans 0; ret_ans 0; failed] = Halted Ub /\
  result (ForkAndPthread.main argv) [ret_ans 0; ret_ans 0] = Halted (Exit 17) /\
  printed (trace (ForkExecAndPthread.main argv) [ret_ans 0; failed]) =
    [("Failed to start %s\n", [AS name])].
Proof.
  unfold result, trace, ForkExecAndPthread.main, ForkMulti.main, ForkExecWaitAndPthread.main,
    ForkAndPthread.main, call_callsys, argc.
  destruct argv as [|a0 [|a1 rest]]; intros ->; [split_and!; reflexivity..|].
  assert (E : (Z.of_nat (length (a0 :: a1 :: rest)) <=? 1) = false) by (apply Z.leb_gt; cbn; lia).
  rewrite E. split_and!; reflexivity.
Qed.

Lemma failed_exec_child_witness :
  result (ForkMulti.main ["forkmulti"]) [ret_ans 0; ret_ans 0; err_ans 2] = Halted Ub.
Proof. exact (proj1 (proj2 (failed_exec_child ["forkmulti"] "./test.sh" 2 eq_refl))). Defined.
