(* ===== verification/ForkTree.v ===== *)
(** forktree_and_pthread.c: a tree of processes whose leaves create threads. *)

From S2P Require Export Pthread Fork.

Local Open Scope Z_scope.

(** * The program *)

Definition MAXTHREADS : Z := 20.

(** The function each thread runs. *)
Definition print_thread_id (thread_id : Z) : prog unit :=
  exitval <- sysr (Malloc 4) ;;
  pid <- sysr Getpid ;; tid <- sysr Gettid ;;
  printf " Thread %d is running as pid, tid: %d,%d\n" [AI thread_id; AI pid; AI tid] ;;;
  fflush ;;;
  sys (Sleep 2) ;;;
  pid <- sysr Getpid ;; tid <- sysr Gettid ;;
  printf " Thread %d is running as pid, tid: %d,%d ready to exit\n" [AI thread_id; AI pid; AI tid] ;;;
  fflush ;;;
  if exitval =? 0 then Halt Ub else Halt (PthreadExit (Some thread_id)).

(** One joining iteration prints the handle [threads[i]]. *)
Definition join_thread (s : tarrays) (i : Z) (_ : unit) : prog unit :=
  status <- join_value i s ;;
  cell <- get (lookupZ (threads s) i) ;;
  th <- get cell ;;
  printf "Joined with thread %ld which exited 0x%x\n" [AX TLong th; AI status] ;;;
  fflush ;;;
  emit OFree.

Definition spawnthreads (num_threads : Z) : prog unit :=
  let num := if MAXTHREADS <? num_threads then MAXTHREADS else num_threads in
  s <- create_threads num (tarrays_init 20) ;;
  for_ 0 num tt (join_thread s).

(** Waits until the first child ends, or none is left. *)
Definition waitchildren (fuel : nat) (levno : Z) : prog unit :=
  wait_loop fuel 0 wait_break ;;;
  printf "parent %d after all children exitted\n" [AI levno] ;;;
  fflush.

(** [depth] bounds the recursion of [spawnforks], [fuel] the wait loops. *)
Fixpoint spawnforks (depth fuel : nat) (numforks numlevels : Z) : prog unit :=
  match depth with
  | O => Halt Fuel
  | S depth =>
      if numlevels =? 0 then spawnthreads numforks
      else
        for_ 0 numforks tt (fun forkno _ =>
          cpid <- sysr Fork ;;
          if cpid =? -1 then fork_failed forkno
          else if cpid =? 0 then
            l <- ids ;;
            printf "Level %d, Child %d: PID %d, parent PID %d, uid %d, euid %d, gid %d, egid %d\n"
              (AI numlevels :: AI forkno :: l) ;;;
            fflush ;;;
            sys (Sleep 2) ;;;
            spawnforks depth fuel numforks (numlevels - 1) ;;;
            exit forkno
          else skip) ;;;
        waitchildren fuel numlevels
  end.

(** [argc > i ? atoi(argv[i]) : def] *)
Definition int_arg (t : target) (argv : list string) (i : nat) (def : Z) : prog Z :=
  if Z.of_nat i <? argc argv then a <- argn argv i ;; Ret (atoi t a) else Ret def.

Definition main (t : target) (depth fuel : nat) (argv : list string) : prog Z :=
  numforks <- int_arg t argv 1 5 ;;
  numlevels <- int_arg t argv 2 1 ;;
  a0 <- argn argv 0 ;;
  printf "%s will fork %d times on %d levels\n" [AS a0; AI numforks; AI numlevels] ;;;
  fflush ;;;
  spawnforks depth fuel numforks numlevels ;;;
  printf "%s  forked %d times on %d levels\n" [AS a0; AI numforks; AI numlevels] ;;;
  fflush ;;;
  Ret 0.

(** * The size of the tree *)

(** Processes at or below a process with [levels] levels to go. *)
Fixpoint tree_size (forks levels : nat) : nat :=
  match levels with O => 1 | S l => 1 + forks * tree_size forks l end.

(** The geometric sum. *)
Lemma tree_size_closed forks levels :
  (1 <= forks)%nat -> ((forks - 1) * tree_size forks levels + 1 = forks ^ S levels)%nat.
Proof.
  intros H. induction levels as [|l IH]; [cbn; lia|].
  cbn [tree_size]. rewrite Nat.pow_succ_r', <- IH. nia.
Qed.

(** A kernel that grants every request and whose children end in [w]. *)
Definition tree_policy (pid : Z) (w : wstatus) (c : call) : ans :=
  match c with
  | PthreadJoin _ => join_ans 1
  | c => forking_policy pid w c
  end.

Section Tree.

Context (pid : Z) (Hpid : 0 < pid) (w : wstatus) (Hw : wstatus_ok w) (Ht : terminal w = true).

Notation outc := (outcomes (tree_policy pid w) pid).
Notation pwp := (wp (fun (_ : unit) (_ : ev) => tt) no_fork (fun c a => a = tree_policy pid w c)).

Lemma tree_policy_join c a : a = tree_policy pid w c -> join_sat c a.
Proof. intros ->. by destruct c. Qed.

Lemma wp_create_ok fn size i id shown s :
  created size i s -> 0 <= i < Z.of_nat size ->
  pwp (create_one fn i id shown s) tt (fun _ s' => created size (i + 1) s') (fun _ _ => False).
Proof.
  intros (Hl & Hi & Hc) Hb. unfold create_one.
  rewrite storeZ_Some by lia. cbn [get pbind].
  destruct (lookupZ_Some (threads s) i) as [x ->]; [lia|]. cbn.
  intros a ->. split; [done|]. cbn.
  rewrite storeZ_Some by lia. cbn. split; cbn; [by rewrite length_insert|].
  split; [by rewrite length_insert|].
  intros j Hj. rewrite lookupZ_insert by lia. case_decide; [eauto|]. apply Hc. lia.
Qed.

Lemma wp_join_thread size num s i :
  created size num s -> 0 <= i < num ->
  pwp (join_thread s i tt) tt (fun _ _ => True) (fun _ _ => False).
Proof.
  intros Hc Hi. unfold join_thread.
  apply (wp_join_value no_fork _ ltac:(done) tree_policy_join size num); [done|done|].
  intros v. destruct Hc as (_ & _ & Hc). destruct (Hc i Hi) as [h ->]. cbn. auto.
Qed.

(** A leaf is one process and returns. *)
Lemma outcomes_spawnthreads num : outc (spawnthreads num) = [Done tt].
Proof.
  destruct (outcomes_single (fun (_ : unit) _ => tt) (tree_policy pid w) pid (spawnthreads num) tt
              (fun _ _ => True) (fun _ _ => False)) as (r & -> & Hr).
  - unfold spawnthreads. set (n := if _ <? num then _ else num).
    assert (Hn : n <= 20). { subst n. unfold MAXTHREADS. destruct (Z.ltb_spec 20 num); lia. }
    apply (wp_bind_intro _ _ _ (fun _ s => created 20 (Z.max 0 n) s)).
    + apply (wp_for _ _ _ (fun i _ s => created 20 i s)); [apply created_init| |done].
      intros i [] s Hi Hs. apply wp_create_ok; [done|lia].
    + intros [] s Hs. apply (wp_for _ _ _ (fun _ _ _ => True)); [done| |done].
      intros i [] [] Hi _. eapply wp_join_thread; [done|lia].
  - destruct r as [[]|h|c]; [done|by destruct Hr|done].
Qed.

Lemma outcomes_waitchildren fuel l : (0 < fuel)%nat -> outc (waitchildren fuel l) = [Done tt].
Proof.
  intros Hf. unfold waitchildren. rewrite (outcomes_wait_gen _ pid 0 w) by done.
  unfold printf, fflush, emit. cbn [pbind]. by rewrite !outcomes_emit.
Qed.

(** A process below the root ends in [exit] with its index among its siblings. *)
Definition exited (forks : Z) (r : res unit) : Prop :=
  exists j, r = Halted (Exit j) /\ 0 <= j < forks.

Lemma carry_exited {B} forks (g : unit -> prog B) l :
  Forall (exited forks) l ->
  exists l', l ≫= carry (tree_policy pid w) pid g = l' /\ length l' = length l /\
    Forall (fun r => exists j, r = Halted (Exit j) /\ 0 <= j < forks) l'.
Proof.
  induction 1 as [|r l (j & -> & Hj) Hd (l' & E & El & IH)]; [by exists []|].
  exists (Halted (Exit j) :: l'). rewrite bind_cons, E. cbn. split; [done|].
  split; [lia|]. constructor; eauto.
Qed.

(** The loop of an inner process, when each child gives rise to [m] processes,
    all of which exit. *)
Lemma outcomes_fork_loop forks (m : nat) (sub : Z -> prog unit) n i (f : unit -> prog unit) :
  0 <= i -> i + Z.of_nat n <= forks ->
  (forall j, 0 <= j < forks ->
     exists l, outc (sub j) = l /\ length l = m /\ Forall (exited forks) l) ->
  outc (f tt) = [Done tt] ->
  exists l, outc (pbind (for_n n i tt (fun forkno _ =>
      cpid <- sysr Fork ;;
      if cpid =? -1 then fork_failed forkno
      else if cpid =? 0 then sub forkno else skip)) f) = Done tt :: l /\
    length l = (n * m)%nat /\ Forall (exited forks) l.
Proof.
  intros Hi Hn Hsub Hf. revert i Hi Hn. induction n as [|n IH]; intros i Hi Hn.
  { exists []. by cbn [for_n pbind]. }
  cbn [for_n]. rewrite outcomes_assoc. unfold sysr. cbn [pbind].
  rewrite outcomes_fork. cbn [a_ret ret_ans].
  change (0 =? -1) with false. change (0 =? 0) with true.
  destruct (Z.eqb_spec pid (-1)); [lia|]. destruct (Z.eqb_spec pid 0); [lia|].
  cbn [skip pbind]. destruct (IH (i + 1)) as (l & E & Hl & Hd); [lia|lia|].
  unfold sysr in E. cbn [pbind] in E. rewrite E.
  destruct (Hsub i) as (l' & E' & Hl' & Hd'); [lia|].
  rewrite outcomes_bind, E'.
  destruct (carry_exited forks (fun s' => pbind (for_n n (i + 1) s' (fun forkno _ =>
      cpid <- sysr Fork ;;
      if cpid =? -1 then fork_failed forkno
      else if cpid =? 0 then sub forkno else skip)) f) l' Hd') as (l2 & E2 & El2 & Hd2).
  unfold sysr in E2. cbn [pbind] in E2. rewrite E2.
  exists (l ++ l2). split; [done|]. rewrite length_app. split; [cbn; lia|].
  by apply Forall_app.
Qed.

Lemma outcomes_spawnforks fuel numforks levels : forall depth,
  0 <= numforks -> (0 < fuel)%nat -> (levels < depth)%nat ->
  exists l, outc (spawnforks depth fuel numforks (Z.of_nat levels)) = Done tt :: l /\
    S (length l) = tree_size (Z.to_nat numforks) levels /\ Forall (exited numforks) l.
Proof.
  induction levels as [|levels IH]; intros depth H0 Hf Hd;
    (destruct depth as [|depth]; [lia|]); cbn [spawnforks].
  { exists []. change (Z.of_nat 0 =? 0) with true. cbv iota. rewrite outcomes_spawnthreads. by repeat split. }
  destruct (Z.eqb_spec (Z.of_nat (S levels)) 0) as [E|_]; [lia|].
  unfold for_. rewrite Z.sub_0_r.
  replace (Z.of_nat (S levels) - 1) with (Z.of_nat levels) by lia.
  edestruct (outcomes_fork_loop numforks (tree_size (Z.to_nat numforks) levels)
    (fun forkno => l <- ids ;;
        printf "Level %d, Child %d: PID %d, parent PID %d, uid %d, euid %d, gid %d, egid %d\n"
          (AI (Z.of_nat (S levels)) :: AI forkno :: l) ;;;
        fflush ;;; sys (Sleep 2) ;;;
        spawnforks depth fuel numforks (Z.of_nat levels) ;;; exit forkno)
    (Z.to_nat numforks) 0 (fun _ => waitchildren fuel (Z.of_nat (S levels)))) as (l & E & Hl & Hne).
  - lia.
  - lia.
  - intros j Hj. destruct (IH depth H0 Hf ltac:(lia)) as (l & E & Hl & Hne).
    destruct (carry_exited numforks (fun _ : unit => exit (A:=unit) j) l Hne) as (l2 & E2 & El2 & Hd2).
    exists (Halted (Exit j) :: l2). split.
    + unfold ids, printf, fflush, emit, sys, sysr. cbn [pbind].
      do 6 (rewrite outcomes_vis by done; cbn [pbind a_ret]).
      rewrite !outcomes_emit. rewrite outcomes_vis by done. cbn [pbind].
      by rewrite outcomes_bind, E, bind_cons, E2.
    + split; [cbn; lia|]. constructor; [by exists j|done].
  - by apply outcomes_waitchildren.
  - exists l. split; [exact E|]. split; [|done]. cbn [tree_size]. rewrite Hl. lia.
Qed.

End Tree.

(** C9: given [forks] and [levels] on its command line, and a kernel that grants
    every request, the program gives rise to
    [1 + forks + ... + forks ^ levels] processes: the root returns 0 and every
    other process exits with its index among its siblings. *)
Theorem forktree_family pid w t a0 forks levels depth fuel :
  0 < pid -> wstatus_ok w -> terminal w = true ->
  32 <= long_bits t -> 0 <= forks <= int_max -> 0 <= levels <= int_max ->
  (Z.to_nat levels < depth)%nat -> (0 < fuel)%nat ->
  let size := tree_size (Z.to_nat forks) (Z.to_nat levels) in
  exists l,
    outcomes (tree_policy pid w) pid
      (main t depth fuel [a0; show_int forks; show_int levels]) = Done 0 :: l /\
    S (length l) = size /\
    Forall (fun r => exists j, r = Halted (Exit j) /\ 0 <= j < forks) l /\
    (0 < forks -> ((Z.to_nat forks - 1) * size + 1 = Z.to_nat forks ^ S (Z.to_nat levels))%nat).
Proof.
  intros Hp Hw Ht Hl Hf Hv Hd Hfu size.
  assert (I : forall z, 0 <= z <= int_max -> is_int z).
  { intros z. unfold is_int, int_min, int_max. lia. }
  unfold main, int_arg, argc. cbn [length Z.of_nat]. cbn [argn lookup list_lookup get pbind].
  change (Z.of_nat 1 <? Z.of_nat 3) with true. change (Z.of_nat 2 <? Z.of_nat 3) with true.
  rewrite !atoi_show_int by auto.
  unfold printf, fflush, emit. cbn [pbind]. rewrite !outcomes_emit, outcomes_bind.
  destruct (outcomes_spawnforks pid Hp w Hw Ht fuel forks (Z.to_nat levels) depth)
    as (l & E & Hs & Hx); [lia|done|done|].
  rewrite Z2Nat.id in E by lia. rewrite E, bind_cons.
  cbn [carry pbind]. rewrite !outcomes_emit, outcomes_ret.
  edestruct (carry_exited pid w (B:=Z) forks) as (l2 & E2 & El2 & Hd2); [exact Hx|].
  rewrite E2. exists l2. split; [done|]. split; [by rewrite El2|]. split; [done|].
  intros Hpos. apply tree_size_closed. lia.
Qed.

Lemma forktree_family_witness :
  exists l, outcomes (tree_policy 7 (Exited 0)) 7
    (main mips 4 1 ["forktree"; show_int 2; show_int 3]) = Done 0 :: l /\ length l = 14%nat.
Proof.
  destruct (forktree_family 7 (Exited 0) mips "forktree" 2 3 4 1) as (l & E & Hl & _);
    try (unfold int_max; cbn; lia).
  exists l. split; [exact E|]. vm_compute in Hl. by injection Hl.
Defined.

(** * A negative number of levels *)

(** The recursion of [spawnforks] stops at level 0 only.  With a negative
    number of levels and at least one fork, there is for every depth a process
    that has recursed that deep and would go on: the tree of processes is
    unbounded. *)
Theorem negative_levels_unbounded pid pol depth fuel forks levels :
  0 < pid -> 0 < forks -> levels < 0 ->
  Halted Fuel ∈ outcomes pol pid (spawnforks depth fuel forks levels).
Proof.
  intros Hp Hf. revert levels. induction depth as [|depth IH]; intros levels Hl.
  { cbn. rewrite outcomes_halt. by apply list_elem_of_singleton. }
  cbn [spawnforks]. destruct (Z.eqb_spec levels 0); [lia|]. unfold for_.
  destruct (Z.to_nat (forks - 0)) as [|m] eqn:E; [lia|]. cbn [for_n].
  rewrite outcomes_assoc. unfold sysr at 1. cbn [pbind]. rewrite outcomes_fork.
  apply elem_of_app. right. cbn [a_ret ret_ans].
  change (0 =? -1) with false. change (0 =? 0) with true. cbv iota.
  rewrite outcomes_bind. apply list_elem_of_bind. exists (Halted Fuel). split.
  { cbn. by apply list_elem_of_singleton. }
  unfold ids, printf, fflush, emit, sys, sysr. cbn [pbind].
  do 6 (rewrite outcomes_vis by done; cbn [pbind]).
  rewrite !outcomes_emit. rewrite outcomes_vis by done. cbn [pbind].
  rewrite outcomes_bind. apply list_elem_of_bind. exists (Halted Fuel). split.
  { cbn. by apply list_elem_of_singleton. }
  apply IH. lia.
Qed.

Lemma negative_levels_unbounded_witness :
  Halted Fuel ∈ outcomes (tree_policy 7 (Exited 0)) 7 (spawnforks 3 1 1 (-1)).
Proof. apply (negative_levels_unbounded 7 (tree_policy 7 (Exited 0)) 3 1 1 (-1)); lia. Defined.

(** * Flushing and fuel *)

Lemma clean_spawnthreads num :
  clean (spawnthreads num) false (fun d _ => d = false).
Proof.
  unfold clean, spawnthreads, create_threads.
  apply (wp_bind_intro _ _ _ (fun d _ => d = false)).
  - apply (wp_for _ _ _ (fun _ d _ => d = false)); [done| |auto].
    intros i d s _ ->. unfold create_one.
    destruct (storeZ i _ _); [|done]. cbn. destruct (lookupZ _ i); [|done]. cbn.
    intros a _. split; [done|]. destruct (a_ret a =? 0); cbn; [|done].
    by destruct (storeZ i _ _).
  - intros d s ->. apply (wp_for _ _ _ (fun _ d _ => d = false)); [done| |auto].
    intros i d [] _ ->. unfold join_thread, join_value.
    destruct (lookupZ _ i) as [[h|]|]; cbn; try done.
    intros a _. split; [done|]. by destruct (head _).
Qed.

Lemma clean_spawnforks depth fuel forks levels :
  clean (spawnforks depth fuel forks levels) false (fun d _ => d = false).
Proof.
  revert levels. induction depth as [|depth IH]; intros levels; [done|].
  cbn [spawnforks]. destruct (levels =? 0); [apply clean_spawnthreads|].
  apply (wp_bind_intro _ _ _ (fun d _ => d = false)).
  - apply (wp_for _ _ _ (fun _ d _ => d = false)); [done| |auto].
    intros i d [] _ ->. cbn. intros a _. split; [done|].
    destruct (a_ret a =? -1); [cbn; done|]. destruct (a_ret a =? 0); [|done].
    cbn. repeat (intros ? _; split; [done|]). split; [done|]. split; [done|].
    intros ? _. split; [done|]. apply wp_bind. eapply wp_mono; [| |apply IH]; [|done].
    intros d [] ->. done.
  - intros d [] ->. unfold waitchildren. apply wp_bind. by apply clean_wait.
Qed.

(** C31: in every run of forktree_and_pthread.c, whatever the arguments, the
    buffering of [stdout] and the kernel's answers, each process of the tree
    writes exactly the lines it printed itself. *)
Theorem forktree_flush t depth fuel argv m sc :
  own_output m (trace (main t depth fuel argv) sc) =
  own_printed (trace (main t depth fuel argv) sc).
Proof.
  apply flush_safe_own_output, (clean_flush_safe _ (fun _ _ => True)).
  unfold clean, main.
  assert (G : forall i d, wp dirty_step dirty_ok (fun _ _ => True) (int_arg t argv i d) false
                       (fun d _ => d = false) (fun _ _ => True)).
  { intros i d. unfold int_arg, argn. case_match; [|done]. by destruct (argv !! i). }
  eapply wp_bind_intro; [apply G|]. intros d n ->.
  eapply wp_bind_intro; [apply G|]. intros d l ->.
  apply wp_bind. unfold argn. destruct (argv !! 0%nat); [|done].
  cbn. split; [done|]. split; [done|]. apply wp_bind.
  eapply wp_mono; [| |apply clean_spawnforks]; [|done]. intros d [] ->. done.
Qed.

Lemma enough_spawnthreads num : enough (fun _ => spawnthreads num).
Proof.
  unfold spawnthreads, create_threads, create_one, join_thread, join_value, for_, sys, printf,
    fflush, emit, exit. enough_tac.
Qed.

Lemma enough_spawnforks forks levels : forall depth,
  (levels < depth)%nat -> enough (fun n => spawnforks depth n forks (Z.of_nat levels)).
Proof.
  induction levels as [|levels IH]; intros [|depth] Hd; try lia; cbn [spawnforks].
  { apply enough_spawnthreads. }
  apply enough_if; [apply enough_spawnthreads|].
  replace (Z.of_nat (S levels) - 1) with (Z.of_nat levels) by lia.
  unfold for_, waitchildren, fork_failed, ids, sys, sysr, printf, perror, fflush, emit, exit, skip.
  apply enough_bind; [|intros; apply enough_bind; [by apply enough_wait_loop; right|intros; enough_tac]].
  apply enough_for. intros ? ?.
  enough_tac; try done. all: try (apply IH; lia).
Qed.

(** With a number of levels that is not negative, a recursion depth above it
    and fuel above the length of the script are enough for every run. *)
Theorem forktree_enough t a0 forks levels depth :
  32 <= long_bits t -> is_int forks -> 0 <= levels <= int_max -> (Z.to_nat levels < depth)%nat ->
  enough (fun n => main t depth n [a0; show_int forks; show_int levels]).
Proof.
  intros Ht Hf Hl Hd. unfold main, int_arg. cbn [argn lookup list_lookup get pbind].
  change (Z.of_nat 1 <? argc _) with true. change (Z.of_nat 2 <? argc _) with true.
  cbv iota. cbn [pbind].
  rewrite !atoi_show_int by (unfold is_int, int_min, int_max in *; lia).
  unfold printf, fflush, emit. apply enough_emit, enough_emit.
  apply enough_bind; [|intros; enough_tac].
  pose proof (enough_spawnforks forks (Z.to_nat levels) depth Hd) as H.
  by rewrite Z2Nat.id in H by lia.
Qed.

Lemma forktree_enough_witness :
  result (main arm 2 1 ["forktree"; show_int 2; show_int 1]) [] <> Halted Fuel.
Proof.
  apply (forktree_enough arm "forktree" 2 1 2);
    try (unfold is_int, int_min, int_max; cbn; lia).
Defined.
