(* ===== verification/Clock.v ===== *)
(** The clock programs: clock.c (display of the POSIX clocks and of a dynamic
    one) and timeclock64.c (the 64-bit time system calls of 32-bit machines). *)

From S2P Require Export Logic.

Local Open Scope Z_scope.

Definition EXIT_SUCCESS : Z := 0.
Definition EXIT_FAILURE : Z := 1.
Definition CLOCK_REALTIME : Z := 0.
Definition CLOCK_MONOTONIC : Z := 1.
Definition CLOCK_THREAD_CPUTIME_ID : Z := 3.
Definition CLOCK_BOOTTIME : Z := 7.
Definition CLOCK_TAI : Z := 11.
Definition O_RDWR : Z := 2.

(** A [struct timespec] the kernel filled in. *)
Definition tv_sec (a : ans) : Z := default 0 (out_obj a 0 !! 0%nat).
Definition tv_nsec (a : ans) : Z := default 0 (out_obj a 0 !! 1%nat).

(** * clock.c *)
Module ClockC.

Definition SECS_IN_DAY : Z := 24 * 60 * 60.

(** The four fields of the broken-down time; C's [/] and [%] truncate. *)
Definition days (sec : Z) : Z := Z.quot sec SECS_IN_DAY.
Definition hours (sec : Z) : Z := Z.quot (to_int (Z.rem sec SECS_IN_DAY)) 3600.
Definition minutes (sec : Z) : Z := Z.quot (to_int (Z.rem sec 3600)) 60.
(** [(int) ts.tv_sec % 60]: the cast applies to [tv_sec]. *)
Definition seconds (sec : Z) : Z := Z.rem (to_int sec) 60.

Definition displayClock (clock : Z) (name : string) (showRes : bool) : prog unit :=
  a <- sys (ClockGettime clock) ;;
  if a_ret a =? -1 then perror "clock_gettime" ;;; exit EXIT_FAILURE
  else
    let sec := tv_sec a in
    printf "%-15s: [%08lx,%08lx] %10jd.%03ld ("
      [AS name; AX TLong sec; AX TLong (tv_nsec a); AX TMax sec;
       AX TLong (Z.quot (tv_nsec a) 1000000)] ;;;
    when (0 <? days sec) (printf "%ld days + " [AX TLong (days sec)]) ;;;
    printf "%2dh %2dm %2ds" [AI (hours sec); AI (minutes sec); AI (seconds sec)] ;;;
    printf ")\n" [] ;;;
    r <- sys (ClockGetres clock) ;;
    if a_ret r =? -1 then perror "clock_getres" ;;; exit EXIT_FAILURE
    else when showRes
      (printf "     resolution: %10jd.%09ld\n" [AX TMax (tv_sec r); AX TLong (tv_nsec r)]).

(** [((~(clockid_t) (fd) << 3) | 3)] *)
Definition FD_TO_CLOCKID (fd : Z) : Z := to_int (Z.lor (Z.shiftl (Z.lnot fd) 3) 3).

(** [tai] and [boottime] say whether the headers define those clocks. *)
Definition main (tai boottime : bool) (argv : list string) : prog Z :=
  let showRes := 1 <? argc argv in
  displayClock CLOCK_REALTIME "CLOCK_REALTIME" showRes ;;;
  when tai (displayClock CLOCK_TAI "CLOCK_TAI" showRes) ;;;
  displayClock CLOCK_MONOTONIC "CLOCK_MONOTONIC" showRes ;;;
  when boottime (displayClock CLOCK_BOOTTIME "CLOCK_BOOTTIME" showRes) ;;;
  fd <- sysr (Open "/dev/ptp0" O_RDWR 0) ;;
  displayClock (FD_TO_CLOCKID fd) "/dev/ptp0" showRes ;;;
  exit EXIT_SUCCESS.

End ClockC.

(** * timeclock64.c *)
Module TimeClock64.

Section Build.

(** The build: which [SYS_...]/[__NR_...] macros the headers define, the text of
    [strerror] and the target. *)
Context (t : target) (defined : string -> bool) (strerror : Z -> string).

(** [#if defined(SYS_x) || defined(__NR_x)] / [#ifdef SYS_x] around a probe. *)
Definition probe (x : string) (body : prog unit) : prog unit :=
  if defined ("SYS_" +:+ x) || defined ("__NR_" +:+ x) then
    if defined ("SYS_" +:+ x) then body
    else printf (x +:+ " macro not present (skipping)\n") []
  else printf (x +:+ ": no SYS_" +:+ x +:+ "/__NR_" +:+ x +:+ " on this build\n") [].

(** [perr(what, r)]; [errno] is what the failing call set. *)
Definition perr (what : string) (a : ans) : prog unit :=
  if a_ret a =? -1 then
    printf "%s -> retval=-1 errno=%d (%s)\n" [AS what; AI (a_errno a); AS (strerror (a_errno a))]
  else printf "%s -> retval=%ld\n" [AS what; AX TLong (a_ret a)].

(** A raw system call, its label and its result. *)
Definition call_and_report (label what : string) (c : call) : prog ans :=
  a <- sys c ;; printf label [] ;;; perr what a ;;; Ret a.

(** The clock probes; [ts] is the time read by the first one, or zero. *)
Definition probe_gettime : prog (Z * Z) :=
  if defined "SYS_clock_gettime64" then
    a <- call_and_report "clock_gettime64: " "clock_gettime64"
           (Syscall "clock_gettime64" [CLOCK_REALTIME]) ;;
    if a_ret a =? 0 then
      printf "  -> got sec=%lld nsec=%ld\n" [AX TLLong (tv_sec a); AX TLong (tv_nsec a)] ;;;
      Ret (tv_sec a, tv_nsec a)
    else Ret (0, 0)
  else probe "clock_gettime64" skip ;;; Ret (0, 0).

Definition probe_settime (ts : Z * Z) : prog unit :=
  probe "clock_settime64"
    (call_and_report "clock_settime64: " "clock_settime64"
       (Syscall "clock_settime64" [CLOCK_REALTIME; ts.1; ts.2]) ;;; skip).

Definition probe_getres : prog unit :=
  probe "clock_getres_time64"
    (a <- call_and_report "clock_getres_time64: " "clock_getres_time64"
            (Syscall "clock_getres_time64" [CLOCK_REALTIME]) ;;
     when (a_ret a =? 0)
       (printf "  -> res sec=%lld nsec=%ld\n" [AX TLLong (tv_sec a); AX TLong (tv_nsec a)])).

Definition probe_nanosleep : prog unit :=
  probe "clock_nanosleep_time64"
    (call_and_report "clock_nanosleep_time64 (1s): " "clock_nanosleep_time64"
       (Syscall "clock_nanosleep_time64" [CLOCK_REALTIME; 0; 1; 0]) ;;; skip).

Definition probe_adjtime : prog unit :=
  probe "clock_adjtime64"
    (call_and_report "clock_adjtime64: " "clock_adjtime64"
       (Syscall "clock_adjtime64" [CLOCK_REALTIME; 0]) ;;; skip).

(** [struct itimerspec64]: interval, then value. *)
Definition it_value_sec (a : ans) : Z := default 0 (out_obj a 0 !! 2%nat).
Definition it_value_nsec (a : ans) : Z := default 0 (out_obj a 0 !! 3%nat).

(** The settime and gettime probes of a timer: [x] is [timerfd] or [timer]. *)
Definition probe_set (x : string) (id secs : Z) : prog unit :=
  probe (x +:+ "_settime64")
    (call_and_report (x +:+ "_settime64: ") (x +:+ "_settime64")
       (Syscall (x +:+ "_settime64") [id; 0; 0; 0; secs; 0]) ;;; skip).

Definition probe_get (x line : string) (id : Z) : prog unit :=
  probe (x +:+ "_gettime64")
    (a <- call_and_report (x +:+ "_gettime64: ") (x +:+ "_gettime64")
            (Syscall (x +:+ "_gettime64") [id]) ;;
     when (a_ret a =? 0) (printf line [AX TLLong (it_value_sec a); AX TLong (it_value_nsec a)])).

Definition timerfd_tests : prog unit :=
  a <- sys (TimerfdCreate CLOCK_REALTIME) ;;
  if a_ret a <? 0 then
    printf "timerfd_create failed: %s (skipping timerfd_*64 tests)\n" [AS (strerror (a_errno a))]
  else
    printf "timerfd created fd=%d\n" [AI (a_ret a)] ;;;
    probe_set "timerfd" (a_ret a) 2 ;;;
    probe_get "timerfd" "  -> next expiration in %lld sec %ld nsec\n" (a_ret a) ;;;
    sys (Close (a_ret a)) ;;; skip.

Definition timer_tests : prog unit :=
  a <- sys (TimerCreate CLOCK_REALTIME) ;;
  if a_ret a =? 0 then
    let tid := out_int a in
    printf "posix timer created (timer_t=%p)\n" [AX TPtr tid] ;;;
    probe_set "timer" tid 5 ;;;
    probe_get "timer" "  -> timer next in %lld sec %ld nsec\n" tid ;;;
    sys (TimerDelete tid) ;;; skip
  else
    printf "timer_create failed: %s (skipping timer_gettime64/timer_settime64)\n"
      [AS (strerror (a_errno a))].

Definition main : prog Z :=
  printf "time64-syscall test program\n" [] ;;;
  printf "sizeof(time_t)=%zu, sizeof(long)=%zu\n" [AX TSize (long_bits t / 8); AX TSize (long_bits t / 8)] ;;;
  ts <- probe_gettime ;;
  probe_settime ts ;;;
  probe_getres ;;;
  probe_nanosleep ;;;
  probe_adjtime ;;;
  timerfd_tests ;;;
  timer_tests ;;;
  printf "done.\n" [] ;;;
  Ret 0.

End Build.

End TimeClock64.

(** * The broken-down time *)

Import ClockC.

(** C27: for a time before 2038 displayClock shows days, hours, minutes and
    seconds within their ranges that add up to the seconds read from the clock. *)
Theorem displayClock_breakdown sec :
  0 <= sec < 2 ^ 31 ->
  sec = days sec * SECS_IN_DAY + hours sec * 3600 + minutes sec * 60 + seconds sec /\
  0 <= hours sec < 24 /\ 0 <= minutes sec < 60 /\ 0 <= seconds sec < 60.
Proof.
  intros Hs. unfold days, hours, minutes, seconds, SECS_IN_DAY.
  rewrite !Z.rem_mod_nonneg by lia. change (24 * 60 * 60) with 86400.
  pose proof (Z.mod_pos_bound sec 86400). pose proof (Z.mod_pos_bound sec 3600).
  rewrite !to_int_id by (unfold is_int, int_min, int_max; lia).
  rewrite Z.rem_mod_nonneg by lia. rewrite !Z.quot_div_nonneg by lia.
  pose proof (Z.div_mod sec 86400 ltac:(lia)) as Ed.
  pose proof (Z.div_mod (sec mod 86400) 3600 ltac:(lia)) as Eh.
  pose proof (Z.div_mod (sec mod 3600) 60 ltac:(lia)) as Em.
  assert (E1 : (sec mod 86400) mod 3600 = sec mod 3600) by (apply Z.mod_mod_divide; by exists 24).
  assert (E2 : (sec mod 3600) mod 60 = sec mod 60) by (apply Z.mod_mod_divide; by exists 60).
  rewrite E1 in Eh. rewrite E2 in Em.
  split; [clear -Ed Eh Em; lia|].
  split; [split; [apply Z.div_pos|apply Z.div_lt_upper_bound]; lia|].
  split; [split; [apply Z.div_pos|apply Z.div_lt_upper_bound]; lia|].
  apply Z.mod_pos_bound. lia.
Qed.

Lemma displayClock_breakdown_witness :
  100000 = days 100000 * SECS_IN_DAY + hours 100000 * 3600 + minutes 100000 * 60 + seconds 100000.
Proof. exact (proj1 (displayClock_breakdown 100000 ltac:(lia))). Defined.

(** From 2038 on (until the cast wraps again) the cast [(int) ts.tv_sec]
    makes the seconds that displayClock shows zero or negative, and they are
    never the seconds of the minute. *)
Theorem displayClock_2038 sec :
  2 ^ 31 <= sec < 2 ^ 32 ->
  -60 < seconds sec <= 0 /\ seconds sec <> sec mod 60.
Proof.
  intros Hs. unfold seconds.
  assert (E : to_int sec = - (2 ^ 32 - sec)).
  { unfold to_int, swrap. change (32 - 1) with 31.
    replace (sec + 2 ^ 31) with (sec - 2 ^ 31 + 1 * 2 ^ 32) by lia.
    rewrite Z.mod_add, Z.mod_small by lia. lia. }
  rewrite E, Z.rem_opp_l, Z.rem_mod_nonneg by lia.
  pose proof (Z.mod_pos_bound (2 ^ 32 - sec) 60 ltac:(lia)) as B1.
  pose proof (Z.mod_pos_bound sec 60 ltac:(lia)) as B2.
  split; [clear -B1; lia|]. intros Heq.
  assert (H1 : sec mod 60 = 0) by (clear -B1 B2 Heq; lia).
  assert (H2 : (2 ^ 32 - sec) mod 60 = 0) by (clear -B1 B2 Heq; lia).
  apply Z.mod_divide in H1 as [a Ha], H2 as [b Hb]; lia.
Qed.

Lemma displayClock_2038_witness : seconds (2 ^ 31) = -8 /\ -60 < seconds (2 ^ 31) <= 0.
Proof. split; [reflexivity|]. exact (proj1 (displayClock_2038 (2 ^ 31) ltac:(lia))). Defined.

(** * The dynamic clock *)

Lemma FD_TO_CLOCKID_eq fd : FD_TO_CLOCKID fd = to_int (- 8 * fd - 5).
Proof.
  unfold FD_TO_CLOCKID, Z.lnot. f_equal.
  rewrite Z.shiftl_mul_pow2 by lia. change (2 ^ 3) with 8.
  assert (D : Z.land (Z.pred (- fd) * 8) 3 = 0); [|rewrite <- Z.lxor_lor, <- Z.add_nocarry_lxor by done; lia].
  apply Z.bits_inj'. intros n Hn. rewrite Z.land_spec, Z.bits_0.
  destruct (Z.ltb_spec n 3).
  - replace (Z.pred (- fd) * 8) with (Z.shiftl (Z.pred (- fd)) 3)
      by (rewrite Z.shiftl_mul_pow2; lia).
    by rewrite Z.shiftl_spec_low.
  - change 3 with (Z.ones 2) at 1. rewrite Z.ones_spec_high by lia. apply andb_false_r.
Qed.

(** FD_TO_CLOCKID encodes a descriptor so that the kernel's decoding
    [~(id >> 3)] gives it back, with the tag 3 in the low bits; but for the -1 of
    a failed open it is 3, the thread's CPU clock, which clock.c then displays
    under the device's name. *)
Theorem FD_TO_CLOCKID_decode fd :
  0 <= fd < 2 ^ 28 ->
  Z.lnot (Z.shiftr (FD_TO_CLOCKID fd) 3) = fd /\ Z.land (FD_TO_CLOCKID fd) 7 = 3 /\
  FD_TO_CLOCKID (-1) = CLOCK_THREAD_CPUTIME_ID /\
  forall e, result (ClockC.main false false ["clock"])
      [Ans 0 0 [[0; 0]]; Ans 0 0 [[0; 1]]; Ans 0 0 [[0; 0]]; Ans 0 0 [[0; 1]]; err_ans e]
    = Blocked (ClockGettime CLOCK_THREAD_CPUTIME_ID).
Proof.
  intros Hfd. rewrite FD_TO_CLOCKID_eq, to_int_id by (unfold is_int, int_min, int_max; lia).
  split_and!.
  - rewrite Z.shiftr_div_pow2 by lia. change (2 ^ 3) with 8.
    rewrite <- (Z.div_unique_pos (-8 * fd - 5) 8 (- fd - 1) 3) by lia. unfold Z.lnot. lia.
  - change 7 with (Z.ones 3). rewrite Z.land_ones by lia. change (2 ^ 3) with 8.
    symmetry. apply (Z.mod_unique_pos _ _ (- fd - 1)); lia.
  - reflexivity.
  - done.
Qed.

Lemma FD_TO_CLOCKID_decode_witness : Z.lnot (Z.shiftr (FD_TO_CLOCKID 5) 3) = 5.
Proof. exact (proj1 (FD_TO_CLOCKID_decode 5 ltac:(lia))). Defined.

(** * timeclock64.c: only calls the build knows, and every timer released *)

(** A timer by the descriptor or the identifier the call that made it gave. *)
Inductive timer := FdTimer (fd : Z) | PosixTimer (id : Z).
#[global] Instance timer_eq_dec : EqDecision timer.
Proof. solve_decision. Defined.

(** The timer a raw call sets or reads, if it does. *)
Definition on_timer (x : string) (args : list Z) : option timer :=
  match args with
  | id :: _ =>
      if decide (x ∈ ["timerfd_settime64"; "timerfd_gettime64"]) then Some (FdTimer id)
      else if decide (x ∈ ["timer_settime64"; "timer_gettime64"]) then Some (PosixTimer id)
      else None
  | [] => None
  end.

(** The monitor keeps the timers that exist. *)
Definition timers_step (s : list timer) (e : ev) : list timer :=
  match e with
  | ECall (TimerfdCreate _) a => if a_ret a <? 0 then s else FdTimer (a_ret a) :: s
  | ECall (TimerCreate _) a => if a_ret a =? 0 then PosixTimer (out_int a) :: s else s
  | ECall (Close fd) _ => filter (fun x => x <> FdTimer fd) s
  | ECall (TimerDelete id) _ => filter (fun x => x <> PosixTimer id) s
  | _ => s
  end.

(** A raw call is made only when its number is known to the build; a timer is
    set, read and released only while it exists, and nothing else is closed. *)
Definition timers_ok (defined : string -> bool) (s : list timer) (e : ev) : Prop :=
  match e with
  | ECall (Syscall x args) _ =>
      defined ("SYS_" +:+ x) = true /\
      match on_timer x args with Some tm => tm ∈ s | None => True end
  | ECall (Close fd) _ => FdTimer fd ∈ s
  | ECall (TimerDelete id) _ => PosixTimer id ∈ s
  | _ => True
  end.

Section Timers.

Context (t : target) (defined : string -> bool) (strerror : Z -> string).
Notation twp := (wp timers_step (timers_ok defined) (fun _ _ => True)).
Notation never := (fun (_ : list timer) (_ : stop) => False).

Lemma timers_probe x body s :
  (defined ("SYS_" +:+ x) = true -> twp body s (fun s' _ => s' = s) never) ->
  twp (TimeClock64.probe defined x body) s (fun s' _ => s' = s) never.
Proof.
  intros H. unfold TimeClock64.probe. destruct (defined ("SYS_" +:+ x)); cbn; [by apply H|].
  by destruct (defined _).
Qed.

Lemma timers_call label what x args s :
  defined ("SYS_" +:+ x) = true ->
  match on_timer x args with Some tm => tm ∈ s | None => True end ->
  twp (TimeClock64.call_and_report strerror label what (Syscall x args)) s (fun s' _ => s' = s) never.
Proof.
  intros H Ht. unfold TimeClock64.call_and_report, TimeClock64.perr. cbn -[on_timer]. intros a _.
  split; [done|]. split; [done|]. by destruct (a_ret a =? -1).
Qed.

(** The two kinds of timer with the names of their calls. *)
Definition timer_of (x : string) (id : Z) (tm : timer) : Prop :=
  x = "timerfd" /\ tm = FdTimer id \/ x = "timer" /\ tm = PosixTimer id.

Lemma timers_set x id tm secs :
  timer_of x id tm ->
  twp (TimeClock64.probe_set defined strerror x id secs) [tm] (fun s' _ => s' = [tm]) never.
Proof.
  intros Hx. apply timers_probe. intros H. apply wp_bind.
  eapply wp_mono; [| |apply timers_call]; [|done|done|].
  - by intros s' a ->.
  - destruct Hx as [[-> ->]|[-> ->]]; apply list_elem_of_here.
Qed.

Lemma timers_get x line id tm :
  timer_of x id tm ->
  twp (TimeClock64.probe_get defined strerror x line id) [tm] (fun s' _ => s' = [tm]) never.
Proof.
  intros Hx. apply timers_probe. intros H. apply wp_bind.
  eapply wp_mono; [| |apply timers_call]; [|done|done|].
  - intros s' a ->. by destruct (a_ret a =? 0).
  - destruct Hx as [[-> ->]|[-> ->]]; apply list_elem_of_here.
Qed.

(** Both timer sections create, probe and release one timer. *)
Lemma timerfd_section :
  twp (TimeClock64.timerfd_tests defined strerror) [] (fun s _ => s = []) never.
Proof.
  unfold TimeClock64.timerfd_tests. cbn [pbind sys wp]. intros a _. split; [done|].
  cbn [timers_step]. destruct (a_ret a <? 0); [done|].
  cbn [pbind printf emit wp timers_step]. split; [done|].
  eapply wp_bind_intro; [by apply timers_set; left|]. intros s u ->.
  eapply wp_bind_intro; [by apply timers_get; left|]. intros s u' ->.
  cbn [pbind sys wp timers_ok timers_step]. intros b _. split; [by apply list_elem_of_here|].
  by rewrite filter_cons_False by auto.
Qed.

Lemma timer_section :
  twp (TimeClock64.timer_tests defined strerror) [] (fun s _ => s = []) never.
Proof.
  unfold TimeClock64.timer_tests. cbn [pbind sys wp]. intros a _. split; [done|].
  cbn [timers_step]. destruct (a_ret a =? 0); [|done].
  cbn [pbind printf emit wp timers_step]. split; [done|].
  eapply wp_bind_intro; [by apply timers_set; right|]. intros s u ->.
  eapply wp_bind_intro; [by apply timers_get; right|]. intros s u' ->.
  cbn [pbind sys wp timers_ok timers_step]. intros b _. split; [by apply list_elem_of_here|].
  by rewrite filter_cons_False by auto.
Qed.

(** C32: on every build and for every sequence of answers, timeclock64.c makes a
    raw system call only when the build defines its [SYS_] number; it sets, reads
    and releases a timer only under the descriptor or the identifier it got for
    it and only while the timer exists, and closes nothing else; it never stops
    early, and when it returns, it returns 0 with every timer it created
    released. *)
Theorem timeclock64_safe sc :
  let p := TimeClock64.main t defined strerror in
  accepts timers_step (timers_ok defined) [] (trace p sc) /\
  match result p sc with
  | Done v => v = 0 /\ final timers_step [] (trace p sc) = []
  | Halted _ => False
  | Blocked _ => True
  end.
Proof.
  intros p. subst p. unfold trace, result.
  destruct (run _ sc) as [[tr r] sc'] eqn:E. cbn.
  eapply (wp_sound timers_step (timers_ok defined) (fun _ _ => True) _ []
            (fun s v => v = 0 /\ s = []) never) in E; [exact E| |apply ev_sat_any].
  clear E. unfold TimeClock64.main. cbn [pbind printf emit wp]. split; [done|]. split; [done|].
  cbn [timers_step].
  apply (wp_bind_intro _ _ _ (fun s _ => s = [])).
  { unfold TimeClock64.probe_gettime. destruct (defined "SYS_clock_gettime64") eqn:Ed.
    - apply wp_bind. eapply wp_mono; [| |by apply timers_call]; [|done]. intros s a ->.
      by destruct (a_ret a =? 0).
    - apply wp_bind. eapply wp_mono; [| |by apply timers_probe]; [|done]. by intros s u ->. }
  intros s ts ->.
  do 4 (eapply wp_bind_intro; [apply timers_probe; intros Hd; apply wp_bind;
    (eapply wp_mono; [| |by apply timers_call]; [|done]); intros s a ->;
    try done; by destruct (a_ret a =? 0)|]; intros s u ->; clear u).
  eapply wp_bind_intro; [apply timerfd_section|]. intros s u ->.
  eapply wp_bind_intro; [apply timer_section|]. intros s u' ->. done.
Qed.

End Timers.
