(* ===== verification/Sched.v ===== *)
(** Kernels with a state, and processes that run concurrently over them.

    A kernel is an interface: a state, and an answer (with the next state) for
    the calls of each process, or none while the call blocks.  The programs'
    theorems assume laws of the calls they make; they do not fix a kernel. *)

From stdpp Require Export relations functions.
From S2P Require Export Logic.

(** [kcall κ i c] is what process [i] gets from the call [c] in state [κ]. *)
Record kernel (K : Type) := Kernel { kcall : K -> nat -> call -> option (ans * K) }.
Arguments Kernel {K} _.
Arguments kcall {K} _ _ _ _.

(** * One process run to its end *)
Fixpoint drive {K A} (kn : kernel K) (κ : K) (i : nat) (p : prog A) : list ev * res A * K :=
  match p with
  | Ret a => ([], Done a, κ)
  | Halt s => ([], Halted s, κ)
  | Emit o p => let '(t, r, κ') := drive kn κ i p in (EOut o :: t, r, κ')
  | Vis c k =>
      match kcall kn κ i c with
      | None => ([], Blocked c, κ)
      | Some (a, κ1) => let '(t, r, κ') := drive kn κ1 i (k a) in (ECall c a :: t, r, κ')
      end
  end.

(** A driven process is a run of its program: everything proved of all runs
    holds under every kernel. *)
Lemma drive_run {K A} (kn : kernel K) κ i (p : prog A) t r κ' :
  drive kn κ i p = (t, r, κ') -> exists sc, run p sc = (t, r, []).
Proof.
  revert κ t r κ'. induction p as [a|s|o p IH|c k IH]; intros κ t r κ'; cbn.
  - intros [= <- <- <-]. by exists [].
  - intros [= <- <- <-]. by exists [].
  - destruct (drive kn κ i p) as [[t1 r1] κ1] eqn:E. intros [= <- <- <-].
    apply IH in E as [sc E]. exists sc. by rewrite E.
  - destruct (kcall kn κ i c) as [[a κ1]|]; [|intros [= <- <- <-]; by exists []].
    destruct (drive kn κ1 i (k a)) as [[t1 r1] κ2] eqn:E. intros [= <- <- <-].
    apply IH in E as [sc E]. exists (a :: sc). cbn. by rewrite E.
Qed.

Lemma drive_bind {K A B} (kn : kernel K) κ i (p : prog A) (f : A -> prog B) :
  drive kn κ i (pbind p f) =
  let '(t, r, κ') := drive kn κ i p in
  match r with
  | Done a => let '(t2, r2, κ2) := drive kn κ' i (f a) in (t ++ t2, r2, κ2)
  | Halted s => (t, Halted s, κ')
  | Blocked c => (t, Blocked c, κ')
  end.
Proof.
  revert κ. induction p as [a|s|o p IH|c k IH]; intros κ; cbn.
  - by destruct (drive kn κ i (f a)) as [[??]?].
  - done.
  - rewrite IH. destruct (drive kn κ i p) as [[? [a|?|?]] ?]; try done.
    by destruct (drive kn _ i (f a)) as [[??]?].
  - destruct (kcall kn κ i c) as [[a κ1]|]; [|done]. rewrite IH.
    destruct (drive kn κ1 i (k a)) as [[? [x|?|?]] ?]; try done.
    by destruct (drive kn _ i (f x)) as [[??]?].
Qed.

(** * Concurrent processes *)

(** The kernel's state, the remaining program of each process and everything
    printed so far, tagged with the process that printed it. *)
Record conf (K A : Type) := Conf {
  kstate : K;
  procs : list (prog A);
  log : list (nat * out)
}.
Arguments Conf {K A} _ _ _.
Arguments kstate {K A} _.
Arguments procs {K A} _.
Arguments log {K A} _.

(** One step of one process; the scheduler picks any that can step. *)
Inductive pstep {K A} (kn : kernel K) : conf K A -> conf K A -> Prop :=
  | pstep_emit κ ps l i o p :
      ps !! i = Some (Emit o p) ->
      pstep kn (Conf κ ps l) (Conf κ (<[i:=p]> ps) (l ++ [(i, o)]))
  | pstep_call κ ps l i c k a κ' :
      ps !! i = Some (Vis c k) -> kcall kn κ i c = Some (a, κ') ->
      pstep kn (Conf κ ps l) (Conf κ' (<[i:=k a]> ps) l).

Definition reachable {K A} (kn : kernel K) : conf K A -> conf K A -> Prop := rtc (pstep kn).

(** An invariant of the initial configuration that every step preserves holds in
    every reachable configuration. *)
Lemma reachable_inv {K A} (kn : kernel K) (I : conf K A -> Prop) c c' :
  I c -> (forall c1 c2, I c1 -> pstep kn c1 c2 -> I c2) -> reachable kn c c' -> I c'.
Proof. intros H0 Hstep Hr. induction Hr; eauto. Qed.

(** ** Executing a schedule: the process that steps at each turn *)
Definition sched_step {K A} (kn : kernel K) (c : conf K A) (i : nat) : option (conf K A) :=
  match procs c !! i with
  | Some (Emit o p) => Some (Conf (kstate c) (<[i:=p]> (procs c)) (log c ++ [(i, o)]))
  | Some (Vis cl k) =>
      match kcall kn (kstate c) i cl with
      | Some (a, κ') => Some (Conf κ' (<[i:=k a]> (procs c)) (log c))
      | None => None
      end
  | _ => None
  end.

Fixpoint sched {K A} (kn : kernel K) (c : conf K A) (l : list nat) : option (conf K A) :=
  match l with
  | [] => Some c
  | i :: l => c' ← sched_step kn c i; sched kn c' l
  end.

Lemma sched_step_pstep {K A} (kn : kernel K) (c c' : conf K A) i :
  sched_step kn c i = Some c' -> pstep kn c c'.
Proof.
  destruct c as [κ ps l]. unfold sched_step. cbn.
  destruct (ps !! i) as [[a|s|o p|cl k]|] eqn:E; try done.
  - intros [= <-]. by constructor.
  - destruct (kcall kn κ i cl) as [[a κ']|] eqn:Ek; [|done]. intros [= <-].
    by econstructor.
Qed.

Lemma sched_reachable {K A} (kn : kernel K) (c c' : conf K A) l :
  sched kn c l = Some c' -> reachable kn c c'.
Proof.
  revert c. induction l as [|i l IH]; intros c; cbn.
  - intros [= ->]. done.
  - destruct (sched_step kn c i) as [c1|] eqn:E; [|done]. cbn. intros Hl.
    eapply rtc_l; [by eapply sched_step_pstep|by apply IH].
Qed.

Lemma reachable_length {K A} (kn : kernel K) (c c' : conf K A) :
  reachable kn c c' -> length (procs c') = length (procs c).
Proof.
  induction 1 as [|c c1 c2 Hs _ IH]; [done|]. rewrite IH.
  destruct Hs; cbn; by rewrite length_insert.
Qed.

(** Where no process can step. *)
Lemma stuck_sched {K A} (kn : kernel K) (c : conf K A) :
  (forall i, (i < length (procs c))%nat -> sched_step kn c i = None) ->
  forall c', ~ pstep kn c c'.
Proof.
  intros H c' Hs. destruct Hs as [κ ps l i o p Hp|κ ps l i cl k a κ' Hp Hk].
  - specialize (H i (lookup_lt_Some _ _ _ Hp)). unfold sched_step in H. cbn in H. by rewrite Hp in H.
  - specialize (H i (lookup_lt_Some _ _ _ Hp)). unfold sched_step in H. cbn in H.
    by rewrite Hp, Hk in H.
Qed.

(** What process [i] has printed. *)
Definition printed_by (i : nat) (l : list (nat * out)) : list (string * list arg) :=
  omap (fun p => if decide (p.1 = i) then
                   if p.2 is OPrintf f a then Some (f, a) else None
                 else None) l.

Lemma printed_by_app i l1 l2 : printed_by i (l1 ++ l2) = printed_by i l1 ++ printed_by i l2.
Proof. apply omap_app. Qed.

(** * Every schedule ends

    A program is a finite tree, so a process takes finitely many steps, and so
    do several processes, however they are scheduled. *)
Section Termination.
Context {A : Type}.

(** [p'] is what remains of [p] after one event. *)
Inductive next : prog A -> prog A -> Prop :=
  | next_emit o p : next (Emit o p) p
  | next_call c k a : next (Vis c k) (k a).

Lemma next_acc (p : prog A) : Acc (flip next) p.
Proof. induction p as [a|s|o p IH|c k IH]; constructor; inversion 1; subst; auto. Qed.

(** One process of the list takes a step. *)
Inductive nexts : list (prog A) -> list (prog A) -> Prop :=
  | nexts_here p p' ps : next p p' -> nexts (p :: ps) (p' :: ps)
  | nexts_there p ps ps' : nexts ps ps' -> nexts (p :: ps) (p :: ps').

Lemma nexts_insert ps i p p' : ps !! i = Some p -> next p p' -> nexts ps (<[i:=p']> ps).
Proof.
  revert i. induction ps as [|q ps IH]; intros [|i]; cbn; [done..| |].
  - intros [= ->]. by constructor.
  - intros. constructor. auto.
Qed.

Lemma nexts_acc ps : Acc (flip nexts) ps.
Proof.
  induction ps as [|p ps IHps]; [constructor; by inversion 1|].
  revert ps IHps. induction (next_acc p) as [p _ IHp]. intros ps Hps.
  induction Hps as [ps Hps IH]. constructor. unfold flip.
  inversion 1; subst; [|by apply IH].
  apply IHp; [done|]. by constructor.
Qed.

Lemma pstep_nexts {K} (kn : kernel K) c c' : pstep kn c c' -> nexts (procs c) (procs c').
Proof. destruct 1; cbn; eapply nexts_insert; eauto using next_emit, next_call. Qed.

(** No schedule runs for ever. *)
Lemma pstep_acc {K} (kn : kernel K) (c : conf K A) : Acc (flip (pstep kn)) c.
Proof.
  remember (procs c) as ps eqn:E. revert c E.
  induction (nexts_acc ps) as [ps _ IH]. intros c ->.
  constructor. intros c' Hc. eapply IH; [|done]. by eapply pstep_nexts.
Qed.
End Termination.

(** * Concurrent processes followed by monitors

    Each process has its own monitor; an invariant relates the kernel's state,
    the monitors' states and the log.  Each event the monitors allow must
    preserve it. *)
Section Concurrent.
Context {K A M : Type} (kn : kernel K).
Context (step : nat -> M -> ev -> M) (ok : nat -> M -> ev -> Prop) (sat : call -> ans -> Prop).
Context (Q : nat -> M -> A -> Prop) (H : nat -> M -> stop -> Prop).
Context (Inv : K -> (nat -> M) -> list (nat * out) -> Prop).

Definition follows (i : nat) (p : prog A) (g : M) : Prop :=
  wp (step i) (ok i) sat p g (Q i) (H i).

Definition tracked (c : conf K A) (gs : nat -> M) : Prop :=
  (forall i p, procs c !! i = Some p -> follows i p (gs i)) /\
  Inv (kstate c) gs (log c).

Hypothesis Inv_emit : forall κ gs l i o,
  Inv κ gs l -> ok i (gs i) (EOut o) ->
  Inv κ (<[i:=step i (gs i) (EOut o)]> gs) (l ++ [(i, o)]).
Hypothesis Inv_call : forall κ gs l i c a κ',
  Inv κ gs l -> kcall kn κ i c = Some (a, κ') -> ok i (gs i) (ECall c a) ->
  Inv κ' (<[i:=step i (gs i) (ECall c a)]> gs) l.

(** What the programs rely on follows from the invariant. *)
Hypothesis Inv_sat : forall κ gs l i c a κ',
  Inv κ gs l -> kcall kn κ i c = Some (a, κ') -> sat c a.

Lemma follows_insert (ps : list (prog A)) gs i p g :
  (forall j q, ps !! j = Some q -> follows j q (gs j)) -> follows i p g ->
  forall j q, <[i:=p]> ps !! j = Some q -> follows j q (<[i:=g]> gs j).
Proof.
  intros Hf Hi j q [(-> & -> & _)|[Hne Hj]]%list_lookup_insert_Some.
  - by rewrite fn_lookup_insert.
  - rewrite fn_lookup_insert_ne by done. auto.
Qed.

Lemma tracked_step c c' gs :
  tracked c gs -> pstep kn c c' -> exists gs', tracked c' gs'.
Proof.
  intros [Hf HI] Hs. destruct Hs as [κ ps l i o p Hp|κ ps l i c k a κ' Hp Hk]; cbn in *.
  - destruct (Hf i _ Hp) as [Hok Hw]. eexists. split; cbn; [|by apply Inv_emit].
    by apply follows_insert.
  - destruct (Hf i _ Hp a) as [Hok Hw]; [by eapply Inv_sat|]. eexists. split; cbn; [|by eapply Inv_call].
    by apply follows_insert.
Qed.

Lemma tracked_reachable c c' gs :
  tracked c gs -> reachable kn c c' -> exists gs', tracked c' gs'.
Proof.
  intros Ht Hr. revert gs Ht. induction Hr as [c|c c1 c2 Hs _ IH]; intros gs Ht; [eauto|].
  destruct (tracked_step _ _ _ Ht Hs) as [gs' Ht']. eauto.
Qed.
End Concurrent.
