(* ===== verification/Sem.v ===== *)
(** semaphore.c: a producer and a consumer that take turns over a shared
    memory segment with two System V semaphores. *)

From S2P Require Export Sched.

Local Open Scope Z_scope.

(** * The program *)

Definition SHM_KEY : Z := 0x1234.
Definition SEM_KEY : Z := 0x5678.
Definition SHM_SIZE : Z := 0x1024.
Definition IPC_CREAT : Z := 512.
Definition IPC_NOWAIT : Z := 2048.
Definition SEM_UNDO : Z := 0x1000.

(** A [struct sembuf]: number, operation, flags. *)
Definition sembuf : Type := (Z * Z * Z).

Definition sem_op (semid semnum op : Z) : prog unit :=
  r <- sysr (Semop semid [(semnum, op, 0)]) ;;
  if r =? -1 then perror "semop" ;;; exit 1 else skip.

(** [struct sembuf sb[highsemnum-lowsemnum]], filled at the indices
    [lowsemnum .. highsemnum-1]: a store outside the array, and a cell that is
    passed to the kernel without having been assigned, are undefined. *)
Definition multisem_op (semid lowsemnum highsemnum op : Z) : prog unit :=
  sb <- for_ lowsemnum highsemnum (replicate (Z.to_nat (highsemnum - lowsemnum)) None)
          (fun semnum sb =>
             get (storeZ semnum (Some (semnum, op, Z.lor SEM_UNDO IPC_NOWAIT)) sb)) ;;
  ops <- get (mapM id sb) ;;
  r <- sysr (Semop semid ops) ;;
  if r =? -1 then perror "semop" ;;; exit 1 else skip.

(** [snprintf(shared_memory, SHM_SIZE, ...)]: at most [SHM_SIZE - 1] characters
    and a NUL. *)
Definition snprintf_bytes (size : Z) (s : string) : list Z :=
  take (Z.to_nat (size - 1)) (bytes s) ++ [0].

Section Processes.

Context (t : target) (semid : Z).

(** The string the segment holds now. *)
Definition shared_text : prog (list Z) :=
  a <- sys (ShLoad 0 SHM_SIZE) ;; Ret (out_obj a 0).

Definition producer_one (i : Z) (_ : unit) : prog unit :=
  sem_op semid 0 (-1) ;;;
  msg <- get (sprintf t "Message %d from Producer" [AI (i + 1)]) ;;
  sys (ShStore 0 (snprintf_bytes SHM_SIZE msg)) ;;;
  text <- shared_text ;;
  printf "Producer: Wrote '%s'\n" [AB text] ;;;
  sem_op semid 1 1 ;;;
  sys (Sleep 1) ;;; skip.

Definition producer (numtrans : Z) : prog unit :=
  for_ 0 numtrans tt producer_one ;;; exit 0.

Definition consumer_one (i : Z) (_ : unit) : prog unit :=
  sem_op semid 1 (-1) ;;;
  text <- shared_text ;;
  printf "Consumer: Read '%s'\n" [AB text] ;;;
  sem_op semid 0 1 ;;;
  sys (Sleep 2) ;;; skip.

Definition consumer (numtrans shmid shared_memory : Z) : prog unit :=
  for_ 0 numtrans tt consumer_one ;;;
  sys Wait ;;;
  sys (Shmdt shared_memory) ;;;
  sys (Shmctl shmid 0) ;;;
  sys (SemRmid semid) ;;;
  printf "Resources cleaned up. Exiting.\n" [].

End Processes.

Definition main (t : target) (argv : list string) : prog Z :=
  emit OSetbuf ;;;
  numtrans <- (if 1 <? argc argv then a <- argn argv 1 ;; Ret (atoi t a) else Ret 5) ;;
  shmid <- sysr (Shmget SHM_KEY SHM_SIZE (Z.lor IPC_CREAT 438)) ;;
  if shmid =? -1 then perror "shmget" ;;; exit 1 else
  shared_memory <- sysr (Shmat shmid) ;;
  if shared_memory =? -1 then perror "shmat" ;;; exit 1 else
  semid <- sysr (Semget SEM_KEY 6 (Z.lor IPC_CREAT 438)) ;;
  if semid =? -1 then perror "semget" ;;; exit 1 else
  sys (SemSetval semid 0 1) ;;;
  sys (SemSetval semid 1 0) ;;;
  for_ 2 6 tt (fun i _ => sys (SemSetval semid i 0) ;;; skip) ;;;
  multisem_op semid 2 6 1 ;;;
  pid <- sysr Fork ;;
  (if pid =? 0 then producer t semid numtrans
   else consumer semid numtrans shmid shared_memory) ;;;
  Ret 0.

(** * The array that is filled out of its bounds *)

Lemma multisem_fill_ub {A} (k : list (option sembuf) -> prog A) op n i low size sb sc :
  0 < low -> length sb = Z.to_nat size -> 0 <= i ->
  i + Z.of_nat n = low + size -> 0 < size -> (0 < n)%nat ->
  run (sb <- for_n n i sb (fun semnum sb =>
         get (storeZ semnum (Some (semnum, op, Z.lor SEM_UNDO IPC_NOWAIT)) sb)) ;; k sb) sc
  = ([], Halted Ub, sc).
Proof.
  intros Hlow. revert i sb. induction n as [|n IH]; intros i sb Hsb Hi Hn Hs Hn0; [lia|].
  cbn [for_n]. destruct (decide (i < size)) as [Hlt|Hge].
  - rewrite storeZ_Some by lia. cbn [get pbind]. apply IH; [by rewrite length_insert|lia..].
  - by rewrite storeZ_None by lia.
Qed.

Lemma run_multisem_op_ub semid low high op sc :
  0 < low < high -> run (multisem_op semid low high op) sc = ([], Halted Ub, sc).
Proof.
  intros H. unfold multisem_op, for_. apply (multisem_fill_ub _ _ _ _ low (high - low));
    rewrite ?length_replicate; lia.
Qed.

(** C33: When all its calls succeed, semaphore.c fills the array of
    [multisem_op] at the indices [2..5] of four cells: behaviour is undefined
    before the semaphore operation and the [fork]. *)
Theorem semaphore_array_overflow t argv (shm addr sem : ans) rs sc :
  a_ret shm <> -1 -> a_ret addr <> -1 -> a_ret sem <> -1 -> length rs = 6%nat ->
  exists tr, run (main t argv) (shm :: addr :: sem :: rs ++ sc) = (tr, Halted Ub, sc) /\
    ~ (exists a, In (Fork, a) (calls tr)).
Proof.
  intros H1 H2 H3 Hrs. destruct rs as [|r0 [|r1 [|r2 [|r3 [|r4 [|r5 [|]]]]]]]; try discriminate Hrs.
  unfold main. apply Z.eqb_neq in H1, H2, H3.
  assert (E : exists n, (if 1 <? argc argv then a <- argn argv 1 ;; Ret (atoi t a) else Ret 5) = Ret n).
  { unfold argc, argn. destruct argv as [|? [|? ?]]; cbn; eauto.
    destruct (1 <? _) eqn:E; [eauto|]. apply Z.ltb_ge in E. lia. }
  destruct E as [n ->]. cbn -[multisem_op]. rewrite H1. cbn -[multisem_op].
  rewrite H2. cbn -[multisem_op]. rewrite H3. cbn -[multisem_op].
  rewrite run_bind. change (for_ 2 6) with (@for_n unit 4 2). cbn -[multisem_op].
  rewrite run_bind, run_multisem_op_ub by lia. eexists. split; [done|].
  cbn. intros [a Ha]. repeat (destruct Ha as [Ha|Ha]; [discriminate Ha|]). done.
Qed.

Lemma semaphore_array_overflow_witness :
  exists tr, run (main x86_64 ["semaphore"])
    (ret_ans 1 :: ret_ans 4096 :: ret_ans 2 :: replicate 6 (ret_ans 0) ++ []) = (tr, Halted Ub, [])
  /\ ~ (exists a, In (Fork, a) (calls tr)).
Proof. apply semaphore_array_overflow; done. Defined.


(** * The producer and the consumer over all interleavings *)

(** ** What they print *)
Section Text.

Definition message (k : Z) : string := ("Message " +:+ (show_int k +:+ " from Producer"))%stdpp.

Lemma sprintf_message t k :
  is_int k -> sprintf t "Message %d from Producer" [AI k] = Some (message k).
Proof.
  intros Hk. unfold sprintf. cbn -[conv_int]. by rewrite conv_int_d.
Qed.

Lemma message_bytes k : text_bytes (bytes (message k)).
Proof.
  unfold message. rewrite !bytes_app. repeat apply Forall_app_2; [|apply show_int_bytes|];
    repeat constructor.
Qed.

Lemma message_fits k rest : is_int k ->
  cstr (snprintf_bytes SHM_SIZE (message k) ++ rest) = Some (message k).
Proof.
  intros Hk. unfold snprintf_bytes. rewrite take_ge.
  - rewrite <- app_assoc. apply cstr_bytes, message_bytes.
  - pose proof (length_show_int k Hk). rewrite length_bytes. unfold message.
    rewrite <- length_bytes, !bytes_app, !length_app, !length_bytes. cbn. unfold SHM_SIZE. lia.
Qed.

End Text.

(** ** The kernel they run on *)

(** What the two processes rely on: [semop] on one semaphore adds its operation,
    and only when the value does not become negative (it blocks otherwise), or
    fails without effect; the segment holds what was stored last; the calls
    that do not concern them change neither. *)
Class SemLaws {K} (kn : kernel K) (semid : Z) (val : K -> Z -> Z) (seg : K -> list Z) : Prop := {
  semop_law κ i n op a κ' :
    kcall kn κ i (Semop semid [(n, op, 0)]) = Some (a, κ') ->
    (a_ret a = -1 /\ val κ' = val κ /\ seg κ' = seg κ) \/
    (a_ret a = 0 /\ 0 <= val κ n + op /\ val κ' = <[n := val κ n + op]> (val κ) /\
     seg κ' = seg κ);
  store_law κ i data a κ' :
    kcall kn κ i (ShStore 0 data) = Some (a, κ') ->
    seg κ' = overwrite data (seg κ) /\ val κ' = val κ;
  load_law κ i a κ' :
    kcall kn κ i (ShLoad 0 SHM_SIZE) = Some (a, κ') ->
    out_obj a 0 = seg κ /\ seg κ' = seg κ /\ val κ' = val κ;
  sleep_law κ i n a κ' :
    kcall kn κ i (Sleep n) = Some (a, κ') -> seg κ' = seg κ /\ val κ' = val κ
}.

(** No call fails, and none blocks but [semop] on a value that would become
    negative and [wait]. *)
Class SemProgress {K} (kn : kernel K) (semid : Z) (val : K -> Z -> Z) : Prop := {
  semop_total κ i n op : 0 <= val κ n + op ->
    is_Some (kcall kn κ i (Semop semid [(n, op, 0)]));
  semop_succeeds κ i n op a κ' :
    kcall kn κ i (Semop semid [(n, op, 0)]) = Some (a, κ') -> a_ret a <> -1;
  store_total κ i data : is_Some (kcall kn κ i (ShStore 0 data));
  load_total κ i : is_Some (kcall kn κ i (ShLoad 0 SHM_SIZE));
  sleep_total κ i n : is_Some (kcall kn κ i (Sleep n))
}.

(** A kernel that satisfies both: four semaphores' values and the segment. *)
Definition sem_kernel : kernel ((Z -> Z) * list Z) :=
  Kernel (fun κ _ c =>
    let '(v, s) := κ in
    match c with
    | Semop 2 [(n, op, 0)] =>
        if v n + op <? 0 then None else Some (ret_ans 0, (<[n := v n + op]> v, s))
    | ShStore 0 data => Some (ret_ans 0, (v, overwrite data s))
    | ShLoad 0 4132 => Some (Ans 0 0 [s], (v, s))
    | Semop _ _ => Some (ret_ans 0, κ)
    | _ => Some (ret_ans 0, κ)
    end).
