(* ===== verification/SemSafe.v ===== *)
(** semaphore.c over all interleavings of its two processes: mutual exclusion,
    order and completeness of what the producer and the consumer print. *)

From S2P Require Export Sem.

Local Open Scope Z_scope.

(** * The protocol each process follows *)

(** Where a process is in round [i] (counted from 0). *)
Inductive pc :=
  | Take (i : Z) | Store (i : Z) | Look (i : Z) | Shown (i : Z) (text : list Z)
  | Give (i : Z) | Rest (i : Z) | Failed | Clean | Over.

Definition producer_fmt : string := "Producer: Wrote '%s'\n".
Definition consumer_fmt : string := "Consumer: Read '%s'\n".
Definition cleanup_fmt : string := "Resources cleaned up. Exiting.\n".

Ltac allowed := cbn; split_and!; (done || lia).

Section Protocol.
Context (t : target) (semid n : Z).

(** Process 0 is the producer, process 1 the consumer. *)
Definition next_pc (r : nat) (g : pc) (e : ev) : pc :=
  match g, e with
  | Take i, ECall Wait _ => Clean
  | Take i, ECall _ a => if a_ret a =? -1 then Failed else
                         match r with O => Store i | _ => Look i end
  | Store i, _ => Look i
  | Look i, ECall _ a => Shown i (out_obj a 0)
  | Shown i _, _ => Give i
  | Give i, ECall _ a => if a_ret a =? -1 then Failed else Rest i
  | Rest i, _ => Take (i + 1)
  | Clean, EOut _ => Over
  | g, _ => g
  end.

Definition may (r : nat) (g : pc) (e : ev) : Prop :=
  (r < 2)%nat /\
  match g, e with
  | Take i, ECall (Semop s ops) _ => 0 <= i < n /\ s = semid /\ ops = [(Z.of_nat r, -1, 0)]
  | Take i, ECall Wait _ => r = 1%nat /\ i = Z.max 0 n
  | Store i, ECall (ShStore off data) _ =>
      r = 0%nat /\ 0 <= i < n /\ off = 0 /\ data = snprintf_bytes SHM_SIZE (message (i + 1))
  | Look i, ECall (ShLoad off len) _ => off = 0 /\ len = SHM_SIZE
  | Shown i text, EOut (OPrintf f l) =>
      f = match r with O => producer_fmt | _ => consumer_fmt end /\ l = [AB text]
  | Give i, ECall (Semop s ops) _ => s = semid /\ ops = [(1 - Z.of_nat r, 1, 0)]
  | Rest i, ECall (Sleep _) _ => True
  | Failed, EOut (OPerror _) => True
  | Clean, ECall (Shmdt _) _ | Clean, ECall (Shmctl _ _) _ | Clean, ECall (SemRmid _) _ => True
  | Clean, EOut (OPrintf f l) => f = cleanup_fmt /\ l = []
  | _, _ => False
  end.

Definition may_end (r : nat) (g : pc) (s : stop) : Prop :=
  match g with
  | Take i => r = 0%nat /\ i = Z.max 0 n /\ s = Exit 0
  | Failed => s = Exit 1
  | _ => False
  end.

Definition may_return (r : nat) (g : pc) (_ : unit) : Prop := r = 1%nat /\ g = Over.

Notation follows_ r := (follows next_pc may (fun _ _ => True) may_return may_end r).

Lemma follows_sem_op r semnum op g (Q : pc -> unit -> Prop) :
  (forall a, may r g (ECall (Semop semid [(semnum, op, 0)]) a) /\
     if a_ret a =? -1 then next_pc r g (ECall (Semop semid [(semnum, op, 0)]) a) = Failed
     else Q (next_pc r g (ECall (Semop semid [(semnum, op, 0)]) a)) tt) ->
  (r < 2)%nat ->
  wp (next_pc r) (may r) (fun _ _ => True) (sem_op semid semnum op) g Q (may_end r).
Proof.
  intros Hg Hr a _. destruct (Hg a) as [Hok Hn]. split; [exact Hok|].
  cbn [pbind]. destruct (a_ret a =? -1); [|exact Hn]. rewrite Hn. by repeat split.
Qed.

Lemma producer_follows : n <= int_max -> follows_ 0%nat (producer t semid n) (Take 0).
Proof.
  intros Hn. apply (wp_bind_intro _ _ _ (fun g _ => g = Take (Z.max 0 n))).
  2: { intros g _ ->. cbn. auto. }
  apply (wp_for _ _ _ (fun i g _ => g = Take i)); [done| |done].
  intros i g [] Hi ->. unfold producer_one.
  apply (wp_bind_intro _ _ _ (fun g _ => g = Store i)).
  { apply follows_sem_op; [|lia]. intros a. split; [allowed|]. cbn. by case_match. }
  intros g _ ->. rewrite sprintf_message by (unfold is_int, int_min; lia).
  intros a _. split; [allowed|]. intros a2 _. split; [allowed|]. split; [allowed|].
  apply (wp_bind_intro _ _ _ (fun g _ => g = Rest i) (sem_op semid 1 1)).
  { apply follows_sem_op; [|lia]. intros a3. split; [allowed|]. cbn. by case_match. }
  intros g _ ->. intros a4 _. split; [allowed|done].
Qed.

Lemma consumer_follows shmid addr : follows_ 1%nat (consumer semid n shmid addr) (Take 0).
Proof.
  apply (wp_bind_intro _ _ _ (fun g _ => g = Take (Z.max 0 n))).
  2: { intros g _ ->. intros a _. split; [allowed|]. cbn -[wp].
       intros a1 _. split; [allowed|]. intros a2 _. split; [allowed|].
       intros a3 _. split; [allowed|]. split; [allowed|]. done. }
  apply (wp_for _ _ _ (fun i g _ => g = Take i)); [done| |done].
  intros i g [] Hi ->. unfold consumer_one.
  apply (wp_bind_intro _ _ _ (fun g _ => g = Look i)).
  { apply follows_sem_op; [|lia]. intros a. split; [allowed|]. cbn. by case_match. }
  intros g _ ->. intros a2 _. split; [allowed|]. split; [allowed|].
  apply (wp_bind_intro _ _ _ (fun g _ => g = Rest i) (sem_op semid 0 1)).
  { apply follows_sem_op; [|lia]. intros a3. split; [allowed|]. cbn. by case_match. }
  intros g _ ->. intros a4 _. split; [allowed|done].
Qed.
End Protocol.

(** * The phases of the exchange *)

(** The lines of the first [k] rounds, tagged with the process that prints. *)
Definition producer_line (k : nat) : nat * string :=
  (0%nat, ("Producer: Wrote '" +:+ (message (Z.of_nat k + 1) +:+ String "'" (String "010" "")))%stdpp).
Definition consumer_line (k : nat) : nat * string :=
  (1%nat, ("Consumer: Read '" +:+ (message (Z.of_nat k + 1) +:+ String "'" (String "010" "")))%stdpp).
Definition cleanup_line : nat * string :=
  (1%nat, ("Resources cleaned up. Exiting." +:+ String "010" "")%stdpp).

Fixpoint rounds (k : nat) : list (nat * string) :=
  match k with O => [] | S k => rounds k ++ [producer_line k; consumer_line k] end.

(** The text on stdout, line by line as it was printed. *)
Definition rendered (t : target) (l : list (nat * out)) : list (nat * string) :=
  omap (fun io => if io.2 is OPrintf f a then pair io.1 <$> sprintf t f a else None) l.

Lemma rendered_snoc t l i o :
  rendered t (l ++ [(i, o)]) = rendered t l ++ rendered t [(i, o)].
Proof. apply omap_app. Qed.

Lemma rendered_producer t x k : cstr x = Some (message (Z.of_nat k + 1)) ->
  rendered t [(0%nat, OPrintf producer_fmt [AB x])] = [producer_line k].
Proof.
  intros H. unfold rendered, sprintf. cbn -[conv]. cbn [conv f_prec spec0].
  rewrite H. cbn -[conv_str]. by rewrite conv_str_plain.
Qed.

Lemma rendered_consumer t x k : cstr x = Some (message (Z.of_nat k + 1)) ->
  rendered t [(1%nat, OPrintf consumer_fmt [AB x])] = [consumer_line k].
Proof.
  intros H. unfold rendered, sprintf. cbn -[conv]. cbn [conv f_prec spec0].
  rewrite H. cbn -[conv_str]. by rewrite conv_str_plain.
Qed.

Section Phases.
Context (t : target) (semid n : Z).

(** The text in the segment. *)
Definition holds (k : nat) (s : list Z) : Prop := cstr s = Some (message (Z.of_nat k + 1)).

(** A process outside its critical section, before round [k]. *)
Definition idle (k : nat) (g : pc) : Prop :=
  g = Failed \/ g = Take (Z.of_nat k) \/ g = Rest (Z.of_nat k - 1).

(** A process inside the critical section of round [k]; [b]: it has printed. *)
Definition critical (k : nat) (s : list Z) (b : bool) (g : pc) : Prop :=
  match g with
  | Store i => i = Z.of_nat k /\ b = false
  | Look i => i = Z.of_nat k /\ holds k s /\ b = false
  | Shown i x => i = Z.of_nat k /\ holds k s /\ holds k x /\ b = false
  | Give i => i = Z.of_nat k /\ holds k s /\ b = true
  | Failed => b = true -> holds k s
  | _ => False
  end.

(** Values of the semaphores "empty" and "full", the segment, where each
    process is, and what has been printed. *)
Inductive phase (v : Z -> Z) (s : list Z) (gp gc : pc) : list (nat * string) -> Prop :=
  | phase_empty k :
      v 0 = 1 -> v 1 = 0 -> Z.of_nat k <= Z.max 0 n -> idle k gp -> idle k gc ->
      phase v s gp gc (rounds k)
  | phase_producing k b :
      v 0 = 0 -> v 1 = 0 -> Z.of_nat k < n -> critical k s b gp -> idle k gc ->
      phase v s gp gc (rounds k ++ if b then [producer_line k] else [])
  | phase_full k :
      v 0 = 0 -> v 1 = 1 -> Z.of_nat k < n -> holds k s -> idle (S k) gp -> idle k gc ->
      phase v s gp gc (rounds k ++ [producer_line k])
  | phase_consuming k b :
      v 0 = 0 -> v 1 = 0 -> Z.of_nat k < n -> holds k s -> idle (S k) gp -> critical k s b gc ->
      (forall i, gc <> Store i) ->
      phase v s gp gc ((rounds k ++ [producer_line k]) ++ if b then [consumer_line k] else [])
  | phase_over (b : bool) :
      idle (Z.to_nat n) gp -> gc = (if b then Over else Clean) ->
      phase v s gp gc (rounds (Z.to_nat n) ++ if b then [cleanup_line] else []).

(** ** The moves of the idle process change nothing the phase depends on. *)
Lemma idle_rest k i : idle k (Rest i) -> idle k (Take (i + 1)).
Proof. intros [|[|[= ->]]]; try done. right. left. f_equal. lia. Qed.

Lemma idle_take k i : idle k (Take i) -> i = Z.of_nat k.
Proof. by intros [|[[= ->]|]]. Qed.

Lemma idle_failed k : idle k Failed.
Proof. by left. Qed.

Lemma idle_given k : idle (S k) (Rest (Z.of_nat k)).
Proof. right. right. f_equal. lia. Qed.

Lemma rounds_done k : ((rounds k ++ [producer_line k]) ++ [consumer_line k]) = rounds (S k).
Proof. cbn. by rewrite <- app_assoc. Qed.

(** ** Calls *)
Context {K : Type} (kn : kernel K) (val : K -> Z -> Z) (seg : K -> list Z).
Context `{!SemLaws kn semid val seg}.

Lemma holds_stored k rest : Z.of_nat k < n -> n <= int_max ->
  holds k (overwrite (snprintf_bytes SHM_SIZE (message (Z.of_nat k + 1))) rest).
Proof. intros. apply message_fits. unfold is_int, int_min. lia. Qed.

(** Rule out the phases in which a process is not where it is. *)
Ltac wrong_phase :=
  match goal with
  | H : critical _ _ _ _ |- _ => by destruct H
  | H : idle _ _ |- _ => by destruct H as [H|[H|H]]
  end.

Lemma phase_producer_fails v s g gc l :
  phase v s g gc l -> (forall i, g <> Store i) -> phase v s Failed gc l.
Proof.
  destruct 1 as [|k b ? ? ? Hc| | |]; intros; eauto using phase, idle_failed.
  eapply phase_producing; [done..| |done]. destruct g; cbn in *; intros ->; destruct_and?; auto; done.
Qed.

Lemma phase_consumer_fails v s gp g l :
  phase v s gp g l -> g <> Clean -> g <> Over -> phase v s gp Failed l.
Proof.
  destruct 1; intros; eauto using phase, idle_failed.
  - by eapply phase_consuming; try done; intros _.
  - by destruct b.
Qed.

Lemma phase_producer_rests v s gc l i :
  phase v s (Rest i) gc l -> phase v s (Take (i + 1)) gc l.
Proof. destruct 1; try wrong_phase; eauto using phase, idle_rest. Qed.

Lemma phase_consumer_rests v s gp l i :
  phase v s gp (Rest i) l -> phase v s gp (Take (i + 1)) l.
Proof. inversion 1; subst; try wrong_phase; eauto using phase, idle_rest. by destruct b. Qed.

Lemma phase_producer_takes v s gc l i :
  phase v s (Take i) gc l -> 0 <= i < n -> 0 <= v 0 + -1 ->
  phase (<[0 := v 0 + -1]> v) s (Store i) gc l.
Proof.
  intros Hp Hi Hv. destruct Hp as [k ? ? ? Hg Hc| | | |]; try wrong_phase; try lia.
  - apply idle_take in Hg as ->. rewrite <- (app_nil_r (rounds k)).
    apply (phase_producing _ _ _ _ k false); [rewrite fn_lookup_insert; lia| |lia|done|done].
    by rewrite fn_lookup_insert_ne.
  - apply idle_take in H. lia.
Qed.

Lemma phase_consumer_takes v s gp l i :
  phase v s gp (Take i) l -> 0 <= i < n -> 0 <= v 1 + -1 ->
  phase (<[1 := v 1 + -1]> v) s gp (Look i) l.
Proof.
  intros Hp Hi Hv. inversion Hp as [| |k ? ? ? ? ? Hc| |[]]; subst; try wrong_phase; try lia.
  apply idle_take in Hc as ->. rewrite <- (app_nil_r (_ ++ _)).
  apply (phase_consuming _ _ _ _ k false); try done. rewrite fn_lookup_insert. lia.
Qed.

Lemma phase_producer_gives v s gc l i :
  phase v s (Give i) gc l -> phase (<[1 := v 1 + 1]> v) s (Rest i) gc l.
Proof.
  intros Hp. inversion Hp as [|k b ? ? ? Hc| | |]; subst; try wrong_phase.
  destruct Hc as (-> & ? & ->). apply phase_full; try done.
  - rewrite fn_lookup_insert. lia.
  - apply idle_given.
Qed.

Lemma phase_consumer_gives v s gp l i :
  phase v s gp (Give i) l -> phase (<[0 := v 0 + 1]> v) s gp (Rest i) l.
Proof.
  intros Hp. inversion Hp as [| | |k b ? ? ? ? ? Hc ?|[]]; subst; try wrong_phase; try done.
  destruct Hc as (-> & ? & ->). rewrite rounds_done. apply phase_empty; try done.
  - rewrite fn_lookup_insert. lia.
  - lia.
  - apply idle_given.
Qed.

Lemma phase_producer_call κ gp gc l c a κ' :
  n <= int_max -> phase (val κ) (seg κ) gp gc l ->
  kcall kn κ 0%nat c = Some (a, κ') -> may semid n 0 gp (ECall c a) ->
  phase (val κ') (seg κ') (next_pc 0 gp (ECall c a)) gc l.
Proof.
  intros Hn Hp Hk [_ Hm].
  destruct gp as [i|i|i|i x|i|i| | |]; destruct c; try done; cbn in Hm; cbn [next_pc].
  - by destruct Hm.
  - destruct Hm as (Hi & -> & ->).
    apply semop_law in Hk as [(-> & -> & ->)|(-> & Hv & -> & ->)]; cbn.
    + by eapply phase_producer_fails.
    + by apply phase_producer_takes.
  - destruct Hm as (_ & Hi & -> & ->). apply store_law in Hk as [-> ->].
    inversion Hp as [|k b ? ? ? Hc| | |]; subst; try wrong_phase. destruct Hc as [-> ->].
    apply (phase_producing _ _ _ _ k false); try done. split_and!; try done. by apply holds_stored.
  - destruct Hm as [-> ->]. apply load_law in Hk as (-> & -> & ->).
    inversion Hp as [|k b ? ? ? Hc| | |]; subst; try wrong_phase. destruct Hc as (-> & ? & ->).
    by apply (phase_producing _ _ _ _ k false).
  - destruct Hm as (-> & ->).
    apply semop_law in Hk as [(-> & -> & ->)|(-> & Hv & -> & ->)]; cbn.
    + by eapply phase_producer_fails.
    + by apply phase_producer_gives.
  - apply sleep_law in Hk as [-> ->]. by apply phase_producer_rests.
  - inversion Hp; subst; wrong_phase.
  - inversion Hp; subst; wrong_phase.
  - inversion Hp; subst; wrong_phase.
Qed.

Lemma phase_consumer_call κ gp gc l c a κ' :
  phase (val κ) (seg κ) gp gc l ->
  kcall kn κ 1%nat c = Some (a, κ') -> may semid n 1 gc (ECall c a) ->
  phase (val κ') (seg κ') gp (next_pc 1 gc (ECall c a)) l.
Proof.
  intros Hp Hk [_ Hm].
  destruct gc as [i|i|i|i x|i|i| | |]; destruct c; try done; cbn in Hm; cbn [next_pc].
  - destruct Hm as [_ ->].
    inversion Hp as [k ? ? ? ? Hc|k ? ? ? ? ? Hc|k ? ? ? ? ? Hc| |[]]; subst;
      try wrong_phase; try done; apply idle_take in Hc; try lia.
    + replace (rounds k) with (rounds (Z.to_nat n) ++ []) by (rewrite app_nil_r; f_equal; lia).
      apply (phase_over _ _ _ _ false); [|done]. by replace (Z.to_nat n) with k by lia.
  - destruct Hm as (Hi & -> & ->).
    apply semop_law in Hk as [(-> & -> & ->)|(-> & Hv & -> & ->)]; cbn.
    + by eapply phase_consumer_fails.
    + by apply phase_consumer_takes.
  - by destruct Hm.
  - destruct Hm as [-> ->]. apply load_law in Hk as (-> & -> & ->).
    inversion Hp as [| | |k b ? ? ? ? ? Hc|[]]; subst; try wrong_phase; try done.
    destruct Hc as (-> & ? & ->). by apply (phase_consuming _ _ _ _ k false).
  - destruct Hm as (-> & ->).
    apply semop_law in Hk as [(-> & -> & ->)|(-> & Hv & -> & ->)]; cbn.
    + by eapply phase_consumer_fails.
    + by apply phase_consumer_gives.
  - apply sleep_law in Hk as [-> ->]. by apply phase_consumer_rests.
  - inversion Hp as [| | | |[]]; subst; try wrong_phase; try done.
    by apply (phase_over _ _ _ _ false).
  - inversion Hp as [| | | |[]]; subst; try wrong_phase; try done.
    by apply (phase_over _ _ _ _ false).
  - inversion Hp as [| | | |[]]; subst; try wrong_phase; try done.
    by apply (phase_over _ _ _ _ false).
Qed.

(** ** Output *)
Lemma phase_producer_emit v s gp gc l o :
  phase v s gp gc (rendered t l) -> may semid n 0 gp (EOut o) ->
  phase v s (next_pc 0 gp (EOut o)) gc (rendered t (l ++ [(0%nat, o)])).
Proof.
  intros Hp [_ Hm]. rewrite rendered_snoc.
  destruct gp as [i|i|i|i x|i|i| | |]; destruct o; try done; cbn [next_pc].
  - destruct Hm as [-> ->]. inversion Hp as [|k b ? ? ? Hc| | |]; subst; try wrong_phase.
    destruct Hc as (-> & ? & ? & ->). rewrite (rendered_producer _ _ k), app_nil_r by done.
    by apply (phase_producing _ _ _ _ k true).
  - cbn. by rewrite app_nil_r.
  - inversion Hp; subst; wrong_phase.
Qed.

Lemma phase_consumer_emit v s gp gc l o :
  phase v s gp gc (rendered t l) -> may semid n 1 gc (EOut o) ->
  phase v s gp (next_pc 1 gc (EOut o)) (rendered t (l ++ [(1%nat, o)])).
Proof.
  intros Hp [_ Hm]. rewrite rendered_snoc.
  destruct gc as [i|i|i|i x|i|i| | |]; destruct o; try done; cbn [next_pc].
  - destruct Hm as [-> ->]. inversion Hp as [| | |k b ? ? ? ? ? Hc|[]]; subst; try wrong_phase; try done.
    destruct Hc as (-> & ? & ? & ->). rewrite (rendered_consumer _ _ k), app_nil_r by done.
    by apply (phase_consuming _ _ _ _ k true).
  - cbn. by rewrite app_nil_r.
  - destruct Hm as [-> ->]. inversion Hp as [| | | |[]]; subst; try wrong_phase; try done.
    rewrite app_nil_r. by apply (phase_over _ _ _ _ true).
Qed.

(** ** What has been printed in any phase *)
Lemma rounds_prefix k m : (k <= m)%nat -> rounds k `prefix_of` rounds m.
Proof. induction 1; [done|]. cbn. by apply prefix_app_r. Qed.

Lemma rounds_prefix_line k m : (k < m)%nat -> rounds k ++ [producer_line k] `prefix_of` rounds m.
Proof.
  intros. transitivity (rounds (S k)); [|by apply rounds_prefix].
  exists [consumer_line k]. by rewrite rounds_done.
Qed.

Lemma phase_prefix v s gp gc l :
  phase v s gp gc l -> l `prefix_of` rounds (Z.to_nat n) ++ [cleanup_line].
Proof.
  destruct 1 as [|k []|k|k []|[]]; rewrite ?app_nil_r, ?rounds_done; try done;
    try (apply prefix_app_r; (apply rounds_prefix || apply rounds_prefix_line); lia).
Qed.
End Phases.

(** * The two processes together *)
Section System.
Context (t : target) (semid n : Z) (shmid addr : Z).
Context {K : Type} (kn : kernel K) (val : K -> Z -> Z) (seg : K -> list Z).

Definition system (κ : K) : conf K unit :=
  Conf κ [producer t semid n; consumer semid n shmid addr] [].

Definition Inv (κ : K) (gs : nat -> pc) (l : list (nat * out)) : Prop :=
  phase n (val κ) (seg κ) (gs 0%nat) (gs 1%nat) (rendered t l).

Notation tracked_ I := (tracked next_pc (may semid n) (fun _ _ => True) may_return (may_end n) I).

Lemma Inv_emit κ gs l i o :
  Inv κ gs l -> may semid n i (gs i) (EOut o) ->
  Inv κ (<[i:=next_pc i (gs i) (EOut o)]> gs) (l ++ [(i, o)]).
Proof.
  intros HI Hm. unfold Inv. destruct i as [|[|i]]; [| |by destruct Hm; lia].
  - rewrite fn_lookup_insert, fn_lookup_insert_ne by done. by eapply phase_producer_emit.
  - rewrite fn_lookup_insert, fn_lookup_insert_ne by done. by eapply phase_consumer_emit.
Qed.

Lemma Inv_call `{!SemLaws kn semid val seg} κ gs l i c a κ' :
  n <= int_max -> Inv κ gs l -> kcall kn κ i c = Some (a, κ') ->
  may semid n i (gs i) (ECall c a) ->
  Inv κ' (<[i:=next_pc i (gs i) (ECall c a)]> gs) l.
Proof.
  intros Hn HI Hk Hm. unfold Inv. destruct i as [|[|i]]; [| |by destruct Hm; lia].
  - rewrite fn_lookup_insert, fn_lookup_insert_ne by done. by eapply phase_producer_call.
  - rewrite fn_lookup_insert, fn_lookup_insert_ne by done. by eapply phase_consumer_call.
Qed.

(** Both processes at the start of round 0. *)
Definition at_start (i : nat) : pc := Take 0.

Lemma follows_start (κ : K) i p :
  n <= int_max -> procs (system κ) !! i = Some p ->
  follows next_pc (may semid n) (fun _ _ => True) may_return (may_end n) i p (at_start i).
Proof.
  intros Hn. destruct i as [|[|i]]; cbn; [| |done].
  - intros [= <-]. by apply producer_follows.
  - intros [= <-]. apply consumer_follows.
Qed.

Lemma Inv_start κ : val κ 0 = 1 -> val κ 1 = 0 -> Inv κ at_start [].
Proof.
  intros H0 H1. apply (phase_empty _ _ _ _ _ 0); try done; [lia| |]; right; by left.
Qed.

Lemma system_tracked `{!SemLaws kn semid val seg} κ c :
  n <= int_max -> val κ 0 = 1 -> val κ 1 = 0 -> reachable kn (system κ) c ->
  exists gs, tracked_ Inv c gs.
Proof.
  intros Hn H0 H1. apply tracked_reachable with (gs := at_start).
  - apply Inv_emit.
  - intros. by eapply Inv_call.
  - done.
  - split; [intros; by eapply follows_start|by apply Inv_start].
Qed.

(** ** When no call fails *)
Definition Inv_ok (κ : K) (gs : nat -> pc) (l : list (nat * out)) : Prop :=
  Inv κ gs l /\ forall i, gs i <> Failed.

Lemma next_pc_ok `{!SemProgress kn semid val} κ i g c a κ' :
  kcall kn κ i c = Some (a, κ') -> may semid n i g (ECall c a) -> g <> Failed ->
  next_pc i g (ECall c a) <> Failed.
Proof.
  intros Hk [_ Hm] Hg. destruct g as [j|j|j|j x|j|j| | |]; try done; cbn [next_pc];
    destruct c; try done; cbn in Hm; destruct_and!; subst;
    apply semop_succeeds in Hk; apply Z.eqb_neq in Hk; rewrite Hk; by destruct i.
Qed.

Lemma next_pc_out_ok i g o :
  may semid n i g (EOut o) -> g <> Failed -> next_pc i g (EOut o) <> Failed.
Proof. intros [_ Hm] Hg. by destruct g, o. Qed.

Lemma insert_ok gs i (g : pc) :
  (forall j, gs j <> Failed) -> g <> Failed -> forall j, (<[i:=g]> gs : nat -> pc) j <> Failed.
Proof.
  intros Hgs Hg j. destruct (decide (i = j)) as [->|].
  - by rewrite fn_lookup_insert.
  - by rewrite fn_lookup_insert_ne.
Qed.

Lemma system_tracked_ok `{!SemLaws kn semid val seg, !SemProgress kn semid val} κ c :
  n <= int_max -> val κ 0 = 1 -> val κ 1 = 0 -> reachable kn (system κ) c ->
  exists gs, tracked_ Inv_ok c gs.
Proof.
  intros Hn H0 H1. apply tracked_reachable with (gs := at_start).
  - intros ? gs l i o [HI Hok] Hm. split; [by apply Inv_emit|].
    apply insert_ok; [done|by apply next_pc_out_ok].
  - intros ? gs l i cl a κ' [HI Hok] Hk Hm. split; [by eapply Inv_call|].
    apply insert_ok; [done|by eapply next_pc_ok].
  - done.
  - split; [intros; by eapply follows_start|]. split; [by apply Inv_start|done].
Qed.

(** Where a process that cannot step is. *)
Definition halted_at (v : Z -> Z) (r : nat) (g : pc) : Prop :=
  match g with
  | Take i => (0 <= i < n /\ v (Z.of_nat r) <= 0) \/ i = Z.max 0 n
  | Give _ => v (1 - Z.of_nat r) + 1 < 0
  | Clean | Over => True
  | _ => False
  end.

Lemma stuck_process `{!SemProgress kn semid val} c i p g :
  procs c !! i = Some p -> (forall c', ~ pstep kn c c') -> g <> Failed ->
  follows next_pc (may semid n) (fun _ _ => True) may_return (may_end n) i p g -> (i < 2)%nat ->
  halted_at (val (kstate c)) i g.
Proof.
  destruct c as [κ ps l]. cbn. intros Hp Hstuck Hg Hf Hi.
  destruct p as [u|s|o p|cl k].
  - by destruct Hf as [-> ->].
  - unfold follows in Hf. cbn in Hf. destruct g; try done. right. by destruct Hf as (_ & -> & _).
  - destruct (Hstuck _ (pstep_emit kn κ ps l i o p Hp)).
  - assert (Hno : kcall kn κ i cl = None).
    { destruct (kcall kn κ i cl) as [[a κ']|] eqn:E; [|done].
      destruct (Hstuck _ (pstep_call kn κ ps l i cl k a κ' Hp E)). }
    destruct (Hf (ret_ans 0) I) as [[_ Hm] _]. destruct g; destruct cl; try done; cbn in Hm.
    + right. by destruct Hm.
    + left. destruct Hm as (? & -> & ->). split; [done|].
      destruct (decide (val κ (Z.of_nat i) <= 0)) as [|Hv]; [done|].
      destruct (semop_total κ i (Z.of_nat i) (-1)) as [? E]; [lia|]. congruence.
    + destruct Hm as (_ & _ & -> & ->).
      destruct (store_total (kn:=kn) κ i (snprintf_bytes SHM_SIZE (message (i0 + 1)))). congruence.
    + destruct Hm as (-> & ->). destruct (load_total (kn:=kn) κ i). congruence.
    + destruct Hm as (-> & ->). cbn.
      destruct (decide (val κ (1 - Z.of_nat i) + 1 < 0)) as [|Hv]; [done|].
      destruct (semop_total κ i (1 - Z.of_nat i) 1) as [? E]; [lia|]. congruence.
    + destruct (sleep_total (kn:=kn) κ i secs). congruence.
Qed.

Ltac small_nats := change (Z.of_nat 0) with 0 in *; change (Z.of_nat 1) with 1 in *;
  change (1 - 0) with 1 in *; change (1 - 1) with 0 in *.

(** Two processes that cannot step have printed everything. *)
Lemma phase_halted v s gp gc l :
  phase n v s gp gc l -> halted_at v 0 gp -> halted_at v 1 gc -> gp <> Failed -> gc <> Failed ->
  rounds (Z.to_nat n) `prefix_of` l.
Proof.
  intros Hp Hgp Hgc Hfp Hfc.
  assert (Hidle : forall k r g, idle k g -> halted_at v r g -> g <> Failed ->
            (Z.of_nat k < n /\ v (Z.of_nat r) <= 0) \/ Z.of_nat k = Z.max 0 n).
  { intros k r g [->|[->| ->]] Hh Hf; [done| |done].
    destruct Hh as [[? ?]|Hh]; [left|right]; lia || (split; [lia|done]). }
  destruct Hp as [k ? ? ? Hp Hc|k b ? ? ? Hcr Hc|k ? ? ? ? Hp Hc|k b ? ? ? ? Hp Hcr ?|b Hp ->].
  - destruct (Hidle _ _ _ Hp Hgp Hfp) as [[? ?]|E]; small_nats; [lia|].
    by replace (Z.to_nat n) with k by lia.
  - destruct gp; try (by destruct Hcr); cbn in Hgp; small_nats; done || lia.
  - destruct (Hidle _ _ _ Hc Hgc Hfc) as [[? ?]|E]; small_nats; lia.
  - destruct gc; try (by destruct Hcr); cbn in Hgc; small_nats; done || lia.
  - by apply prefix_app_r.
Qed.
End System.

(** * A kernel that satisfies the laws *)

Definition kval (κ : (Z -> Z) * list Z) : Z -> Z := κ.1.
Definition kseg (κ : (Z -> Z) * list Z) : list Z := κ.2.

#[export] Instance sem_kernel_laws : SemLaws sem_kernel 2 kval kseg.
Proof.
  split; intros [v s] i; cbn [kval kseg kcall sem_kernel fst snd].
  - intros n op a κ'. case_match; [done|]. intros [= <- <-]. right. cbn. split_and!; try done. lia.
  - by intros d a κ' [= <- <-].
  - by intros a κ' [= <- <-].
  - by intros n a κ' [= <- <-].
Qed.

#[export] Instance sem_kernel_progress : SemProgress sem_kernel 2 kval.
Proof.
  split; intros [v s] i; cbn [kval kseg kcall sem_kernel fst snd]; try done.
  - intros n op H. case_match; [lia|done].
  - intros n op a κ'. case_match; [done|]. by intros [= <- <-].
Qed.

(** ** A complete schedule for two rounds *)
Definition start : (Z -> Z) * list Z :=
  (fun n => if n =? 0 then 1 else 0, replicate (Z.to_nat SHM_SIZE) 0).

Definition schedule : list nat :=
  [0;0;0;0;0; 1;1;1;1; 0;0;0;0;0;0; 1;1;1;1;1; 0;1;1;1;1;1;1]%nat.

Definition final_conf : option (conf ((Z -> Z) * list Z) unit) :=
  sched sem_kernel (system x86_64 2 2 7 4096 start) schedule.

(** * The properties *)

(** C2: In every interleaving of the producer and the consumer of semaphore.c
    what has been printed is a prefix of: the producer's line of round 1, the
    consumer's line of round 1, the producer's line of round 2, ..., both
    showing the same message, and the clean-up line after the last round.  This
    holds even when semaphore operations fail. *)
Theorem semaphore_order {K} t semid n shmid addr (kn : kernel K) val seg κ c :
  SemLaws kn semid val seg -> n <= int_max -> val κ 0 = 1 -> val κ 1 = 0 ->
  reachable kn (system t semid n shmid addr κ) c ->
  rendered t (log c) `prefix_of` rounds (Z.to_nat n) ++ [cleanup_line].
Proof.
  intros HL Hn H0 H1 Hr.
  destruct (system_tracked t semid n shmid addr kn val seg κ c Hn H0 H1 Hr) as (gs & _ & HI).
  by eapply phase_prefix.
Qed.

Lemma semaphore_order_witness :
  exists c, final_conf = Some c /\
    rendered x86_64 (log c) `prefix_of` rounds 2 ++ [cleanup_line] /\ length (log c) = 5%nat.
Proof.
  destruct final_conf as [c|] eqn:E; [|by vm_compute in E]. exists c. split; [done|]. split.
  - apply (semaphore_order x86_64 2 2 7 4096 sem_kernel kval kseg start c).
    + apply sem_kernel_laws.
    + done.
    + done.
    + done.
    + by apply (sched_reachable _ _ _ schedule).
  - assert (option_map (fun c => length (log c)) final_conf = Some 5%nat) as H
      by (vm_compute; reflexivity).
    rewrite E in H. by injection H.
Defined.

(** C3: When no call fails, no schedule of the two processes deadlocks or runs
    for ever: every schedule ends, and whenever neither process can step all
    the lines of all the rounds have been printed, in order. *)
Theorem semaphore_completes {K} t semid n shmid addr (kn : kernel K) val seg κ :
  SemLaws kn semid val seg -> SemProgress kn semid val -> n <= int_max ->
  val κ 0 = 1 -> val κ 1 = 0 ->
  Acc (flip (pstep kn)) (system t semid n shmid addr κ) /\
  forall c, reachable kn (system t semid n shmid addr κ) c -> (forall c', ~ pstep kn c c') ->
    rounds (Z.to_nat n) `prefix_of` rendered t (log c).
Proof.
  intros HL HP Hn H0 H1. split; [apply pstep_acc|]. intros c Hr Hstuck.
  destruct (system_tracked_ok t semid n shmid addr kn val seg κ c Hn H0 H1 Hr)
    as (gs & Hf & HI & Hok).
  pose proof (reachable_length _ _ _ Hr) as Hlen.
  destruct (procs c) as [|p [|q [|]]] eqn:E; try discriminate Hlen.
  apply (phase_halted n (val (kstate c)) (seg (kstate c)) (gs 0%nat) (gs 1%nat)); try done.
  - apply (stuck_process semid n kn val c 0 p); try done; [by rewrite E| |lia].
    by apply Hf.
  - apply (stuck_process semid n kn val c 1 q); try done; [by rewrite E| |lia].
    by apply Hf.
Qed.

Lemma semaphore_completes_witness :
  exists c, final_conf = Some c /\
    Acc (flip (pstep sem_kernel)) (system x86_64 2 2 7 4096 start) /\
    rounds 2 `prefix_of` rendered x86_64 (log c).
Proof.
  destruct final_conf as [c|] eqn:E; [|by vm_compute in E]. exists c. split; [done|].
  destruct (semaphore_completes x86_64 2 2 7 4096 sem_kernel kval kseg start) as [Hacc Hend].
  - apply sem_kernel_laws.
  - apply sem_kernel_progress.
  - done.
  - done.
  - done.
  - split; [done|].
    assert (Hr : reachable sem_kernel (system x86_64 2 2 7 4096 start) c)
      by by apply (sched_reachable _ _ _ schedule).
    apply (Hend c Hr), stuck_sched. intros i Hi.
    rewrite (reachable_length _ _ _ Hr) in Hi. cbn in Hi.
    assert (H : (fun c => (sched_step sem_kernel c 0, sched_step sem_kernel c 1)) <$> final_conf
            = Some (None, None)) by (vm_compute; reflexivity).
    rewrite E in H. injection H as H0 H1. destruct i as [|[|i]]; [done|done|lia].
Defined.
