(* ===== verification/SemRefine.v ===== *)
(** semaphore.c refines a channel of one place: the abstract specification of
    what the two processes do together, and the simulation. *)

From S2P Require Export SemSafe.

Local Open Scope Z_scope.

(** * The specification

    A place that holds at most one message, the number of messages that went
    through it, and whether the exchange was closed. *)
Record channel := Channel { place : option string; passed : nat; closed : bool }.

Definition empty_channel : channel := Channel None 0 false.

(** The messages of [n] rounds are put and taken in turn; each step is observed
    as the line a process prints. *)
Inductive chan_step (n : Z) : channel -> nat * string -> channel -> Prop :=
  | chan_put k :
      Z.of_nat k < n ->
      chan_step n (Channel None k false) (producer_line k)
                  (Channel (Some (message (Z.of_nat k + 1))) k false)
  | chan_take k :
      chan_step n (Channel (Some (message (Z.of_nat k + 1))) k false) (consumer_line k)
                  (Channel None (S k) false)
  | chan_close :
      chan_step n (Channel None (Z.to_nat n) false) cleanup_line (Channel None (Z.to_nat n) true).

Inductive chan_steps (n : Z) : channel -> list (nat * string) -> channel -> Prop :=
  | chan_nil a : chan_steps n a [] a
  | chan_snoc a a' a'' ls x :
      chan_steps n a ls a' -> chan_step n a' x a'' -> chan_steps n a (ls ++ [x]) a''.

(** * States of the channel and the lines that lead to them *)
Section Channel.
Context (n : Z).

Definition chan_ok (a : channel) : Prop :=
  (place a = None \/ (place a = Some (message (Z.of_nat (passed a) + 1)) /\ Z.of_nat (passed a) < n)) /\
  (closed a = true -> place a = None /\ passed a = Z.to_nat n) /\
  (passed a <= Z.to_nat n)%nat.

Definition lines_of (a : channel) : list (nat * string) :=
  rounds (passed a) ++ (if place a is Some _ then [producer_line (passed a)] else []) ++
  (if closed a then [cleanup_line] else []).

Lemma length_rounds k : length (rounds k) = (2 * k)%nat.
Proof. induction k as [|k IH]; [done|]. cbn [rounds]. rewrite length_app, IH. cbn. lia. Qed.

Lemma length_lines a :
  length (lines_of a) = (2 * passed a + (if place a is Some _ then 1 else 0) + (if closed a then 1 else 0))%nat.
Proof.
  unfold lines_of. rewrite !length_app, length_rounds.
  destruct (place a), (closed a); cbn; lia.
Qed.

(** A state is empty, full or closed. *)
Lemma chan_cases a :
  chan_ok a ->
  (a = Channel None (passed a) false /\ (passed a <= Z.to_nat n)%nat) \/
  (a = Channel (Some (message (Z.of_nat (passed a) + 1))) (passed a) false /\ Z.of_nat (passed a) < n) \/
  a = Channel None (Z.to_nat n) true.
Proof using Type.
  destruct a as [m k b]. unfold chan_ok. cbn. intros (Hm & Hb & Hk).
  destruct b; [destruct (Hb eq_refl) as [-> ->]; auto|].
  destruct Hm as [->|[-> ?]]; auto.
Qed.

(** The lines determine the state. *)
Lemma lines_inj a a' : chan_ok a -> chan_ok a' -> lines_of a' = lines_of a -> a' = a.
Proof using Type.
  intros Ha Ha' E. apply (f_equal length) in E. rewrite !length_lines in E.
  destruct (chan_cases a Ha) as [[Ea ?]|[[Ea ?]|Ea]], (chan_cases a' Ha') as [[Ea' ?]|[[Ea' ?]|Ea']];
    rewrite Ea, Ea' in E |- *; cbn in E; try lia; try done;
    by replace (passed a') with (passed a) by lia.
Qed.

(** One more line is one step. *)
Lemma lines_step a a' x :
  chan_ok a -> chan_ok a' -> lines_of a' = lines_of a ++ [x] -> chan_step n a x a'.
Proof using Type.
  intros Ha Ha' E. pose proof (f_equal length E) as El. rewrite length_app, !length_lines in El.
  destruct (chan_cases a Ha) as [[Ea ?]|[[Ea ?]|Ea]], (chan_cases a' Ha') as [[Ea' ?]|[[Ea' ?]|Ea']];
    rewrite Ea, Ea' in E, El |- *; cbn in El; try lia; unfold lines_of in E; cbn [place passed closed app] in E.
  - replace (passed a') with (passed a) in * by lia. rewrite !app_nil_r in E.
    apply app_inv_head in E as [= <-]. by apply chan_put.
  - replace (Z.to_nat n) with (passed a) in E at 1 by lia. rewrite !app_nil_r in E.
    cbn [app] in E. apply app_inv_head in E as [= <-].
    replace (passed a) with (Z.to_nat n) by lia. apply chan_close.
  - replace (passed a') with (S (passed a)) in * by lia. rewrite !app_nil_r, <- rounds_done in E.
    apply app_inv_head in E as [= <-]. apply chan_take.
Qed.
End Channel.

(** * The simulation *)
Section Simulation.
Context (t : target) (semid n : Z) (shmid addr : Z).
Context {K : Type} (kn : kernel K) (val : K -> Z -> Z) (seg : K -> list Z).
Context `{!SemLaws kn semid val seg}.

(** What a state of the channel stands for: the lines printed, and the message
    in the place, which is in the segment. *)
Definition represents (c : conf K unit) (a : channel) : Prop :=
  chan_ok n a /\ rendered t (log c) = lines_of a /\
  (forall m, place a = Some m -> cstr (seg (kstate c)) = Some m).

Lemma phase_represents v s gp gc l :
  phase n v s gp gc l ->
  exists a, chan_ok n a /\ l = lines_of a /\ (forall m, place a = Some m -> cstr s = Some m).
Proof using Type.
  unfold lines_of, chan_ok.
  destruct 1 as [k ? ? Hk|k b ? ? Hk Hc|k ? ? Hk Hs|k b ? ? Hk Hs|b].
  - exists (Channel None k false). cbn. rewrite app_nil_r. repeat split; auto; lia || done.
  - destruct b.
    + exists (Channel (Some (message (Z.of_nat k + 1))) k false). cbn. rewrite ?app_nil_r.
      split; [repeat split; auto; lia || done|]. split; [done|]. intros m [= <-].
      destruct gp; cbn in Hc; destruct_and?; try done. by apply Hc.
    + exists (Channel None k false). cbn. repeat split; auto; lia || done.
  - exists (Channel (Some (message (Z.of_nat k + 1))) k false). cbn. rewrite ?app_nil_r.
    split; [repeat split; auto; lia || done|]. split; [done|]. by intros m [= <-].
  - destruct b.
    + exists (Channel None (S k) false). cbn [place passed closed]. rewrite rounds_done, app_nil_r.
      repeat split; auto; lia || done.
    + exists (Channel (Some (message (Z.of_nat k + 1))) k false). cbn. rewrite ?app_nil_r.
      split; [repeat split; auto; lia || done|]. split; [done|]. by intros m [= <-].
  - exists (Channel None (Z.to_nat n) b). cbn. repeat split; auto; lia || done.
Qed.

(** A step of a process prints at most one line. *)
Lemma pstep_rendered (c c' : conf K unit) :
  pstep kn c c' ->
  rendered t (log c') = rendered t (log c) \/ exists x, rendered t (log c') = rendered t (log c) ++ [x].
Proof using Type.
  destruct 1 as [κ ps l i o p Hp|κ ps l i cl k a κ' Hp Hk]; cbn [log]; [|by left].
  rewrite rendered_snoc. unfold rendered at 2 4. cbn.
  repeat case_match; rewrite ?app_nil_r; eauto.
Qed.

(** The state of the processes is one the monitors followed from the start. *)
Definition exchange (c : conf K unit) : Prop :=
  exists gs, tracked next_pc (may semid n) (fun _ _ => True) may_return (may_end n)
               (Inv t n val seg) c gs.

Definition refines (c : conf K unit) (a : channel) : Prop := exchange c /\ represents c a.

Lemma exchange_step c c' : n <= int_max -> exchange c -> pstep kn c c' -> exchange c'.
Proof using SemLaws0.
  intros Hn [gs Hg] Hs. eapply tracked_step; [| | |exact Hg|exact Hs].
  - apply Inv_emit.
  - intros. by eapply Inv_call.
  - done.
Qed.

Lemma exchange_represents c : exchange c -> exists a, represents c a.
Proof using Type. intros (gs & _ & HI). by eapply phase_represents. Qed.

Lemma refines_start κ :
  n <= int_max -> val κ 0 = 1 -> val κ 1 = 0 -> refines (system t semid n shmid addr κ) empty_channel.
Proof using Type.
  intros Hn H0 H1. split.
  - exists at_start. split; [intros; by eapply follows_start|by apply Inv_start].
  - split; [|done]. unfold chan_ok. cbn. repeat split; auto; lia || done.
Qed.

Lemma refines_step c c' a :
  n <= int_max -> refines c a -> pstep kn c c' ->
  exists a', refines c' a' /\
    ((a' = a /\ rendered t (log c') = rendered t (log c)) \/
     exists x, chan_step n a x a' /\ rendered t (log c') = rendered t (log c) ++ [x]).
Proof using SemLaws0.
  intros Hn [He (Ha & Hl & _)] Hs. pose proof (exchange_step _ _ Hn He Hs) as He'.
  destruct (exchange_represents _ He') as [a' Hr]. exists a'. split; [done|].
  destruct Hr as (Ha' & Hl' & _). destruct (pstep_rendered _ _ Hs) as [E|[x E]].
  - left. split; [|done]. eapply lines_inj; [done..|]. congruence.
  - right. exists x. split; [|done]. eapply lines_step; [done..|]. congruence.
Qed.
End Simulation.

(** C1: semaphore.c refines a channel of one place.  A relation between the
    configurations of its two processes and the states of the channel holds
    initially; every step of a process is matched by no step of the channel, and
    prints nothing, or by one step, and prints that step's line; and the message
    in the place is the string in the shared segment.  So what is printed in any
    interleaving is a run of the channel. *)
Theorem semaphore_refines {K} t semid n shmid addr (kn : kernel K) val seg κ :
  SemLaws kn semid val seg -> n <= int_max -> val κ 0 = 1 -> val κ 1 = 0 ->
  (exists R : conf K unit -> channel -> Prop,
     R (system t semid n shmid addr κ) empty_channel /\
     (forall c a m, R c a -> place a = Some m -> cstr (seg (kstate c)) = Some m) /\
     forall c c' a, R c a -> pstep kn c c' ->
       exists a', R c' a' /\
         ((a' = a /\ rendered t (log c') = rendered t (log c)) \/
          exists x, chan_step n a x a' /\ rendered t (log c') = rendered t (log c) ++ [x])) /\
  forall c, reachable kn (system t semid n shmid addr κ) c ->
    exists a, chan_steps n empty_channel (rendered t (log c)) a.
Proof.
  intros HL Hn H0 H1.
  pose proof (refines_start t semid n shmid addr val seg κ Hn H0 H1) as Hstart. split.
  - exists (refines t semid n val seg). split; [done|].
    split; [intros c a m [_ (_ & _ & H)]; exact (H m)|].
    intros c c' a HR Hs. by eapply refines_step.
  - intros c Hr.
    assert (G : exists a, refines t semid n val seg c a /\ chan_steps n empty_channel (rendered t (log c)) a).
    { eapply (reachable_inv kn (fun c => exists a, refines t semid n val seg c a /\
        chan_steps n empty_channel (rendered t (log c)) a)); [| |exact Hr].
      - exists empty_channel. split; [done|constructor].
      - intros c1 c2 (a & HR & Hc) Hs. destruct (refines_step t semid n kn val seg c1 c2 a Hn HR Hs)
          as (a' & HR' & [[-> ->]|(x & Hx & ->)]); [by exists a|].
        exists a'. split; [done|]. by econstructor. }
    destruct G as (a & _ & H). by exists a.
Qed.

Lemma semaphore_refines_witness :
  exists c a, final_conf = Some c /\ chan_steps 2 empty_channel (rendered x86_64 (log c)) a /\
    length (log c) = 5%nat.
Proof.
  destruct final_conf as [c|] eqn:E; [|by vm_compute in E].
  destruct (semaphore_refines x86_64 2 2 7 4096 sem_kernel kval kseg start
    sem_kernel_laws ltac:(done) eq_refl eq_refl) as [_ H].
  destruct (H c) as [a Ha]; [by apply (sched_reachable _ _ _ schedule)|].
  exists c, a. split; [done|]. split; [exact Ha|].
  assert (Hl : option_map (fun c => length (log c)) final_conf = Some 5%nat) by (vm_compute; reflexivity).
  rewrite E in Hl. by injection Hl.
Defined.
