(* ===== verification/Shm.v ===== *)
(** shmtest.c: a parent that fills a System V shared memory segment and a child
    that prints what it finds there. *)

From S2P Require Export Sched.

Local Open Scope Z_scope.

(** * The program *)

Definition BUF_SIZE : Z := 1024.
Definition SHM_KEY1 : Z := 0x1234.
Definition SHM_KEY2 : Z := 0x5678.
Definition SLEEPTIME : Z := 1.
Definition DOITERS : Z := 2.
Definition IPC_CREAT : Z := 512.
Definition IPC_EXCL : Z := 1024.
Definition SHM_MODE : Z := 420.  (* 0644 *)

(** [struct shmseg]: the offsets of its fields and its size. *)
Definition off_cnt : Z := 0.
Definition off_complete : Z := 4.
Definition off_buf : Z := 8.
Definition shmseg_size : Z := 8 + BUF_SIZE.

(** What [fill_buffer] leaves in its static variable [ch]. *)
Definition next_ch (ch : Z) : Z :=
  let ch := if 122 <? ch then 65 else ch in
  let ch := if (65 <=? ch) && (ch <=? 122) then
              if (91 <=? ch) && (ch <=? 96) then 65 else ch
            else ch in
  ch + 1.

Section Processes.

Context (t : target).

(** An [int] of the segment. *)
Definition load_int (off : Z) : prog Z :=
  a <- sys (ShLoad off 4) ;; Ret (to_int (uint_value t (out_obj a 0))).
Definition store_int (off z : Z) : prog unit :=
  sys (ShStore off (int_bytes t 4 z)) ;;; skip.

(** The bytes of the segment from [buf] on. *)
Definition load_buf : prog (list Z) :=
  a <- sys (ShLoad off_buf BUF_SIZE) ;; Ret (out_obj a 0).

(** [memset], byte by byte: another process can see any part of it. *)
Definition memset (off ch n : Z) : prog unit :=
  for_ 0 n tt (fun i _ => sys (ShStore (off + i) [ch]) ;;; skip).

(** The result is [strlen] of the buffer, and the new value of [ch]. *)
Definition fill_buffer (bufptr size ch : Z) : prog (Z * Z) :=
  memset bufptr ch (size - 1) ;;;
  sys (ShStore (bufptr + (size - 1)) [0]) ;;;
  let ch' := next_ch ch in
  text <- sys (ShLoad bufptr size) ;;
  filled_count <- get (strlen (out_obj text 0)) ;;
  Ret (to_int filled_count, ch').

Definition write_once (numtimes ch : Z) : prog Z :=
  r <- fill_buffer off_buf BUF_SIZE ch ;;
  store_int off_cnt r.1 ;;;
  store_int off_complete 0 ;;;
  cnt <- load_int off_cnt ;;
  printf "Writing Process: Shared Memory Write: Wrote %d bytes\n" [AI cnt] ;;;
  fflush ;;;
  sys (Sleep SLEEPTIME) ;;;
  Ret r.2.

Definition writer : prog Z :=
  shmid <- sysr (Shmget SHM_KEY1 shmseg_size (Z.lor SHM_MODE IPC_CREAT)) ;;
  if shmid =? -1 then perror "Shared memory get of key1 failed" ;;; Ret 1 else
  shmid2 <- sysr (Shmget SHM_KEY2 shmseg_size (Z.lor SHM_MODE IPC_CREAT)) ;;
  if shmid2 =? -1 then perror "Shared memory get of key2 failed" ;;; Ret 2 else
  shmid2 <- sysr (Shmget SHM_KEY2 shmseg_size (Z.lor (Z.lor SHM_MODE IPC_CREAT) IPC_EXCL)) ;;
  if negb (shmid2 =? -1) then
    perror "Shared memory get of key2 a second time succeeded" ;;; Ret 2 else
  shmp <- sysr (Shmat shmid) ;;
  if shmp =? -1 then perror "Shared memory attach" ;;; Ret 1 else
  printf "Writing Process: shmid = 0x%x shmaddr = 0x%p\n" [AI shmid; AX TPtr shmp] ;;;
  fflush ;;;
  for_ 0 DOITERS 65 write_once ;;;
  printf "Writing Process: Wrote %d times\n" [AI DOITERS] ;;;
  fflush ;;;
  store_int off_complete 1 ;;;
  r <- sysr (Shmdt shmp) ;;
  if r =? -1 then perror "shmdt" ;;; Ret 1 else
  r <- sysr (Shmctl shmid 0) ;;
  if r =? -1 then perror "shmctl" ;;; Ret 1 else
  printf "Writing Process: Complete\n" [] ;;;
  fflush ;;;
  Ret 0.

(** One turn of [while (shmp->complete != 1)]: [Some] is a [return]. *)
Definition read_once (_ : unit) : prog (unit + option Z) :=
  complete <- load_int off_complete ;;
  if complete =? 1 then Ret (inr None) else
  text <- load_buf ;;
  printf "segment contains : \n\042%s\042\n" [AB text] ;;;
  fflush ;;;
  cnt <- load_int off_cnt ;;
  if cnt =? -1 then perror "read" ;;; Ret (inr (Some 1)) else
  cnt <- load_int off_cnt ;;
  printf "Reading Process: Shared Memory: Read %d bytes\n" [AI cnt] ;;;
  fflush ;;;
  sys (Sleep SLEEPTIME) ;;;
  Ret (inl tt).

Definition reader (fuel : nat) : prog Z :=
  shmid <- sysr (Shmget SHM_KEY1 shmseg_size (Z.lor SHM_MODE IPC_CREAT)) ;;
  if shmid =? -1 then perror "Shared memory" ;;; Ret 1 else
  shmp <- sysr (Shmat shmid) ;;
  if shmp =? -1 then perror "Shared memory attach" ;;; Ret 1 else
  printf "Reading Process: shmid = 0x%x shmaddr = 0x%p\n" [AI shmid; AX TPtr shmp] ;;;
  fflush ;;;
  r <- loop fuel tt read_once ;;
  match r with
  | Some code => Ret code
  | None =>
      printf "Reading Process: Reading Done, Detaching Shared Memory\n" [] ;;;
      fflush ;;;
      r <- sysr (Shmdt shmp) ;;
      if r =? -1 then perror "shmdt" ;;; Ret 1 else
      printf "Reading Process: Complete\n" [] ;;;
      fflush ;;;
      Ret 0
  end.

Definition main (fuel : nat) : prog Z :=
  emit OSetbuf ;;;
  child <- sysr Fork ;;
  if child =? -1 then perror "fork" ;;; Ret 0
  else if negb (child =? 0) then writer
  else reader fuel.

End Processes.

(** * The characters the buffer is filled with *)

(** The value of [ch] at the [k]-th call of [fill_buffer] in a process. *)
Definition ch_at (k : nat) : Z := Nat.iter k next_ch 65.

Lemma next_ch_letter ch : 65 <= ch <= 90 -> next_ch ch = ch + 1.
Proof.
  intros. unfold next_ch. destruct (Z.ltb_spec 122 ch); [lia|].
  destruct (Z.leb_spec 65 ch), (Z.leb_spec ch 122), (Z.leb_spec 91 ch); cbn; lia.
Qed.

(** C34: the [k]-th call of [fill_buffer] fills with the letters A to Z in
    turn, then with the character that follows Z, and from then on with the 26
    characters from B to that one over and over: never with an A again. *)
Theorem fill_buffer_sequence k :
  ch_at k = (if decide (k <= 26)%nat then 65 + Z.of_nat k
             else 66 + (Z.of_nat k - 27) mod 26) /\
  (ch_at k = 65 -> k = O).
Proof.
  assert (E : ch_at k = if decide (k <= 26)%nat then 65 + Z.of_nat k
                        else 66 + (Z.of_nat k - 27) mod 26).
  { unfold ch_at. induction k as [|k IH]; [done|]. rewrite Nat.iter_succ, IH. clear IH.
    destruct (decide (k <= 26)%nat), (decide (S k <= 26)%nat); try lia.
    - rewrite next_ch_letter by lia. lia.
    - by replace k with 26%nat by lia.
    - pose proof (Z.mod_pos_bound (Z.of_nat k - 27) 26 ltac:(lia)).
      pose proof (Z.div_mod (Z.of_nat k - 27) 26 ltac:(lia)).
      set (q := (Z.of_nat k - 27) / 26) in *. set (m := (Z.of_nat k - 27) mod 26) in *.
      destruct (decide (m = 25)) as [->|].
      + rewrite <- (Z.mod_unique (Z.of_nat (S k) - 27) 26 (q + 1) 0) by lia. done.
      + rewrite next_ch_letter by lia.
        rewrite <- (Z.mod_unique (Z.of_nat (S k) - 27) 26 q (m + 1)) by lia. lia. }
  split; [done|]. rewrite E. case_decide; [lia|].
  pose proof (Z.mod_pos_bound (Z.of_nat k - 27) 26 ltac:(lia)). lia.
Qed.

(** * Shared memory *)

(** The segment as the two processes see it: a store replaces the bytes at its
    offset, a load reads them, nothing else changes them. *)
Class MemLaws {K} (kn : kernel K) (mem : K -> list Z) : Prop := {
  mem_store κ i off data a κ' :
    kcall kn κ i (ShStore off data) = Some (a, κ') ->
    0 <= off -> off + Z.of_nat (length data) <= Z.of_nat (length (mem κ)) ->
    mem κ' = list_inserts (Z.to_nat off) data (mem κ);
  mem_load κ i off len a κ' :
    kcall kn κ i (ShLoad off len) = Some (a, κ') ->
    0 <= off -> 0 <= len -> off + len <= Z.of_nat (length (mem κ)) ->
    out_obj a 0 = take (Z.to_nat len) (drop (Z.to_nat off) (mem κ)) /\ mem κ' = mem κ;
  mem_other κ i c a κ' :
    kcall kn κ i c = Some (a, κ') ->
    (forall off data, c <> ShStore off data) -> mem κ' = mem κ
}.

(** What the processes rely on: the buffer they load holds a NUL. *)
Definition buf_sat (c : call) (a : ans) : Prop :=
  match c with
  | ShLoad 8 1024 => 0 ∈ out_obj a 0
  | _ => True
  end.

Section Safe.
Context (t : target).

(** Stores stay inside the segment and leave its last byte zero, and every line
    can be printed. *)
Definition mem_ok (_ : unit) (e : ev) : Prop :=
  match e with
  | ECall (ShStore off data) _ =>
      0 <= off /\ (off + Z.of_nat (length data) <= 1031 \/ (off = 1031 /\ data = [0]))
  | EOut (OPrintf f l) => is_Some (sprintf t f l)
  | _ => True
  end.

Definition safe {A} (p : prog A) : Prop :=
  wp (fun (_ : unit) _ => tt) mem_ok buf_sat p tt (fun _ _ => True) (fun _ s => s <> Ub).

Lemma safe_ret {A} (a : A) : safe (Ret a).
Proof. done. Qed.

Lemma safe_bind {A B} (p : prog A) (f : A -> prog B) :
  safe p -> (forall a, safe (f a)) -> safe (pbind p f).
Proof. intros Hp Hf. apply (wp_bind_intro _ _ _ (fun _ _ => True)); [done|].
  intros [] a _. apply Hf. Qed.

Lemma safe_emit {A} o (p : prog A) : mem_ok tt (EOut o) -> safe p -> safe (Emit o p).
Proof. done. Qed.

Lemma safe_vis {A} c (k : ans -> prog A) :
  (forall a, mem_ok tt (ECall c a)) -> (forall a, buf_sat c a -> safe (k a)) -> safe (Vis c k).
Proof. intros Hc Hk a Ha. split; [apply Hc|by apply Hk]. Qed.

Lemma safe_for {S} lo hi (s : S) body :
  (forall i s, lo <= i < hi -> safe (body i s)) -> safe (for_ lo hi s body).
Proof.
  intros Hb. apply (wp_for _ _ _ (fun _ _ _ => True)); [done| |done].
  intros i [] x Hi _. by apply Hb.
Qed.

Lemma safe_loop {S A} fuel (s : S) (body : S -> prog (S + A)) :
  (forall s, safe (body s)) -> safe (loop fuel s body).
Proof.
  intros Hb. apply (wp_loop _ _ _ (fun _ _ => True)); [done|done|]. intros [] x _.
  eapply wp_mono; [| |apply Hb]; [by intros _ []|done].
Qed.

Lemma cstr_Some l : 0 ∈ l -> is_Some (cstr l).
Proof.
  induction l as [|b l IH]; [by intros ?%elem_of_nil|]. cbn. intros H.
  destruct (Z.eqb_spec b 0); [done|]. apply elem_of_cons in H as [?|H]; [done|].
  destruct (IH H) as [x ->]. by eexists.
Qed.

Lemma strlen_Some l : 0 ∈ l -> is_Some (strlen l).
Proof.
  induction l as [|b l IH]; [by intros ?%elem_of_nil|]. cbn. intros H.
  destruct (Z.eqb_spec b 0); [done|]. apply elem_of_cons in H as [?|H]; [done|].
  destruct (IH H) as [x ->]. by eexists.
Qed.

Lemma safe_load_buf {A} (f : list Z -> prog A) :
  (forall text, 0 ∈ text -> safe (f text)) -> safe (pbind load_buf f).
Proof. intros Hf. apply safe_vis; [done|]. intros a Ha. by apply Hf. Qed.

(** Programs built from calls that do not touch the segment and printable
    lines. *)
Ltac safe_tac :=
  repeat match goal with
  | |- safe (Ret _) => apply safe_ret
  | |- safe (Emit _ _) => apply safe_emit; [try done; by eexists|]
  | |- safe (Vis _ _) => apply safe_vis; [done|]; intros
  | |- safe (if ?b then _ else _) => destruct b
  | |- safe (pbind (Ret _) _) => cbn [pbind]
  | |- safe (pbind load_buf _) => apply safe_load_buf; intros
  | |- safe (pbind _ _) => apply safe_bind; [|intros]
  | |- safe ?p => progress unfold sys, sysr, printf, perror, fflush, emit, skip, load_int
  end.

Lemma safe_fill_buffer ch : safe (fill_buffer off_buf BUF_SIZE ch).
Proof.
  unfold fill_buffer. apply safe_bind.
  { apply safe_for. intros i _ Hi. unfold off_buf, BUF_SIZE in *.
    apply safe_vis; [intros; cbn; lia|intros; apply safe_ret]. }
  intros []. apply safe_vis; [intros; cbn; split; [done|by right]|]. intros _ _.
  apply safe_vis; [done|]. intros text Ht. cbn [pbind].
  destruct (strlen_Some _ Ht) as [n ->]. apply safe_ret.
Qed.

Lemma safe_store_int off z : 0 <= off <= 1027 -> safe (store_int t off z).
Proof.
  intros H. apply safe_vis; [|intros; apply safe_ret].
  intros a. cbn. rewrite length_int_bytes. lia.
Qed.

Lemma safe_write_once i ch : safe (write_once t i ch).
Proof.
  unfold write_once. apply safe_bind; [apply safe_fill_buffer|]. intros r.
  apply safe_bind; [apply safe_store_int; unfold off_cnt; lia|]. intros _.
  apply safe_bind; [apply safe_store_int; unfold off_complete; lia|]. intros _.
  safe_tac.
Qed.

Lemma safe_writer : safe (writer t).
Proof.
  unfold writer. safe_tac.
  - apply safe_for. intros. apply safe_write_once.
  - apply safe_store_int. unfold off_complete. lia.
Qed.

Lemma safe_read_once u : safe (read_once t u).
Proof.
  unfold read_once. safe_tac. apply safe_emit; [|done].
  destruct (cstr_Some text) as [s E]; [done|].
  cbn. unfold sprintf. cbn -[conv]. cbn [conv f_prec spec0]. rewrite E. by eexists.
Qed.

Lemma safe_reader fuel : safe (reader t fuel).
Proof.
  unfold reader. safe_tac; [apply safe_loop; intros; apply safe_read_once|].
  destruct a3; safe_tac.
Qed.
End Safe.

(** * The writer and the reader over all interleavings *)
Section System.
Context (t : target) (fuel : nat).
Context {K : Type} (kn : kernel K) (mem : K -> list Z).

Definition system (κ : K) : conf K Z := Conf κ [writer t; reader t fuel] [].

(** The segment keeps its size and its last byte, and what was printed was
    printable. *)
Definition shm_inv (κ : K) (_ : nat -> unit) (l : list (nat * out)) : Prop :=
  length (mem κ) = 1032%nat /\ mem κ !! 1031%nat = Some 0 /\
  forall i f args, (i, OPrintf f args) ∈ l -> is_Some (sprintf t f args).

Lemma shm_inv_emit κ gs l (i : nat) o :
  shm_inv κ gs l -> mem_ok t tt (EOut o) -> shm_inv κ gs (l ++ [(i, o)]).
Proof.
  intros (Hl & Hz & Hp) Ho. split; [done|]. split; [done|].
  intros j f args [Hin|Hin]%elem_of_app; [by eapply Hp|].
  apply list_elem_of_singleton in Hin. injection Hin as -> <-. done.
Qed.

Lemma store_or_not c :
  (exists off data, c = ShStore off data) \/ (forall off data, c <> ShStore off data).
Proof. destruct c; (by left; eauto) || by right. Qed.

Lemma shm_inv_call `{!MemLaws kn mem} κ gs l i c a κ' :
  shm_inv κ gs l -> kcall kn κ i c = Some (a, κ') -> mem_ok t tt (ECall c a) -> shm_inv κ' gs l.
Proof.
  intros (Hl & Hz & Hp) Hk Hok. unfold shm_inv.
  destruct (store_or_not c) as [(off & data & ->)|Hc].
  - destruct Hok as [H0 Hok].
    rewrite (mem_store _ _ _ _ _ _ Hk) by (rewrite ?Hl; destruct Hok as [|[-> ->]]; cbn; lia).
    rewrite length_inserts. split; [done|]. split; [|done].
    destruct Hok as [Hoff|[-> ->]].
    + rewrite list_lookup_inserts_ge by lia. done.
    + rewrite list_lookup_inserts by (cbn; lia). done.
  - rewrite (mem_other _ _ _ _ _ Hk); [done|]. done.
Qed.

Lemma shm_inv_sat `{!MemLaws kn mem} κ gs l i c a κ' :
  shm_inv κ gs l -> kcall kn κ i c = Some (a, κ') -> buf_sat c a.
Proof.
  intros (Hl & Hz & _) Hk. destruct c; try done.
  destruct (decide (off = 8 /\ len = 1024)) as [[-> ->]|Hne].
  - cbn. destruct (mem_load _ _ _ _ _ _ Hk) as [-> _]; [lia|lia|rewrite Hl; lia|].
    apply list_elem_of_lookup. exists 1023%nat.
    rewrite lookup_take_lt by lia. by rewrite lookup_drop.
  - cbn. repeat case_match; try done. exfalso. apply Hne. by subst.
Qed.
End System.

(** A kernel that has only the segment; the pids, addresses and identifiers it
    hands out are fixed. *)
Definition shm_kernel : kernel (list Z) :=
  Kernel (fun m _ c =>
    match c with
    | ShStore off data => Some (ret_ans 0, list_inserts (Z.to_nat off) data m)
    | ShLoad off len => Some (Ans 0 0 [take (Z.to_nat len) (drop (Z.to_nat off) m)], m)
    | Shmget _ _ 1956 => Some (err_ans 17, m)   (* EEXIST *)
    | _ => Some (ret_ans 4096, m)
    end).

#[export] Instance shm_kernel_laws : MemLaws shm_kernel id.
Proof.
  split; unfold id; cbn.
  - by intros m _ off data a m' [= <- <-].
  - by intros m _ off len a m' [= <- <-].
  - intros m _ c a m' Hc Hn. destruct c; try by injection Hc.
    + repeat case_match; by injection Hc.
    + by destruct (Hn off data).
Qed.

(** The reader prints while the writer is inside its first [memset]. *)
Definition torn_schedule : list nat :=
  [0;0;0;0;0;0; 0;0;0; 1;1;1;1;1;1;1;1]%nat.

Definition torn_conf : option (conf (list Z) Z) :=
  sched shm_kernel (system x86_64 3 (replicate 1032 0)) torn_schedule.

(** C20: In every interleaving of the writer and the reader of shmtest.c, even
    inside a [memset], neither has undefined behaviour and every line that was
    printed is a terminated string: the last byte of the segment stays NUL. *)
Theorem shm_no_overrun {K} t fuel (kn : kernel K) mem κ c :
  MemLaws kn mem -> length (mem κ) = 1032%nat -> mem κ !! 1031%nat = Some 0 ->
  reachable kn (system t fuel κ) c ->
  (forall i, procs c !! i <> Some (Halt Ub)) /\
  (forall i f args, (i, OPrintf f args) ∈ log c -> is_Some (sprintf t f args)).
Proof.
  intros HL Hlen Hz Hr.
  destruct (tracked_reachable kn (fun _ (_ : unit) _ => tt) (fun _ => mem_ok t) buf_sat
    (fun _ _ (_ : Z) => True) (fun _ _ s => s <> Ub) (shm_inv t mem)) with (gs := fun _ : nat => tt)
    (c := system t fuel κ) (c' := c) as (gs & Hf & HI).
  - intros ? gs l i o HI Hok. apply (shm_inv_emit t mem _ gs l i o HI). by destruct (gs i).
  - intros κ0 gs l i cl a κ' HI Hk Hok. apply (shm_inv_call t kn mem κ0 gs l i cl a κ' HI Hk). by destruct (gs i).
  - intros. by eapply shm_inv_sat.
  - split; [|split; [done|split; [done|by intros ? ? ? ?%elem_of_nil]]].
    intros i p. destruct i as [|[|i]]; cbn; [| |done]; intros [= <-];
      [apply safe_writer|apply safe_reader].
  - done.
  - destruct HI as (_ & _ & Hp). split; [|done]. intros i Hi. by specialize (Hf i _ Hi).
Qed.

Lemma shm_no_overrun_witness :
  exists c, torn_conf = Some c /\ length (log c) = 6%nat /\
    (forall i, procs c !! i <> Some (Halt Ub)) /\
    (forall i f args, (i, OPrintf f args) ∈ log c -> is_Some (sprintf x86_64 f args)).
Proof.
  assert (H : (fun c => length (log c)) <$> torn_conf = Some 6%nat) by (vm_compute; reflexivity).
  destruct torn_conf as [c|] eqn:E; [|discriminate H].
  exists c. split; [done|]. split; [by injection H|].
  apply (shm_no_overrun x86_64 3 shm_kernel id (replicate 1032 0) c).
  - apply shm_kernel_laws.
  - apply length_replicate.
  - done.
  - by apply (sched_reachable _ _ _ torn_schedule).
Defined.
