(* ===== verification/Control.v ===== *)
(** controlthreads.c: seven threads that wait for input from the keyboard, a
    device, a file, a pipe and ioctls, beside two forked children; and
    waitkeyboard.c, the keyboard part alone. *)

From S2P Require Export Wait.

Local Open Scope Z_scope.

Definition EXIT_SUCCESS : Z := 0.
Definition EXIT_FAILURE : Z := 1.
Definition EOF : Z := -1.
Definition O_RDONLY : Z := 0.
Definition O_WRONLY : Z := 1.
Definition O_RDWR : Z := 2.
Definition F_OK : Z := 0.

(** [read(fd, buf, n)] into an array: the bytes read replace a prefix. *)
Definition read_into (fd : Z) (n : Z) (buf : list (option Z)) : prog (Z * list (option Z)) :=
  a <- sys (Read fd n) ;;
  Ret (to_int (a_ret a), overwrite (Some <$> out_obj a 0) buf).

(** The bytes of an array that must have been assigned. *)
Definition assigned (buf : list (option Z)) : option (list Z) := mapM id buf.

(** The string at the start of an array that is assigned up to its NUL. *)
Fixpoint c_text (buf : list (option Z)) : option (list Z) :=
  match buf with
  | Some b :: buf => if b =? 0 then Some [0] else cons b <$> c_text buf
  | _ => None
  end.

Section Program.

Context (t : target).

(** A character as an [int] and as [%c] prints it. *)
Definition char_int (b : Z) : Z := to_char t b.

(** ** The thread functions; each ends in
    [*exitval = v; pthread_exit(exitval)]. *)
Definition thread_exit (exitval v : Z) : prog unit :=
  if exitval =? 0 then Halt Ub else Halt (PthreadExit (Some v)).

Definition print_thread_id (thread_id : Z) : prog unit :=
  exitval <- sysr (Malloc 4) ;;
  pid <- sysr Getpid ;; tid <- sysr Gettid ;;
  printf "Our thread %d is running as pid, tid: %d,%d\n" [AI thread_id; AI pid; AI tid] ;;;
  sys (Sleep 1) ;;;
  pid <- sysr Getpid ;; tid <- sysr Gettid ;;
  printf "Our thread %d is running as pid, tid: %d,%d ready to exit\n"
    [AI thread_id; AI pid; AI tid] ;;;
  thread_exit exitval thread_id.

(** [ch = getchar(); if (ch == EOF)]: [ch] is a [char]. *)
Definition read_char : prog Z :=
  c <- sysr Getchar ;;
  let ch := to_char t c in
  (if ch =? EOF then printf "Interrupted\n" [] else printf "Got %c\n" [AI ch]) ;;;
  Ret ch.

Definition waitkeyboard (thread_id : Z) : prog unit :=
  exitval <- sysr (Malloc 4) ;;
  printf "Thread %d will wait for char to be entered\n" [AI thread_id] ;;;
  ch <- read_char ;;
  thread_exit exitval ch.

(** What happens after a read of other than ten bytes, and of ten bytes that do
    not begin with bingo: the device and the file differ. *)
Definition short_dev (nb : Z) : prog unit :=
  printf "Not enough input try again %d\n" [AI nb] ;;;
  when (nb <=? 0) (sys (Sleep 1) ;;; skip).
Definition short_file (nb : Z) : prog unit :=
  printf "Not enough input (%d) try again\n" [AI nb] ;;;
  when (nb =? 0) (sys (Sleep 1) ;;; skip).
Definition bad_dev : prog unit := sys (Sleep 1) ;;; skip.
Definition bad_file : prog unit := skip.

(** One turn of [while (true)]: the array [input] is kept between turns. *)
Definition bingo_turn (short : Z -> prog unit) (bad : prog unit) (fd : Z)
  (input : list (option Z)) : prog (list (option Z) + Z) :=
  r <- read_into fd 10 input ;;
  let '(nb, input) := r in
  if negb (nb =? 10) then short nb ;;; Ret (inl input)
  else
    buf <- get (assigned input) ;;
    if strncmp_eq 5 (c_array "bingo") buf then
      last <- get (buf !! 9%nat) ;;
      printf "got bingo, return %c\n" [AI (char_int last)] ;;;
      Ret (inr last)
    else
      printf "bad input %s not bingo\n" [AB buf] ;;; bad ;;; Ret (inl input).

(** [char input[11]; input[10] = 0]. *)
Definition input_init : list (option Z) := replicate 10 None ++ [Some 0].

Definition waitfake (path nofile : string) (short : Z -> prog unit) (bad : prog unit)
  (fuel : nat) (thread_id : Z) : prog unit :=
  exitval <- sysr (Malloc 4) ;;
  fd <- sysr (Open path O_RDONLY 0) ;;
  if fd =? -1 then printf nofile [] ;;; thread_exit exitval (-1)
  else
    printf "Thread %d will wait for string 'bingo' to be read from fake dev\n" [AI thread_id] ;;;
    last <- loop fuel input_init (bingo_turn short bad fd) ;;
    thread_exit exitval (char_int last).

Definition waitfakedev : nat -> Z -> prog unit :=
  waitfake "/dev/fakeme" "No /dev/fakeme\n" short_dev bad_dev.
Definition waitfakefile : nat -> Z -> prog unit :=
  waitfake "/FAKEME/fakename" "No file FAKEME\n" short_file bad_file.

(** ** The named pipe *)
Definition PIPE_NAME : string := "/tmp/controlthreads_pipe".
Definition messages : list string := ["1st message"; "2nd message"; "last message"].

Definition pipewriter (thread_id : Z) : prog unit :=
  exitval <- sysr (Malloc 4) ;;
  fd <- sysr (Open PIPE_NAME O_WRONLY 0) ;;
  if fd =? -1 then
    perror "Failed to open pipe for writing" ;;; Halt (PthreadExit None)
  else
    for_ 0 3 tt (fun i _ =>
      m <- get (lookupZ messages i) ;;
      sendbuf <- get (sprintf t "From %d: %s" [AI thread_id; AS m]) ;;
      sys (Write fd (c_array sendbuf)) ;;;
      printf "Writer: Sent message: %s\n" [AS sendbuf]) ;;;
    sys (Close fd) ;;;
    thread_exit exitval 88.

Definition pipereader (thread_id : Z) : prog unit :=
  exitval <- sysr (Malloc 4) ;;
  fd <- sysr (Open PIPE_NAME O_RDONLY 0) ;;
  if fd =? -1 then
    perror "Failed to open pipe for writing" ;;; Halt (PthreadExit None)
  else
    readbuf <- for_ 0 3 (replicate 100 None) (fun _ readbuf =>
      r <- read_into fd 100 readbuf ;;
      let '(bytes_read, readbuf) := r in
      when (0 <? bytes_read)
        (text <- get (c_text readbuf) ;;
         printf "Reader %d: Received message: %s\n" [AI thread_id; AB text]) ;;;
      Ret readbuf) ;;
    sys (Close fd) ;;;
    cell <- get (readbuf !! 10%nat) ;;
    v <- get cell ;;
    thread_exit exitval (char_int v).

(** ** ioctls *)
Definition DEVICE_NAME : string := "/dev/mydevice".
Definition write_buf : list Z := c_array "Hello, device!".

Definition useioctls (thread_id : Z) : prog unit :=
  exitval <- sysr (Malloc 4) ;;
  fd <- sysr (Open DEVICE_NAME O_RDWR 0) ;;
  if fd <? 0 then
    perror "Failed to open the device" ;;; thread_exit exitval EXIT_FAILURE
  else
    r <- sysr (Ioctl fd "IOCTL_WRITE" write_buf) ;;
    if r <? 0 then
      perror "Failed to write via ioctl" ;;; sys (Close fd) ;;; thread_exit exitval EXIT_FAILURE
    else
      printf "Data written: %s\n" [AB write_buf] ;;;
      a <- sys (Ioctl fd "IOCTL_READ" []) ;;
      let read_buf := overwrite (out_obj a 0) (replicate 100 0) in
      if a_ret a <? 0 then
        perror "Failed to read via ioctl" ;;; sys (Close fd) ;;; thread_exit exitval EXIT_FAILURE
      else
        printf "Data read: %s\n" [AB read_buf] ;;;
        when (negb (strncmp_eq 15 write_buf read_buf))
          (printf "Read did not match write %s != %s" [AB read_buf; AB write_buf]) ;;;
        sys (Close fd) ;;;
        thread_exit exitval EXIT_SUCCESS.

(** ** The threads *)
Definition MAXTHREADS : nat := 100.
Definition funcs : list string :=
  ["print_thread_id"; "waitkeyboard"; "waitfakedev"; "waitfakefile"; "pipewriter";
   "pipereader"; "useioctls"].

(** The function a thread of that name runs. *)
Definition thread_fn (fuel : nat) (fn : string) (id : Z) : prog unit :=
  if String.eqb fn "print_thread_id" then print_thread_id id
  else if String.eqb fn "waitkeyboard" then waitkeyboard id
  else if String.eqb fn "waitfakedev" then waitfakedev fuel id
  else if String.eqb fn "waitfakefile" then waitfakefile fuel id
  else if String.eqb fn "pipewriter" then pipewriter id
  else if String.eqb fn "pipereader" then pipereader id
  else if String.eqb fn "useioctls" then useioctls id
  else Halt Ub.

(** [defs[i].id = i + 1] and the creation of thread [i]; [defs] is modelled by
    its [thread] fields. *)
Definition create_def (i : Z) (defs : list (option Z)) : prog (list (option Z)) :=
  fn <- get (lookupZ funcs i) ;;
  a <- sys (PthreadCreate fn (i + 1)) ;;
  if negb (a_ret a =? 0) then
    printf "Error: Unable to create thread %d\n" [AI (i + 1)] ;;; exit (-1)
  else get (storeZ i (Some (out_int a)) defs).

(** A thread that exited with NULL makes [*threadstatus] undefined. *)
Definition join_def (defs : list (option Z)) (i : Z) (_ : unit) : prog unit :=
  cell <- get (lookupZ defs i) ;;
  th <- get cell ;;
  a <- sys (PthreadJoin th) ;;
  status <- get (head (out_obj a 0)) ;;
  printf "Joined with thread %d which exited 0x%x\n" [AI i; AI status] ;;;
  emit OFree.

Definition makethreads : prog Z :=
  let numthreads := Z.of_nat (length funcs) in
  defs <- for_ 0 numthreads (replicate MAXTHREADS None) create_def ;;
  printf "Created %d threads\n" [AI numthreads] ;;;
  for_ 0 numthreads tt (join_def defs) ;;;
  Ret numthreads.

(** ** The forked children *)

(** [while (bytesread != 1) bytesread = read(fd, inchar, 1)] and the character,
    which is indeterminate when the kernel stored none. *)
Definition read_one (fuel : nat) (fd : Z) : prog Z :=
  inchar <- loop fuel [None] (fun inchar =>
    r <- read_into fd 1 inchar ;;
    Ret (if r.1 =? 1 then inr r.2 else inl r.2)) ;;
  cell <- get (head inchar) ;;
  b <- get cell ;;
  Ret (char_int b).

Definition fork_demon (fuel : nat) : prog Z :=
  cpid <- sysr Fork ;;
  if cpid =? 0 then
    fd <- sysr (Dup 0) ;;
    c <- read_one fuel fd ;;
    exit c
  else Ret cpid.

(** Its value is not used by the caller. *)
Definition fork_and_wait (fuel : nat) : prog unit :=
  cpid <- sysr Fork ;;
  if cpid =? 0 then
    fd <- sysr (Dup 0) ;;
    read_one fuel fd ;;; skip
  else wait_loop fuel cpid wait_fail.

(** S_IXUSR|S_IWUSR|S_IRUSR *)
Definition rwx : Z := 448.

(** What both processes that leave [fork_and_wait] do. *)
Definition finish (demon_pid : Z) : prog Z :=
  numthreads <- makethreads ;;
  sys (Waitpid demon_pid wait_options) ;;;
  sys (Unlink PIPE_NAME) ;;;
  Ret numthreads.

Definition main (fuel : nat) : prog Z :=
  emit OSetbuf ;;;
  r <- sysr (Access PIPE_NAME F_OK) ;;
  ok <- (if negb (r =? 0) then
           m <- sysr (Mkfifo PIPE_NAME 438) ;;
           if m =? -1 then perror "Failed to create named pipe" ;;; Ret false else Ret true
         else Ret true) ;;
  if negb ok then Ret EXIT_FAILURE else
  r <- sysr (Access "/tmp" F_OK) ;;
  (if r =? 0 then sysr (Chmod "/tmp" rwx) else sysr (Mkdir "/tmp" rwx)) ;;;
  demon_pid <- fork_demon fuel ;;
  fork_and_wait fuel ;;;
  finish demon_pid.

End Program.

(** ** waitkeyboard.c *)
Definition WaitKeyboard_main (t : target) : prog Z :=
  printf "Will wait for char to be entered\n" [] ;;;
  fflush ;;;
  read_char t ;;;
  Ret 0.

(** * Waiting for bingo *)

(** A read that is not accepted: fewer (or more) than ten bytes, or ten bytes
    that do not begin with bingo. *)
Inductive attempt := Short (nb : Z) (data : list Z) | Bad (data : list Z).

Definition rejected (x : attempt) : Prop :=
  match x with
  | Short nb data => nb <> 10 /\ is_int nb /\ (length data <= 10)%nat
  | Bad data => length data = 10%nat /\ strncmp_eq 5 (c_array "bingo") (data ++ [0]) = false
  end.

Definition read_ans (nb : Z) (data : list Z) : ans := Ans nb 0 [data].

Section Bingo.
Context (t : target) (fd : Z).

(** The answers an attempt takes, and what is printed about it: the two loops
    differ in when they sleep and in a format. *)
Definition dev_script (x : attempt) : list ans :=
  match x with
  | Short nb data => read_ans nb data :: if nb <=? 0 then [ret_ans 0] else []
  | Bad data => [read_ans 10 data; ret_ans 0]
  end.
Definition file_script (x : attempt) : list ans :=
  match x with
  | Short nb data => read_ans nb data :: if nb =? 0 then [ret_ans 0] else []
  | Bad data => [read_ans 10 data]
  end.

Definition attempt_line (fmt : string) (x : attempt) : string * list arg :=
  match x with
  | Short nb _ => (fmt, [AI nb])
  | Bad data => ("bad input %s not bingo\n", [AB (data ++ [0])])
  end.
Definition dev_fmt : string := "Not enough input try again %d\n".
Definition file_fmt : string := "Not enough input (%d) try again\n".

(** The array between turns: its last cell keeps the NUL. *)
Definition input_ok (input : list (option Z)) : Prop :=
  exists xs, input = xs ++ [Some 0] /\ length xs = 10%nat.

Lemma input_ok_init : input_ok input_init.
Proof. by exists (replicate 10 None). Qed.

Lemma input_ok_read data input :
  (length data <= 10)%nat -> input_ok input -> input_ok (overwrite (Some <$> data) input).
Proof.
  intros Hd (xs & -> & Hx). exists (overwrite (Some <$> data) xs). unfold overwrite.
  rewrite length_fmap, drop_app_le by lia. rewrite app_assoc. split; [done|].
  rewrite length_app, length_fmap, length_drop. lia.
Qed.

Lemma assigned_all (l : list Z) : assigned (Some <$> l) = Some l.
Proof. unfold assigned. induction l as [|b l IH]; [done|]. cbn. by rewrite IH. Qed.

Lemma assigned_read data input :
  length data = 10%nat -> input_ok input ->
  assigned (overwrite (Some <$> data) input) = Some (data ++ [0]).
Proof.
  intros Hd (xs & -> & Hx). unfold overwrite.
  rewrite length_fmap, drop_app_length' by lia.
  change [Some 0] with (Some <$> [0]). by rewrite <- fmap_app, assigned_all.
Qed.

(** One rejected turn of the loop over the device, and over the file. *)
Definition turn_rejects (turn : list (option Z) -> prog (list (option Z) + Z))
  (script : attempt -> list ans) (fmt : string) : Prop :=
  forall x input sc, rejected x -> input_ok input ->
    exists tr input', run (turn input) (script x ++ sc) = (tr, Done (inl input'), sc) /\
      input_ok input' /\ printed tr = [attempt_line fmt x].

Lemma dev_turn_rejects : turn_rejects (bingo_turn t short_dev bad_dev fd) dev_script dev_fmt.
Proof.
  intros x input sc Hx Hi. destruct x as [nb data|data].
  - destruct Hx as (Hne & Hint & Hd). unfold bingo_turn, read_into.
    cbn. rewrite to_int_id by done. destruct (Z.eqb_spec nb 10); [done|]. cbn.
    destruct (nb <=? 0); cbn; eexists _, _; split_and!; try done; by apply input_ok_read.
  - destruct Hx as (Hd & Hb). unfold bingo_turn, read_into. cbn -[strncmp_eq c_array fmap overwrite].
    rewrite assigned_read by done. cbn -[strncmp_eq c_array fmap overwrite]. rewrite Hb. cbn.
    eexists _, _. split_and!; try done. by apply input_ok_read; [lia|].
Qed.

Lemma file_turn_rejects : turn_rejects (bingo_turn t short_file bad_file fd) file_script file_fmt.
Proof.
  intros x input sc Hx Hi. destruct x as [nb data|data].
  - destruct Hx as (Hne & Hint & Hd). unfold bingo_turn, read_into.
    cbn. rewrite to_int_id by done. destruct (Z.eqb_spec nb 10); [done|]. cbn.
    destruct (nb =? 0); cbn; eexists _, _; split_and!; try done; by apply input_ok_read.
  - destruct Hx as (Hd & Hb). unfold bingo_turn, read_into. cbn -[strncmp_eq c_array fmap overwrite].
    rewrite assigned_read by done. cbn -[strncmp_eq c_array fmap overwrite]. rewrite Hb. cbn.
    eexists _, _. split_and!; try done. by apply input_ok_read; [lia|].
Qed.

(** The turn that accepts. *)
Lemma turn_accepts short bad data last input sc :
  length data = 10%nat -> strncmp_eq 5 (c_array "bingo") (data ++ [0]) = true ->
  data !! 9%nat = Some last -> input_ok input ->
  run (bingo_turn t short bad fd input) (read_ans 10 data :: sc) =
  ([ECall (Read fd 10) (read_ans 10 data);
    EOut (OPrintf "got bingo, return %c\n" [AI (char_int t last)])], Done (inr last), sc).
Proof.
  intros Hd Hb Hl Hi. unfold bingo_turn, read_into. cbn -[strncmp_eq c_array fmap overwrite].
  rewrite assigned_read by done. cbn -[strncmp_eq c_array fmap overwrite]. rewrite Hb.
  rewrite lookup_app_l by lia. by rewrite Hl.
Qed.

Lemma bingo_loop short bad script fmt data last xs fuel input :
  turn_rejects (bingo_turn t short bad fd) script fmt ->
  Forall rejected xs -> (length xs < fuel)%nat ->
  length data = 10%nat -> strncmp_eq 5 (c_array "bingo") (data ++ [0]) = true ->
  data !! 9%nat = Some last -> input_ok input ->
  exists tr, run (loop fuel input (bingo_turn t short bad fd))
      ((xs ≫= script) ++ [read_ans 10 data]) = (tr, Done last, []) /\
    printed tr = (attempt_line fmt <$> xs) ++ [("got bingo, return %c\n", [AI (char_int t last)])].
Proof.
  intros Ht Hxs Hf Hd Hb Hl. revert fuel input Hf.
  induction Hxs as [|x xs Hx Hxs IH]; intros fuel input Hf Hi;
    (destruct fuel as [|fuel]; [cbn in Hf; lia|]); cbn [loop].
  - rewrite run_bind. cbn [mbind list_bind app]. rewrite (turn_accepts _ _ _ last) by done.
    by eexists.
  - cbn [mbind list_bind]. rewrite <- app_assoc, run_bind.
    destruct (Ht x input ((xs ≫= script) ++ [read_ans 10 data]) Hx Hi) as (tr & input' & E & Hi' & Hp).
    change (list_bind _ _ script xs) with (xs ≫= script). rewrite E.
    destruct (IH fuel input' ltac:(cbn in Hf; lia) Hi') as (tr2 & E2 & Hp2). rewrite E2.
    eexists. split; [done|]. by rewrite printed_app, Hp, Hp2.
Qed.
End Bingo.

(** C26: waitfakedev and waitfakefile report every read that is not ten bytes
    beginning with bingo and go on; at the first that is, they exit with its
    tenth byte.  They sleep between attempts, the file's only after an empty
    read. *)
Theorem waitfake_run t fd m id xs data last fuel :
  m <> 0 -> fd <> -1 -> Forall rejected xs -> (length xs < fuel)%nat ->
  length data = 10%nat -> strncmp_eq 5 (c_array "bingo") (data ++ [0]) = true ->
  data !! 9%nat = Some last ->
  let opened := ("Thread %d will wait for string 'bingo' to be read from fake dev\n", [AI id]) in
  let found := ("got bingo, return %c\n", [AI (char_int t last)]) in
  (exists tr, run (waitfakedev t fuel id)
      (ret_ans m :: ret_ans fd :: (xs ≫= dev_script) ++ [read_ans 10 data])
      = (tr, Halted (PthreadExit (Some (char_int t last))), []) /\
    printed tr = opened :: (attempt_line dev_fmt <$> xs) ++ [found]) /\
  (exists tr, run (waitfakefile t fuel id)
      (ret_ans m :: ret_ans fd :: (xs ≫= file_script) ++ [read_ans 10 data])
      = (tr, Halted (PthreadExit (Some (char_int t last))), []) /\
    printed tr = opened :: (attempt_line file_fmt <$> xs) ++ [found]).
Proof.
  intros Hm Hfd Hxs Hf Hd Hb Hl opened found. apply Z.eqb_neq in Hm, Hfd.
  split; unfold waitfakedev, waitfakefile, waitfake; cbn -[bingo_turn mbind input_init bad_dev bad_file];
    rewrite Hfd; cbn -[bingo_turn mbind input_init bad_dev bad_file]; rewrite run_bind.
  - destruct (bingo_loop t fd _ _ _ _ data last xs fuel input_init (dev_turn_rejects t fd))
      as (tr & -> & Hp); try done; [apply input_ok_init|].
    unfold thread_exit. rewrite Hm. cbn. eexists. split; [done|]. unfold found.
    by rewrite <- Hp, app_nil_r.
  - destruct (bingo_loop t fd _ _ _ _ data last xs fuel input_init (file_turn_rejects t fd))
      as (tr & -> & Hp); try done; [apply input_ok_init|].
    unfold thread_exit. rewrite Hm. cbn. eexists. split; [done|]. unfold found.
    by rewrite <- Hp, app_nil_r.
Qed.

Lemma waitfake_run_witness :
  exists tr, run (waitfakedev x86_64 3 3)
      (ret_ans 1 :: ret_ans 7 :: ([Short 0 []; Bad (bytes "hellothere")] ≫= dev_script)
       ++ [read_ans 10 (bytes "bingo-yesZ")])
    = (tr, Halted (PthreadExit (Some 90)), []).
Proof.
  destruct (waitfake_run x86_64 7 1 3 [Short 0 []; Bad (bytes "hellothere")]
    (bytes "bingo-yesZ") 90 3) as [(tr & E & _) _]; try done; try (cbn; lia).
  - repeat constructor; done.
  - by exists tr.
Defined.

(** * Characters and end of input *)

(** C35: on targets whose [char] is signed the programs take the byte 255 for
    the end of input; on targets whose [char] is unsigned they never notice the
    end of input. *)
Theorem keyboard_eof t c :
  -1 <= c <= 255 ->
  run (WaitKeyboard_main t) [ret_ans c] =
  ([EOut (OPrintf "Will wait for char to be entered\n" []); EOut OFflush;
    ECall Getchar (ret_ans c);
    EOut (if char_signed t && ((c =? -1) || (c =? 255)) then OPrintf "Interrupted\n" []
          else OPrintf "Got %c\n" [AI (to_char t c)])], Done 0, []).
Proof.
  intros Hc. unfold WaitKeyboard_main, read_char. cbn -[to_char].
  assert (E : (to_char t c =? EOF) = char_signed t && ((c =? -1) || (c =? 255))).
  { unfold to_char, EOF. destruct (char_signed t).
    - unfold swrap. change (2 ^ (8 - 1)) with 128. change (2 ^ 8) with 256.
      destruct (decide (c < 128)).
      + rewrite Z.mod_small by lia. lia.
      + rewrite <- (Z.mod_unique (c + 128) 256 1 (c - 128)) by lia. lia.
    - unfold uwrap. change (2 ^ 8) with 256. pose proof (Z.mod_pos_bound c 256 ltac:(lia)). lia. }
  rewrite E. by destruct (_ && _).
Qed.

Lemma keyboard_eof_witness :
  result (WaitKeyboard_main arm) [ret_ans (-1)] = Done 0.
Proof. unfold result. rewrite (keyboard_eof arm (-1)); [done|lia]. Defined.

(** * The child that does not exit *)

Section BothReturn.
Context (t : target) (fuel : nat) (Hf : (0 < fuel)%nat).

Lemma run_child_returns fd b sc :
  exists tr, run (fork_and_wait t fuel) (ret_ans 0 :: ret_ans fd :: read_ans 1 [b] :: sc) =
    (tr, Done tt, sc).
Proof using Hf.
  destruct fuel as [|n]; [lia|]. unfold fork_and_wait, read_one. cbn. by eexists.
Qed.

Lemma run_parent_returns pid w sc :
  0 < pid -> wstatus_ok w -> terminal w = true ->
  exists tr, run (fork_and_wait t fuel) (ret_ans pid :: wait_ans pid w :: sc) = (tr, Done tt, sc).
Proof using Hf.
  intros Hpid Hw Ht. unfold fork_and_wait. cbn -[wait_loop wait_fail].
  destruct (Z.eqb_spec pid 0); [lia|].
  pose proof (run_wait_loop pid Hpid fuel wait_fail [] w sc) as E. cbn [app fmap list_fmap] in E.
  rewrite E by (done || (cbn; lia)). by eexists.
Qed.

(** Up to [fork_and_wait]: the pipe and /tmp exist, the first child is [demon]. *)
Lemma run_main_prefix demon sc : demon <> 0 ->
  exists tr, run (main t fuel) (ret_ans 0 :: ret_ans 0 :: ret_ans 0 :: ret_ans demon :: sc) =
    let '(t2, r, sc) := run (fork_and_wait t fuel ;;; finish demon) sc in (tr ++ t2, r, sc).
Proof.
  intros Hd. apply Z.eqb_neq in Hd. unfold main, fork_demon. cbn -[fork_and_wait finish].
  rewrite Hd. cbn -[fork_and_wait finish].
  exists [EOut OSetbuf; ECall (Access PIPE_NAME F_OK) (ret_ans 0);
    ECall (Access "/tmp" F_OK) (ret_ans 0); ECall (Chmod "/tmp" rwx) (ret_ans 0);
    ECall Fork (ret_ans demon)].
  by destruct (run _ sc) as [[??]?].
Qed.
End BothReturn.

(** The child of [fork_and_wait] returns to [main] once it has read a
    character, as the parent does once the child ended: both go on to create
    the seven threads and to remove the pipe. *)
Theorem fork_and_wait_both_return t fuel demon pid fd b w rest :
  (0 < fuel)%nat -> demon <> 0 -> 0 < pid -> wstatus_ok w -> terminal w = true ->
  let prefix := [ret_ans 0; ret_ans 0; ret_ans 0; ret_ans demon] in
  (exists tr, run (main t fuel) (prefix ++ [ret_ans 0; ret_ans fd; read_ans 1 [b]] ++ rest) =
     let '(t2, r, sc) := run (finish demon) rest in (tr ++ t2, r, sc)) /\
  (exists tr, run (main t fuel) (prefix ++ [ret_ans pid; wait_ans pid w] ++ rest) =
     let '(t2, r, sc) := run (finish demon) rest in (tr ++ t2, r, sc)).
Proof.
  intros Hf Hd Hpid Hw Ht prefix. split; cbn [prefix app].
  - destruct (run_main_prefix t fuel demon (ret_ans 0 :: ret_ans fd :: read_ans 1 [b] :: rest) Hd)
      as [tr ->].
    rewrite run_bind. destruct (run_child_returns t fuel Hf fd b rest) as [tr2 ->].
    exists (tr ++ tr2). destruct (run (finish demon) rest) as [[??]?]. by rewrite app_assoc.
  - destruct (run_main_prefix t fuel demon (ret_ans pid :: wait_ans pid w :: rest) Hd) as [tr ->].
    rewrite run_bind. destruct (run_parent_returns t fuel Hf pid w rest) as [tr2 ->]; [done..|].
    exists (tr ++ tr2). destruct (run (finish demon) rest) as [[??]?]. by rewrite app_assoc.
Qed.

Lemma fork_and_wait_both_return_witness :
  result (main x86_64 1) ([ret_ans 0; ret_ans 0; ret_ans 0; ret_ans 77] ++
    [ret_ans 0; ret_ans 3; read_ans 1 [65]] ++ []) = Blocked (PthreadCreate "print_thread_id" 1).
Proof.
  unfold result.
  destruct (proj1 (fork_and_wait_both_return x86_64 1 77 78 3 65 (Exited 65) []
    ltac:(lia) ltac:(lia) ltac:(lia) ltac:(cbn; lia) eq_refl)) as [tr ->].
  done.
Defined.

(** * Threads that exit without a value *)

(** What [pthread_create] and [pthread_join] store. *)
Definition create_ok (handle : Z) : ans := Ans 0 0 [[handle]].
Definition join_ok (value : Z) : ans := Ans 0 0 [[value]].

Lemma create_defs hs : forall i pre k sc,
  i = Z.of_nat (length pre) -> i + Z.of_nat (length hs) <= 7 -> (length hs <= k)%nat ->
  exists tr, run (for_n (length hs) i ((Some <$> pre) ++ replicate k None) create_def)
      ((create_ok <$> hs) ++ sc) =
    (tr, Done ((Some <$> pre ++ hs) ++ replicate (k - length hs) None), sc).
Proof.
  induction hs as [|h hs IH]; intros i pre k sc Hi Hl Hk.
  { eexists. cbn. by rewrite app_nil_r, Nat.sub_0_r. }
  destruct k as [|k]; cbn in Hl, Hk; [lia|].
  assert (Hfn : is_Some (lookupZ funcs i)).
  { unfold lookupZ. rewrite decide_True by lia. apply lookup_lt_is_Some. cbn. lia. }
  destruct Hfn as [fn Hfn]. cbn [length for_n replicate]. rewrite fmap_cons. cbn [app].
  destruct (IH (i + 1) (pre ++ [h]) k sc) as [tr E];
    [rewrite length_app; cbn; lia|lia|lia|].
  rewrite run_bind. unfold create_def at 1. rewrite Hfn. cbn [get pbind sys run a_ret create_ok].
  change (negb (0 =? 0)) with false. cbn [pbind].
  rewrite storeZ_app by (rewrite length_fmap; lia). cbn [get run].
  change (out_int (create_ok h)) with h.
  assert (Hpre : (Some <$> pre ++ [h]) ++ replicate k None = (Some <$> pre) ++ Some h :: replicate k None)
    by by rewrite fmap_app, <- app_assoc.
  rewrite <- Hpre, E. eexists. by rewrite <- app_assoc.
Qed.

Lemma join_defs_null hs vs sc : forall i pre (rest : list (option Z)),
  i = Z.of_nat (length pre) -> (length vs < length hs)%nat ->
  exists tr, run (for_n (length hs) i tt (join_def ((Some <$> pre ++ hs) ++ rest)))
      ((join_ok <$> vs) ++ ret_ans 0 :: sc) = (tr, Halted Ub, sc).
Proof.
  revert vs. induction hs as [|h hs IH]; intros vs i pre rest Hi Hl; [cbn in Hl; lia|].
  assert (Hcell : lookupZ ((Some <$> pre ++ h :: hs) ++ rest) i = Some (Some h)).
  { rewrite fmap_app, fmap_cons, <- app_assoc. cbn [app]. apply lookupZ_app.
    by rewrite length_fmap. }
  cbn [length for_n]. rewrite run_bind. unfold join_def at 1. rewrite Hcell. cbn [get pbind].
  destruct vs as [|v vs]; [by eexists|].
  rewrite fmap_cons. cbn [app].
  destruct (IH vs (i + 1) (pre ++ [h]) rest) as [tr E];
    [rewrite length_app; cbn; lia|cbn in Hl; lia|].
  rewrite <- app_assoc in E. cbn [app] in E. cbn [sys pbind run].
  change (head (out_obj (join_ok v) 0)) with (Some v). cbn [get pbind printf emit run].
  rewrite E. by eexists.
Qed.

(** When the named pipe cannot be opened, pipewriter and pipereader exit
    with NULL, and [makethreads] dereferences the status it joined: undefined
    behaviour, whichever thread it is. *)
Theorem null_status_ub t m id hs vs rest :
  m <> 0 -> length hs = 7%nat -> (length vs < 7)%nat ->
  result (pipewriter t id) [ret_ans m; ret_ans (-1)] = Halted (PthreadExit None) /\
  result (pipereader t id) [ret_ans m; ret_ans (-1)] = Halted (PthreadExit None) /\
  result makethreads ((create_ok <$> hs) ++ (join_ok <$> vs) ++ ret_ans 0 :: rest) = Halted Ub.
Proof.
  intros Hm Hhs Hvs. split; [done|]. split; [done|].
  unfold result, makethreads. change (Z.of_nat (length funcs)) with 7.
  unfold for_. change (Z.to_nat (7 - 0)) with 7%nat. rewrite <- Hhs, run_bind.
  destruct (create_defs hs 0 [] MAXTHREADS ((join_ok <$> vs) ++ ret_ans 0 :: rest)) as [tr E];
    [done|rewrite Hhs; lia|rewrite Hhs; unfold MAXTHREADS; lia|].
  cbn [fmap list_fmap app] in E. change (list_fmap Z ans create_ok hs) with (create_ok <$> hs) in E.
  rewrite E. cbn [printf emit pbind run]. rewrite run_bind.
  destruct (join_defs_null hs vs rest 0 [] (replicate (MAXTHREADS - length hs) None)) as [tr2 E2];
    [done|lia|].
  cbn [app] in E2. by rewrite E2.
Qed.

Lemma null_status_ub_witness :
  result makethreads ((create_ok <$> [1; 2; 3; 4; 5; 6; 7]) ++ (join_ok <$> [1; 2; 3; 4]) ++ [ret_ans 0])
  = Halted Ub.
Proof.
  apply (null_status_ub x86_64 1 5 [1; 2; 3; 4; 5; 6; 7] [1; 2; 3; 4] []);
    [done|done|cbn; lia].
Defined.

(** * Fuel *)

Section Enough.
Context (t : target).

Lemma enough_sleep (b : bool) secs : enough (fun _ => when b (sys (Sleep secs) ;;; skip)).
Proof. unfold sys, skip, when. enough_tac. Qed.

Lemma enough_bingo_turn (short : Z -> prog unit) (bad : prog unit) fd input :
  (forall nb, enough (fun _ => short nb)) -> enough (fun _ => bad) ->
  enough (fun _ => bingo_turn t short bad fd input).
Proof.
  intros Hs Hb. unfold bingo_turn, read_into, sys, printf, emit. cbn [pbind].
  apply enough_vis. intros a. cbn [pbind]. apply enough_if.
  - apply enough_bind; [done|]. intros. apply enough_ret.
  - apply enough_bind; [apply enough_get|]. intros buf. apply enough_if.
    + enough_tac.
    + apply enough_emit. apply enough_bind; [done|]. intros. apply enough_ret.
Qed.

Lemma enough_bingo_loop (short : Z -> prog unit) (bad : prog unit) fd input :
  (forall nb, enough (fun _ => short nb)) -> enough (fun _ => bad) ->
  enough (fun n => loop n input (bingo_turn t short bad fd)).
Proof.
  intros Hs Hb. apply (enough_loop (fun _ _ => _)).
  - intros input'. by apply enough_bingo_turn.
  - intros _ input'. unfold bingo_turn, read_into, sys. apply consumes_vis.
Qed.

Lemma enough_read_loop fd inchar :
  enough (fun n => loop n inchar (fun inchar =>
    r <- read_into fd 1 inchar ;; Ret (if r.1 =? 1 then inr r.2 else inl r.2))).
Proof.
  apply (enough_loop (fun _ _ => _)).
  - intros inchar'. unfold read_into, sys. enough_tac.
  - intros _ inchar'. unfold read_into, sys. apply consumes_vis.
Qed.
End Enough.

(** Every loop of the threads and of the forked children takes an answer
    from the system at each turn: fuel above the length of the script never
    runs out, so none of them spins without a system call. *)
Theorem control_enough t fn id :
  enough (fun n => thread_fn t n fn id) /\ enough (fun n => main t n).
Proof.
  split.
  - unfold thread_fn.
    unfold print_thread_id, waitkeyboard, read_char, pipewriter, pipereader, useioctls, read_into,
      thread_exit, sysr, sys, printf, perror, emit, skip, when.
    enough_tac; apply enough_bingo_loop; intros;
      unfold short_dev, short_file, bad_dev, bad_file, printf, emit, sys, skip, when; enough_tac.
  - unfold main, fork_demon, fork_and_wait, finish, makethreads, create_def, join_def.
    unfold sysr, sys, printf, perror, emit, exit, skip, when.
    repeat first [progress enough_tac | apply enough_read_loop
      | apply enough_wait_loop; by left].
Qed.
