(* ===== verification/Socket.v ===== *)
(** socket.c and socketforkserver.c: a server that polls three connections and
    answers each message, and the threads that are its clients. *)

From S2P Require Export Wait.

Local Open Scope Z_scope.

Definition EXIT_FAILURE : Z := 1.
Definition PORT : Z := 8080.
Definition NUM_THREADS : Z := 3.
Definition BUFFER_SIZE : Z := 1024.
Definition AF_INET : Z := 2.
Definition SOCK_STREAM : Z := 1.
Definition POLLIN : Z := 1.

(** [char buffer[BUFFER_SIZE] = {0}]. *)
Definition buffer_init : list Z := replicate (Z.to_nat BUFFER_SIZE) 0.

Definition response : list Z := bytes "Hello from server".

(** Where the two programs differ. *)
Record variant := Variant {
  timeout : Z;                       (* TIMEOUT *)
  keep_polling : Z -> Z -> bool;     (* the guard, of num_open and timeouts *)
  report_revents : Z -> Z -> prog unit;  (* POLLERR or POLLHUP: revents and i *)
  close_flush : prog unit            (* the flush in closefd *)
}.

Section Server.

Context (t : target) (v : variant).

Definition closefd (i fd : Z) : prog unit :=
  r <- sysr (Close fd) ;;
  if r =? -1 then
    perror "Error closing fd" ;;;
    printf "Error closing fd %d %d\n" [AI i; AI fd] ;;; close_flush v
  else printf "Closed fd %d %d\n" [AI i; AI fd] ;;; close_flush v.

(** The variables of the poll loop: the sockets with the events asked for,
    [num_open], [timeouts] and the buffer. *)
Record pstate := PState {
  fds : list (Z * Z);
  num_open : Z;
  timeouts : Z;
  buffer : list Z
}.

(** One socket after a poll that returned [revents] for it. *)
Definition serve_one (revents : list Z) (i : Z) (s : pstate) : prog pstate :=
  pfd <- get (lookupZ (fds s) i) ;;
  let fd := pfd.1 in
  let rev := default 0 (lookupZ revents i) in
  if negb (Z.land rev POLLIN =? 0) then
    a <- sys (Read fd BUFFER_SIZE) ;;
    let valread := to_int (a_ret a) in
    let s := PState (fds s) (num_open s) (timeouts s) (overwrite (out_obj a 0) (buffer s)) in
    if 0 <? valread then
      printf "Server: Received from client %d: %s\n" [AI (i + 1); AB (buffer s)] ;;;
      fflush ;;;
      sys (Send fd response) ;;;
      Ret s
    else if valread =? 0 then
      printf "Server: Received EOF from client %d\n" [AI (i + 1)] ;;;
      closefd i fd ;;;
      fflush ;;;
      num_open' <- get (int_result (num_open s - 1)) ;;
      Ret (PState (fds s) num_open' (timeouts s) (buffer s))
    else Ret s
  else if negb (rev =? 0) then
    report_revents v rev i ;;;
    fds' <- get (storeZ i (fd, 0) (fds s)) ;;
    Ret (PState fds' (num_open s) (timeouts s) (buffer s))
  else Ret s.

(** One turn of the loop: [inr] leaves it. *)
Definition poll_turn (s : pstate) : prog (pstate + pstate) :=
  if negb (keep_polling v (num_open s) (timeouts s)) then Ret (inr s) else
  a <- sys (Poll (snd <$> fds s) (timeout v)) ;;
  let poll_count := a_ret a in
  fflush ;;;
  s <- (if poll_count <? 0 then perror "Poll error" ;;; exit EXIT_FAILURE
        else if poll_count =? 0 then
          printf "Server: Poll timed out. No data in %d ms\n" [AI (timeout v)] ;;;
          fflush ;;;
          timeouts' <- get (int_result (timeouts s + 1)) ;;
          Ret (PState (fds s) (num_open s) timeouts' (buffer s))
        else for_ 0 NUM_THREADS s (serve_one (out_obj a 0))) ;;
  if poll_count =? 3 then Ret (inr s) else Ret (inl s).

(** One [accept]: the socket is appended to the array of the poll. *)
Definition accept_one (server_fd : Z) (i : Z) (l : list (Z * Z)) : prog (list (Z * Z)) :=
  fd <- sysr (Accept server_fd) ;;
  if fd <? 0 then perror "Accept failed" ;;; exit EXIT_FAILURE
  else Ret (l ++ [(fd, POLLIN)]).

Definition server_thread (fuel : nat) : prog unit :=
  server_fd <- sysr (Socket AF_INET SOCK_STREAM) ;;
  if server_fd =? 0 then perror "Socket failed" ;;; exit EXIT_FAILURE else
  r <- sysr (Bind server_fd (htons t PORT)) ;;
  if r <? 0 then perror "Bind failed" ;;; exit EXIT_FAILURE else
  r <- sysr (Listen server_fd 3) ;;
  if r <? 0 then perror "Listen failed" ;;; exit EXIT_FAILURE else
  printf "Server: Listening on port %d...\n" [AI PORT] ;;;
  fflush ;;;
  l <- for_ 0 NUM_THREADS [] (accept_one server_fd) ;;
  printf "Server: Accepted connections from all children\n" [] ;;;
  fflush ;;;
  loop fuel (PState l NUM_THREADS 0 buffer_init) poll_turn ;;;
  sys (Close server_fd) ;;;
  printf "Server: Done\n" [] ;;;
  fflush.

End Server.

(** * The client thread *)
Section Client.
Context (t : target).

(** [sprintf(buffer, "%s %d", message, thread_id)] into the zeroed buffer. *)
Definition client_message (thread_id : Z) : option string :=
  sprintf t "%s %d" [AS "Hello from client"; AI thread_id].

(** [connected] is what follows a successful [connect]; [fin] ends the thread. *)
Definition client_thread (connected : Z -> prog unit -> prog unit) (fin : prog unit)
  (thread_id : Z) : prog unit :=
  sock <- sysr (Socket AF_INET SOCK_STREAM) ;;
  if sock <? 0 then printf "Socket creation error\n" [] else
  r <- sysr (InetPton "127.0.0.1") ;;
  if r <=? 0 then printf "Invalid address / Address not supported\n" [] else
  r <- sysr (Connect sock (htons t PORT)) ;;
  if r <? 0 then printf "Connection failed\n" [] else
  connected sock (
    sys (Sleep (uwrap 32 (6 - 2 * thread_id))) ;;;
    msg <- get (client_message thread_id) ;;
    let buffer := overwrite (c_array msg) buffer_init in
    n <- get (strlen buffer) ;;
    sys (Send sock (take (Z.to_nat n) buffer)) ;;;
    printf "Client %d: Sent message: %s\n" [AI thread_id; AB buffer] ;;;
    fflush ;;;
    a <- sys (Read sock BUFFER_SIZE) ;;
    let buffer := overwrite (out_obj a 0) buffer in
    printf "Client %d: Received message: %s\n" [AI thread_id; AB buffer] ;;;
    fflush ;;;
    sys (Close sock) ;;;
    printf "Client %d: Closed socket\n" [AI thread_id] ;;;
    fflush ;;;
    fin).
End Client.

(** Threads 1 to 3, created without a check ([None]: the handle was not
    assigned); [pthread_join] ignores the status. *)
Definition create_thread (fn : string) (arg : Z) : prog (option Z) :=
  a <- sys (PthreadCreate fn arg) ;;
  Ret (if a_ret a =? 0 then Some (out_int a) else None).
Definition join_thread (handle : option Z) : prog unit :=
  th <- get handle ;; sys (PthreadJoin th) ;;; skip.

Definition create_clients : prog (list (option Z)) :=
  for_ 0 NUM_THREADS [] (fun i l =>
    th <- create_thread "client_thread" (i + 1) ;; Ret (l ++ [th])).
Definition join_clients (threads : list (option Z)) : prog unit :=
  for_ 0 NUM_THREADS tt (fun i _ => th <- get (lookupZ threads i) ;; join_thread th).

(** * socket.c: the server is a thread *)
Module SocketC.

Definition params : variant :=
  Variant 5000 (fun num_open timeouts => (0 <? num_open) || (3 <? timeouts))
    (fun revents i =>
       printf "Server: Polled 0x%x from client %d\n" [AI revents; AI (i + 1)] ;;; fflush)
    skip.

Definition server (t : target) (fuel : nat) : prog unit := server_thread t params fuel.

Definition client (t : target) : Z -> prog unit :=
  client_thread t (fun _ k => k) skip.

Definition main : prog Z :=
  server_tid <- create_thread "server_thread" 0 ;;
  sys (Sleep 1) ;;;
  threads <- create_clients ;;
  printf "Created %d threads\n" [AI NUM_THREADS] ;;;
  fflush ;;;
  join_thread server_tid ;;;
  join_clients threads ;;;
  printf "All %d threads done\n" [AI NUM_THREADS] ;;;
  fflush ;;;
  Ret 0.

End SocketC.

(** * socketforkserver.c: the server is a child process *)
Module ForkServer.

Definition params : variant :=
  Variant 5000000 (fun num_open timeouts => (0 <? num_open) && (timeouts <? 3))
    (fun _ _ => skip) fflush.

(** The program's own copy of [closefd]. *)
Definition closefd : Z -> Z -> prog unit := closefd params.

Definition server (t : target) (fuel : nat) : prog unit := server_thread t params fuel.

(** [getpeername] and the address and port it reports; [inet_ntop] writes the
    text [ip] of the address. *)
Definition peer (t : target) (ip : list Z -> string) (sock : Z) (k : prog unit) : prog unit :=
  a <- sys (Getpeername sock) ;;
  if a_ret a <? 0 then printf "getpeername failed\n" []
  else
    printf "Connected to %s:%d\n" [AS (ip (out_obj a 0)); AI (htons t (default 0 (head (out_obj a 1))))] ;;;
    k.

Definition client (t : target) (ip : list Z -> string) : Z -> prog unit :=
  client_thread t (peer t ip) (Halt (PthreadExit None)).

(** The parent sees one outcome of the server: no loop. *)
Definition main (t : target) (fuel : nat) : prog Z :=
  cpid <- sysr Fork ;;
  if cpid =? -1 then perror "fork failed" ;;; exit (-1) else
  (if cpid =? 0 then server t fuel
   else
     sys (Sleep 1) ;;;
     threads <- create_clients ;;
     printf "Created %d threads\n" [AI NUM_THREADS] ;;;
     fflush ;;;
     join_clients threads ;;;
     printf "All %d child threads done\n" [AI NUM_THREADS] ;;;
     fflush ;;;
     a <- sys (Waitpid cpid wait_options) ;;
     if a_ret a =? -1 then perror "Waitpid failed" ;;; exit (-1)
     else
       report_as "server " [] (out_int a) ;;;
       printf "Server fork done\n" [] ;;;
       fflush) ;;;
  Ret 0.

End ForkServer.

(** * Replies *)

(** [Some fd]: a message was read from [fd] and has not been answered. *)
Definition pending_step (p : option Z) (e : ev) : option Z :=
  match e with
  | ECall (Read fd _) a => if 0 <? to_int (a_ret a) then Some fd else None
  | ECall (Send _ _) _ => None
  | _ => p
  end.

(** The only call allowed while a message is unanswered is its answer, and an
    answer is allowed only then. *)
Definition pending_ok (p : option Z) (e : ev) : Prop :=
  match e with
  | ECall (Send fd data) _ => p = Some fd /\ data = response
  | ECall _ _ => p = None
  | EOut _ => True
  end.

Section Replies.
Context (t : target) (v : variant).
Context (Hrep : forall rev i Q, Q None tt ->
  wp pending_step pending_ok (fun _ _ => True) (report_revents v rev i) None Q (fun s _ => s = None)).
Context (Hfl : forall Q, Q None tt ->
  wp pending_step pending_ok (fun _ _ => True) (close_flush v) None Q (fun s _ => s = None)).

Notation pwp p Q := (wp pending_step pending_ok (fun _ _ => True) p None Q (fun s _ => s = None)).

Lemma replies_closefd i fd : pwp (closefd v i fd) (fun s _ => s = None).
Proof using Hfl.
  unfold closefd. cbn. intros a _. split; [done|]. case_match; cbn; by split_and!; auto.
Qed.

Lemma replies_serve revents i s : pwp (serve_one v revents i s) (fun s _ => s = None).
Proof using Hrep Hfl.
  unfold serve_one. destruct (lookupZ (fds s) i) as [[fd events]|]; [|done]. cbn [get pbind fst].
  case_match; [|case_match; [|done]].
  - cbn -[closefd]. intros a _. split; [done|].
    destruct (0 <? to_int (a_ret a)); cbn -[closefd]; [by split_and!|].
    case_match; [|done]. cbn -[closefd]. split; [done|].
    apply (wp_bind_intro _ _ _ (fun s _ => s = None)); [apply replies_closefd|].
    intros ? _ ->. by destruct (int_result (num_open s - 1)).
  - apply wp_bind, Hrep. destruct (storeZ _ _ _); done.
Qed.

Lemma replies_server fuel : pwp (server_thread t v fuel) (fun s _ => s = None).
Proof using Hrep Hfl.
  unfold server_thread. cbn. intros a _. split; [done|]. case_match; [done|].
  cbn. intros a1 _. split; [done|]. case_match; [done|].
  cbn. intros a2 _. split; [done|]. case_match; [done|]. cbn. split_and!; [done..|].
  apply (wp_bind_intro _ _ _ (fun s _ => s = None)).
  { apply (wp_for _ _ _ (fun _ s _ => s = None)); [done| |by intros].
    intros i ? l _ ->. cbn. intros b _. split; [done|]. by case_match. }
  intros ? l ->. cbn. split_and!; [done..|].
  apply (wp_bind_intro _ _ _ (fun s _ => s = None)).
  - apply (wp_loop _ _ _ (fun s _ => s = None)); [done|by intros|]. intros ? x ->.
    unfold poll_turn. case_match; [done|]. cbn. intros b _. split; [done|]. split; [done|].
    apply (wp_bind_intro _ _ _ (fun s _ => s = None)).
    + case_match; [done|]. case_match; [by destruct (int_result (timeouts x + 1))|].
      apply (wp_for _ _ _ (fun _ s _ => s = None)); [done| |by intros].
      intros i ? y _ ->. apply replies_serve.
    + intros ? y ->. by case_match.
  - by intros ? _ ->.
Qed.
End Replies.

(** C19: in both servers every message read from a client is answered with
    "Hello from server" on the same socket before any other call is made, and
    nothing else is ever sent, whatever the kernel answers. *)
Theorem server_replies t p fuel sc tr r sc' :
  p = SocketC.server t fuel \/ p = ForkServer.server t fuel ->
  run p sc = (tr, r, sc') ->
  accepts pending_step pending_ok None tr /\
  (r = Done tt -> final pending_step None tr = None).
Proof.
  intros Hp Hr.
  assert (Hw : wp pending_step pending_ok (fun _ _ => True) p None
                 (fun s _ => s = None) (fun s _ => s = None)).
  { destruct Hp as [-> | ->]; by apply replies_server. }
  destruct (wp_sound _ _ _ _ _ _ _ _ _ _ _ Hw Hr (ev_sat_any tr)) as [Ha Hf].
  split; [done|]. intros ->. done.
Qed.

Definition one_message : list ans :=
  [ret_ans 3; ret_ans 0; ret_ans 0; ret_ans 4; ret_ans 5; ret_ans 6; Ans 1 0 [[0; 1; 0]];
   Ans 2 0 [bytes "hi"]; ret_ans 17].

Lemma server_replies_witness :
  result (ForkServer.server x86_64 2) one_message = Blocked (Poll [1; 1; 1] 5000000) /\
  accepts pending_step pending_ok None (trace (ForkServer.server x86_64 2) one_message).
Proof.
  split; [by vm_compute|].
  apply (server_replies x86_64 _ 2 _ _ _ _ (or_intror eq_refl) (run_eta _ _)).
Defined.

(** * Timeouts *)

Lemma timeout_turn v s sc :
  keep_polling v (num_open s) (timeouts s) = true ->
  exists tr, run (poll_turn v s) (ret_ans 0 :: sc) =
    (tr, match int_result (timeouts s + 1) with
         | Some n => Done (inl (PState (fds s) (num_open s) n (buffer s)))
         | None => Halted Ub
         end, sc).
Proof. intros Hk. unfold poll_turn. rewrite Hk. cbn. destruct (int_result _); by eexists. Qed.

(** C36: with a connection open the server of socket.c polls again after any
    number of timeouts, and after the fourth it does so even when no connection
    is open, until the [int] that counts them overflows, which is undefined; the
    server of socketforkserver.c stops at the third timeout. *)
Theorem server_timeouts s n fuel :
  (n < fuel)%nat -> is_int (timeouts s) ->
  (0 < num_open s \/ 3 < timeouts s ->
   result (loop fuel s (poll_turn SocketC.params)) (replicate n (ret_ans 0)) =
   if decide (timeouts s + Z.of_nat n <= int_max) then Blocked (Poll (snd <$> fds s) 5000)
   else Halted Ub) /\
  (0 < num_open s -> timeouts s = 3 - Z.of_nat n ->
   exists s', result (loop fuel s (poll_turn ForkServer.params)) (replicate n (ret_ans 0)) = Done s' /\
     timeouts s' = 3).
Proof.
  unfold is_int. revert s fuel. unfold result. induction n as [|n IH]; intros s fuel Hf Hi;
    (destruct fuel as [|fuel]; [lia|]); cbn [loop replicate]; split.
  - intros Ho. assert (E : keep_polling SocketC.params (num_open s) (timeouts s) = true) by (cbn; lia).
    unfold poll_turn. rewrite run_bind, E, decide_True by lia. done.
  - intros Ho Ht. assert (E : keep_polling ForkServer.params (num_open s) (timeouts s) = false) by (cbn; lia).
    unfold poll_turn. rewrite run_bind, E. exists s. split; [done|lia].
  - intros Ho. assert (E : keep_polling SocketC.params (num_open s) (timeouts s) = true) by (cbn; lia).
    rewrite run_bind. destruct (timeout_turn _ _ (replicate n (ret_ans 0)) E) as [tr ->].
    unfold int_result. case_decide as Hr; [|rewrite decide_False by lia; done].
    destruct (IH (PState (fds s) (num_open s) (timeouts s + 1) (buffer s)) fuel) as [H _]; [lia|done|].
    cbn [num_open timeouts fds] in H. specialize (H ltac:(lia)).
    replace (timeouts s + 1 + Z.of_nat n) with (timeouts s + Z.of_nat (S n)) in H by lia.
    by destruct (run (loop fuel _ _) _) as [[??]?].
  - intros Ho Ht. assert (E : keep_polling ForkServer.params (num_open s) (timeouts s) = true) by (cbn; lia).
    rewrite run_bind. destruct (timeout_turn _ _ (replicate n (ret_ans 0)) E) as [tr ->].
    rewrite int_result_is by (unfold is_int, int_min, int_max in *; lia).
    destruct (IH (PState (fds s) (num_open s) (timeouts s + 1) (buffer s)) fuel) as [_ H];
      [lia|cbn; unfold int_min, int_max in *; lia|].
    cbn [num_open timeouts fds] in H. destruct (H Ho ltac:(lia)) as (s' & Hs & Ht').
    exists s'. split; [|done]. by destruct (run (loop fuel _ _) _) as [[??]?].
Qed.

Definition three_open : pstate := PState [(4, 1); (5, 1); (6, 1)] 3 0 buffer_init.
Definition none_open : pstate := PState [(4, 1); (5, 1); (6, 1)] 0 int_max buffer_init.

Lemma server_timeouts_witness :
  result (loop 100 three_open (poll_turn SocketC.params)) (replicate 3 (ret_ans 0)) =
    Blocked (Poll [1; 1; 1] 5000) /\
  (exists s', result (loop 100 three_open (poll_turn ForkServer.params)) (replicate 3 (ret_ans 0))
    = Done s' /\ timeouts s' = 3) /\
  result (loop 100 none_open (poll_turn SocketC.params)) [ret_ans 0] = Halted Ub.
Proof.
  destruct (server_timeouts three_open 3 100 ltac:(lia) ltac:(by vm_compute)) as [H1 H2].
  destruct (server_timeouts none_open 1 100 ltac:(lia) ltac:(by vm_compute)) as [H3 _].
  split; [apply H1; cbn; lia|]. split; [apply H2; cbn; lia|]. apply H3. cbn. unfold int_max. lia.
Defined.

(** * The clients *)

(** C37: the client prints the reply, which has no NUL, over the message it
    sent in the same buffer: its last two characters, a blank and the client's
    number, are printed as part of the message received. *)
Theorem client_stale_suffix t id sock addr conn slept sent closed :
  1 <= id <= 3 -> 0 <= sock -> 0 < addr -> 0 <= conn ->
  exists tr, run (SocketC.client t id)
    [ret_ans sock; ret_ans addr; ret_ans conn; ret_ans slept; ret_ans sent;
     Ans 17 0 [response]; ret_ans closed] = (tr, Done tt, []) /\
  stdout_text t tr = Some (
    "Client " +:+ show_int id +:+ ": Sent message: Hello from client " +:+ show_int id +:+ String "010"
    ("Client " +:+ show_int id +:+ ": Received message: Hello from server " +:+ show_int id +:+ String "010"
    ("Client " +:+ show_int id +:+ ": Closed socket" +:+ String "010" "")))%stdpp.
Proof.
  intros Hid Hs Ha Hc. unfold SocketC.client, client_thread.
  assert (E1 : (sock <? 0) = false) by lia. assert (E2 : (addr <=? 0) = false) by lia.
  assert (E3 : (conn <? 0) = false) by lia.
  assert (Hcases : id = 1 \/ id = 2 \/ id = 3) by lia.
  cbn [pbind run sysr ret_ans a_ret]. rewrite E1. cbn [pbind run sysr ret_ans a_ret].
  rewrite E2. cbn [pbind run sysr ret_ans a_ret]. rewrite E3.
  destruct Hcases as [-> |[-> | ->]]; (eexists; split; [vm_compute; reflexivity|vm_compute; reflexivity]).
Qed.

Lemma client_stale_suffix_witness :
  exists tr, run (SocketC.client mips 2)
    [ret_ans 3; ret_ans 1; ret_ans 0; ret_ans 0; ret_ans 19; Ans 17 0 [response]; ret_ans 0]
  = (tr, Done tt, []).
Proof.
  destruct (client_stale_suffix mips 2 3 1 0 0 19 0) as (tr & E & _); [lia..|]. by exists tr.
Defined.
