(* ===== verification/Call64.v ===== *)
(** call64.c: the 64-bit file interfaces, and the walk over the directory
    entries that [getdents64] returns. *)

From S2P Require Export Logic.

Local Open Scope Z_scope.

Definition EXIT_FAILURE : Z := 1.
Definition O_RDONLY : Z := 0.
Definition O_RDWR : Z := 2.
Definition O_CREAT : Z := 64.
Definition O_TRUNC : Z := 512.
Definition O_DIRECTORY : Z := 65536.
Definition SEEK_SET : Z := 0.
Definition SEEK_END : Z := 2.

Section Build.

(** The target and the [SYS_]/[__NR_] macros its headers define. *)
Context (t : target) (defined : string -> bool).

(** [PRId64] and [PRIu64] of the target. *)
Definition PRId64 : string := if long_bits t =? 64 then "ld" else "lld".
Definition PRIu64 : string := if long_bits t =? 64 then "lu" else "llu".

Definition perror_exit {A} (msg : string) : prog A := perror msg ;;; exit EXIT_FAILURE.

(** ** Directory entries *)

(** [struct linux_dirent64] at [bpos]: the fields are read in the target's byte
    order; [None] when the bytes are not part of what the kernel returned. *)
Definition field_at (off len : nat) (data : list Z) : option Z :=
  if decide (off + len <= length data)%nat
  then Some (uint_value t (take len (drop off data))) else None.

Record dirent := Dirent { d_ino : Z; d_off : Z; d_reclen : Z; d_name : list Z }.

Definition dirent_at (bpos : nat) (data : list Z) : option dirent :=
  ino ← field_at bpos 8 data;
  off ← field_at (bpos + 8) 8 data;
  reclen ← field_at (bpos + 16) 2 data;
  Some (Dirent ino (swrap 64 off) reclen (drop (bpos + 19) data)).

(** [while (bpos < nread)] *)
Definition print_entries (fuel : nat) (data : list Z) (nread : Z) : prog unit :=
  loop fuel 0 (fun bpos =>
    if bpos <? nread then
      d <- get (dirent_at (Z.to_nat bpos) data) ;;
      printf ("  d_name=%s, ino=%" +:+ PRIu64 +:+ ", d_off=%" +:+ PRId64 +:+ "\n")
        [AB (d_name d); AX TMax (d_ino d); AX TMax (d_off d)] ;;;
      Ret (inl (bpos + d_reclen d))
    else Ret (inr tt)).

(** Part 9: the entries of the current directory. *)
Definition list_directory (fuel : nat) : prog unit :=
  dfd <- sysr (Open "." (Z.lor O_RDONLY O_DIRECTORY) 0) ;;
  if dfd <? 0 then perror "open64(.) for getdents64" else
  (if defined "SYS_getdents64" then
     a <- sys (Syscall "getdents64" [dfd; 8192]) ;;
     let nread := to_int (a_ret a) in
     if nread <? 0 then perror "syscall(SYS_getdents64)"
     else
       printf "getdents64 returned %d bytes\n" [AI nread] ;;;
       print_entries fuel (out_obj a 0) nread
   else emit (OFprintf "SYS_getdents64 not available on this platform\n" [])) ;;;
  sys (Close dfd) ;;; skip.

(** ** The file *)
Definition tmpname : string := "test64.tmp".
Definition testdata : list Z := bytes (unescape "Hello from pwrite64/pread64!\n").
Definition write_off : Z := 1234567890123.
Definition bigoff : Z := 2 ^ 40 + 100.

(** Parts 2 and 3, with the fallbacks to the raw system calls. *)
Definition pwrite_part (fd : Z) : prog unit :=
  wrote <- sysr (Pwrite fd testdata write_off) ;;
  if wrote <? 0 then
    perror "pwrite64 (may not be available as wrapper) - trying syscall fallback" ;;;
    if defined "SYS_pwrite64" then
      wrote <- sysr (Syscall "pwrite64" [fd; 29; write_off]) ;;
      if wrote <? 0 then perror_exit "syscall(SYS_pwrite64)"
      else printf "syscall(SYS_pwrite64) wrote=%zd\n" [AX TSize wrote]
    else emit (OFprintf "SYS_pwrite64 not available on this platform\n" [])
  else
    printf ("pwrite64 wrote=%zd at offset %" +:+ PRId64 +:+ "\n") [AX TSize wrote; AX TMax write_off].

(** [char buf[4096]], cleared. *)
Definition buf_init : list Z := replicate 4096 0.

Definition pread_part (fd : Z) : prog unit :=
  a <- sys (Pread fd 4095 write_off) ;;
  if a_ret a <? 0 then
    perror "pread64 - trying syscall fallback" ;;;
    if defined "SYS_pread64" then
      a <- sys (Syscall "pread64" [fd; 4095; write_off]) ;;
      if a_ret a <? 0 then perror_exit "syscall(SYS_pread64)"
      else printf "syscall(SYS_pread64) read=%zd bytes: %s\n"
             [AX TSize (a_ret a); AB (overwrite (out_obj a 0) buf_init)]
    else emit (OFprintf "SYS_pread64 not available on this platform\n" [])
  else
    printf "pread64 read=%zd bytes: %s\n" [AX TSize (a_ret a); AB (overwrite (out_obj a 0) buf_init)].

(** The fields of [struct stat64] the code prints: size, inode, mode. *)
Definition st_size (a : ans) : Z := default 0 (out_obj a 0 !! 0%nat).
Definition st_ino (a : ans) : Z := default 0 (out_obj a 0 !! 1%nat).
Definition st_mode (a : ans) : Z := default 0 (out_obj a 0 !! 2%nat).

Definition stat_part (fd : Z) : prog unit :=
  a <- sys (Fstat fd) ;;
  (if a_ret a <? 0 then
     perror "fstat64 - attempt fallback to fstat" ;;;
     b <- sys (Fstat fd) ;;
     if a_ret b <? 0 then perror_exit "fstat fallback"
     else printf "fstat fallback: size=%lld\n" [AX TLLong (st_size b)]
   else printf ("fstat64: size=%" +:+ PRId64 +:+ ", ino=%" +:+ PRIu64 +:+ "\n")
          [AX TMax (st_size a); AX TMax (st_ino a)]) ;;;
  a <- sys (Stat tmpname) ;;
  (if a_ret a <? 0 then perror "stat64 (may be unneeded if stat is 64)"
   else printf ("stat64: size=%" +:+ PRId64 +:+ "\n") [AX TMax (st_size a)]) ;;;
  a <- sys (Lstat tmpname) ;;
  if a_ret a <? 0 then perror "lstat64"
  else printf "lstat64: mode=%o\n" [AI (st_mode a)].

Definition truncate_part (fd : Z) : prog unit :=
  r <- sysr (Ftruncate fd 0) ;;
  (if r <? 0 then perror "ftruncate64" else printf "ftruncate64 -> truncated to 0\n" []) ;;;
  r <- sysr (Truncate tmpname 0) ;;
  if r <? 0 then perror "truncate64" else printf "truncate64 -> truncated to 0\n" [].

(** Part 8: [sendfile64], or [sendfile] where the headers have only that. *)
Definition sendfile_part (fd : Z) : prog unit :=
  if defined "SYS_sendfile64" then
    fd2 <- sysr (Open "test64.out" (Z.lor (Z.lor O_CREAT O_RDWR) O_TRUNC) 384) ;;
    if fd2 <? 0 then perror_exit "open64 test64.out" else
    sf <- sysr (Syscall "sendfile64" [fd2; fd; 0; 4096]) ;;
    if sf <? 0 then perror "syscall(SYS_sendfile64)"
    else printf "syscall(SYS_sendfile64) -> %zd bytes\n" [AX TSize sf]
  else if defined "__NR_sendfile" && defined "SYS_sendfile" then
    sys (Lseek fd 0 SEEK_SET) ;;;
    fd2 <- sysr (Open "test64.out" (Z.lor (Z.lor O_CREAT O_RDWR) O_TRUNC) 384) ;;
    when (0 <=? fd2)
      (sf2 <- sysr (Syscall "sendfile" [fd2; fd; 0; 4096]) ;;
       if sf2 <? 0 then perror "sendfile" else printf "sendfile -> %zd bytes\n" [AX TSize sf2])
  else skip.

Definition main (fuel : nat) : prog Z :=
  printf "=== test64: starting\n" [] ;;;
  fd <- sysr (Open tmpname (Z.lor (Z.lor O_CREAT O_RDWR) O_TRUNC) 384) ;;
  if fd <? 0 then perror_exit "open64" else
  printf "open64 -> fd=%d\n" [AI fd] ;;;
  pwrite_part fd ;;;
  pread_part fd ;;;
  offset <- sysr (Lseek fd 0 SEEK_END) ;;
  if offset <? 0 then perror_exit "lseek64" else
  printf ("lseek64 -> end offset=%" +:+ PRId64 +:+ "\n") [AX TMax offset] ;;;
  stat_part fd ;;;
  truncate_part fd ;;;
  r <- sysr (Write fd (bytes (unescape "again\n"))) ;;
  if negb (r =? 6) then perror_exit "write" else
  sendfile_part fd ;;;
  list_directory fuel ;;;
  r <- sysr (Lseek fd bigoff SEEK_SET) ;;
  when (negb (r =? -1))
    (w <- sysr (Write fd (bytes (unescape "X\n"))) ;;
     when (w =? 2)
       (printf ("wrote 2 bytes at large offset %" +:+ PRId64 +:+ "\n") [AX TMax bigoff])) ;;;
  Ret 0.

End Build.

(** * The entries are read back *)

(** A directory entry as the kernel lays it out: [pad] bytes follow the NUL. *)
Record entry := Entry { e_ino : Z; e_off : Z; e_type : Z; e_name : string; e_pad : nat }.

Definition reclen (e : entry) : Z := 20 + Z.of_nat (String.length (e_name e)) + Z.of_nat (e_pad e).

Definition entry_ok (e : entry) : Prop :=
  0 <= e_ino e < 2 ^ 64 /\ - 2 ^ 63 <= e_off e < 2 ^ 63 /\ reclen e < 2 ^ 16 /\
  text_bytes (bytes (e_name e)).

Definition encode (t : target) (e : entry) : list Z :=
  int_bytes t 8 (e_ino e) ++ int_bytes t 8 (e_off e) ++ int_bytes t 2 (reclen e) ++
  e_type e :: bytes (e_name e) ++ 0 :: replicate (e_pad e) 0.

Lemma length_encode t e : Z.of_nat (length (encode t e)) = reclen e.
Proof.
  unfold encode, reclen. rewrite !length_app, !length_int_bytes. cbn [length].
  rewrite length_app. cbn [length]. rewrite length_replicate, length_bytes. lia.
Qed.

(** A field that starts after a known prefix. *)
Lemma field_at_app t pre x post off len :
  off = length pre -> len = length x ->
  field_at t off len (pre ++ x ++ post) = Some (uint_value t x).
Proof.
  intros -> ->. unfold field_at. rewrite decide_True by (rewrite !length_app; lia).
  by rewrite drop_app_length, take_app_length.
Qed.

Lemma dirent_at_encode t e pre post :
  entry_ok e ->
  dirent_at t (length pre) (pre ++ encode t e ++ post) =
  Some (Dirent (e_ino e) (e_off e) (reclen e) (bytes (e_name e) ++ 0 :: replicate (e_pad e) 0 ++ post)).
Proof.
  intros (Hi & Ho & Hr & Hn). unfold dirent_at, encode.
  set (name := bytes (e_name e) ++ 0 :: replicate (e_pad e) 0).
  set (i := int_bytes t 8 (e_ino e)). set (o := int_bytes t 8 (e_off e)).
  set (r := int_bytes t 2 (reclen e)).
  assert (Li : length i = 8%nat) by apply length_int_bytes.
  assert (Lo : length o = 8%nat) by apply length_int_bytes.
  assert (Lr : length r = 2%nat) by apply length_int_bytes.
  rewrite <- !app_assoc. rewrite (field_at_app t pre i _ (length pre) 8) by lia. cbn [mbind option_bind].
  rewrite (app_assoc pre i), (field_at_app t (pre ++ i) o _ (length pre + 8) 8) by (rewrite ?length_app; lia).
  cbn [mbind option_bind].
  rewrite (app_assoc (pre ++ i) o), (field_at_app t ((pre ++ i) ++ o) r _ (length pre + 16) 2)
    by (rewrite ?length_app; lia).
  cbn [mbind option_bind]. unfold i, o, r. rewrite !uint_value_bytes.
  change (256 ^ Z.of_nat 8) with (2 ^ 64). change (256 ^ Z.of_nat 2) with (2 ^ 16).
  pose proof (length_encode t e). unfold reclen in *.
  rewrite (Z.mod_small (e_ino e)) by lia. rewrite (Z.mod_small (20 + _ + _)) by lia.
  assert (Es : swrap 64 (e_off e mod 2 ^ 64) = e_off e).
  { unfold swrap. rewrite Zplus_mod_idemp_l. apply (swrap_id 64); lia. }
  rewrite Es. do 2 f_equal.
  fold i o r. change (e_type e :: name) with ([e_type e] ++ name).
  rewrite !app_assoc. rewrite <- (app_assoc _ name post). rewrite drop_app_length'.
  - unfold name. by rewrite <- app_assoc.
  - rewrite !length_app. cbn [length]. lia.
Qed.

(** The line the code prints for an entry; the name is followed by its NUL and
    by whatever comes after it in the buffer. *)
Definition entry_fmt (t : target) : string :=
  "  d_name=%s, ino=%" +:+ PRIu64 t +:+ ", d_off=%" +:+ PRId64 t +:+ "\n".

Definition entry_line (t : target) (e : entry) (line : string * list arg) : Prop :=
  exists buf, line = (entry_fmt t, [AB buf; AX TMax (e_ino e); AX TMax (e_off e)]) /\ cstr buf = Some (e_name e).

Lemma reclen_pos e : 0 < reclen e.
Proof. unfold reclen. lia. Qed.

Lemma print_entries_run t es : forall fuel pre sc,
  Forall entry_ok es -> (length es < fuel)%nat ->
  exists tr,
    run (loop fuel (Z.of_nat (length pre)) (fun bpos =>
           if bpos <? Z.of_nat (length (pre ++ (es ≫= encode t))) then
             d <- get (dirent_at t (Z.to_nat bpos) (pre ++ (es ≫= encode t))) ;;
             printf (entry_fmt t) [AB (d_name d); AX TMax (d_ino d); AX TMax (d_off d)] ;;;
             Ret (inl (bpos + d_reclen d))
           else Ret (inr tt))) sc = (tr, Done tt, sc) /\
    Forall2 (entry_line t) es (printed tr) /\ calls tr = [].
Proof.
  induction es as [|e es IH]; intros fuel pre sc Hes Hf;
    (destruct fuel as [|fuel]; [cbn in Hf; lia|]).
  - cbn [mbind list_bind loop]. rewrite run_bind, app_nil_r.
    destruct (Z.ltb_spec (Z.of_nat (length pre)) (Z.of_nat (length pre))); [lia|].
    eexists. split; [done|]. split; [constructor|done].
  - inversion_clear Hes as [|? ? He Hes']. cbn [mbind list_bind].
    change (list_bind _ _ (encode t) es) with (es ≫= encode t).
    pose proof (length_encode t e) as Hl. pose proof (reclen_pos e).
    match goal with |- context [loop _ _ ?b] => set (body := b) end.
    cbn [loop]. rewrite run_bind. unfold body at 1.
    destruct (Z.ltb_spec (Z.of_nat (length pre))
      (Z.of_nat (length (pre ++ encode t e ++ (es ≫= encode t))))) as [Hlt|Hge];
      [|rewrite !length_app in Hge; lia].
    rewrite Nat2Z.id, dirent_at_encode by done. cbn [get pbind printf emit run d_name d_ino d_off d_reclen].
    destruct (IH fuel (pre ++ encode t e) sc Hes' ltac:(cbn in Hf; lia)) as (tr & E & Hp & Hc).
    rewrite <- !app_assoc in E. rewrite length_app, Nat2Z.inj_add, Hl in E.
    fold body in E. rewrite E.
    eexists. split; [done|]. split; [|done]. cbn. constructor; [|done].
    eexists. split; [done|]. apply cstr_bytes. apply He.
Qed.

(** C10: the walk over the buffer of [getdents64] prints the name, the inode and
    the offset of every entry the kernel encoded, in order, in either byte
    order, and ends after the last: fuel above their number is enough. *)
Theorem getdents_roundtrip t es fuel sc :
  Forall entry_ok es -> (length es < fuel)%nat ->
  exists tr, run (print_entries t fuel (es ≫= encode t) (Z.of_nat (length (es ≫= encode t)))) sc
    = (tr, Done tt, sc) /\
  Forall2 (entry_line t) es (printed tr) /\ calls tr = [].
Proof. intros Hes Hf. apply (print_entries_run t es fuel [] sc Hes Hf). Qed.

Definition sample_entries : list entry :=
  [Entry 2 1 4 "." 4; Entry 40000000000 77 8 "call64.c" 3].

Lemma getdents_roundtrip_witness :
  exists tr, run (print_entries ppc 3 (sample_entries ≫= encode ppc) 56) [] = (tr, Done tt, []) /\
  Forall2 (entry_line ppc) sample_entries (printed tr).
Proof.
  destruct (getdents_roundtrip ppc sample_entries 3 []) as (tr & E & Hp & _).
  - repeat constructor; done.
  - cbn. lia.
  - exists tr. split; [exact E|exact Hp].
Defined.

(** An entry whose record length is zero is printed for ever: no fuel is
    enough. *)
Theorem getdents_zero_reclen t fuel data nread d sc :
  dirent_at t 0 data = Some d -> d_reclen d = 0 -> 0 < nread ->
  result (print_entries t fuel data nread) sc = Halted Fuel.
Proof.
  intros Hd Hr Hn. unfold print_entries, result. revert sc.
  assert (Ht : (0 <? nread) = true) by lia.
  match goal with |- context [loop _ _ ?b] => set (body := b) end.
  induction fuel as [|fuel IH]; intros sc; [done|]. cbn [loop].
  rewrite run_bind. unfold body at 1. rewrite Ht. change (Z.to_nat 0) with 0%nat. rewrite Hd.
  cbn [get pbind printf emit run]. rewrite Hr. change (0 + 0) with 0.
  specialize (IH sc).
  by destruct (run (loop fuel 0 body) sc) as [[??]?].
Qed.

Lemma getdents_zero_reclen_witness :
  result (print_entries x86_64 1000 (replicate 24 0) 24) [] = Halted Fuel.
Proof.
  apply (getdents_zero_reclen x86_64 1000 (replicate 24 0) 24 (Dirent 0 0 0 (replicate 5 0)));
    [vm_compute; reflexivity|done|lia].
Defined.
