(* ===== verification/Mkuidns.v ===== *)
(** mkuidns.c: a child in new namespaces whose user and group maps the parent
    writes before it lets the child go on. *)

From S2P Require Export Wait.

Local Open Scope Z_scope.

Definition STACK_SIZE : Z := 1024 * 1024.
Definition CLONE_FLAGS : Z :=   (* NEWIPC|NEWNS|NEWPID|NEWUSER|NEWUTS|SIGCHLD *)
  Z.lor (Z.lor (Z.lor (Z.lor (Z.lor 0x08000000 0x00020000) 0x20000000) 0x10000000) 0x04000000) 17.
Definition SIGTERM : Z := 15.
Definition O_WRONLY : Z := 1.
Definition F_OK : Z := 0.
Definition X_OK : Z := 1.
Definition MOUNT_MODE : Z := 365.  (* 0555 *)

Section Program.

Context (t : target).

(** ** The child *)

(** [mkdir] of [rootdir] ++ [dir] and a bind mount of [from] on it. *)
Definition bind_mount (from rootdir dir : string) : prog Z :=
  sys (Mkdir (rootdir +:+ dir) MOUNT_MODE) ;;;
  sysr (Mount from (rootdir +:+ dir)).

Definition fail_unless (ok : bool) (msg : string) (code : Z) : prog unit :=
  if ok then skip else perror msg ;;; exit code.

Definition childfunc (sock0 : Z) (args : list string) : prog Z :=
  sys (Read sock0 2) ;;;
  rootdir <- get (args !! 0%nat) ;;
  cmd <- get (args !! 1%nat) ;;
  let cmdargs := drop 1 args in
  ret <- bind_mount "/lib64" rootdir "/lib64" ;;
  fail_unless (ret =? 0) "mkuidns: Mount of lib64 failed" 11 ;;;
  ret <- bind_mount "/u06/dsg/mountasqemu" rootdir "/qemu" ;;
  fail_unless (ret =? 0) "mkuidns: Mount of qemu failed" 12 ;;;
  ret <- bind_mount "/proc" rootdir "/proc" ;;
  when (negb (ret =? 0)) (perror "mkuidns: Mount of proc failed") ;;;
  ret <- sysr (Chroot rootdir) ;;
  fail_unless (ret =? 0) "mkuidns: Chroot failed" 22 ;;;
  ret <- sysr (Chdir "/") ;;
  fail_unless (ret =? 0) "mkuidns: Chdir to / failed" 66 ;;;
  ret <- sysr (Access cmd F_OK) ;;
  fail_unless (ret =? 0) "mkuidns: cmd does not exist" (-2) ;;;
  ret <- sysr (Access cmd X_OK) ;;
  fail_unless (ret =? 0) "mkuidns: No execute access to cmd" (-2) ;;;
  for_ 0 10 tt (fun i _ =>
    match cmdargs !! Z.to_nat i with
    | Some a => printf " %s" [AS a]
    | None => skip
    end) ;;;
  printf "\n" [] ;;;
  ret <- execve cmd cmdargs ;;
  fail_unless (ret =? 0) "mkuidns: Execve failed" (-2) ;;;
  Ret 15.

(** ** The parent *)

(** [sprintf(bigenoughbuf, "0 %06d 1\n", id)], of which 11 bytes are written. *)
Definition map_line (id : Z) : option string := sprintf t "0 %06d 1\n" [AI id].
Definition map_bytes (id : Z) : option (list Z) := (fun s => take 11 (c_array s)) <$> map_line id.

Definition proc_path (childpid : Z) (file : string) : option string :=
  sprintf t ("/proc/%d/" +:+ file) [AI childpid].

(** Open a file of the child for writing; on failure the child is killed. *)
Definition open_or_kill (childpid : Z) (file msg : string) : prog Z :=
  path <- get (proc_path childpid file) ;;
  fd <- sysr (Open path O_WRONLY 0) ;;
  if fd =? -1 then printf msg [] ;;; sys (Kill childpid SIGTERM) ;;; exit 2 else Ret fd.

Definition write_maps (childpid : Z) : prog unit :=
  fd <- open_or_kill childpid "uid_map" "unable to open uid map\n" ;;
  uid <- sysr Getuid ;;
  data <- get (map_bytes uid) ;;
  sys (Write fd data) ;;;
  sys (Close fd) ;;;
  fd <- open_or_kill childpid "setgroups" "unable to open setgroups\n" ;;
  sys (Write fd (bytes (unescape "deny\n"))) ;;;
  sys (Close fd) ;;;
  fd <- open_or_kill childpid "gid_map" "unable to open gid map\n" ;;
  gid <- sysr Getgid ;;
  data <- get (map_bytes gid) ;;
  sys (Write fd data) ;;;
  sys (Close fd) ;;; skip.

(** What the parent prints about the child: nothing when it exited with 0. *)
Definition report_child (status : Z) : prog unit :=
  if WIFEXITED status then
    when (negb (status =? 0)) (printf "child exited, status=%d\n" [AI (WEXITSTATUS status)])
  else if WIFSIGNALED status then printf "killed by signal %d\n" [AI (WTERMSIG status)]
  else if WIFSTOPPED status then printf "stopped by signal %d\n" [AI (WSTOPSIG status)]
  else when (WIFCONTINUED status) (printf "continued\n" []).

Definition parent (sock1 childpid : Z) : prog unit :=
  write_maps childpid ;;;
  sys (Write sock1 (bytes "go")) ;;;
  a <- sys (Waitpid childpid 0) ;;
  if a_ret a <=? 0 then perror "parent waitpid failed" ;;; exit 1
  else report_child (out_int a).

Definition main (argv : list string) : prog Z :=
  emit OSetbuf ;;;
  s <- sys Socketpair ;;
  if a_ret s <? 0 then perror "opening stream socket pair" ;;; exit 1 else
  let sock1 := default 0 (out_obj s 0 !! 1%nat) in
  stack <- sysr (Malloc STACK_SIZE) ;;
  if stack =? 0 then perror "child stack alloc failed" ;;; exit 1 else
  childpid <- sysr (Clone "childfunc" CLONE_FLAGS None) ;;
  if childpid =? -1 then perror "clone failed" ;;; exit 1 else
  parent sock1 childpid ;;;
  Ret 0.

End Program.

(** * The maps are written before the child goes on *)

Definition go : list Z := bytes "go".

(** The calls with which a file of the child is opened and [data] written to it,
    on the descriptor the open answered; [ids] is the question for an id. *)
Definition wrote_file (t : target) (pid : Z) (file : string) (ids : list (call * ans))
  (data : list Z) (l : list (call * ans)) : Prop :=
  exists path f w c, proc_path t pid file = Some path /\ a_ret f <> -1 /\
    l = (Open path O_WRONLY 0, f) :: ids ++ [(Write (a_ret f) data, w); (Close (a_ret f), c)].

(** The three files of the child in order, the maps being those of the ids that
    [getuid] and [getgid] answered; nothing is said of the answers to the writes,
    which are not looked at. *)
Definition wrote_maps (t : target) (pid : Z) (l : list (call * ans)) : Prop :=
  exists u g du dg l1 l2 l3, map_bytes t (a_ret u) = Some du /\ map_bytes t (a_ret g) = Some dg /\
    wrote_file t pid "uid_map" [(Getuid, u)] du l1 /\
    wrote_file t pid "setgroups" [] (bytes (unescape "deny\n")) l2 /\
    wrote_file t pid "gid_map" [(Getgid, g)] dg l3 /\ l = l1 ++ l2 ++ l3.

Definition calls_step (s : list (call * ans)) (e : ev) : list (call * ans) := s ++ calls [e].

Definition go_ok (t : target) (sock1 pid : Z) (s : list (call * ans)) (e : ev) : Prop :=
  match e with
  | ECall (Write fd data) _ => data = go -> fd = sock1 /\ wrote_maps t pid s
  | _ => True
  end.

Lemma final_calls s tr : final calls_step s tr = s ++ calls tr.
Proof.
  revert s. induction tr as [|e tr IH]; intros s; cbn; [by rewrite app_nil_r|].
  unfold final in IH. rewrite IH. unfold calls_step. rewrite <- app_assoc. f_equal.
  by rewrite <- calls_app.
Qed.

Section Order.
Context (t : target) (sock1 pid : Z).

Notation mwp p s Q := (wp calls_step (go_ok t sock1 pid) (fun _ _ => True) p s Q (fun _ _ => True)).

(** [%06d] *)
Definition spec06 : spec := Spec false true (Some 6) None LNone.

Lemma map_line_eq id :
  map_line t id = (fun s => "0 " +:+ (s +:+ " 1" +:+ String "010" "")) <$> conv_int t "d" spec06 id.
Proof.
  unfold map_line, sprintf.
  lazy -[conv_int String.append]. by destruct (conv_int t "d" spec06 id).
Qed.

Lemma map_not_go id data : map_bytes t id = Some data -> data <> go.
Proof.
  unfold map_bytes. rewrite map_line_eq. cbn -[String.append c_array take]. intros [= <-] Hgo.
  apply (f_equal head) in Hgo. by vm_compute in Hgo.
Qed.

Lemma wp_open_or_kill file msg s (Q : list (call * ans) -> Z -> Prop) :
  (forall path f, proc_path t pid file = Some path -> a_ret f <> -1 ->
     Q (s ++ [(Open path O_WRONLY 0, f)]) (a_ret f)) ->
  mwp (open_or_kill t pid file msg) s Q.
Proof.
  intros HQ. unfold open_or_kill. destruct (proc_path t pid file) as [path|] eqn:E; [|done].
  cbn. intros f _. split; [done|].
  destruct (Z.eqb_spec (a_ret f) (-1)); cbn; [by split_and!|]. by apply HQ.
Qed.

Lemma wp_write_close {B} fd data s (k : ans -> prog B) R :
  data <> go -> (forall w c, mwp (k c) (s ++ [(Write fd data, w); (Close fd, c)]) R) ->
  mwp (Vis (Write fd data) (fun _ => Vis (Close fd) k)) s R.
Proof.
  intros Hd Hk w _. split; [done|]. intros c _. split; [done|].
  unfold calls_step. cbn [calls omap list_omap]. rewrite <- app_assoc. apply Hk.
Qed.

Lemma wp_write_maps : mwp (write_maps t pid) [] (fun s _ => wrote_maps t pid s).
Proof.
  unfold write_maps. apply (wp_bind _ _ _ (open_or_kill _ _ _ _)), wp_open_or_kill.
  intros p1 f1 E1 H1. cbn -[wp map_bytes open_or_kill app]. intros u _. split; [done|].
  destruct (map_bytes t (a_ret u)) as [du|] eqn:Eu; [|done]. cbn -[wp map_bytes open_or_kill app].
  apply wp_write_close; [by eapply map_not_go|]. intros w1 c1.
  apply (wp_bind _ _ _ (open_or_kill _ _ _ _)), wp_open_or_kill. intros p2 f2 E2 H2.
  cbn -[wp map_bytes open_or_kill app]. apply wp_write_close; [done|]. intros w2 c2.
  apply (wp_bind _ _ _ (open_or_kill _ _ _ _)), wp_open_or_kill. intros p3 f3 E3 H3.
  cbn -[wp map_bytes open_or_kill app]. intros g _. split; [done|].
  destruct (map_bytes t (a_ret g)) as [dg|] eqn:Eg; [|done]. cbn -[wp map_bytes open_or_kill app].
  apply wp_write_close; [by eapply map_not_go|]. intros w3 c3. cbn [wp].
  eexists u, g, du, dg, _, _, _. split_and!; [done|done|..].
  - by exists p1, f1, w1, c1.
  - by exists p2, f2, w2, c2.
  - by exists p3, f3, w3, c3.
  - done.
Qed.

Lemma wp_parent : mwp (parent t sock1 pid) [] (fun _ _ => True).
Proof.
  unfold parent. apply wp_bind. eapply wp_mono; [| |apply wp_write_maps]; [|done].
  intros s [] Hs. cbn. intros a _. split; [done|]. intros b _. split; [done|].
  case_match; [by cbn|]. unfold report_child, when.
  repeat case_match; cbn; by repeat split.
Qed.
End Order.

(** C21: whatever the system answers, when the parent of mkuidns.c tells the child
    [pid] to go (on [sock1]) it has made exactly these calls before: it has
    opened the child's uid_map, setgroups and gid_map one after the other with
    success, and written to each of the three descriptors, and to no other, the
    map of the id getuid answered, "deny" and the map of the id getgid answered.
    That these writes succeed is not part of it: the code does not look. *)
Theorem mkuidns_maps_before_go t sock1 pid sc tr r sc' tr1 fd a tr2 :
  run (parent t sock1 pid) sc = (tr, r, sc') -> tr = tr1 ++ ECall (Write fd go) a :: tr2 ->
  fd = sock1 /\ wrote_maps t pid (calls tr1).
Proof.
  intros Hr ->. apply (wp_sound _ _ _ _ _ _ _ _ _ _ _ (wp_parent t sock1 pid)) in Hr as [Ha _];
    [|apply ev_sat_any].
  apply accepts_app in Ha as [_ [Hok _]]. rewrite final_calls in Hok. by apply Hok.
Qed.

(** Answers with which the parent goes on although all three writes fail. *)
Definition failing_writes : list ans :=
  [ret_ans 5; ret_ans 1000; err_ans 1; ret_ans 0; ret_ans 6; err_ans 1; ret_ans 0;
   ret_ans 7; ret_ans 100; err_ans 1; ret_ans 0; ret_ans 2; Ans 42 0 [[0]]].

Lemma mkuidns_maps_before_go_witness :
  result (parent x86_64 4 42) failing_writes = Done tt /\
  let tr := trace (parent x86_64 4 42) failing_writes in
  exists tr1 a tr2, tr = tr1 ++ ECall (Write 4 go) a :: tr2 /\
    wrote_maps x86_64 42 (calls tr1).
Proof.
  split; [by vm_compute|]. intros tr. exists (take 11 tr), (ret_ans 2), (drop 12 tr).
  assert (E : tr = take 11 tr ++ ECall (Write 4 go) (ret_ans 2) :: drop 12 tr) by by vm_compute.
  split; [done|].
  apply (mkuidns_maps_before_go x86_64 4 42 failing_writes tr _ _ _ 4 _ _ (run_eta _ _) E).
Defined.

(** * The eleven bytes *)

Lemma length_digits_bound k : forall fuel n acc, 0 <= n < 10 ^ Z.of_nat (S k) ->
  (String.length (digits fuel 10 n acc) <= S k + String.length acc)%nat.
Proof.
  induction k as [|k IH]; intros fuel n acc Hn; (destruct fuel as [|fuel]; [cbn; lia|]); cbn [digits].
  - rewrite (Z.div_small n 10) by (cbn in Hn; lia). cbn. lia.
  - case_match; [cbn; lia|]. etrans; [apply IH|cbn; lia].
    rewrite Nat2Z.inj_succ, Z.pow_succ_r in Hn by lia.
    split; [apply Z.div_pos; lia|apply Z.div_lt_upper_bound; lia].
Qed.

(** A decimal of [k] characters is below [10 ^ k]. *)
Lemma read_digits_bound s : forall a, 0 <= a ->
  read_digits s a < (a + 1) * 10 ^ Z.of_nat (String.length s).
Proof.
  induction s as [|c s IH]; intros a Ha; cbn [read_digits String.length]; [cbn; lia|].
  assert (Hp : 0 < 10 ^ Z.of_nat (String.length s)) by (apply Z.pow_pos_nonneg; lia).
  rewrite Nat2Z.inj_succ, Z.pow_succ_r by lia. destruct (is_digit c) eqn:E; [|nia].
  unfold is_digit in E. apply andb_prop in E as [E1 E2]. apply Z.leb_le in E1, E2.
  specialize (IH (10 * a + (byte_of_ascii c - 48)) ltac:(lia)). nia.
Qed.

(** A number has at most [k] digits exactly when it is below [10 ^ k]. *)
Lemma length_show_nat k n : 0 <= n ->
  (String.length (show_nat 10 n) <= S k)%nat <-> n < 10 ^ Z.of_nat (S k).
Proof.
  intros Hn. split; intros H.
  - pose proof (read_digits_bound (show_nat 10 n) 0 ltac:(lia)) as Hb.
    rewrite read_digits_show_nat in Hb by lia.
    pose proof (Z.pow_le_mono_r 10 (Z.of_nat (String.length (show_nat 10 n))) (Z.of_nat (S k))
      ltac:(lia) ltac:(lia)). lia.
  - unfold show_nat. etrans; [by apply (length_digits_bound k)|]. cbn. lia.
Qed.

Lemma length_repeat_char n c : String.length (repeat_char n c) = n.
Proof. induction n as [|n IH]; cbn; auto. Qed.

Lemma length_string_app s1 s2 : String.length (s1 +:+ s2) = (String.length s1 + String.length s2)%nat.
Proof. rewrite <- !length_bytes, bytes_app. apply length_app. Qed.

(** [%06d] of [id]: a sign, zeros up to six characters, the digits. *)
Definition sign (v : Z) : string := if v <? 0 then "-" else EmptyString.
Definition zeros (v : Z) : string :=
  pad_to 6 "0" (sign v +:+ show_nat 10 (Z.abs v)).
Definition text06 (v : Z) : string := sign v +:+ (zeros v +:+ show_nat 10 (Z.abs v)).

Lemma conv_int_06 t id : conv_int t "d" spec06 id = Some (text06 (to_int id)).
Proof.
  assert (H0 : forall s, pad_to 0 "0" s = EmptyString).
  { intros s. unfold pad_to. by rewrite (Z2Nat.nonpos (0 - _)) by lia. }
  cbn [conv_int spec_bits f_len spec06]. unfold field.
  cbn [f_minus f_zero f_width f_prec spec06 default from_option]. by rewrite !H0.
Qed.

(** It has six characters exactly when the number has at most six digits, or at
    most five and a sign. *)
Lemma length_text06 v : String.length (text06 v) = 6%nat <-> - 10 ^ 5 < v < 10 ^ 6.
Proof.
  assert (Hm : String.length (text06 v) =
    Nat.max 6 (String.length (sign v) + String.length (show_nat 10 (Z.abs v)))).
  { unfold text06, zeros, pad_to. rewrite !length_string_app, length_repeat_char. lia. }
  rewrite Hm. unfold sign. destruct (Z.ltb_spec v 0); cbn [String.length].
  - pose proof (length_show_nat 4 (Z.abs v) ltac:(lia)) as Hl.
    change (Z.of_nat 5) with 5 in Hl. lia.
  - pose proof (length_show_nat 5 (Z.abs v) ltac:(lia)) as Hl.
    change (Z.of_nat 6) with 6 in Hl. lia.
Qed.

(** C38: the user's id is an unsigned 32-bit number and is printed with [%06d].
    The eleven bytes written to a map are the whole line exactly when the id has
    at most six digits, or is above [2^32 - 10^5]; those ids, like every id
    above [2^31 - 1], are printed as the negative number they are as an [int],
    so the line is both whole and right exactly up to six digits. *)
Theorem map_line_complete t n :
  0 <= n < 2 ^ 32 ->
  let v := to_int n in
  map_line t n = Some ("0 " +:+ (text06 v +:+ " 1" +:+ String "010" "")) /\
  (map_bytes t n = bytes <$> map_line t n <-> n < 10 ^ 6 \/ 2 ^ 32 - 10 ^ 5 < n) /\
  (v = n <-> n <= int_max) /\
  (map_bytes t n = bytes <$> map_line t n /\ v = n <-> n < 10 ^ 6).
Proof.
  intros Hn v. assert (Hl : forall s, String.length ("0 " +:+ (s +:+ " 1" +:+ String "010" "")) =
                            (5 + String.length s)%nat).
  { intros s. rewrite !length_string_app. cbn [String.length]. lia. }
  assert (Hv : v = if decide (n <= int_max) then n else n - 2 ^ 32).
  { unfold v. case_decide; [apply to_int_id; unfold is_int, int_min; lia|].
    unfold to_int, swrap, int_max in *. change (32 - 1) with 31.
    rewrite <- (Z.mod_unique (n + 2 ^ 31) (2 ^ 32) 1 (n - 2 ^ 31)); lia. }
  assert (Hw : map_bytes t n = bytes <$> map_line t n <-> - 10 ^ 5 < v < 10 ^ 6).
  { unfold map_bytes. rewrite map_line_eq, conv_int_06. cbn [fmap option_fmap option_map].
    rewrite <- length_text06. fold v. unfold c_array. split.
    - intros E. apply (f_equal (fun o => length (default [] o))) in E.
      cbn [default from_option id] in E.
      rewrite length_take, length_app, length_bytes, Hl in E. cbn [length] in E.
      assert (6 <= String.length (text06 v))%nat; [|lia].
      unfold text06, zeros, pad_to. rewrite !length_string_app, length_repeat_char. lia.
    - intros E. f_equal. rewrite take_app_le by (rewrite length_bytes, Hl, E; lia).
      apply take_ge. rewrite length_bytes, Hl, E. lia. }
  rewrite Hw, Hv. unfold int_max in *. split_and!.
  - rewrite map_line_eq, conv_int_06. cbn [fmap option_fmap option_map]. fold v. by rewrite Hv.
  - case_decide; lia.
  - case_decide; lia.
  - case_decide; lia.
Qed.

(** The id 4294967294 gives the whole line of a negative number. *)
Lemma map_line_complete_witness :
  map_line arm (2 ^ 32 - 2) = Some ("0 -00002 1" +:+ String "010" "") /\
  map_bytes arm (2 ^ 32 - 2) = bytes <$> map_line arm (2 ^ 32 - 2) /\
  map_bytes arm 1000000 <> bytes <$> map_line arm 1000000.
Proof.
  split; [by vm_compute|].
  destruct (map_line_complete arm (2 ^ 32 - 2)) as (_ & Hw & _ & _); [lia|].
  destruct (map_line_complete arm 1000000) as (_ & Hw' & _ & _); [lia|].
  split; [apply Hw; lia|]. intros E. apply Hw' in E. lia.
Defined.
