(* ===== verification/Futex.v ===== *)
(** threadlockfail.c: a lock built on a futex that its owner never releases;
    robustlist.c: the robust list of a process read back. *)

From S2P Require Export Sched.

Local Open Scope Z_scope.

Definition FUTEX_OWNER_DIED : Z := 0x40000000.

(** * threadlockfail.c *)
Section Program.

(** The addresses of [robust_head.list], [lock.list] and of their [next]
    fields, as the two stores of [lock_acquire] name them. *)
Context (head_list lock_list : Z).

Definition set_robust : prog unit := sys (Syscall "set_robust_list" [head_list; 24]) ;;; skip.
Definition futex_wait (val : Z) : prog unit := sys (FutexWait val) ;;; skip.
Definition futex_wake (n : Z) : prog unit := sys (FutexWake n) ;;; skip.

(** One turn: [atomic_compare_exchange_weak(&lock.futex, &expected, (int)tid)];
    [expected] is zero again when the wait is reached. *)
Definition try_acquire (tid : Z) (_ : unit) : prog (unit + unit) :=
  ok <- sysr (AtomicCas 0 (to_int tid)) ;;
  if negb (ok =? 0) then Ret (inr tt)
  else futex_wait 0 ;;; Ret (inl tt).

Definition lock_acquire (fuel : nat) : prog unit :=
  tid <- sysr PthreadSelf ;;
  loop fuel tt (try_acquire tid) ;;;
  sys (ShStore lock_list [head_list]) ;;;
  sys (ShStore head_list [lock_list]) ;;; skip.

Definition lock_release : prog unit :=
  sys (AtomicStore 0) ;;; futex_wake 1.

Definition thread1 (fuel : nat) : prog unit :=
  printf "[t1] Registering robust list and acquiring lock\n" [] ;;;
  fflush ;;;
  set_robust ;;;
  lock_acquire fuel ;;;
  printf "[t1] Lock acquired, now simulating crash...\n" [] ;;;
  fflush ;;;
  sys (Sleep 1) ;;;
  printf "[t1] Exiting without releasing lock!\n" [] ;;;
  fflush ;;;
  Halt (PthreadExit None).

Definition thread2 (fuel : nat) : prog unit :=
  sys (Sleep 10) ;;;
  printf "[t2] Trying to acquire lock after t1 died\n" [] ;;;
  fflush ;;;
  val <- sysr AtomicLoad ;;
  when (negb (Z.land val FUTEX_OWNER_DIED =? 0))
    (printf "[t2] Detected owner died (FUTEX_OWNER_DIED). Cleaning up.\n" [] ;;;
     fflush ;;;
     sys (AtomicStore 0) ;;; skip) ;;;
  lock_acquire fuel ;;;
  printf "[t2] Successfully recovered and acquired lock.\n" [] ;;;
  fflush ;;;
  lock_release ;;;
  printf "[t2] lock released\n" [] ;;;
  fflush.

(** A thread created without a check and joined: its handle is undefined when it
    was not created. *)
Definition create_and_join (fn : string) : prog unit :=
  a <- sys (PthreadCreate fn 0) ;;
  th <- get (if a_ret a =? 0 then Some (out_int a) else None) ;;
  sys (PthreadJoin th) ;;; skip.

Definition main : prog Z :=
  create_and_join "thread1" ;;;
  create_and_join "thread2" ;;;
  Ret 0.

End Program.

(** * robustlist.c *)
Definition RobustList_main (head head_size : Z) : prog Z :=
  tid <- sysr Gettid ;;
  ret <- sysr (Syscall "set_robust_list" [head; head_size]) ;;
  if negb (ret =? 0) then perror "set_robust_list failed" ;;; Ret 1 else
  a <- sys (Syscall "get_robust_list" [tid]) ;;
  if a_ret a =? -1 then perror "get_robust_list" ;;; Ret 2 else
  let got_head := default 0 (out_obj a 0 !! 0%nat) in
  let got_size := default 0 (out_obj a 0 !! 1%nat) in
  printf "Robust list head: %p\n" [AX TPtr got_head] ;;;
  printf "Length: %zu\n" [AX TSize got_size] ;;;
  when (negb (got_head =? 0))
    (printf "Futex offset: %ld\n" [AX TLong (default 0 (out_obj a 1 !! 0%nat))] ;;;
     printf "List pending: %p\n" [AX TPtr (default 0 (out_obj a 1 !! 1%nat))]) ;;;
  Ret 0.

(** * The lock word *)

(** The atomic operations and the futex calls on the lock word.  A weak
    compare-and-exchange may fail although the word is the one expected, as C
    allows and load-linked/store-conditional machines do.  A wait does not change
    the word and may sleep only while the word has the value given; else it
    returns.  The kernel does not mark the word of an owner that died: the list
    entries and the word do not have the form it requires (the word holds a
    [pthread_t], not a thread id). *)
Class LockLaws {K} (kn : kernel K) (word : K -> Z) (self : nat -> Z) : Prop := {
  cas_law κ i e d : exists a κ', kcall kn κ i (AtomicCas e d) = Some (a, κ') /\
    (word κ = e /\ a_ret a = 1 /\ word κ' = d \/ a_ret a = 0 /\ word κ' = word κ);
  atomic_load_law κ i : exists a κ', kcall kn κ i AtomicLoad = Some (a, κ') /\
    a_ret a = word κ /\ word κ' = word κ;
  atomic_store_law κ i d : exists a κ', kcall kn κ i (AtomicStore d) = Some (a, κ') /\ word κ' = d;
  wait_law κ i v a κ' : kcall kn κ i (FutexWait v) = Some (a, κ') -> word κ' = word κ;
  wait_returns_law κ i v : word κ <> v -> is_Some (kcall kn κ i (FutexWait v));
  self_law κ i : exists a κ', kcall kn κ i PthreadSelf = Some (a, κ') /\
    a_ret a = self i /\ word κ' = word κ;
  neutral_law κ i c :
    match c with FutexWake _ | Sleep _ | ShStore _ _ | Syscall _ _ => True | _ => False end ->
    exists a κ', kcall kn κ i c = Some (a, κ') /\ word κ' = word κ
}.

(** Some compare-and-exchange fails on the word it expects. *)
Definition spurious {K} (kn : kernel K) (word : K -> Z) : Prop :=
  exists κ i e d a κ', kcall kn κ i (AtomicCas e d) = Some (a, κ') /\ word κ = e /\ a_ret a = 0.

(** Asleep on a lock that is free, or still trying. *)
Definition stalled {A} (r : res A) : Prop := r = Blocked (FutexWait 0) \/ r = Halted Fuel.

Section Drive.
Context {K : Type} (kn : kernel K) (word : K -> Z) (self : nat -> Z).
Context `{!LockLaws kn word self} (head_list lock_list : Z).

(** The state after a driven process, and its result. *)
Definition ends {A} (κ : K) (i : nat) (p : prog A) (P : res A -> K -> Prop) : Prop :=
  P (drive kn κ i p).1.2 (drive kn κ i p).2.

Lemma ends_ret {A} κ i (a : A) P : P (Done a) κ -> ends κ i (Ret a) P.
Proof. done. Qed.

Lemma ends_halt {A} κ i s (P : res A -> K -> Prop) : P (Halted s) κ -> ends κ i (Halt s) P.
Proof. done. Qed.

Lemma ends_emit {A} κ i o (p : prog A) P : ends κ i p P -> ends κ i (Emit o p) P.
Proof. unfold ends. cbn. by destruct (drive kn κ i p) as [[??]?]. Qed.

Lemma ends_vis {A} κ i c (k : ans -> prog A) a κ' P :
  kcall kn κ i c = Some (a, κ') -> ends κ' i (k a) P -> ends κ i (Vis c k) P.
Proof. unfold ends. cbn. intros ->. by destruct (drive kn κ' i (k a)) as [[??]?]. Qed.

Lemma ends_block {A} κ i c (k : ans -> prog A) (P : res A -> K -> Prop) :
  kcall kn κ i c = None -> P (Blocked c) κ -> ends κ i (Vis c k) P.
Proof. unfold ends. cbn. by intros ->. Qed.

Lemma ends_bind {A B} κ i (p : prog A) (f : A -> prog B) (R : A -> K -> Prop) (P : res B -> K -> Prop) :
  ends κ i p (fun r κ' => match r with Done a => R a κ' | Halted s => P (Halted s) κ'
                          | Blocked c => P (Blocked c) κ' end) ->
  (forall a κ', R a κ' -> ends κ' i (f a) P) -> ends κ i (pbind p f) P.
Proof.
  unfold ends. rewrite drive_bind. destruct (drive kn κ i p) as [[t [a|s|c]] κ']; cbn; [|done|done].
  intros HR Hf. specialize (Hf a κ' HR). by destruct (drive kn κ' i (f a)) as [[??]?].
Qed.

Lemma ends_bind_done {A B} κ i (p : prog A) (f : A -> prog B) a (R : K -> Prop) P :
  ends κ i p (fun r κ' => r = Done a /\ R κ') -> (forall κ', R κ' -> ends κ' i (f a) P) ->
  ends κ i (pbind p f) P.
Proof.
  intros Hp Hf. apply (ends_bind _ _ _ _ (fun a' κ' => a' = a /\ R κ')).
  - unfold ends in *. destruct Hp as [-> HR]. done.
  - intros ? κ' [-> HR]. auto.
Qed.

Lemma ends_bind_halted {A B} κ i (p : prog A) (f : A -> prog B) s (R : K -> Prop)
  (P : res B -> K -> Prop) :
  ends κ i p (fun r κ' => r = Halted s /\ R κ') -> (forall κ', R κ' -> P (Halted s) κ') ->
  ends κ i (pbind p f) P.
Proof.
  intros Hp Hf. apply (ends_bind _ _ _ _ (fun _ _ => False)); [|done].
  unfold ends in *. destruct Hp as [-> HR]. auto.
Qed.

Lemma ends_neutral {A} κ i c (k : ans -> prog A) P :
  match c with FutexWake _ | Sleep _ | ShStore _ _ | Syscall _ _ => True | _ => False end ->
  (forall a κ', word κ' = word κ -> ends κ' i (k a) P) -> ends κ i (Vis c k) P.
Proof.
  intros Hc Hk. destruct (neutral_law κ i c Hc) as (a & κ' & E & Hw).
  eapply ends_vis; [exact E|]. by apply Hk.
Qed.

Lemma ends_store {A} κ i d (k : ans -> prog A) P :
  (forall a κ', word κ' = d -> ends κ' i (k a) P) -> ends κ i (Vis (AtomicStore d) k) P.
Proof.
  intros Hk. destruct (atomic_store_law κ i d) as (a & κ' & E & Hw).
  eapply ends_vis; [exact E|]. by apply Hk.
Qed.

Lemma ends_load {A} κ i (k : ans -> prog A) P :
  (forall a κ', a_ret a = word κ -> word κ' = word κ -> ends κ' i (k a) P) ->
  ends κ i (Vis AtomicLoad k) P.
Proof.
  intros Hk. destruct (atomic_load_law κ i) as (a & κ' & E & Ha & Hw).
  eapply ends_vis; [exact E|]. by apply Hk.
Qed.

Lemma ends_self {A} κ i (k : ans -> prog A) P :
  (forall a κ', a_ret a = self i -> word κ' = word κ -> ends κ' i (k a) P) ->
  ends κ i (Vis PthreadSelf k) P.
Proof.
  intros Hk. destruct (self_law κ i) as (a & κ' & E & Ha & Hw).
  eapply ends_vis; [exact E|]. by apply Hk.
Qed.

Lemma ends_mono {A} κ i (p : prog A) (P Q : res A -> K -> Prop) :
  (forall r κ', P r κ' -> Q r κ') -> ends κ i p P -> ends κ i p Q.
Proof. unfold ends. auto. Qed.

(** How an attempt to take the free lock ends: taken, or, after a
    compare-and-exchange that failed for no reason, waiting for the value zero,
    with nobody there to wake the thread. *)
Definition taken_or_stalled {A} (done : res A) (w : Z) (r : res A) (κ' : K) : Prop :=
  r = done /\ word κ' = w \/ spurious kn word /\ stalled r /\ word κ' = 0.

Lemma loop_free tid i n : forall κ,
  word κ = 0 -> (0 < n)%nat \/ spurious kn word ->
  ends κ i (loop n tt (try_acquire tid)) (taken_or_stalled (Done tt) (to_int tid)).
Proof using LockLaws0.
  induction n as [|n IH]; intros κ Hw Hn.
  { apply ends_halt. right. destruct Hn as [?|?]; [lia|]. split_and!; [done|by right|done]. }
  cbn [loop]. unfold try_acquire at 1.
  destruct (cas_law κ i 0 (to_int tid)) as (a & κ1 & E & Hc). cbn -[loop].
  eapply ends_vis; [exact E|]. destruct Hc as [(_ & -> & H1)|[Ha H1]].
  { apply ends_ret. by left. }
  assert (Hs : spurious kn word) by by exists κ, i, 0, (to_int tid), a, κ1.
  rewrite Ha. cbn -[loop]. destruct (kcall kn κ1 i (FutexWait 0)) as [[b κ2]|] eqn:E2.
  - eapply ends_vis; [exact E2|]. cbn -[loop]. apply IH; [|by right].
    apply wait_law in E2. congruence.
  - apply ends_block; [done|]. right. split_and!; [done|by left|congruence].
Qed.

(** What follows the attempt, when the lock was taken. *)
Lemma ends_taken {A B} κ i (p : prog A) a w (f : A -> prog B) (P : res B -> K -> Prop) :
  ends κ i p (taken_or_stalled (Done a) w) ->
  (forall κ', word κ' = w -> ends κ' i (f a) P) ->
  (forall r κ', spurious kn word -> stalled r -> word κ' = 0 -> P r κ') ->
  ends κ i (pbind p f) P.
Proof using Type.
  intros Hp Hf Hs. apply (ends_bind _ _ _ _ (fun a' κ' => a' = a /\ word κ' = w)).
  - eapply ends_mono; [|exact Hp].
    intros r κ' [[-> ?]|(? & [->| ->] & ?)]; [done|..]; apply Hs; try done; [by left|by right].
  - intros ? κ' [-> Hw]. auto.
Qed.

Lemma acquire_free κ i fuel :
  word κ = 0 -> (0 < fuel)%nat ->
  ends κ i (lock_acquire head_list lock_list fuel) (taken_or_stalled (Done tt) (to_int (self i))).
Proof using LockLaws0.
  intros Hw Hf. unfold lock_acquire. apply ends_self. intros a κ1 <- H1. cbn -[loop].
  eapply ends_taken; [apply loop_free; [congruence|by left]| |].
  - intros κ2 H2. apply ends_neutral; [done|]. intros b3 κ3 H3.
    apply ends_neutral; [done|]. intros b4 κ4 H4. apply ends_ret. left. split; [done|]. congruence.
  - intros r κ2 ? ? ?. by right.
Qed.

(** It is never taken while the word is not zero: the wait returns at once. *)
Lemma acquire_held fuel : forall κ i,
  word κ <> 0 ->
  ends κ i (lock_acquire head_list lock_list fuel)
    (fun r κ' => r = Halted Fuel /\ word κ' = word κ).
Proof using LockLaws0.
  intros κ i Hw. unfold lock_acquire. apply ends_self. intros a κ1 Ha H1. cbn -[loop].
  apply (ends_bind _ _ _ _ (fun _ _ => False)); [|done].
  rewrite <- H1 in Hw |- *. clear Ha H1. revert κ1 Hw. induction fuel as [|n IH]; intros κ1 Hw.
  { by apply ends_halt. }
  cbn [loop]. unfold try_acquire at 1.
  destruct (cas_law κ1 i 0 (to_int (a_ret a))) as (b & κ2 & E & [(? & _)|[Hb H2]]); [done|].
  cbn -[loop]. eapply ends_vis; [exact E|]. rewrite Hb. cbn -[loop].
  destruct (wait_returns_law κ2 i 0) as [[b3 κ3] E3]; [congruence|].
  eapply ends_vis; [exact E3|]. apply wait_law in E3. cbn -[loop].
  rewrite <- H2, <- E3. apply IH. congruence.
Qed.

(** Thread 1 dies with the lock word set to the low bits of its [pthread_t]. *)
Lemma thread1_ends κ fuel :
  word κ = 0 -> (0 < fuel)%nat ->
  ends κ 1 (thread1 head_list lock_list fuel)
    (taken_or_stalled (Halted (PthreadExit None)) (to_int (self 1%nat))).
Proof using LockLaws0.
  intros Hw Hf. unfold thread1. apply ends_emit, ends_emit, ends_neutral; [done|].
  intros a κ1 H1. cbn -[lock_acquire].
  eapply ends_taken; [apply acquire_free; [congruence|done]| |by right].
  intros κ2 H2. apply ends_emit, ends_emit, ends_neutral; [done|].
  intros b κ3 H3. apply ends_emit, ends_emit, ends_halt. left. split; [done|]. congruence.
Qed.

Lemma thread2_ends κ fuel :
  word κ <> 0 -> (0 < fuel)%nat ->
  ends κ 2 (thread2 head_list lock_list fuel) (fun r κ' =>
    if Z.land (word κ) FUTEX_OWNER_DIED =? 0
    then r = Halted Fuel /\ word κ' = word κ else taken_or_stalled (Done tt) 0 r κ').
Proof using LockLaws0.
  intros Hw Hf. unfold thread2. apply ends_neutral; [done|]. intros a κ1 H1.
  apply ends_emit, ends_emit, ends_load. intros v κ2 Hv H2.
  cbn -[lock_acquire lock_release Z.land]. rewrite Hv, H1.
  destruct (Z.land (word κ) FUTEX_OWNER_DIED =? 0); cbn -[lock_acquire lock_release].
  - eapply ends_bind_halted; [apply acquire_held; congruence|].
    cbn. intros κ3 H3. split; [done|]. congruence.
  - apply ends_emit, ends_emit, ends_store. intros a3 κ3 H3. cbn -[lock_acquire lock_release].
    eapply ends_taken; [by apply acquire_free| |by right]. intros κ4 H4.
    apply ends_emit, ends_emit, ends_store. intros a5 κ5 H5.
    apply ends_neutral; [done|]. intros a6 κ6 H6.
    apply ends_emit, ends_emit, ends_ret. left. split; [done|]. congruence.
Qed.
End Drive.

(** C22: the word thread 1 of threadlockfail.c leaves is the low 32 bits of its
    [pthread_t].  Thread 2 never gets the lock when bit 30 (FUTEX_OWNER_DIED)
    happens to be clear in it: it retries for ever without sleeping, whatever the
    fuel.  When the bit is set it takes the lock and releases it.  The one
    other way for either thread to end is a compare-and-exchange that fails on a
    free lock, as the weak one may: the thread then waits for the value zero of
    a lock nobody holds, or tries again for ever. *)
Theorem threadlock_recovery {K} (kn : kernel K) word self head_list lock_list κ fuel :
  LockLaws kn word self -> word κ = 0 -> (0 < fuel)%nat -> to_int (self 1%nat) <> 0 ->
  let '(_, r1, κ1) := drive kn κ 1 (thread1 head_list lock_list fuel) in
  let '(_, r2, κ2) := drive kn κ1 2 (thread2 head_list lock_list fuel) in
  (r1 = Halted (PthreadExit None) /\ word κ1 = to_int (self 1%nat) /\
   if Z.land (to_int (self 1%nat)) FUTEX_OWNER_DIED =? 0
   then r2 = Halted Fuel /\ word κ2 = to_int (self 1%nat)
   else r2 = Done tt /\ word κ2 = 0 \/ spurious kn word /\ stalled r2 /\ word κ2 = 0) \/
  (spurious kn word /\ stalled r1 /\ word κ1 = 0).
Proof.
  intros HL Hw Hf Hself.
  pose proof (thread1_ends kn word self head_list lock_list κ fuel Hw Hf) as H1. unfold ends in H1.
  destruct (drive kn κ 1 _) as [[t1 r1] κ1]. cbn in H1.
  pose proof (thread2_ends kn word self head_list lock_list κ1 fuel) as H2. unfold ends in H2.
  destruct (drive kn κ1 2 _) as [[t2 r2] κ2]. cbn in H2.
  destruct H1 as [[-> H1]|H1]; [left|by right].
  rewrite H1 in H2. split_and!; [done|done|]. by apply H2.
Qed.

(** A kernel of the lock word alone, whose first [k] attempts to exchange it
    fail; thread 1's [pthread_t] is 0x7f0140000700, with bit 30, or
    0x7f0100000700, without. *)
Definition lock_kernel (tid : Z) : kernel (Z * nat) :=
  Kernel (fun '(w, k) _ c =>
    match c with
    | AtomicCas e d =>
        match k with
        | S k => Some (ret_ans 0, (w, k))
        | O => if decide (w = e) then Some (ret_ans 1, (d, O)) else Some (ret_ans 0, (w, O))
        end
    | AtomicLoad => Some (ret_ans w, (w, k))
    | AtomicStore d => Some (ret_ans 0, (d, k))
    | FutexWait v => if decide (w = v) then None else Some (err_ans 11, (w, k))
    | PthreadSelf => Some (ret_ans tid, (w, k))
    | _ => Some (ret_ans 0, (w, k))
    end).

#[export] Instance lock_kernel_laws tid : LockLaws (lock_kernel tid) fst (fun _ => tid).
Proof.
  split.
  - intros [w [|k]] i e d; cbn; [case_decide|]; eexists _, _; (split; [done|]); auto.
  - intros [w k] i. eexists _, _. by split.
  - intros [w k] i d. eexists _, _. by split.
  - intros [w k] i v a κ'. cbn. case_decide; [done|]. by intros [= <- <-].
  - intros [w k] i v Hw. cbn in *. by rewrite decide_False.
  - intros [w k] i. eexists _, _. by split.
  - intros [w k] i c Hc. destruct c; try done; eexists _, _; by split.
Qed.

(** With the bit the lock is recovered; without it thread 2 spins; and thread 2
    sleeps on the free lock when its first exchange fails. *)
Lemma threadlock_recovery_witness :
  (drive (lock_kernel 0x7f0140000700) (0x40000700, 0%nat) 2 (thread2 8 16 5)).1.2 = Done tt /\
  (drive (lock_kernel 0x7f0140000700) (0x40000700, 1%nat) 2 (thread2 8 16 5)).1.2
    = Blocked (FutexWait 0) /\
  let '(_, r1, κ1) := drive (lock_kernel 0x7f0100000700) (0, 0%nat) 1 (thread1 8 16 5) in
  let '(_, r2, κ2) := drive (lock_kernel 0x7f0100000700) κ1 2 (thread2 8 16 5) in
  r1 = Halted (PthreadExit None) /\ r2 = Halted Fuel /\ κ2.1 = 0x700.
Proof.
  split; [by vm_compute|]. split; [by vm_compute|].
  pose proof (threadlock_recovery (lock_kernel 0x7f0100000700) fst (fun _ => 0x7f0100000700) 8 16
    (0, 0%nat) 5 (lock_kernel_laws _) eq_refl ltac:(lia) ltac:(by vm_compute)) as H.
  assert (E : (drive (lock_kernel 0x7f0100000700) (0, 0%nat) 1 (thread1 8 16 5)).1.2 =
              Halted (PthreadExit None)) by by vm_compute.
  destruct (drive _ (0, 0%nat) 1 _) as [[t1 r1] κ1]. destruct (drive _ κ1 2 _) as [[t2 r2] κ2].
  cbn in E. subst r1. destruct H as [(_ & _ & H2)|(_ & [H|H] & _)]; [|done|done].
  split; [done|]. exact H2.
Defined.
