(* ===== verification/Msg.v ===== *)
(** msgtest.c: a System V message queue, read by message type. *)

From S2P Require Export Sched.

Local Open Scope Z_scope.

Definition IPC_CREAT : Z := 512.
Definition IPC_EXCL : Z := 1024.
Definition TEXT_SIZE : Z := 100.

(** [printf(...); fflush(file)] *)
Definition say (fmt : string) (args : list arg) : prog unit := printf fmt args ;;; fflush.

Definition fail (msg : string) : prog unit := perror msg ;;; exit 1.

(** [strcpy] into the text of a message; what follows the NUL stays. *)
Definition strcpy (text : list Z) (s : string) : list Z := overwrite (c_array s) text.

Definition text1 : string := "Hello, this is a message of type 1".
Definition text2 : string := "Hello, this is a message of type 2".

Definition send (msgid type : Z) (text : list Z) : prog unit :=
  r <- sysr (Msgsnd msgid type text) ;;
  if r =? -1 then fail "msgsnd failed" else skip.

(** The size received and the text. *)
Definition receive (msgid type : Z) : prog (Z * list Z) :=
  a <- sys (Msgrcv msgid TEXT_SIZE type) ;;
  if a_ret a =? -1 then fail "msgrcv failed" ;;; Ret (0, []) else Ret (to_int (a_ret a), out_obj a 0).

Definition destroy (msgid : Z) : prog unit :=
  r <- sysr (MsgRmid msgid) ;;
  if r =? -1 then fail "msgctl destroy failed" else skip.

(** [garbage] is what the uninitialised [msg.msg_text] holds. *)
Definition main (garbage : list Z) : prog Z :=
  key <- sysr (Ftok "msgtest-stat" 17) ;;
  msgid <- sysr (Msgget key (Z.lor (Z.lor 438 IPC_CREAT) IPC_EXCL)) ;;
  if msgid =? -1 then fail "msgget failed" ;;; Ret 0 else
  newmsgid <- sysr (Msgget key (Z.lor (Z.lor 438 IPC_CREAT) IPC_EXCL)) ;;
  if negb (newmsgid =? -1) then fail "msgget which should fail did not" ;;; Ret 0 else
  destroy msgid ;;;
  say "Created and destroyed msg queue %d for key 0x%x\n" [AI msgid; AI key] ;;;
  msgid <- sysr (Msgget key (Z.lor 438 IPC_CREAT)) ;;
  if msgid =? -1 then fail "msgget failed" ;;; Ret 0 else
  say "Recreated msg queue %d for key 0x%x\n" [AI msgid; AI key] ;;;
  let msg := strcpy garbage text1 in
  send msgid 1 msg ;;;
  say "Message 1 sent: %s\n" [AB msg] ;;;
  let msg := strcpy msg text2 in
  send msgid 2 msg ;;;
  say "Message 2 sent: %s\n" [AB msg] ;;;
  r <- receive msgid 2 ;;
  say "Message 2 received: %.*s\n" [AI r.1; AB r.2] ;;;
  r <- receive msgid 1 ;;
  say "Message 1 received: %.*s\n" [AI r.1; AB r.2] ;;;
  destroy msgid ;;;
  Ret 0.

(** * Message queues *)

(** The first message of a type, and the queue without it. *)
Fixpoint take_type (ty : Z) (q : list (Z * list Z)) : option (list Z * list (Z * list Z)) :=
  match q with
  | [] => None
  | (ty', text) :: q =>
      if ty' =? ty then Some (text, q)
      else '(x, q') ← take_type ty q; Some (x, (ty', text) :: q')
  end.

(** The queue of the key, with its identifier, if it exists.  Every call may
    fail, without effect; a receive blocks while there is no message of its
    type. *)
Class MsgLaws {K} (kn : kernel K) (queue : K -> option (Z * list (Z * list Z))) : Prop := {
  msgget_law κ i key flags a κ' :
    kcall kn κ i (Msgget key flags) = Some (a, κ') ->
    (a_ret a = -1 /\ queue κ' = queue κ) \/
    match queue κ with
    | None => queue κ' = Some (a_ret a, [])
    | Some (id, q) => Z.land flags IPC_EXCL = 0 /\ a_ret a = id /\ queue κ' = queue κ
    end;
  msgsnd_law κ i id ty text a κ' :
    kcall kn κ i (Msgsnd id ty text) = Some (a, κ') ->
    (a_ret a = -1 /\ queue κ' = queue κ) \/
    exists q, queue κ = Some (id, q) /\ a_ret a = 0 /\ queue κ' = Some (id, q ++ [(ty, text)]);
  msgrcv_law κ i id size ty a κ' :
    kcall kn κ i (Msgrcv id size ty) = Some (a, κ') -> 0 < ty ->
    (a_ret a = -1 /\ queue κ' = queue κ) \/
    exists q text q', queue κ = Some (id, q) /\ take_type ty q = Some (text, q') /\
      a_ret a = Z.of_nat (length text) /\ out_obj a 0 = text /\ queue κ' = Some (id, q');
  msgrmid_law κ i id a κ' :
    kcall kn κ i (MsgRmid id) = Some (a, κ') ->
    (a_ret a = -1 /\ queue κ' = queue κ) \/
    exists q, queue κ = Some (id, q) /\ a_ret a = 0 /\ queue κ' = None;
  ftok_law κ i path proj a κ' :
    kcall kn κ i (Ftok path proj) = Some (a, κ') -> queue κ' = queue κ;
  msg_total κ i c :
    match c with
    | Msgrcv id _ ty => exists q, queue κ = Some (id, q) /\ is_Some (take_type ty q)
    | _ => True
    end -> is_Some (kcall kn κ i c)
}.

Section Texts.
Lemma length_strcpy text s :
  length text = 100%nat -> (String.length s < 100)%nat -> length (strcpy text s) = 100%nat.
Proof.
  intros Ht Hs. unfold strcpy. rewrite length_overwrite; [done|].
  unfold c_array. rewrite length_app, length_bytes, Ht. cbn. lia.
Qed.

Lemma cstr_strcpy text s : text_bytes (bytes s) -> cstr (strcpy text s) = Some s.
Proof. intros Hs. unfold strcpy, overwrite, c_array. rewrite <- app_assoc. by apply cstr_bytes. Qed.

Lemma text1_bytes : text_bytes (bytes text1).
Proof. repeat constructor. Qed.
Lemma text2_bytes : text_bytes (bytes text2).
Proof. repeat constructor. Qed.
End Texts.

Section Drive.
Context {K : Type} (kn : kernel K) (queue : K -> option (Z * list (Z * list Z))).
Context `{!MsgLaws kn queue}.

(** The lines msgtest.c prints when nothing fails. *)
Definition msg_lines (garbage : list Z) (id1 id2 key : Z) : list (string * list arg) :=
  let m1 := strcpy garbage text1 in
  let m2 := strcpy m1 text2 in
  [("Created and destroyed msg queue %d for key 0x%x\n", [AI id1; AI key]);
   ("Recreated msg queue %d for key 0x%x\n", [AI id2; AI key]);
   ("Message 1 sent: %s\n", [AB m1]);
   ("Message 2 sent: %s\n", [AB m2]);
   ("Message 2 received: %.*s\n", [AI 100; AB m2]);
   ("Message 1 received: %.*s\n", [AI 100; AB m1])].

(** The next call of the driven program: its answer, and the program after it;
    a failure that the code detects ends in [exit(1)]. *)
Ltac next_call law E :=
  match goal with
  | |- context [kcall kn ?κ ?i ?c] =>
      let a := fresh "a" in let κ' := fresh "κ" in
      destruct (msg_total κ i c) as [[a κ'] E];
        [try exact I | rewrite E; apply law in E; cbn -[strcpy to_int]]
  end.
Ltac tested :=
  match goal with
  | |- context [a_ret ?a =? -1] =>
      let Hf := fresh "Hf" in
      destruct (Z.eqb_spec (a_ret a) (-1)) as [Hf|Hf]; cbn -[strcpy to_int]; [try by left|]
  end.

Lemma drive_msgtest κ i garbage :
  length garbage = 100%nat -> queue κ = None ->
  let '(tr, r, κ') := drive kn κ i (main garbage) in
  r = Halted (Exit 1) \/
  (r = Done 0 /\ queue κ' = None /\ exists id1 id2 key, printed tr = msg_lines garbage id1 id2 key).
Proof using MsgLaws0.
  intros Hg Hq. unfold main, send, receive, destroy, say, fail. cbn -[strcpy to_int].
  next_call ftok_law E0. next_call msgget_law E1. tested.
  destruct E1 as [[? _]|E1]; [done|]. rewrite E0, Hq in E1.
  next_call msgget_law E2. destruct E2 as [[-> E2]|E2]; cbn -[strcpy to_int];
    [|rewrite E1 in E2; by destruct E2].
  rewrite E1 in E2. next_call msgrmid_law E3. tested.
  destruct E3 as [[? _]|(q3 & _ & _ & E3)]; [done|].
  next_call msgget_law E4. tested. destruct E4 as [[? _]|E4]; [done|]. rewrite E3 in E4.
  next_call msgsnd_law E5. tested. destruct E5 as [[? _]|(q5 & H5 & _ & E5)]; [done|].
  rewrite E4 in H5. injection H5 as <-.
  next_call msgsnd_law E6. tested. destruct E6 as [[? _]|(q6 & H6 & _ & E6)]; [done|].
  rewrite E5 in H6. injection H6 as <-.
  next_call msgrcv_law E7; [rewrite E6; eexists; split; [done|by eexists]| |lia].
  tested. destruct E7 as [[? _]|(q7 & x7 & q7' & H7 & T7 & R7 & O7 & E7)]; [done|].
  rewrite E6 in H7. injection H7 as <-. cbn -[strcpy to_int] in T7. injection T7 as <- <-.
  next_call msgrcv_law E8; [rewrite E7; eexists; split; [done|by eexists]| |lia].
  tested. destruct E8 as [[? _]|(q8 & x8 & q8' & H8 & T8 & R8 & O8 & E8)]; [done|].
  rewrite E7 in H8. injection H8 as <-. cbn -[strcpy to_int] in T8. injection T8 as <- <-.
  next_call msgrmid_law E9. tested. destruct E9 as [[? _]|(q9 & _ & _ & E9)]; [done|].
  right. split; [done|]. split; [done|].
  assert (L1 : length (strcpy garbage text1) = 100%nat) by (apply length_strcpy; [done|cbn; lia]).
  assert (L2 : length (strcpy (strcpy garbage text1) text2) = 100%nat)
    by (apply length_strcpy; [done|cbn; lia]).
  rewrite R7, O7, R8, O8, L1, L2. by eexists _, _, _.
Qed.
End Drive.

(** C11: on a kernel with message queues msgtest.c either fails a call and exits
    with 1, or receives the message of type 2 although that of type 1 was sent
    first, then that of type 1, both unchanged, removes the queue and returns
    0. *)
Theorem msgtest_by_type {K} (kn : kernel K) queue κ i garbage :
  MsgLaws kn queue -> length garbage = 100%nat -> queue κ = None ->
  let '(tr, r, κ') := drive kn κ i (main garbage) in
  r = Halted (Exit 1) \/
  (r = Done 0 /\ queue κ' = None /\
   exists l m1 m2, printed tr = l ++ [("Message 2 received: %.*s\n", [AI 100; AB m2]);
                                     ("Message 1 received: %.*s\n", [AI 100; AB m1])] /\
     cstr m1 = Some text1 /\ cstr m2 = Some text2).
Proof.
  intros HL Hg Hq. pose proof (drive_msgtest kn queue κ i garbage Hg Hq) as H.
  destruct (drive kn κ i (main garbage)) as [[tr r] κ'].
  destruct H as [->|(-> & Hq' & id1 & id2 & key & ->)]; [by left|]. right.
  split; [done|]. split; [done|]. unfold msg_lines.
  eexists [_; _; _; _], _, _. split; [done|].
  split; [apply cstr_strcpy, text1_bytes|apply cstr_strcpy, text2_bytes].
Qed.

(** One key, one queue; receives block on an empty selection. *)
Definition msg_kernel : kernel (option (Z * list (Z * list Z))) :=
  Kernel (fun q _ c =>
    match c with
    | Msgget _ flags =>
        match q with
        | None => Some (ret_ans 5, Some (5, []))
        | Some (id, _) => if Z.land flags IPC_EXCL =? 0 then Some (ret_ans id, q) else Some (err_ans 17, q)
        end
    | Msgsnd id ty text =>
        match q with
        | Some (id', l) => if id =? id' then Some (ret_ans 0, Some (id, l ++ [(ty, text)])) else Some (err_ans 22, q)
        | None => Some (err_ans 22, q)
        end
    | Msgrcv id size ty =>
        match q with
        | Some (id', l) =>
            if id =? id' then
              match take_type ty l with
              | Some (text, l') => Some (Ans (Z.of_nat (length text)) 0 [text], Some (id, l'))
              | None => None
              end
            else Some (err_ans 22, q)
        | None => Some (err_ans 22, q)
        end
    | MsgRmid id =>
        match q with
        | Some (id', _) => if id =? id' then Some (ret_ans 0, None) else Some (err_ans 22, q)
        | None => Some (err_ans 22, q)
        end
    | _ => Some (ret_ans 1, q)
    end).

#[export] Instance msg_kernel_laws : MsgLaws msg_kernel id.
Proof.
  split; unfold id; cbn; intros [[id' l]|] i.
  - intros key flags a κ'. destruct (Z.eqb_spec (Z.land flags IPC_EXCL) 0); intros [= <- <-]; auto.
  - intros key flags a κ' [= <- <-]. by right.
  - intros id ty text a κ'. destruct (Z.eqb_spec id id') as [->|]; intros [= <- <-]; eauto.
  - intros id ty text a κ' [= <- <-]. by left.
  - intros id size ty a κ'. destruct (Z.eqb_spec id id') as [->|]; [|intros [= <- <-]; by left].
    destruct (take_type ty l) as [[text l']|] eqn:E; [|done]. intros [= <- <-] _.
    right. by eexists l, text, l'.
  - intros id size ty a κ' [= <- <-]. by left.
  - intros id a κ'. destruct (Z.eqb_spec id id') as [->|]; intros [= <- <-]; eauto.
  - intros id a κ' [= <- <-]. by left.
  - by intros path proj a κ' [= <- <-].
  - by intros path proj a κ' [= <- <-].
  - intros c Hc. destruct c; try by eexists.
    + cbn. case_match; by eexists.
    + cbn. case_match; by eexists.
    + cbn. destruct Hc as (q & [= -> ->] & [[x q'] E]). rewrite Z.eqb_refl, E. by eexists.
    + cbn. case_match; by eexists.
  - intros c Hc. destruct c; try by eexists.
Qed.

Lemma msgtest_by_type_witness :
  let '(tr, r, κ') := drive msg_kernel None 0 (main (replicate 100 0)) in
  (drive msg_kernel None 0 (main (replicate 100 0))).1.2 = Done 0 /\
  (r = Halted (Exit 1) \/ (r = Done 0 /\ κ' = None /\
   exists l m1 m2, printed tr = l ++ [("Message 2 received: %.*s\n", [AI 100; AB m2]);
                                     ("Message 1 received: %.*s\n", [AI 100; AB m1])] /\
     cstr m1 = Some text1 /\ cstr m2 = Some text2)).
Proof.
  pose proof (msgtest_by_type msg_kernel id None 0 (replicate 100 0) msg_kernel_laws eq_refl eq_refl) as H.
  assert (E : (drive msg_kernel None 0 (main (replicate 100 0))).1.2 = Done 0) by by vm_compute.
  destruct (drive msg_kernel None 0 (main (replicate 100 0))) as [[tr r] κ']. by split.
Defined.
