(* ===== verification/Iovec.v ===== *)
(** iovec_demo.c: vectored I/O over pipes, files, datagram sockets and the
    memory of processes. *)

From S2P Require Export Sched.

Local Open Scope Z_scope.

Definition AF_UNIX : Z := 1.

(** [perror(op); exit(EXIT_FAILURE)] *)
Definition die {A} (op : string) : prog A := perror op ;;; exit 1.

(** What a call stores at offset [off] of an array. *)
Definition fill (off : nat) (xs buf : list Z) : list Z := take off buf ++ overwrite xs (drop off buf).

(** [printf(...); fflush(file)].  The global [file] is never assigned (the
    [file] of [main] is a local variable), so the flush is [fflush(NULL)], which
    flushes [stdout] among the others. *)
Definition say (fmt : string) (args : list arg) : prog unit := printf fmt args ;;; fflush.

Definition show_buf (tag : string) (buf : list Z) (n : Z) : prog unit :=
  say "%s: [%.*s]\n" [AS tag; AI (to_int n); AB buf].

(** [if (pipe(p) != 0) die("pipe")] and the like: the two descriptors. *)
Definition make_pair (c : call) (op : string) : prog (Z * Z) :=
  a <- sys c ;;
  if negb (a_ret a =? 0) then die op
  else
    p0 <- get (out_obj a 0 !! 0%nat) ;;
    p1 <- get (out_obj a 0 !! 1%nat) ;;
    Ret (p0, p1).

(** A call whose negative result is fatal. *)
Definition checked (c : call) (op : string) : prog ans :=
  a <- sys c ;; if a_ret a <? 0 then die op else Ret a.

Section Demo.

(** Where the objects of the program are, what its uninitialised arrays hold,
    the text of [strerror], and whether the headers define [SYS_vmsplice]. *)
Context (addr : string -> Z) (uninit : string -> list Z) (strerror : Z -> string).
Context (have_vmsplice : bool).

Definition demo_readv_writev : prog unit :=
  say "=== demo_readv_writev ===\n" [] ;;;
  p <- make_pair Pipe "pipe" ;;
  say "Writev vec at %p, with msgs at %p and %p\n" [AX TPtr (addr "wv"); AX TPtr (addr "a"); AX TPtr (addr "b")] ;;;
  checked (Writev p.2 [bytes "Hello, "; bytes "writev/readv!"]) "writev" ;;;
  say "Readv vec at %p, with buf at  %p\n" [AX TPtr (addr "rv"); AX TPtr (addr "buf")] ;;;
  a <- checked (Readv p.1 [7; 57]) "readv" ;;
  show_buf "readv got" (fill 7 (out_obj a 1) (fill 0 (out_obj a 0) (uninit "buf"))) (a_ret a) ;;;
  sys (Close p.1) ;;; sys (Close p.2) ;;;
  printf "\n" [].

Definition demo_preadv_pwritev : prog unit :=
  say "=== demo_preadv_pwritev ===\n" [] ;;;
  f <- checked (Mkstemp "/tmp/iovec_demoXXXXXX") "mkstemp" ;;
  let fd := a_ret f in
  sys (Unlink (string_of_bytes (out_obj f 0))) ;;;
  checked (Pwritev fd [bytes "Segment-1:"; bytes "Segment-2:"] 0) "pwritev" ;;;
  a <- checked (Preadv fd [31; 31] 0) "preadv" ;;
  let b1 := fill 0 (out_obj a 0) (replicate 32 0) in
  let b2 := fill 0 (out_obj a 1) (replicate 32 0) in
  say "preadv read total %zd bytes\n" [AX TSize (a_ret a)] ;;;
  n1 <- get (strlen b1) ;;
  show_buf "buf1" b1 n1 ;;;
  n2 <- get (strlen b2) ;;
  show_buf "buf2" b2 n2 ;;;
  sys (Close fd) ;;;
  printf "\n" [].

(** The name printed is that of the message sent: no bytes at [NULL]. *)
Definition demo_sendmsg_recvmsg : prog unit :=
  say "=== demo_sendmsg_recvmsg ===\n" [] ;;;
  sv <- make_pair Socketpair "socketpair" ;;
  printf "Sending message: with not explicit name since using socket pair :\n" [] ;;;
  say "vectors at %p '%s' '%s' \n" [AX TPtr (addr "iov"); AS "Part-A-"; AS "Part-B"] ;;;
  checked (Sendmsg sv.1 [] [bytes "Part-A-"; bytes "Part-B"]) "sendmsg" ;;;
  a <- checked (Recvmsg sv.2 [32; 32]) "recvmsg" ;;
  let rbuf := fill 32 (out_obj a 2) (fill 0 (out_obj a 1) (uninit "rbuf")) in
  say "Read message named: '%.*s'\n  text: '%.*s' vectors at %p \n"
    [AI 0; AB []; AI (to_int (a_ret a)); AB rbuf; AX TPtr (addr "riov")] ;;;
  sys (Close sv.1) ;;; sys (Close sv.2) ;;;
  printf "\n" [].

Definition msgs : list (list (list Z)) :=
  [[bytes "msg1-part1-"; bytes "msg1-part2"]; [bytes "msg2-part1-"; bytes "msg2-part2"]].

(** [rbufs[i]] and [rmsgs[i].msg_len] after the batch [a]; there are two. *)
Definition rbuf (a : ans) (i : Z) : option (list Z * Z) :=
  if decide (0 <= i < 2)
  then Some (fill 0 (out_obj a (Z.to_nat i)) (uninit "rbufs"), Z.of_nat (length (out_obj a (Z.to_nat i))))
  else None.

Definition demo_sendmmsg_recvmmsg : prog unit :=
  say "=== demo_sendmmsg_recvmmsg ===\n" [] ;;;
  sv <- make_pair Socketpair "socketpair" ;;
  s <- checked (Sendmmsg sv.1 msgs) "sendmmsg" ;;
  say "sendmmsg sent %d messages\n" [AI (a_ret s)] ;;;
  a <- checked (Recvmmsg sv.2 [64; 64]) "recvmmsg" ;;
  say "recvmmsg received %d messages\n" [AI (a_ret a)] ;;;
  for_ 0 (a_ret a) tt (fun i _ =>
    b <- get (rbuf a i) ;; show_buf "batch recv" b.1 b.2) ;;;
  sys (Close sv.1) ;;; sys (Close sv.2) ;;;
  printf "\n" [].

Definition demo_vmsplice : prog unit :=
  say "=== demo_vmsplice ===\n" [] ;;;
  (if have_vmsplice then
     p <- make_pair Pipe "pipe" ;;
     checked (Vmsplice p.2 [bytes "Data-for-vmsplice"]) "vmsplice" ;;;
     a <- checked (Read p.1 64) "read after vmsplice" ;;
     show_buf "vmsplice->pipe read" (fill 0 (out_obj a 0) (uninit "buf")) (a_ret a) ;;;
     sys (Close p.1) ;;; sys (Close p.2) ;;; skip
   else say "vmsplice not available on this platform/build.\n" []) ;;;
  printf "\n" [].

Definition secret : list Z := c_array "SECRET_DATA_12345".
Definition newdata : list Z := bytes "WRITTEN_BY_process_vm_writev".

(** The buffer [out], cleared when it is declared, before and after each call. *)
Definition demo_process_vm_readv_writev : prog unit :=
  say "=== demo_process_vm_readv_writev (self) ===\n" [] ;;;
  let out := replicate 64 0 in
  pid <- sysr Getpid ;;
  a <- sys (ProcessVmReadv pid [64] [secret]) ;;
  let out := if a_ret a <? 0 then out else fill 0 (out_obj a 0) out in
  (if a_ret a <? 0
   then emit (OFprintf "process_vm_readv failed: %s\n" [AS (strerror (a_errno a))])
   else say "process_vm_readv read %ld bytes: " [AX TLong (a_ret a)] ;;; show_buf "out" out (a_ret a)) ;;;
  w <- sys (ProcessVmWritev pid [newdata] [out]) ;;
  (if a_ret w <? 0
   then emit (OFprintf "process_vm_writev failed: %s\n" [AS (strerror (a_errno w))])
   else
     let out := fill 0 (out_obj w 0) out in
     say "process_vm_writev wrote %ld bytes; out now: " [AX TLong (a_ret w)] ;;;
     n <- get (strlen out) ;;
     show_buf "out" out n) ;;;
  printf "\n" [].

Definition main : prog Z :=
  say "iovec/syscall demo\n\n" [] ;;;
  demo_readv_writev ;;;
  demo_preadv_pwritev ;;;
  demo_sendmsg_recvmsg ;;;
  demo_sendmmsg_recvmmsg ;;;
  demo_vmsplice ;;;
  demo_process_vm_readv_writev ;;;
  say "Done.\n" [] ;;;
  Ret 0.

End Demo.

(** * Vectored I/O *)

(** The bytes of a transfer, spread over vectors of the given lengths. *)
Fixpoint scatter (lens : list Z) (data : list Z) : list (list Z) :=
  match lens with
  | [] => []
  | n :: lens => take (Z.to_nat n) data :: scatter lens (drop (Z.to_nat n) data)
  end.
Definition room (lens : list Z) : Z := foldr Z.add 0 lens.

(** The channel a descriptor is read from holds a queue of records ([pending]);
    [peer] is the descriptor at which what is written can be read; [file] is the
    content of an open file.  Every call may fail, without effect on what the
    laws speak of. *)
Class IovLaws {K} (kn : kernel K) (pending : K -> Z -> list (list Z)) (peer : K -> Z -> Z)
    (file : K -> Z -> list Z) : Prop := {
  pipe_law κ i a κ' :
    kcall kn κ i Pipe = Some (a, κ') -> a_ret a = 0 ->
    exists r w, out_obj a 0 = [r; w] /\ peer κ' w = r /\ pending κ' r = [];
  socketpair_law κ i a κ' :
    kcall kn κ i Socketpair = Some (a, κ') -> a_ret a = 0 ->
    exists s r, out_obj a 0 = [s; r] /\ peer κ' s = r /\ pending κ' r = [];
  writev_law κ i c fd name iov a κ' :
    c = Writev fd iov \/ c = Sendmsg fd name iov \/ c = Vmsplice fd iov ->
    kcall kn κ i c = Some (a, κ') -> 0 <= a_ret a ->
    pending κ' (peer κ fd) = pending κ (peer κ fd) ++ [concat iov];
  sendmmsg_law κ i fd ms a κ' :
    kcall kn κ i (Sendmmsg fd ms) = Some (a, κ') -> 0 <= a_ret a ->
    exists n, a_ret a = Z.of_nat n /\
      pending κ' (peer κ fd) = pending κ (peer κ fd) ++ take n (map (@concat Z) ms);
  readv_law κ i c fd lens x a κ' :
    c = Readv fd lens \/ (exists n, c = Read fd n /\ lens = [n]) ->
    kcall kn κ i c = Some (a, κ') -> 0 <= a_ret a ->
    pending κ fd = [x] -> Z.of_nat (length x) <= room lens ->
    a_ret a = Z.of_nat (length x) /\ a_out a = scatter lens x;
  recvmsg_law κ i fd lens x a κ' :
    kcall kn κ i (Recvmsg fd lens) = Some (a, κ') -> 0 <= a_ret a ->
    pending κ fd = [x] -> Z.of_nat (length x) <= room lens ->
    exists name, a_ret a = Z.of_nat (length x) /\ a_out a = name :: scatter lens x;
  recvmmsg_waits κ i fd lens :
    (length (pending κ fd) < length lens)%nat -> kcall kn κ i (Recvmmsg fd lens) = None;
  recvmmsg_law κ i fd lens q a κ' :
    kcall kn κ i (Recvmmsg fd lens) = Some (a, κ') -> 0 <= a_ret a ->
    pending κ fd = q -> length q = length lens ->
    Forall2 (fun x n => Z.of_nat (length x) <= n) q lens ->
    a_ret a = Z.of_nat (length q) /\ a_out a = q;
  mkstemp_law κ i template a κ' :
    kcall kn κ i (Mkstemp template) = Some (a, κ') -> 0 <= a_ret a -> file κ' (a_ret a) = [];
  unlink_law κ i path a κ' fd : kcall kn κ i (Unlink path) = Some (a, κ') -> file κ' fd = file κ fd;
  pwritev_law κ i fd iov a κ' :
    kcall kn κ i (Pwritev fd iov 0) = Some (a, κ') -> 0 <= a_ret a ->
    file κ' fd = overwrite (concat iov) (file κ fd);
  preadv_law κ i fd lens a κ' :
    kcall kn κ i (Preadv fd lens 0) = Some (a, κ') -> 0 <= a_ret a ->
    Z.of_nat (length (file κ fd)) <= room lens ->
    a_ret a = Z.of_nat (length (file κ fd)) /\ a_out a = scatter lens (file κ fd);
  process_vm_readv_law κ i pid lens remote a κ' :
    kcall kn κ i (ProcessVmReadv pid lens remote) = Some (a, κ') -> 0 <= a_ret a ->
    Z.of_nat (length (concat remote)) <= room lens ->
    a_ret a = Z.of_nat (length (concat remote)) /\ a_out a = scatter lens (concat remote);
  process_vm_writev_law κ i pid data out a κ' :
    kcall kn κ i (ProcessVmWritev pid data [out]) = Some (a, κ') -> 0 <= a_ret a ->
    (length (concat data) <= length out)%nat ->
    a_ret a = Z.of_nat (length (concat data)) /\ a_out a = [concat data];
  iov_total κ i c :
    match c with
    | Readv fd _ | Recvmsg fd _ | Read fd _ => pending κ fd <> []
    | Recvmmsg fd lens => (length lens <= length (pending κ fd))%nat
    | _ => True
    end -> is_Some (kcall kn κ i c)
}.

(** The strings that the [%.*s] conversions of a trace print. *)
Fixpoint starred (l : list arg) : list (option string) :=
  match l with
  | AI n :: l' =>
      match l' with
      | AB buf :: _ => cstr_n (Z.to_nat n) buf :: starred l'
      | _ => starred l'
      end
  | _ :: l' => starred l'
  | [] => []
  end.
Definition shown (tr : list ev) : list (option string) := printed tr ≫= fun fl => starred fl.2.

Lemma shown_app tr1 tr2 : shown (tr1 ++ tr2) = shown tr1 ++ shown tr2.
Proof. unfold shown. by rewrite printed_app, bind_app. Qed.

Section Drive.
Context {K : Type} (kn : kernel K) (pending : K -> Z -> list (list Z)) (peer : K -> Z -> Z)
        (file : K -> Z -> list Z).
Context `{!IovLaws kn pending peer file}.

(** The batch of two never comes when the kernel sent only one message. *)
Definition batch_incomplete {A} (r : res A) : Prop := exists fd, r = Blocked (Recvmmsg fd [64; 64]).

(** A part of the program either exits, or waits for the batch, or returns with
    its strings shown. *)
Definition shows {A} (p : prog A) (P : A -> list (option string) -> Prop) : Prop :=
  forall κ i, let '(tr, r, κ') := drive kn κ i p in
  r = Halted (Exit 1) \/ batch_incomplete r \/ (exists a, r = Done a /\ P a (shown tr)).

Lemma shows_seq {A B} (p : prog A) (q : prog B) P Q :
  shows p P -> shows q Q ->
  shows (p ;;; q) (fun b l => exists l1 l2, l = l1 ++ l2 /\ (exists a, P a l1) /\ Q b l2).
Proof using Type.
  intros Hp Hq κ i. rewrite drive_bind. specialize (Hp κ i).
  destruct (drive kn κ i p) as [[tr r] κ1].
  destruct Hp as [->|[[fd ->]|(a & -> & HP)]]; [by left|by right; left; eexists|].
  specialize (Hq κ1 i). destruct (drive kn κ1 i q) as [[tr2 r2] κ2].
  destruct Hq as [->|[[fd ->]|(b & -> & HQ)]]; [by left|by right; left; eexists|].
  right. right. exists b. split; [done|]. rewrite shown_app. eauto 10.
Qed.

Context (addr : string -> Z) (uninit : string -> list Z) (strerror : Z -> string).

(** The next call of the driven program, and the test of its result. *)
Ltac step := cbn -[fill cstr_n to_int strlen bytes c_array].
Ltac next_call E :=
  match goal with
  | |- context [kcall kn ?κ ?i ?c] =>
      let a := fresh "a" in let κ' := fresh "κ" in
      destruct (iov_total κ i c) as [[a κ'] E]; [try exact I|rewrite E; step]
  end.
Ltac tested :=
  match goal with
  | |- context [a_ret ?a <? 0] => destruct (Z.ltb_spec (a_ret a) 0); step; [try by left|]
  | |- context [a_ret ?a =? 0] => destruct (Z.eqb_spec (a_ret a) 0); step; [|try by left]
  end.
(** A function of data that is known. *)
Ltac evaluate f :=
  match goal with
  | |- context [f ?l] => let v := eval vm_compute in (f l) in change (f l) with v
  end; step.
(** The two closing calls, and the strings shown. *)
Ltac all_shown := right; right; eexists; split; [reflexivity|vm_compute; reflexivity].
Ltac closes := let E := fresh in let E' := fresh in next_call E; next_call E'; all_shown.

Lemma readv_writev_shows :
  shows (demo_readv_writev addr uninit) (fun _ => eq [Some "Hello, writev/readv!"]).
Proof using IovLaws0.
  intros κ i. step.
  next_call E1. tested. destruct (pipe_law _ _ _ _ E1) as (r & w & -> & Hp & Hq); [done|]. step.
  next_call E2. tested. eapply (writev_law _ _ _ _ []) in E2; [|by left|done]. rewrite Hp, Hq in E2.
  next_call E3; [by rewrite E2|]. tested.
  eapply readv_law in E3 as [R O]; [|by left|done|exact E2|by vm_compute].
  unfold out_obj. rewrite O, R. closes.
Qed.

(** Both segments fit in the first buffer. *)
Lemma preadv_pwritev_shows :
  shows (demo_preadv_pwritev) (fun _ => eq [Some "Segment-1:Segment-2:"; Some ""]).
Proof using IovLaws0.
  intros κ i. step.
  next_call E1. tested. eapply mkstemp_law in E1; [|done].
  next_call E2. eapply (unlink_law _ _ _ _ _ (a_ret a)) in E2. rewrite E1 in E2.
  next_call E3. tested. eapply pwritev_law in E3; [|done]. rewrite E2 in E3.
  next_call E4. tested.
  eapply preadv_law in E4 as [R O]; [|done|rewrite E3; by vm_compute].
  unfold out_obj. rewrite O, R, E3. step. evaluate strlen. evaluate strlen. next_call E5. all_shown.
Qed.

Lemma sendmsg_recvmsg_shows :
  shows (demo_sendmsg_recvmsg addr uninit) (fun _ => eq [Some ""; Some "Part-A-Part-B"]).
Proof using IovLaws0.
  intros κ i. step.
  next_call E1. tested. destruct (socketpair_law _ _ _ _ E1) as (r & w & -> & Hp & Hq); [done|]. step.
  next_call E2. tested. eapply (writev_law _ _ _ _ []) in E2; [|by right; left|done]. rewrite Hp, Hq in E2.
  next_call E3; [by rewrite E2|]. tested.
  eapply recvmsg_law in E3 as (name & R & O); [|done|exact E2|by vm_compute].
  unfold out_obj. rewrite O, R. closes.
Qed.

Lemma sendmmsg_recvmmsg_shows :
  shows (demo_sendmmsg_recvmmsg uninit)
    (fun _ => eq [Some "msg1-part1-msg1-part2"; Some "msg2-part1-msg2-part2"]).
Proof using IovLaws0.
  intros κ i. step.
  next_call E1. tested. destruct (socketpair_law _ _ _ _ E1) as (r & w & -> & Hp & Hq); [done|]. step.
  next_call E2. tested. eapply sendmmsg_law in E2 as (n & _ & E2); [|done].
  rewrite Hp, Hq in E2. destruct n as [|[|n]].
  - rewrite recvmmsg_waits by (rewrite E2; cbn; lia). right. left. by eexists.
  - rewrite recvmmsg_waits by (rewrite E2; cbn; lia). right. left. by eexists.
  - replace (take (S (S n)) (map (@concat Z) msgs)) with (map (@concat Z) msgs) in E2
      by (by destruct n).
    next_call E3; [rewrite E2; cbn; lia|]. tested.
    eapply recvmmsg_law in E3 as [R O]; [|done|exact E2|done|by repeat constructor].
    unfold rbuf, out_obj. rewrite O, R. step. change (for_ 0 (Z.of_nat 2) tt) with (fun f => for_n (S:=unit) 2 0 tt f).
    step. rewrite !decide_True by lia. step. closes.
Qed.

Lemma vmsplice_shows :
  shows (demo_vmsplice uninit true) (fun _ => eq [Some "Data-for-vmsplice"]).
Proof using IovLaws0.
  intros κ i. step.
  next_call E1. tested. destruct (pipe_law _ _ _ _ E1) as (r & w & -> & Hp & Hq); [done|]. step.
  next_call E2. tested. eapply (writev_law _ _ _ _ []) in E2; [|by right; right|done]. rewrite Hp, Hq in E2.
  next_call E3; [by rewrite E2|]. tested.
  eapply readv_law in E3 as [R O]; [|right; by eexists|done|exact E2|by vm_compute].
  unfold out_obj. rewrite O, R. closes.
Qed.

(** Either of the two calls may be refused. *)
Lemma process_vm_shows :
  shows (demo_process_vm_readv_writev strerror) (fun _ l =>
    exists r w : bool, l = (if r then [Some "SECRET_DATA_12345"] else []) ++
                    (if w then [Some "WRITTEN_BY_process_vm_writev"] else [])).
Proof using IovLaws0.
  intros κ i. step. next_call E0. next_call E1. unfold out_obj.
  destruct (Z.ltb_spec (a_ret a0) 0) as [Hr|Hr];
    [|eapply process_vm_readv_law in E1 as [R1 O1]; [|done|by vm_compute]; rewrite R1, O1];
    step; next_call E2;
    (destruct (Z.ltb_spec (a_ret a1) 0) as [Hw|Hw];
      [|eapply process_vm_writev_law in E2 as [R2 O2]; [|done|by vm_compute; lia]; rewrite R2, O2]);
    step; try evaluate strlen; right; right; eexists; (split; [reflexivity|]).
  - by exists false, false.
  - exists false, true. by vm_compute.
  - exists true, false. by vm_compute.
  - exists true, true. by vm_compute.
Qed.
End Drive.

(** C5: on a kernel whose vectored calls gather what is sent and scatter what
    is received, iovec_demo.c either exits with 1 after a call fails, or waits
    for the second message of the batch, or returns 0 having shown every message
    put together from its parts: both segments of the file in the first of the
    two buffers, no name for the message of the socket pair, and whichever of
    the two transfers of its own memory was allowed. *)
Theorem iovec_demo_output {K} (kn : kernel K) pending peer file addr uninit strerror κ i :
  IovLaws kn pending peer file ->
  let '(tr, r, κ') := drive kn κ i (main addr uninit strerror true) in
  r = Halted (Exit 1) \/ (exists fd, r = Blocked (Recvmmsg fd [64; 64])) \/
  (r = Done 0 /\ exists rd wr : bool,
     shown tr =
       [Some "Hello, writev/readv!";
        Some "Segment-1:Segment-2:"; Some "";
        Some ""; Some "Part-A-Part-B";
        Some "msg1-part1-msg1-part2"; Some "msg2-part1-msg2-part2";
        Some "Data-for-vmsplice"] ++
       (if rd then [Some "SECRET_DATA_12345"] else []) ++
       (if wr then [Some "WRITTEN_BY_process_vm_writev"] else [])).
Proof.
  intros HL.
  assert (H0 : shows kn (say "iovec/syscall demo\n\n" []) (fun _ => eq []))
    by (intros ??; right; right; by exists tt).
  assert (H : shows kn (say "Done.\n" [] ;;; Ret 0) (fun z l => z = 0 /\ [] = l))
    by (intros ??; right; right; by exists 0).
  apply (shows_seq kn _ _ _ _ (process_vm_shows kn pending peer file strerror)) in H.
  apply (shows_seq kn _ _ _ _ (vmsplice_shows kn pending peer file uninit)) in H.
  apply (shows_seq kn _ _ _ _ (sendmmsg_recvmmsg_shows kn pending peer file uninit)) in H.
  apply (shows_seq kn _ _ _ _ (sendmsg_recvmsg_shows kn pending peer file addr uninit)) in H.
  apply (shows_seq kn _ _ _ _ (preadv_pwritev_shows kn pending peer file)) in H.
  apply (shows_seq kn _ _ _ _ (readv_writev_shows kn pending peer file addr uninit)) in H.
  apply (shows_seq kn _ _ _ _ H0) in H.
  specialize (H κ i). unfold main. destruct (drive kn κ i _) as [[tr r] κ'].
  destruct H as [->|[[fd ->]|(z & -> & H)]]; [by left|by right; left; exists fd|].
  do 2 right. cbn beta in H.
  repeat match goal with
  | H : exists _, _ |- _ => destruct H
  | H : _ /\ _ |- _ => destruct H
  | H : _ = ?l |- _ => is_var l; subst l
  end.
  subst z. split; [done|]. eexists _, _. subst x0 x2 x5 x8 x11 x14 x16. rewrite app_nil_r in H. exact H.
Qed.

(** A kernel with one pipe, one socket pair and files by descriptor: what can be
    read, and what is stored. *)
Definition iov_state : Type := (Z -> list (list Z)) * (Z -> list Z).
Definition writer_peer (fd : Z) : Z := fd + 1.
Definition sent_to (κ : iov_state) (fd : Z) (ms : list (list Z)) : iov_state :=
  (<[writer_peer fd := κ.1 (writer_peer fd) ++ ms]> κ.1, κ.2).
Definition received (κ : iov_state) (fd : Z) (name : list (list Z)) (lens : list Z) :
    option (ans * iov_state) :=
  match κ.1 fd with
  | [] => None
  | x :: q => Some (Ans (Z.of_nat (length x)) 0 (name ++ scatter lens x), (<[fd := q]> κ.1, κ.2))
  end.
Definition iov_kernel : kernel iov_state :=
  Kernel (fun κ _ c =>
    match c with
    | Pipe => Some (Ans 0 0 [[4; 3]], (<[4 := []]> κ.1, κ.2))
    | Socketpair => Some (Ans 0 0 [[5; 6]], (<[6 := []]> κ.1, κ.2))
    | Writev fd iov | Sendmsg fd _ iov | Vmsplice fd iov =>
        Some (ret_ans (Z.of_nat (length (concat iov))), sent_to κ fd [concat iov])
    | Sendmmsg fd ms => Some (ret_ans (Z.of_nat (length ms)), sent_to κ fd (map (@concat Z) ms))
    | Readv fd lens => received κ fd [] lens
    | Read fd n => received κ fd [] [n]
    | Recvmsg fd lens => received κ fd [[]] lens
    | Recvmmsg fd lens =>
        if decide (length (κ.1 fd) < length lens)%nat then None
        else Some (Ans (Z.of_nat (length (κ.1 fd))) 0 (κ.1 fd), (<[fd := []]> κ.1, κ.2))
    | Mkstemp _ => Some (Ans 7 0 [bytes "/tmp/iovec_demo"], (κ.1, <[7 := []]> κ.2))
    | Pwritev fd iov 0 =>
        Some (ret_ans (Z.of_nat (length (concat iov))), (κ.1, <[fd := overwrite (concat iov) (κ.2 fd)]> κ.2))
    | Preadv fd lens 0 => Some (Ans (Z.of_nat (length (κ.2 fd))) 0 (scatter lens (κ.2 fd)), κ)
    | ProcessVmReadv _ lens remote =>
        Some (Ans (Z.of_nat (length (concat remote))) 0 (scatter lens (concat remote)), κ)
    | ProcessVmWritev _ data [out] => Some (Ans (Z.of_nat (length (concat data))) 0 [concat data], κ)
    | _ => Some (ret_ans 0, κ)
    end).

#[export] Instance iov_kernel_laws :
  IovLaws iov_kernel (fun κ => κ.1) (fun _ => writer_peer) (fun κ => κ.2).
Proof.
  assert (Hsent : forall κ fd ms, (sent_to κ fd ms).1 (writer_peer fd) = κ.1 (writer_peer fd) ++ ms)
    by (intros; apply fn_lookup_insert).
  assert (Hrecv : forall κ fd x name lens, κ.1 fd = [x] ->
    received κ fd name lens =
      Some (Ans (Z.of_nat (length x)) 0 (name ++ scatter lens x), (<[fd := []]> κ.1, κ.2)))
    by (intros * E; unfold received; by rewrite E).
  assert (Hwait : forall κ fd name lens, κ.1 fd <> [] -> is_Some (received κ fd name lens))
    by (intros * E; unfold received; by destruct (κ.1 fd)).
  split; cbn [kcall iov_kernel].
  - intros κ i a κ' [= <- <-] _. exists 4, 3. repeat split.
  - intros κ i a κ' [= <- <-] _. exists 5, 6. repeat split.
  - intros κ i c fd name iov a κ' [->|[->| ->]] [= <- <-] _; apply Hsent.
  - intros κ i fd ms a κ' [= <- <-] _. exists (length ms). split; [done|].
    by rewrite firstn_all2 by (by rewrite length_map).
  - intros κ i c fd lens x a κ' [->|(n & -> & ->)] E _ Hx _;
      (rewrite (Hrecv _ _ _ _ _ Hx) in E; by injection E as <- <-).
  - intros κ i fd lens x a κ' E _ Hx _. rewrite (Hrecv _ _ _ _ _ Hx) in E.
    injection E as <- <-. by exists [].
  - intros κ i fd lens H. by rewrite decide_True.
  - intros κ i fd lens q a κ' E _ <- Hl _. rewrite decide_False in E by lia. by injection E as <- <-.
  - intros κ i template a κ' [= <- <-] _; apply fn_lookup_insert.
  - by intros κ i path a κ' fd [= <- <-].
  - intros κ i fd iov a κ' [= <- <-] _; apply fn_lookup_insert.
  - by intros κ i fd lens a κ' [= <- <-].
  - by intros κ i pid lens remote a κ' [= <- <-].
  - by intros κ i pid data out a κ' [= <- <-].
  - intros κ i c H. destruct c; try by eexists.
    all: try by apply Hwait.
    all: cbn in *; repeat case_match; try by eexists. all: lia.
Qed.

Lemma iovec_demo_output_witness :
  let '(tr, r, κ') :=
    drive iov_kernel (fun _ => [], fun _ => []) 0
      (main (fun _ => 64) (fun _ => replicate 64 120) (fun _ => "?") true) in
  r = Halted (Exit 1) \/ (exists fd, r = Blocked (Recvmmsg fd [64; 64])) \/
  (r = Done 0 /\ exists rd wr : bool,
     shown tr =
       [Some "Hello, writev/readv!";
        Some "Segment-1:Segment-2:"; Some "";
        Some ""; Some "Part-A-Part-B";
        Some "msg1-part1-msg1-part2"; Some "msg2-part1-msg2-part2";
        Some "Data-for-vmsplice"] ++
       (if rd then [Some "SECRET_DATA_12345"] else []) ++
       (if wr then [Some "WRITTEN_BY_process_vm_writev"] else [])).
Proof.
  exact (iovec_demo_output iov_kernel _ _ _ (fun _ => 64) (fun _ => replicate 64 120) (fun _ => "?")
           (fun _ => [], fun _ => []) 0 iov_kernel_laws).
Defined.

(** The kernel above completes the demonstration. *)
Example iovec_demo_done :
  (drive iov_kernel (fun _ => [], fun _ => []) 0
     (main (fun _ => 64) (fun _ => replicate 64 120) (fun _ => "?") true)).1.2 = Done 0.
Proof. by vm_compute. Qed.
