(* ===== verification/Clone.v ===== *)
(** clone.c and sample.c: children made by [clone] on a stack of the parent's,
    and the parent's verdict on how each ended. *)

From S2P Require Export Stdio Wait.

Local Open Scope Z_scope.

Definition SIGFPE : Z := 8.
Definition SIGSEGV : Z := 11.
Definition SIGTERM : Z := 15.
(** Signal numbers of x86 and ARM. *)
Definition SIGCHLD : Z := 17.
Definition SIGSTOP : Z := 19.
Definition STACK_SIZE : Z := 1024 * 1024.

(** [printf(...); fflush(file)]; the global [file] is NULL in the child, so that
    all streams are flushed. *)
Definition say (fmt : string) (args : list arg) : prog unit := printf fmt args ;;; fflush.

(** The greeting and the arguments, as both programs print them. *)
Definition greet (argv : list string) : prog unit :=
  printf "Hello, World!\n" [] ;;;
  for_ 1 (argc argv) tt (fun i _ =>
    a <- argn argv (Z.to_nat i) ;; printf "Arg %d: %s" [AI i; AS a]) ;;;
  fflush.

(** The child's stack; [NULL] is 0. *)
Definition child_stack : prog unit :=
  p <- sysr (Malloc STACK_SIZE) ;;
  if p =? 0 then printf "ERROR: Unable to allocate memory.\n" [] ;;; exit 1 else skip.

(** [clone(fn, pchild_stack + (1024 * 1024), SIGCHLD, data)] *)
Definition spawn (data : option arg) : prog Z :=
  pid <- sysr (Clone "fn" SIGCHLD data) ;;
  if pid <? 0 then printf "ERROR: Unable to create the child process.\n" [] ;;; exit 1 else Ret pid.

(** * clone.c *)
Module CloneC.

(** [arg] is [NULL] or points to an [int]; [addr] is the address it has. *)
Definition fn (addr : Z) (a : option Z) : prog Z :=
  say "\nINFO: This code is running under child process with arg at %p.\n"
    [AX TPtr (if a is Some _ then addr else 0)] ;;;
  n <- get a ;;
  say "INFO: arg is %d.\n" [AI n] ;;;
  get (if n =? 0 then None else Some (Z.quot 10 n)) ;;;
  (if n =? 1 then
     say "Sleep for a while so can have signal applied\n" [] ;;;
     sys (Sleep 2) ;;; skip
   else say "Working with %d\n" [AI n]) ;;;
  Ret n.

(** [waitpid(0,&status,...)], whose result is not looked at: after a failure
    [status] has the value it had, if any. *)
Definition wait_one (status : option Z) : prog Z :=
  a <- sys (Waitpid 0 wait_options) ;;
  if a_ret a =? -1 then get status else Ret (out_int a).

(** The verdicts, one chain of tests per child. *)
Definition report_segv (status : Z) : prog unit :=
  if WIFSIGNALED status then
    if WTERMSIG status =? SIGSEGV then printf "killed by segfault as expected\n" []
    else printf "Expect segfault but killed unexpectedly by signal %d\n" [AI (WTERMSIG status)]
  else if WIFEXITED status then
    printf "Expect segfault but unexpectedly exited normally, status=%d\n" [AI (WEXITSTATUS status)]
  else printf "Expect segfault but unexpectedly continued or stopped\n" [].

Definition report_fpe (status : Z) : prog unit :=
  if WIFSIGNALED status then
    if WTERMSIG status =? SIGFPE then printf "killed by floating point error as expected\n" []
    else printf "Expect fpe but killed unexpectedly by signal %d\n" [AI (WTERMSIG status)]
  else if WIFEXITED status then
    printf "Expect fpe but unexpectedly exited normally, status=%d\n" [AI (WEXITSTATUS status)]
  else printf "Expect fpe but unexpectedly continued or stopped\n" [].

Definition report_term (status : Z) : prog unit :=
  if WIFSIGNALED status then
    if WTERMSIG status =? SIGTERM then printf "killed by sigterm as expected\n" []
    else printf "Expect sigterm but killed unexpectedly by signal %d\n" [AI (WTERMSIG status)]
  else if WIFEXITED status then
    printf "Exited normally but expected sigterm , status=%d\n" [AI (WEXITSTATUS status)]
  else if WIFSTOPPED status then printf "stopped by signal %d\n" [AI (WSTOPSIG status)]
  else printf "Unexpectedly continued or stopped\n" [].

Definition report_stop (status : Z) : prog unit :=
  if WIFSIGNALED status then printf "Unexpectedly killed  by signal %d\n" [AI (WTERMSIG status)]
  else if WIFEXITED status then
    printf "Exited normally as expected, status=%d\n" [AI (WEXITSTATUS status)]
  else if WIFSTOPPED status then
    if WSTOPSIG status =? SIGSTOP then printf "stopped by sig stop as expected\n" []
    else printf "stopped by signal %d not %d\n" [AI (WSTOPSIG status); AI SIGSTOP]
  else printf "Unexpectedly continued or stopped\n" [].

Definition report_exit (status : Z) : prog unit :=
  if WIFSIGNALED status then printf "Unexpectdely killed  by signal %d\n" [AI (WTERMSIG status)]
  else if WIFEXITED status then
    printf "Exited normally as expected, status=%d\n" [AI (WEXITSTATUS status)]
  else printf "Unexpectedly continued or stopped\n" [].

(** One child: made, signalled if [sig] says so, waited for, reported. *)
Definition phase (data : option Z) (sig : option Z) (report : Z -> prog unit) (status : option Z) :
    prog (option Z) :=
  pid <- spawn (AI <$> data) ;;
  (if sig is Some s then sys (Sleep 1) ;;; sys (Kill pid s) ;;; skip else skip) ;;;
  st <- wait_one status ;;
  report st ;;;
  fflush ;;;
  Ret (Some st).

Definition main (argv : list string) : prog unit :=
  greet argv ;;;
  child_stack ;;;
  st <- phase None None report_segv None ;;
  st <- phase (Some 0) None report_fpe st ;;
  st <- phase (Some 1) (Some SIGTERM) report_term st ;;
  st <- phase (Some 1) (Some SIGSTOP) report_stop st ;;
  phase (Some 3) None report_exit st ;;;
  emit OFree ;;;
  printf "INFO: Child process terminated.\n" [].

(** What the parent says of each child, by the way it ended. *)
Definition verdict_segv (w : wstatus) : string * list arg :=
  match w with
  | Signaled s _ =>
      if s =? SIGSEGV then ("killed by segfault as expected\n", [])
      else ("Expect segfault but killed unexpectedly by signal %d\n", [AI s])
  | Exited c => ("Expect segfault but unexpectedly exited normally, status=%d\n", [AI c])
  | Stopped _ | Continued => ("Expect segfault but unexpectedly continued or stopped\n", [])
  end.
Definition verdict_fpe (w : wstatus) : string * list arg :=
  match w with
  | Signaled s _ =>
      if s =? SIGFPE then ("killed by floating point error as expected\n", [])
      else ("Expect fpe but killed unexpectedly by signal %d\n", [AI s])
  | Exited c => ("Expect fpe but unexpectedly exited normally, status=%d\n", [AI c])
  | Stopped _ | Continued => ("Expect fpe but unexpectedly continued or stopped\n", [])
  end.
Definition verdict_term (w : wstatus) : string * list arg :=
  match w with
  | Signaled s _ =>
      if s =? SIGTERM then ("killed by sigterm as expected\n", [])
      else ("Expect sigterm but killed unexpectedly by signal %d\n", [AI s])
  | Exited c => ("Exited normally but expected sigterm , status=%d\n", [AI c])
  | Stopped s => ("stopped by signal %d\n", [AI s])
  | Continued => ("Unexpectedly continued or stopped\n", [])
  end.
Definition verdict_stop (w : wstatus) : string * list arg :=
  match w with
  | Signaled s _ => ("Unexpectedly killed  by signal %d\n", [AI s])
  | Exited c => ("Exited normally as expected, status=%d\n", [AI c])
  | Stopped s =>
      if s =? SIGSTOP then ("stopped by sig stop as expected\n", [])
      else ("stopped by signal %d not %d\n", [AI s; AI SIGSTOP])
  | Continued => ("Unexpectedly continued or stopped\n", [])
  end.
Definition verdict_exit (w : wstatus) : string * list arg :=
  match w with
  | Signaled s _ => ("Unexpectdely killed  by signal %d\n", [AI s])
  | Exited c => ("Exited normally as expected, status=%d\n", [AI c])
  | Stopped _ | Continued => ("Unexpectedly continued or stopped\n", [])
  end.

End CloneC.

(** * sample.c *)
Module SampleC.

(** [n * i]; signed overflow is undefined. *)
Definition mul_int (n i : Z) : option Z :=
  if decide (int_min <= n * i <= int_max) then Some (n * i) else None.

(** [a] is [argv[1]], [NULL] without arguments. *)
Definition fn (t : target) (a : option string) : prog Z :=
  printf "\nINFO: This code is running under child process.\n" [] ;;;
  s <- get a ;;
  let n := atoi t s in
  for_ 1 4 tt (fun i _ =>
    p <- get (mul_int n i) ;;
    printf "%d * %d = %d\n" [AI n; AI i; AI p] ;;;
    fflush) ;;;
  printf "\n" [] ;;;
  Ret 0.

Definition main (fuel : nat) (argv : list string) : prog unit :=
  greet argv ;;;
  child_stack ;;;
  spawn (AS <$> argv !! 1%nat) ;;;
  wait_loop fuel 0 wait_break ;;;
  emit OFree ;;;
  printf "INFO: Child process terminated.\n" [].

End SampleC.

(** * The children's functions *)

(** Fn of clone.c faults before it prints its argument when it has none,
    faults at the division when the argument is zero, and otherwise returns its
    argument, having slept when it is one. *)
Theorem clone_fn_run addr :
  (result (CloneC.fn addr None) [] = Halted Ub /\
   printed (trace (CloneC.fn addr None) []) =
     [("\nINFO: This code is running under child process with arg at %p.\n", [AX TPtr 0])]) /\
  (forall n sc, let p := CloneC.fn addr (Some n) in
   take 2 (printed (trace p sc)) =
     [("\nINFO: This code is running under child process with arg at %p.\n", [AX TPtr addr]);
      ("INFO: arg is %d.\n", [AI n])] /\
   (result p sc = Halted Ub <-> n = 0) /\
   (n <> 0 -> result p (ret_ans 0 :: sc) = Done n) /\
   (forall e, In e (calls (trace p sc)) -> e.1 = Sleep 2 /\ n = 1)).
Proof.
  split; [done|]. intros n sc. unfold CloneC.fn, result, trace, calls. cbn.
  destruct (Z.eqb_spec n 0) as [->|Hn]; cbn; [by repeat split|].
  destruct (Z.eqb_spec n 1) as [->|H1]; cbn.
  - by destruct sc as [|a sc]; cbn; repeat split; try done; intros; destruct_or?; subst.
  - by repeat split.
Qed.

Section SampleChild.
Context (t : target).

(** The lines of the child for [n]. *)
Definition sample_line (n i : Z) : string * list arg := ("%d * %d = %d\n", [AI n; AI i; AI (n * i)]).

(** C39: fn of sample.c faults without an argument and when three times its
    number is no [int]; otherwise it prints the three products and returns 0.
    Of what it prints the last newline is still in the buffer of a redirected
    stdout when it returns. *)
Theorem sample_fn_run :
  result (SampleC.fn t None) [] = Halted Ub /\
  forall s, let n := atoi t s in
  (result (SampleC.fn t (Some s)) [] = Done 0 <-> is_int (3 * n)) /\
  (result (SampleC.fn t (Some s)) [] = Halted Ub <-> ~ is_int (3 * n)) /\
  (is_int (3 * n) ->
   let io := foldl stdio_step (Stdio FullyBuffered [] []) (trace (SampleC.fn t (Some s)) []) in
   written io = ("\nINFO: This code is running under child process.\n", []) ::
                (sample_line n <$> [1; 2; 3]) /\
   buf io = [("\n", [])]).
Proof.
  split; [done|]. intros s n. unfold SampleC.fn, trace, result. cbn [run pbind printf emit get].
  change (atoi t s) with n. assert (Hn : is_int n) by apply to_int_range.
  clearbody n. change (for_ 1 4 tt) with (fun f => for_n (S := unit) 3 1 tt f).
  cbn [for_n]. change (1 + 1) with 2. change (2 + 1) with 3.
  unfold SampleC.mul_int, is_int, int_min, int_max in *.
  destruct (decide (- 2 ^ 31 <= n * 1 <= 2 ^ 31 - 1)) as [H1|H1]; [|lia].
  destruct (decide (- 2 ^ 31 <= n * 2 <= 2 ^ 31 - 1)) as [H2|H2];
    [destruct (decide (- 2 ^ 31 <= n * 3 <= 2 ^ 31 - 1)) as [H3|H3]|]; cbn.
  - by repeat split; try lia.
  - repeat split; try done; lia.
  - repeat split; try done; lia.
Qed.

End SampleChild.

Lemma clone_fn_run_witness : result (CloneC.fn 4096 (Some 3)) [ret_ans 0] = Done 3.
Proof. by apply (proj2 (clone_fn_run 4096) 3 []). Defined.

Lemma sample_fn_run_witness :
  result (SampleC.fn x86_64 (Some "7")) [] = Done 0 /\
  result (SampleC.fn x86_64 (Some "715827883")) [] = Halted Ub.
Proof.
  destruct (sample_fn_run x86_64) as [_ H]. split.
  - apply (proj1 (H "7")). by vm_compute.
  - apply (proj1 (proj2 (H "715827883"))). by vm_compute; intros [].
Defined.

(** * The parent of clone.c *)
Section CloneParent.
Import CloneC.

(** A status that the kernel encoded is decoded to how the child ended. *)
Lemma exited_not_signaled st : WIFEXITED st = true -> WIFSIGNALED st = false.
Proof. unfold WIFEXITED, WIFSIGNALED, WTERMSIG. intros E%Z.eqb_eq. by rewrite E. Qed.

Ltac decoded :=
  match goal with H : wstatus_ok ?w |- _ => apply decode_encode in H; destruct w end;
  cbn [decode_agrees] in *;
  match goal with |- context [encode_status ?w] => generalize dependent (encode_status w) end;
  intros;
  repeat match goal with H : (_ && _) = true |- _ => apply andb_prop in H as [? ?] end;
  repeat match goal with
  | H : negb ?b = true |- _ => apply negb_true_iff in H
  | H : (_ =? _) = true |- _ => apply Z.eqb_eq in H
  | H : WIFEXITED _ = true |- _ => pose proof (exited_not_signaled _ H); revert H
  end; intros;
  repeat match goal with
  | H : ?b = true |- context [?b] => rewrite H
  | H : ?b = false |- context [?b] => rewrite H
  | H : WTERMSIG _ = _ |- _ => rewrite H; clear H
  | H : WEXITSTATUS _ = _ |- _ => rewrite H; clear H
  | H : WSTOPSIG _ = _ |- _ => rewrite H; clear H
  end; repeat case_match; done.

Definition decodes (report : Z -> prog unit) (verdict : wstatus -> string * list arg) : Prop :=
  forall w, wstatus_ok w -> report (encode_status w) = printf (verdict w).1 (verdict w).2.

Lemma decodes_segv : decodes report_segv verdict_segv.
Proof. intros w Hw. unfold report_segv, verdict_segv. decoded. Qed.
Lemma decodes_fpe : decodes report_fpe verdict_fpe.
Proof. intros w Hw. unfold report_fpe, verdict_fpe. decoded. Qed.
Lemma decodes_term : decodes report_term verdict_term.
Proof. intros w Hw. unfold report_term, verdict_term. decoded. Qed.
Lemma decodes_stop : decodes report_stop verdict_stop.
Proof. intros w Hw. unfold report_stop, verdict_stop. decoded. Qed.
Lemma decodes_exit : decodes report_exit verdict_exit.
Proof. intros w Hw. unfold report_exit, verdict_exit. decoded. Qed.

(** The calls of one phase, answered for the child [pid] that ended as [w]. *)
Definition phase_calls (data sig : option Z) (pid : Z) (w : wstatus) : list (call * ans) :=
  [(Clone "fn" SIGCHLD (AI <$> data), ret_ans pid)] ++
  (if sig is Some s then [(Sleep 1, ret_ans 0); (Kill pid s, ret_ans 0)] else []) ++
  [(Waitpid 0 wait_options, wait_ans pid w)].

Lemma run_phase data sig report verdict st pid w sc :
  decodes report verdict -> wstatus_ok w -> 0 < pid ->
  runs_to (phase data sig report st) ((phase_calls data sig pid w).*2 ++ sc)
    (Some (encode_status w)) [verdict w] (phase_calls data sig pid w) sc.
Proof.
  intros Hd Hw Hp. unfold runs_to, phase, phase_calls, spawn, wait_one.
  destruct sig as [s|]; cbn -[encode_status];
    (destruct (Z.ltb_spec pid 0); [lia|]); cbn -[encode_status];
    (destruct (Z.eqb_spec pid (-1)); [lia|]);
    cbn [pbind]; rewrite (Hd w Hw);
    cbn -[encode_status]; eexists; (split; [reflexivity|]); cbn; by destruct (verdict w).
Qed.

(** The lines that greet. *)
Definition arg_lines (args : list string) : list (string * list arg) :=
  imap (fun i a => ("Arg %d: %s", [AI (Z.of_nat (S i)); AS a])) args.

Lemma run_greet name args sc :
  runs_to (greet (name :: args)) sc tt (("Hello, World!\n", []) :: arg_lines args) [] sc.
Proof.
  unfold greet.
  eapply (runs_bind _ _ _ _ [_] []); [apply runs_emit|].
  rewrite <- (app_nil_r (arg_lines args)).
  eapply (runs_bind _ _ _ _ _ []); [|apply runs_flush].
  exact (run_for_argv (fun i a => ("Arg %d: %s", [AI i; AS a])) name args sc).
Qed.
End CloneParent.

(** C12: with every call answered, clone.c makes its five children one after
    the other, sends the third SIGTERM and the fourth SIGSTOP a second after
    they start, waits for each before it makes the next, and says of each the
    verdict its status deserves, whatever that is. *)
Theorem clone_main_run name args stack pids ws :
  stack <> 0 -> length pids = 5%nat -> length ws = 5%nat ->
  Forall (Z.lt 0) pids -> Forall wstatus_ok ws ->
  let cs := [(Malloc STACK_SIZE, ret_ans stack)] ++
    concat (zip_with (fun ds pw => phase_calls ds.1 ds.2 pw.1 pw.2)
      [(None, None); (Some 0, None); (Some 1, Some SIGTERM); (Some 1, Some SIGSTOP); (Some 3, None)]
      (zip pids ws)) in
  let '(t, r, sc) := run (CloneC.main (name :: args)) (cs.*2) in
  r = Done tt /\ sc = [] /\ calls t = cs /\
  printed t = ("Hello, World!\n", []) :: arg_lines args ++
    zip_with (fun v w => v w)
      [CloneC.verdict_segv; CloneC.verdict_fpe; CloneC.verdict_term; CloneC.verdict_stop;
       CloneC.verdict_exit] ws ++
    [("INFO: Child process terminated.\n", [])].
Proof.
  intros Hs Hp Hw Fp Fw.
  destruct pids as [|p1 [|p2 [|p3 [|p4 [|p5 [|]]]]]]; try done.
  destruct ws as [|w1 [|w2 [|w3 [|w4 [|w5 [|]]]]]]; try done.
  cbn zeta. cbn [zip zip_with concat fst snd]. rewrite app_nil_r, !fmap_app.
  rewrite !Forall_cons in Fp. rewrite !Forall_cons in Fw. destruct Fp as (? & ? & ? & ? & ? & _), Fw as (? & ? & ? & ? & ? & _).
  assert (Hm : forall sc, runs_to child_stack ([(Malloc STACK_SIZE, ret_ans stack)].*2 ++ sc) tt []
                 [(Malloc STACK_SIZE, ret_ans stack)] sc).
  { intros sc. unfold runs_to, child_stack. cbn. destruct (Z.eqb_spec stack 0); [done|]. by eexists. }
  assert (Hf : runs_to (emit OFree ;;; printf "INFO: Child process terminated.\n" []) [] tt
                 [("INFO: Child process terminated.\n", [])] [] []) by (by eexists).
  rewrite <- (app_nil_r ((phase_calls (Some 3) None p5 w5).*2)), <- ?app_assoc.
  match goal with |- context [run ?p ?s] => eassert (R : runs_to p s tt _ _ []) end.
  { eapply runs_bind; [apply run_greet|]. eapply runs_bind; [apply Hm|].
    eapply runs_bind; [by apply (run_phase _ _ _ _ _ _ _ _ decodes_segv)|].
    eapply runs_bind; [by apply (run_phase _ _ _ _ _ _ _ _ decodes_fpe)|].
    eapply runs_bind; [by apply (run_phase _ _ _ _ _ _ _ _ decodes_term)|].
    eapply runs_bind; [by apply (run_phase _ _ _ _ _ _ _ _ decodes_stop)|].
    eapply runs_bind; [by apply (run_phase _ _ _ _ _ _ _ _ decodes_exit)|]. exact Hf. }
  destruct R as (t & -> & Ht & Hc). rewrite Ht, Hc.
  by repeat split.
Qed.

Lemma clone_main_run_witness :
  let cs := [(Malloc STACK_SIZE, ret_ans 4096)] ++
    concat (zip_with (fun ds pw => phase_calls ds.1 ds.2 pw.1 pw.2)
      [(None, None); (Some 0, None); (Some 1, Some SIGTERM); (Some 1, Some SIGSTOP); (Some 3, None)]
      (zip [10; 11; 12; 13; 14]
        [Signaled SIGSEGV true; Signaled SIGFPE true; Signaled SIGTERM false; Stopped SIGSTOP; Exited 3])) in
  let '(t, r, sc) := run (CloneC.main ["clone"; "x"]) (cs.*2) in
  r = Done tt /\
  printed t =
    [("Hello, World!\n", []); ("Arg %d: %s", [AI 1; AS "x"]);
     ("killed by segfault as expected\n", []); ("killed by floating point error as expected\n", []);
     ("killed by sigterm as expected\n", []); ("stopped by sig stop as expected\n", []);
     ("Exited normally as expected, status=%d\n", [AI 3]); ("INFO: Child process terminated.\n", [])].
Proof.
  pose proof (clone_main_run "clone" ["x"] 4096 [10; 11; 12; 13; 14]
    [Signaled SIGSEGV true; Signaled SIGFPE true; Signaled SIGTERM false; Stopped SIGSTOP; Exited 3]
    ltac:(done) eq_refl eq_refl ltac:(repeat constructor)
    ltac:(repeat constructor; unfold SIGSEGV, SIGFPE, SIGTERM, SIGSTOP; done)) as H.
  cbv zeta in H |- *. destruct (run (CloneC.main _) _) as [[t r] sc].
  destruct H as (-> & _ & _ & ->). by split.
Defined.
