(* ===== verification/Recvmsg.v ===== *)
(** recvmsg.c and recvmsg-flush.c: a thread that receives one datagram into two
    buffers and a thread that sends it.

    [receive_message_prints] gives all the receiver prints about a datagram;
    [recvmsg_delivers] runs both threads over any kernel with [UdpLaws], in every
    interleaving, the loss of the datagram included. *)

From S2P Require Export Iovec.

Local Open Scope Z_scope.

Definition AF_INET : Z := 2.
Definition SOCK_DGRAM : Z := 2.
Definition PORT : Z := 12345.
Definition BUF_SIZE : Z := 1024.
Definition NUMBUFS : Z := 2.

(** [struct sockaddr_in]: the family in the target's byte order, the port and
    the address in network order, padding. *)
Definition sockaddr_in (t : target) (port : Z) (ip : list Z) : list Z :=
  int_bytes t 2 AF_INET ++ [port / 256; port mod 256] ++ ip ++ replicate 8 0.
Definition sin_port (t : target) (sa : list Z) : Z := uint_value t (take 2 (drop 2 sa)).
Definition sin_addr (sa : list Z) : list Z := take 4 (drop 4 sa).

(** The dotted decimal notation of an address. *)
Fixpoint inet_ntop (ip : list Z) : string :=
  match ip with
  | [] => EmptyString
  | [b] => show_int b
  | b :: ip => (show_int b +:+ "." +:+ inet_ntop ip)%stdpp
  end.

(** Where the two programs differ: what is printed after the first line and
    before the wait, how the sender's address is printed, and the flushes. *)
Record variant := Variant {
  announce : prog unit;
  received_from : string;
  from_args : Z -> list Z -> list arg;   (* [msg_namelen] and [sender_addr] *)
  flush : prog unit
}.

Section Threads.

(** The target, what the two buffers and [sender_addr] hold before they are
    written. *)
Context (t : target) (v : variant) (uninit : nat -> list Z) (sender_addr : list Z).

(** The lines about what [recvmsg] returned: [name] is the address it stored,
    [parts] what it stored in each buffer. *)
Definition print_message (name : list Z) (parts : list (list Z)) : prog unit :=
  let sa := fill 0 name sender_addr in
  printf (received_from v)
    (from_args v (Z.of_nat (length name)) sa ++
     [AS (inet_ntop (sin_addr sa)); AI (htons t (sin_port t sa));
      AI (uint_value t (sin_addr sa)); AI (sin_port t sa)]) ;;;
  flush v ;;;
  for_ 0 NUMBUFS tt (fun i _ =>
    let buffer := fill 0 (default [] (parts !! Z.to_nat i)) (uninit (Z.to_nat i)) in
    printf " '%.*s'\n" [AI (BUF_SIZE - 1); AB buffer] ;;;
    flush v).

(** After the socket is bound. *)
Definition receive_message (sockfd : Z) : prog Z :=
  printf "Waiting for message on port %d...\n" [AI PORT] ;;;
  announce v ;;;
  a <- sys (Recvmsg sockfd [BUF_SIZE - 1; BUF_SIZE - 1]) ;;
  if a_ret a <? 0 then perror "recvmsg" ;;; sys (Close sockfd) ;;; Ret 0
  else
    print_message (out_obj a 0) (drop 1 (a_out a)) ;;;
    sys (Close sockfd) ;;;
    Ret 0.

Definition recv_thread : prog Z :=
  sockfd <- sysr (Socket AF_INET SOCK_DGRAM) ;;
  if sockfd <? 0 then perror "socket" ;;; Ret 0 else
  r <- sysr (Bind sockfd (htons t PORT)) ;;
  if r <? 0 then perror "bind" ;;; sys (Close sockfd) ;;; Ret 0 else
  receive_message sockfd.

Definition msg_text : string := "Hello from sendmsg!".
Definition msg_text2 : string := "A little something extra".

(** The address is that [inet_pton] stores; nothing is tested. *)
Definition sender_thread : prog Z :=
  sockfd <- sysr (Socket AF_INET SOCK_DGRAM) ;;
  ip <- sys (InetPton "127.0.0.1") ;;
  let addr := sockaddr_in t PORT (overwrite (out_obj ip 0) (replicate 4 0)) in
  printf "Sending message: '%.*s' from 127.0.0.1:%d :\n"
    [AI (Z.of_nat (length addr)); AB addr; AI PORT] ;;;
  printf " '%s'\n" [AS msg_text] ;;;
  printf " '%s'\n" [AS msg_text2] ;;;
  flush v ;;;
  sys (Sendmsg sockfd addr [bytes msg_text; bytes msg_text2]) ;;;
  sys (Close sockfd) ;;;
  Ret 0.

Definition main : prog Z :=
  recv_tid <- sys (PthreadCreate "recv_thread" 0) ;;
  sys (Sleep 1) ;;;
  sender_tid <- sys (PthreadCreate "sender_thread" 0) ;;
  printf "Created threads\n" [] ;;;
  fflush ;;;
  sys (PthreadJoin (out_int sender_tid)) ;;;
  sys (PthreadJoin (out_int recv_tid)) ;;;
  printf "All threads done\n" [] ;;;
  fflush ;;;
  Ret 0.

End Threads.

(** * recvmsg.c *)
Module RecvmsgC.

(** [msg_name] printed as a string of at most [msg_namelen] bytes. *)
Definition the_variant : variant :=
  Variant skip "Received message: '%.*s' from %s:%d  %d:%d:\n"
    (fun len sa => [AI len; AB sa]) skip.

Definition recv_thread (t : target) := recv_thread t the_variant.
Definition sender_thread (t : target) := sender_thread t the_variant.

End RecvmsgC.

(** * recvmsg-flush.c *)
Module RecvmsgFlush.
Section Addresses.

(** Where the message header and its fields are. *)
Context (t : target) (addr : string -> Z).

Definition sizeof_msghdr : Z := if long_bits t =? 64 then 56 else 28.

(** [msg_name] printed as a pointer; every line is flushed. *)
Definition the_variant : variant :=
  Variant
    (printf "msg struct %p, name field %p, name len field %p, iov field %p, struct size %x\n"
       [AX TPtr (addr "msg"); AX TPtr (addr "msg.msg_name"); AX TPtr (addr "msg.msg_namelen");
        AX TPtr (addr "msg.msg_iov"); AI sizeof_msghdr] ;;;
     fflush)
    "Received message: %p for %d bytes from %s:%d  %d:%d:\n"
    (fun len _ => [AX TPtr (addr "sender_addr"); AI len]) fflush.

Definition recv_thread := recv_thread t the_variant.
Definition sender_thread := sender_thread t the_variant.

(** The program's own copy of [main]. *)
Definition main : prog Z := main.

End Addresses.
End RecvmsgFlush.

(** The two programs. *)
Inductive known (t : target) : variant -> Prop :=
  | known_plain : known t RecvmsgC.the_variant
  | known_flush addr : known t (RecvmsgFlush.the_variant t addr).

Lemma known_cases t v :
  known t v -> v = RecvmsgC.the_variant \/ exists addr, v = RecvmsgFlush.the_variant t addr.
Proof. destruct 1; eauto. Qed.

(** * What the receiver prints *)
Section Print.
Context (t : target).

(** A port and an address read back from the bytes of a socket address. *)
Lemma sin_port_sockaddr port ip :
  0 <= port < 65536 -> htons t (sin_port t (sockaddr_in t port ip)) = port.
Proof.
  intros Hp. unfold sin_port, sockaddr_in.
  rewrite (drop_app_length' (int_bytes t 2 AF_INET)) by (by rewrite length_int_bytes). cbn [app take]. rewrite take_0.
  pose proof (Z.div_mod port 256 ltac:(lia)). pose proof (Z.mod_pos_bound port 256 ltac:(lia)).
  set (a := port / 256) in *. set (b := port mod 256) in *.
  assert (0 <= a < 256) by (unfold a; split; [apply Z.div_pos; lia|apply Z.div_lt_upper_bound; lia]).
  unfold htons, uint_value. destruct (big_endian t); rewrite ?take_0; cbn [rev app le_value]; [lia|].
  replace (a + 256 * (b + 256 * 0)) with (a + b * 256) by lia.
  rewrite Z.mod_add, Z.div_add, Z.mod_small, Z.div_small by lia. lia.
Qed.

Lemma sin_addr_sockaddr port ip : length ip = 4%nat -> sin_addr (sockaddr_in t port ip) = ip.
Proof.
  intros Hi. unfold sin_addr, sockaddr_in. rewrite app_assoc.
  rewrite drop_app_length' by (by rewrite length_app, length_int_bytes).
  by rewrite take_app_length'.
Qed.

Lemma cstr_n_app l r n :
  text_bytes l -> (length l <= n)%nat ->
  cstr_n n (l ++ r) = String.append (string_of_bytes l) <$> cstr_n (n - length l) r.
Proof.
  intros Hl. revert n. induction Hl as [|b l Hb Hl IH]; intros n Hn; cbn.
  - rewrite Nat.sub_0_r. by destruct (cstr_n n r).
  - destruct n as [|n]; [cbn in Hn; lia|]. cbn.
    destruct (Z.eqb_spec b 0); [lia|]. rewrite IH by (cbn in Hn; lia).
    by destruct (cstr_n (n - length l) r).
Qed.

(** One buffer after a part of the datagram was stored in it: the part, then
    what the stack held there. *)
Lemma starred_buffer part garbage :
  text_bytes part -> (length part <= 1023)%nat ->
  starred [AI (BUF_SIZE - 1); AB (fill 0 part garbage)] =
  [String.append (string_of_bytes part) <$> cstr_n (1023 - length part) (drop (length part) garbage)].
Proof.
  intros Hp Hl. cbn [starred]. change (Z.to_nat (BUF_SIZE - 1)) with 1023%nat.
  unfold fill, overwrite. rewrite take_0, drop_0. cbn [app]. by rewrite cstr_n_app.
Qed.

Definition buffer_line (b : list Z) : string * list arg := (" '%.*s'\n", [AI (BUF_SIZE - 1); AB b]).

(** The lines before the wait, and those about a datagram [d] from [ip]:[port]. *)
Definition waiting (v : variant) : list (string * list arg) :=
  ("Waiting for message on port %d...\n", [AI PORT]) :: printed (trace (announce v) []).
Definition heard (v : variant) (uninit : nat -> list Z) (port : Z) (ip d : list Z)
  : list (string * list arg) :=
  let name := sockaddr_in t port ip in
  [(received_from v, from_args v 16 name ++
      [AS (inet_ntop ip); AI port; AI (uint_value t ip); AI (sin_port t name)]);
   buffer_line (fill 0 (take 1023 d) (uninit 0%nat));
   buffer_line (fill 0 (drop 1023 d) (uninit 1%nat))].

(** What [recvmsg] answers for it. *)
Definition received_ans (port : Z) (ip d : list Z) : ans :=
  Ans (Z.of_nat (length d)) 0 (sockaddr_in t port ip :: scatter [1023; 1023] d).

Lemma length_sockaddr port ip : length ip = 4%nat -> length (sockaddr_in t port ip) = 16%nat.
Proof.
  intros Hi. unfold sockaddr_in. rewrite !length_app, length_int_bytes, length_replicate. cbn. lia.
Qed.

Lemma run_print_message v uninit sa port ip d sc :
  known t v -> (length d <= 2046)%nat -> 0 <= port < 65536 -> length ip = 4%nat -> length sa = 16%nat ->
  exists tr,
    run (print_message t v uninit sa (sockaddr_in t port ip) (scatter [1023; 1023] d)) sc =
      (tr, Done tt, sc) /\
    printed tr = heard v uninit port ip d.
Proof.
  intros Hv Hl Hp Hi Hs. pose proof (length_sockaddr port ip Hi) as Hn.
  assert (Hfill : fill 0 (sockaddr_in t port ip) sa = sockaddr_in t port ip).
  { unfold fill, overwrite. rewrite take_0, drop_0. cbn [app].
    rewrite drop_ge; [by rewrite app_nil_r|by rewrite Hn, Hs]. }
  unfold heard, print_message. rewrite Hfill, Hn, sin_port_sockaddr, sin_addr_sockaddr by done.
  cbn [scatter]. rewrite (take_ge (drop _ d)) by (rewrite length_drop; lia).
  destruct Hv; by eexists.
Qed.
End Print.

(** C40: when a datagram [d] of at most 2046 bytes comes from [ip]:[port], both
    programs print exactly the line about the port (recvmsg-flush.c then the
    addresses of the header's fields), that address in dotted notation and that
    port, and a line for each buffer: the bytes of the datagram that fell in it
    followed by whatever the stack held behind them, up to the first NUL; the
    length [recvmsg] returned plays no part. *)
Theorem receive_message_prints t v uninit sa fd d port ip :
  known t v -> text_bytes d -> (length d <= 2046)%nat ->
  0 <= port < 65536 -> length ip = 4%nat -> length sa = 16%nat ->
  let d0 := take 1023 d in let d1 := drop 1023 d in
  let '(tr, r, sc) := run (receive_message t v uninit sa fd) [received_ans t port ip d; ret_ans 0] in
  r = Done 0 /\ sc = [] /\ printed tr = waiting v ++ heard t v uninit port ip d /\
  starred (buffer_line (fill 0 d0 (uninit 0%nat))).2 =
    [String.append (string_of_bytes d0) <$> cstr_n (1023 - length d0) (drop (length d0) (uninit 0%nat))] /\
  starred (buffer_line (fill 0 d1 (uninit 1%nat))).2 =
    [String.append (string_of_bytes d1) <$> cstr_n (1023 - length d1) (drop (length d1) (uninit 1%nat))].
Proof.
  intros Hv Hd Hl Hp Hi Hs d0 d1.
  destruct (run_print_message t v uninit sa port ip d [ret_ans 0] Hv Hl Hp Hi Hs) as (trm & E & Hpr).
  assert (Hr : exists front, printed front = waiting v /\
      run (receive_message t v uninit sa fd) [received_ans t port ip d; ret_ans 0] =
      (front ++ trm ++ [ECall (Close fd) (ret_ans 0)], Done 0, [])).
  { destruct Hv; unfold receive_message, received_ans; cbn -[print_message scatter sockaddr_in];
      (destruct (Z.ltb_spec (Z.of_nat (length d)) 0); [lia|]); rewrite run_bind;
      unfold out_obj; cbn -[print_message scatter sockaddr_in];
      rewrite drop_0, E; [eexists [_; _]|eexists [_; _; _; _]]; (split; [|reflexivity]; done). }
  destruct Hr as (front & Hfr & ->). split; [done|]. split; [done|].
  split; [by rewrite !printed_app, Hpr, Hfr, app_nil_r|].
  unfold buffer_line, d0, d1. cbn [snd].
  split; apply starred_buffer; first
    [by apply Forall_take|by apply Forall_drop|rewrite length_take; lia|rewrite length_drop; lia].
Qed.

Lemma receive_message_prints_witness :
  let uninit i := if decide (i = 0)%nat then c_array "an old secret" ++ replicate 1010 0 else replicate 1024 0 in
  let '(tr, r, sc) := run (receive_message x86_64 RecvmsgC.the_variant uninit (replicate 16 0) 3)
        [received_ans x86_64 PORT [127; 0; 0; 1] (bytes "hi"); ret_ans 0] in
  r = Done 0 /\
  printed tr =
    [("Waiting for message on port %d...\n", [AI PORT]);
     (received_from RecvmsgC.the_variant,
        [AI 16; AB (sockaddr_in x86_64 PORT [127; 0; 0; 1]); AS "127.0.0.1"; AI PORT; AI 16777343; AI 14640]);
     buffer_line (bytes "hi old secret" ++ replicate 1011 0);
     buffer_line (replicate 1024 0)].
Proof.
  pose proof (receive_message_prints x86_64 RecvmsgC.the_variant
    (fun i => if decide (i = 0)%nat then c_array "an old secret" ++ replicate 1010 0 else replicate 1024 0)
    (replicate 16 0) 3 (bytes "hi") PORT [127; 0; 0; 1]
    (known_plain _) ltac:(by repeat constructor) ltac:(cbn; lia) ltac:(by unfold PORT) eq_refl eq_refl) as H.
  cbv zeta in H |- *. destruct (run _ _) as [[tr r] sc]. destruct H as (-> & _ & -> & _).
  split; [done|]. by vm_compute.
Defined.

(** * The receiver and the sender over all interleavings *)

(** A kernel with datagram sockets: [inbox] holds what waits to be received on
    the bound descriptor [fd], [dgram] says which descriptors are open datagram
    sockets.  A datagram sent may be lost: what is sure is that only one sent on
    such a socket to the port of the loopback address comes in, and whole.  The
    receiver's own calls do not fail. *)
Class UdpLaws {K} (t : target) (kn : kernel K) (inbox : K -> list (list Z)) (dgram : K -> Z -> Prop)
    (fd : Z) : Prop := {
  udp_socket κ i a κ' :
    kcall kn κ i (Socket AF_INET SOCK_DGRAM) = Some (a, κ') ->
    a_ret a = -1 \/ ~ dgram κ (a_ret a) /\ dgram κ' (a_ret a);
  udp_loopback κ i a κ' :
    kcall kn κ i (InetPton "127.0.0.1") = Some (a, κ') -> out_obj a 0 = [127; 0; 0; 1];
  udp_send κ i f name iov a κ' :
    kcall kn κ i (Sendmsg f name iov) = Some (a, κ') ->
    inbox κ' = inbox κ \/
    inbox κ' = inbox κ ++ [concat iov] /\ dgram κ f /\ name = sockaddr_in t PORT [127; 0; 0; 1] /\
      a_ret a = Z.of_nat (length (concat iov));
  udp_recv κ i lens a κ' :
    kcall kn κ i (Recvmsg fd lens) = Some (a, κ') ->
    exists x, inbox κ = x :: inbox κ' /\
      (Z.of_nat (length x) <= room lens ->
       exists port ip, 0 <= port < 65536 /\ length ip = 4%nat /\
         a = Ans (Z.of_nat (length x)) 0 (sockaddr_in t port ip :: scatter lens x));
  udp_other κ i c a κ' :
    kcall kn κ i c = Some (a, κ') -> c <> Close fd ->
    match c with Sendmsg _ _ _ | Recvmsg _ _ => False | _ => True end -> inbox κ' = inbox κ;
  udp_open κ i c a κ' f :
    kcall kn κ i c = Some (a, κ') -> c <> Close f -> dgram κ f -> dgram κ' f;
  udp_total κ i c :
    match c with
    | Socket _ _ | InetPton _ | Sendmsg _ _ _ | Close _ => True
    | Recvmsg f _ => f = fd /\ inbox κ <> []
    | _ => False
    end -> is_Some (kcall kn κ i c)
}.

(** What is sent, and where. *)
Definition message : list Z := bytes msg_text ++ bytes msg_text2.
Definition parts : list (list Z) := [bytes msg_text; bytes msg_text2].
Definition loopback (t : target) : list Z := sockaddr_in t PORT [127; 0; 0; 1].
Definition recv_lens : list Z := [BUF_SIZE - 1; BUF_SIZE - 1].

(** How far a thread is: whether it has received (sent) the message, what it has
    printed, and the socket it opened. *)
Record progress := Progress {
  moved : bool; lines : list (string * list arg); sock : option Z }.

Section Delivery.
Context (t : target) (v : variant) (uninit : nat -> list Z) (sa : list Z) (fd : Z).
Context {K : Type} (kn : kernel K) (inbox : K -> list (list Z)) (dgram : K -> Z -> Prop).

Definition system (κ : K) : conf K Z :=
  Conf κ [receive_message t v uninit sa fd; sender_thread t v] [].

Definition udp_step (_ : nat) (g : progress) (e : ev) : progress :=
  match e with
  | EOut (OPrintf f l) => Progress (moved g) (lines g ++ [(f, l)]) (sock g)
  | ECall (Sendmsg _ _ _) _ | ECall (Recvmsg _ _) _ => Progress true (lines g) (sock g)
  | ECall (Socket _ _) a => Progress (moved g) (lines g) (Some (a_ret a))
  | _ => g
  end.

(** The calls a thread may make, and when: the sender's socket is opened first,
    the message goes out on it once and to the loopback address, and only then is
    it closed; the receiver receives once, then closes its socket. *)
Definition udp_ok (i : nat) (g : progress) (e : ev) : Prop :=
  match e with
  | EOut _ => True
  | ECall (Socket d ty) _ => i = 1%nat /\ moved g = false /\ sock g = None /\ d = AF_INET /\ ty = SOCK_DGRAM
  | ECall (InetPton _) _ => i = 1%nat
  | ECall (Sendmsg f name iov) _ =>
      i = 1%nat /\ moved g = false /\ sock g = Some f /\ name = loopback t /\ iov = parts
  | ECall (Recvmsg f lens) _ =>
      i = 0%nat /\ moved g = false /\ f = fd /\ lens = recv_lens /\ lines g = waiting v
  | ECall (Close f) _ => moved g = true /\ (i = 0%nat /\ f = fd \/ i = 1%nat /\ sock g = Some f)
  | _ => False
  end.
Definition udp_sat (c : call) (a : ans) : Prop :=
  match c with
  | Recvmsg f lens =>
      f = fd -> lens = recv_lens ->
      exists port ip, 0 <= port < 65536 /\ length ip = 4%nat /\ a = received_ans t port ip message
  | InetPton text => text = "127.0.0.1" -> out_obj a 0 = [127; 0; 0; 1]
  | _ => True
  end.

(** All that the receiver of the message prints. *)
Definition delivered (l : list (string * list arg)) : Prop :=
  exists port ip, l = waiting v ++ heard t v uninit port ip message.

Definition udp_post (i : nat) (g : progress) (_ : Z) : Prop :=
  moved g = true /\ (i = 0%nat -> delivered (lines g)).

Definition udp_follows : nat -> prog Z -> progress -> Prop :=
  follows udp_step udp_ok udp_sat udp_post (fun _ _ _ => False).

Lemma receiver_follows :
  known t v -> length sa = 16%nat ->
  udp_follows 0 (receive_message t v uninit sa fd) (Progress false [] None).
Proof using Type.
  intros Hv Hs.
  assert (Hwp : forall port ip g, 0 <= port < 65536 -> length ip = 4%nat -> moved g = true ->
    lines g = waiting v -> udp_follows 0
      (print_message t v uninit sa (sockaddr_in t port ip) (scatter [1023; 1023] message) ;;;
       sys (Close fd) ;;; Ret 0) g).
  { intros port ip g Hp Hi Hg Hw.
    destruct (run_print_message t v uninit sa port ip message [] Hv ltac:(cbn; lia) Hp Hi Hs) as (tr & E & Hpr).
    unfold udp_follows, follows. unfold print_message in *.
    change (for_ 0 NUMBUFS tt) with (fun f => for_n (S := unit) 2 0 tt f) in *.
    destruct (known_cases _ _ Hv) as [Ev|[addr Ev]]; rewrite Ev in E |- *;
      cbn -[message fill BUF_SIZE sockaddr_in scatter heard] in *;
      repeat match goal with |- _ /\ _ => split; [exact I|] end;
      intros a _; (split; [by auto|]); (split; [done|]); intros _; exists port, ip;
      injection E as <-; cbn -[message fill BUF_SIZE sockaddr_in scatter heard] in *;
      by rewrite <- Hpr, Hw, <- !app_assoc. }
  assert (Ha : forall a, udp_sat (Recvmsg fd recv_lens) a ->
    udp_follows 0
      (if a_ret a <? 0 then perror "recvmsg" ;;; sys (Close fd) ;;; Ret 0
       else print_message t v uninit sa (out_obj a 0) (drop 1 (a_out a)) ;;; sys (Close fd) ;;; Ret 0)
      (Progress true (waiting v) None)).
  { intros a Ha. destruct (Ha eq_refl eq_refl) as (port & ip & Hp & Hi & ->).
    change (a_ret _ <? 0) with (Z.of_nat (length message) <? 0).
    change (Z.of_nat (length message) <? 0) with false. by apply Hwp. }
  unfold receive_message, udp_follows, follows in *.
  destruct (known_cases _ _ Hv) as [Ev|[addr Ev]]; unfold waiting in Ha; rewrite Ev in Ha |- *;
    cbn -[print_message] in Ha |- *;
    repeat match goal with |- _ /\ _ => split; [exact I|] end;
    intros a Hsat; (split; [unfold waiting; by rewrite Ev|]); by apply Ha.
Qed.

Lemma sender_follows :
  known t v -> udp_follows 1 (sender_thread t v) (Progress false [] None).
Proof using Type.
  intros Hv. unfold sender_thread, udp_follows, follows.
  destruct (known_cases _ _ Hv) as [Ev|[addr Ev]]; rewrite Ev; cbn -[bytes sockaddr_in overwrite];
    intros a _; (split; [done|]); intros ip Hip; (split; [done|]);
    rewrite (Hip eq_refl); change (overwrite _ _) with [127; 0; 0; 1];
    repeat match goal with |- True /\ _ => split; [exact I|] end;
    intros b _; (split; [done|]); intros d _; (split; [by auto|done]).
Qed.

(** The message is lost: a step of the sender sends it, on its socket, and
    nothing comes in. *)
Definition lossy_step (c c' : conf K Z) : Prop :=
  exists f k a, procs c !! 1%nat = Some (Vis (Sendmsg f (loopback t) parts) k) /\
    (f = -1 \/ f <> fd /\ dgram (kstate c) f) /\
    kcall kn (kstate c) 1 (Sendmsg f (loopback t) parts) = Some (a, kstate c') /\
    procs c' = <[1%nat:=k a]> (procs c) /\ inbox (kstate c') = inbox (kstate c).
Definition lost (s c : conf K Z) : Prop :=
  exists c1 c2, reachable kn s c1 /\ lossy_step c1 c2 /\ reachable kn c2 c.

(** [L]: the message was lost. *)
Definition udp_inv (L : Prop) (κ : K) (gs : nat -> progress) (l : list (nat * out)) : Prop :=
  (forall i, printed_by i l = lines (gs i)) /\
  (moved (gs 0%nat) = true -> moved (gs 1%nat) = true) /\
  (moved (gs 0%nat) = false -> dgram κ fd /\
     (inbox κ = (if moved (gs 1%nat) then [message] else []) \/ L /\ inbox κ = [])) /\
  (forall f, sock (gs 1%nat) = Some f -> f <> fd /\
     (moved (gs 1%nat) = false -> f = -1 \/ dgram κ f)).

Lemma udp_inv_mono (L L' : Prop) κ gs l : (L -> L') -> udp_inv L κ gs l -> udp_inv L' κ gs l.
Proof using Type.
  intros HL (Hp & Hm & H0 & H1). split; [done|]. split; [done|]. split; [|done].
  intros Hg. destruct (H0 Hg) as [Hd [Hi|[Hl Hi]]]; auto.
Qed.

Lemma udp_inv_emit L κ gs l i o :
  udp_inv L κ gs l -> udp_inv L κ (<[i:=udp_step i (gs i) (EOut o)]> gs) (l ++ [(i, o)]).
Proof using Type.
  intros (Hp & Hi).
  assert (Hm : forall j, moved (<[i:=udp_step i (gs i) (EOut o)]> gs j) = moved (gs j)).
  { intros j. destruct (decide (i = j)) as [->|];
      [rewrite fn_lookup_insert; by destruct o|by rewrite fn_lookup_insert_ne]. }
  assert (Hs : forall j, sock (<[i:=udp_step i (gs i) (EOut o)]> gs j) = sock (gs j)).
  { intros j. destruct (decide (i = j)) as [->|];
      [rewrite fn_lookup_insert; by destruct o|by rewrite fn_lookup_insert_ne]. }
  unfold udp_inv. rewrite !Hm, !Hs. split; [|done]. intros j. rewrite printed_by_app, Hp.
  destruct (decide (i = j)) as [->|Hne].
  - rewrite fn_lookup_insert. destruct o; cbn; rewrite ?decide_True by done; by rewrite ?app_nil_r.
  - rewrite fn_lookup_insert_ne by done. cbn. by rewrite decide_False, app_nil_r.
Qed.

Context `{!UdpLaws t kn inbox dgram fd} (Hfd : 0 <= fd).

Definition loses (κ : K) (i : nat) (c : call) (κ' : K) : Prop :=
  exists f, i = 1%nat /\ c = Sendmsg f (loopback t) parts /\ (f = -1 \/ f <> fd /\ dgram κ f) /\
    inbox κ' = inbox κ.

(** The call of a thread that keeps its monitor's state and the inbox. *)
Lemma udp_inv_quiet L κ κ' gs l i :
  udp_inv L κ gs l -> (moved (gs 0%nat) = false -> dgram κ' fd /\ inbox κ' = inbox κ) ->
  (forall f, sock (gs 1%nat) = Some f -> moved (gs 1%nat) = false -> dgram κ f -> dgram κ' f) ->
  udp_inv L κ' (<[i:=gs i]> gs) l.
Proof using Type.
  intros (Hp & Hm & H0 & H1) Hk Hs. unfold udp_inv.
  assert (E : forall j, <[i:=gs i]> gs j = gs j).
  { intros j. destruct (decide (i = j)) as [->|]; [apply fn_lookup_insert|by apply fn_lookup_insert_ne]. }
  rewrite !E. split; [intros j; by rewrite E|]. split; [done|]. split.
  - intros Hg. destruct (Hk Hg) as [Hd ->]. split; [done|]. by apply H0.
  - intros f Hf. destruct (H1 f Hf) as [Hne Hd]. split; [done|]. intros Hg.
    destruct (Hd Hg); eauto.
Qed.

Lemma udp_inv_call L κ gs l i c a κ' :
  udp_inv L κ gs l -> kcall kn κ i c = Some (a, κ') -> udp_ok i (gs i) (ECall c a) ->
  udp_inv (L \/ loses κ i c κ') κ' (<[i:=udp_step i (gs i) (ECall c a)]> gs) l.
Proof using UdpLaws0 Hfd.
  intros HI Hk Hok. destruct HI as (Hp & Hm & H0 & H1) eqn:EI. clear EI.
  destruct c; try done; cbn in Hok.
  - (* Close *)
    destruct Hok as [Hg Hor]. cbn. eapply udp_inv_mono; [by left|]. eapply udp_inv_quiet; [exact HI| |].
    + intros Hg0. destruct Hor as [[-> ->]|[-> Hs]]; [by rewrite Hg in Hg0|].
      destruct (H1 _ Hs) as [Hne _]. split.
      * eapply udp_open; [exact Hk|congruence|by apply H0].
      * eapply udp_other; [exact Hk|congruence|done].
    + intros f Hs Hg1 Hd. destruct Hor as [[-> ->]|[-> Hs']]; [by rewrite Hm in Hg1|congruence].
  - (* Socket *)
    destruct Hok as (-> & Hg & Hs & -> & ->). cbn.
    assert (Hg0 : moved (gs 0%nat) = false)
      by (destruct (moved (gs 0%nat)); [by rewrite Hm in Hg|done]).
    destruct (H0 Hg0) as [Hd Hin].
    assert (Hd' : dgram κ' fd) by by eapply udp_open.
    assert (Hi : inbox κ' = inbox κ) by by eapply udp_other.
    unfold udp_inv. rewrite !fn_lookup_insert, !fn_lookup_insert_ne by done. cbn.
    split; [|split; [by rewrite Hg0|split]].
    + intros j. destruct (decide (j = 1)%nat) as [->|];
        [rewrite fn_lookup_insert; cbn; by rewrite Hp|by rewrite fn_lookup_insert_ne].
    + intros _. rewrite Hi. split; [done|]. destruct Hin as [?|[? ?]]; auto.
    + intros f [= <-]. apply udp_socket in Hk as [->|[Hn Ho]]; [split; [lia|auto]|].
      split; [congruence|auto].
  - (* InetPton *)
    cbn. eapply udp_inv_mono; [by left|]. eapply udp_inv_quiet; [exact HI| |].
    + intros Hg. split; [eapply udp_open; [exact Hk|done|by apply H0]|by eapply udp_other].
    + intros f _ _. by eapply udp_open.
  - (* Sendmsg *)
    destruct Hok as (-> & Hg & Hs & -> & ->). cbn. destruct (H1 _ Hs) as [Hne Hor].
    unfold udp_inv. rewrite !fn_lookup_insert, !fn_lookup_insert_ne by done. cbn.
    split; [|split; [done|split]].
    + intros j. destruct (decide (j = 1)%nat) as [->|];
        [rewrite fn_lookup_insert; cbn; by rewrite Hp|by rewrite fn_lookup_insert_ne].
    + intros Hg0. destruct (H0 Hg0) as [Hd Hin]. split; [by eapply udp_open|].
      assert (Hin0 : inbox κ = []) by (rewrite Hg in Hin; tauto).
      destruct (udp_send _ _ _ _ _ _ _ Hk) as [Hi|[Hi _]]; [|left; by rewrite Hi, Hin0].
      right. split; [|by rewrite Hi]. right. eexists. split; [done|]. split; [done|].
      split; [|done]. destruct (Hor Hg); auto.
    + intros f Hf. rewrite Hs in Hf. injection Hf as <-. done.
  - (* Recvmsg *)
    destruct Hok as (-> & Hg & -> & -> & _). cbn. destruct (H0 Hg) as [Hd Hin].
    unfold udp_inv. rewrite !fn_lookup_insert, !fn_lookup_insert_ne by done. cbn.
    apply udp_recv in Hk as (x & Hx & _).
    assert (Hg1 : moved (gs 1%nat) = true).
    { rewrite Hx in Hin. destruct (moved (gs 1%nat)); [done|]. by destruct Hin as [?|[_ ?]]. }
    split; [|split; [done|split; [done|]]].
    + intros j. destruct (decide (j = 0)%nat) as [->|];
        [rewrite fn_lookup_insert; cbn; by rewrite Hp|by rewrite fn_lookup_insert_ne].
    + intros f Hf. rewrite Hg1. split; [|done]. by apply H1.
Qed.

Lemma udp_inv_sat L κ gs l i c a a0 κ' :
  udp_inv L κ gs l -> kcall kn κ i c = Some (a, κ') -> udp_ok i (gs i) (ECall c a0) -> udp_sat c a.
Proof using UdpLaws0.
  intros (_ & _ & H0 & _) Hk Hok. destruct c; try done.
  - intros ->. by eapply udp_loopback.
  - intros -> ->. destruct Hok as (-> & Hg & _). destruct (H0 Hg) as [_ Hin].
    apply udp_recv in Hk as (x & Hx & Hans). rewrite Hx in Hin.
    destruct Hin as [Hin|[_ ?]]; [|done]. destruct (moved (gs 1%nat)); [|done].
    injection Hin as -> _. destruct Hans as (port & ip & ? & ? & ->); [by vm_compute|].
    by exists port, ip.
Qed.

(** An answer that satisfies what the code relies on. *)
Lemma udp_sat_inhabited c : exists a, udp_sat c a.
Proof using Type.
  destruct c; try by exists (ret_ans 0).
  - by exists (Ans 1 0 [[127; 0; 0; 1]]).
  - exists (received_ans t 0 [0; 0; 0; 0] message). intros _ _. by exists 0, [0; 0; 0; 0].
Qed.

Definition udp_tracked (L : Prop) : conf K Z -> (nat -> progress) -> Prop :=
  tracked udp_step udp_ok udp_sat udp_post (fun _ _ _ => False) (udp_inv L).

Lemma udp_tracked_step L c c' gs :
  udp_tracked L c gs -> pstep kn c c' -> exists gs', udp_tracked (L \/ lossy_step c c') c' gs'.
Proof using UdpLaws0 Hfd.
  intros [Hf HI] Hs. destruct Hs as [κ ps l i o p Hp|κ ps l i cl k a κ' Hp Hk]; cbn in *.
  - destruct (Hf i _ Hp) as [Hok Hw]. eexists. split; cbn.
    + by apply follows_insert.
    + apply udp_inv_emit. eapply udp_inv_mono; [|exact HI]. by left.
  - destruct (udp_sat_inhabited cl) as [a0 Ha0]. destruct (Hf i _ Hp a0 Ha0) as [Hok0 _].
    destruct (Hf i _ Hp a) as [Hok Hw]; [by eapply udp_inv_sat|]. eexists. split; cbn.
    + by apply follows_insert.
    + eapply udp_inv_mono; [|by eapply udp_inv_call].
      intros [HL|(f & -> & -> & Hf' & Hi)]; [by left|]. right. by exists f, k, a.
Qed.

Lemma udp_reachable s c gs :
  udp_tracked False s gs -> reachable kn s c -> exists gs', udp_tracked (lost s c) c gs'.
Proof using UdpLaws0 Hfd.
  intros Ht Hr. revert c Hr. apply rtc_ind_r; [|intros c c' Hr Hs [gs' Ht']].
  - exists gs. destruct Ht as [Hf HI]. split; [done|]. by eapply udp_inv_mono; [|exact HI].
  - destruct (udp_tracked_step _ _ _ _ Ht' Hs) as (gs2 & Hf & HI). exists gs2. split; [done|].
    eapply udp_inv_mono; [|exact HI]. intros [(c1 & c2 & H1 & H2 & H3)|Hl].
    + exists c1, c2. split; [done|]. split; [done|]. by eapply rtc_r.
    + exists c, c'. split; [done|]. by split.
Qed.

(** A process that cannot step has returned, unless it waits for the message. *)
Lemma udp_stuck L (c : conf K Z) gs i p :
  (forall c', ~ pstep kn c c') -> udp_tracked L c gs -> procs c !! i = Some p ->
  (exists z, p = Ret z /\ udp_post i (gs i) z) \/
  (i = 0%nat /\ exists k, p = Vis (Recvmsg fd recv_lens) k /\ moved (gs 0%nat) = false /\
     lines (gs 0%nat) = waiting v /\ inbox (kstate c) = []).
Proof using UdpLaws0.
  intros Hs [Hf _] Hp. specialize (Hf _ _ Hp). destruct c as [κ ps l]. cbn in *.
  destruct p as [z|h|o p|cl k].
  - left. by exists z.
  - done.
  - destruct (Hs _ (pstep_emit kn κ ps l i o p Hp)).
  - destruct (udp_sat_inhabited cl) as [a Ha]. destruct (Hf a Ha) as [Hok _].
    assert (Hn : ~ is_Some (kcall kn κ i cl)).
    { intros [[a' κ'] Hk]. by apply (Hs _ (pstep_call kn κ ps l i cl k a' κ' Hp Hk)). }
    destruct cl; try done; try (destruct Hn; by apply udp_total).
    right. destruct Hok as (-> & Hg & -> & -> & Hl). split; [done|]. exists k.
    split; [done|]. split; [done|]. split; [done|].
    destruct (decide (inbox κ = [])); [done|]. destruct Hn. by apply udp_total.
Qed.
End Delivery.

(** C4: the receiver's socket is bound and nothing has come to it.  Every
    schedule of the receiver and the sender of either program ends.  Whenever
    neither can step the sender has returned, and either the receiver has too and
    has printed, from its first line to its last, where it waits, who sent the
    message, the first buffer, which begins with the two parts as one text, and
    the second, which nothing came into; or the receiver
    still waits in recvmsg, having printed only where, and the message was lost on
    the way: at some step of this very run the sender sent its two parts to the
    loopback address and the port, on the socket it had opened (or -1, when there
    was none), and nothing came in. *)
Theorem recvmsg_delivers {K} t v uninit sa fd (kn : kernel K) inbox dgram κ :
  known t v -> length sa = 16%nat -> UdpLaws t kn inbox dgram fd -> 0 <= fd ->
  inbox κ = [] -> dgram κ fd ->
  let s := system t v uninit sa fd κ in
  Acc (flip (pstep kn)) s /\
  forall c, reachable kn s c -> (forall c', ~ pstep kn c c') ->
    exists z1,
      (exists z0, procs c = [Ret z0; Ret z1] /\ delivered t v uninit (printed_by 0 (log c))) \/
      (exists k, procs c = [Vis (Recvmsg fd recv_lens) k; Ret z1] /\
         printed_by 0 (log c) = waiting v /\ lost t fd kn inbox dgram s c).
Proof.
  intros Hv Hsa HL Hfd Hi Hd s. split; [apply pstep_acc|]. intros c Hr Hs.
  assert (Ht : udp_tracked t v uninit fd inbox dgram False s (fun _ => Progress false [] None)).
  { split; [|by repeat split; auto].
    intros [|[|i]] p; cbn; [| |done]; intros [= <-]; [by apply receiver_follows|by apply sender_follows]. }
  destruct (udp_reachable t v uninit fd kn inbox dgram Hfd s c _ Ht Hr) as [gs Htc].
  pose proof (reachable_length _ _ _ Hr) as Hlen.
  destruct (procs c) as [|p [|q [|]]] eqn:E; try discriminate Hlen.
  destruct (udp_stuck t v uninit fd kn inbox dgram _ c gs 1 q Hs Htc) as [(z1 & -> & Hq)|[? _]];
    [by rewrite E| |done].
  pose proof Htc as [_ (Hp & _ & H0 & _)]. exists z1.
  destruct (udp_stuck t v uninit fd kn inbox dgram _ c gs 0 p Hs Htc)
    as [(z0 & -> & Hq0)|(_ & k & -> & Hg & Hw & He)]; [by rewrite E|left|right].
  - exists z0. split; [done|]. rewrite Hp. by apply Hq0.
  - exists k. split; [done|]. rewrite Hp. split; [done|].
    destruct (H0 Hg) as [_ [Hin|[Hl _]]]; [|exact Hl]. by rewrite (proj1 Hq), He in Hin.
Qed.

(** A network in one machine: the datagrams that wait at descriptor 3, room for
    [space] of them, and the open sockets.  What finds no room is lost. *)
Record net := Net { box : list (list Z); space : nat; open_socks : list Z }.

Definition net_kernel : kernel net :=
  Kernel (fun n _ c =>
    match c with
    | Socket _ _ =>
        let f := foldr Z.max 0 (open_socks n) + 1 in
        Some (ret_ans f, Net (box n) (space n) (f :: open_socks n))
    | InetPton _ => Some (Ans 1 0 [[127; 0; 0; 1]], n)
    | Sendmsg f name iov =>
        if decide (f ∈ open_socks n /\ name = loopback x86_64) then
          let len := ret_ans (Z.of_nat (length (concat iov))) in
          if decide (length (box n) < space n)%nat
          then Some (len, Net (box n ++ [concat iov]) (space n) (open_socks n))
          else Some (len, n)
        else Some (ret_ans (-1), n)
    | Recvmsg _ lens =>
        match box n with
        | [] => None
        | x :: q =>
            Some (Ans (Z.of_nat (length x)) 0 (sockaddr_in x86_64 40000 [127; 0; 0; 1] :: scatter lens x),
                  Net q (space n) (open_socks n))
        end
    | Close f => Some (ret_ans 0, Net (box n) (space n) (filter (fun g => g <> f) (open_socks n)))
    | _ => Some (ret_ans 0, n)
    end).
Definition net_dgram (n : net) (f : Z) : Prop := f ∈ open_socks n.

Lemma max_above l f : f ∈ l -> f < foldr Z.max 0 l + 1.
Proof. induction l as [|g l IH]; [by intros ?%elem_of_nil|]. intros [->|H]%elem_of_cons; cbn; [|apply IH in H]; lia. Qed.

#[export] Instance net_kernel_laws : UdpLaws x86_64 net_kernel box net_dgram 3.
Proof.
  split; cbn; unfold net_dgram.
  - intros n _ a n' [= <- <-]. right. cbn. split; [|by left].
    intros H%max_above. lia.
  - by intros n _ a n' [= <- <-].
  - intros n _ f name iov a n'. case_decide as Hd; [|intros [= <- <-]; by left].
    case_decide; intros [= <- <-]; [right|by left]. destruct Hd as [? ->]. done.
  - intros n _ lens a n'. destruct (box n) as [|x q]; [done|]. intros [= <- <-].
    exists x. split; [done|]. intros _. by exists 40000, [127; 0; 0; 1].
  - intros n _ c a n' E _ Hc. destruct c; try done; by injection E as _ <-.
  - intros n _ c a n' f E Hc Hf.
    destruct c; cbn in E; try (by injection E as _ <-); repeat case_match; simplify_eq; cbn; try done.
    + apply list_elem_of_filter. split; [congruence|done].
    + by right.
  - intros n _ c Hc. destruct c; try done; repeat case_match; try done; try by eexists. by destruct Hc.
Qed.

(** The receiver waits first, then the sender runs to its end; the receiver goes
    on if it can. *)
Definition zeroed (_ : nat) : list Z := replicate 1024 0.
Definition udp_start (space : nat) : conf net Z :=
  system x86_64 RecvmsgC.the_variant zeroed (replicate 16 0) 3 (Net [] space [0; 1; 2; 3]).
Definition udp_run (space : nat) (turns : nat) : option (conf net Z) :=
  sched net_kernel (udp_start space) ([0%nat] ++ replicate 7 1%nat ++ replicate turns 0%nat).

Lemma recvmsg_delivers_witness :
  (exists c, udp_run 1 5 = Some c /\ procs c = [Ret 0; Ret 0] /\
     delivered x86_64 RecvmsgC.the_variant zeroed (printed_by 0 (log c))) /\
  (exists c, udp_run 0 0 = Some c /\
     lost x86_64 3 net_kernel box net_dgram (udp_start 0) c).
Proof.
  assert (Hend : forall n m c, udp_run n m = Some c ->
    (fun c => (sched_step net_kernel c 0, sched_step net_kernel c 1)) <$> udp_run n m = Some (None, None) ->
    exists z1,
      (exists z0, procs c = [Ret z0; Ret z1] /\
         delivered x86_64 RecvmsgC.the_variant zeroed (printed_by 0 (log c))) \/
      (exists k, procs c = [Vis (Recvmsg 3 recv_lens) k; Ret z1] /\
         printed_by 0 (log c) = waiting RecvmsgC.the_variant /\
         lost x86_64 3 net_kernel box net_dgram (udp_start n) c)).
  { intros n m c E H.
    assert (Hr : reachable net_kernel (udp_start n) c) by (by eapply sched_reachable).
    destruct (recvmsg_delivers x86_64 RecvmsgC.the_variant zeroed (replicate 16 0) 3 net_kernel box net_dgram
      (Net [] n [0; 1; 2; 3]) (known_plain _) eq_refl net_kernel_laws ltac:(lia) eq_refl
      ltac:(unfold net_dgram; set_solver)) as [_ Hc].
    apply (Hc c Hr), stuck_sched. intros i Hi. rewrite (reachable_length _ _ _ Hr) in Hi. cbn in Hi.
    rewrite E in H. injection H as H0 H1. destruct i as [|[|i]]; [done|done|lia]. }
  split.
  - destruct (udp_run 1 5) as [c|] eqn:E; [|by vm_compute in E]. exists c. split; [done|].
    assert (Hp : procs <$> udp_run 1 5 = Some [Ret 0; Ret 0]) by by vm_compute.
    rewrite E in Hp. injection Hp as Hp. split; [done|].
    destruct (Hend 1%nat 5%nat c E) as (z1 & [(z0 & _ & Hd)|(k & Hk & _)]);
      [by vm_compute|done|]. by rewrite Hp in Hk.
  - destruct (udp_run 0 0) as [c|] eqn:E; [|by vm_compute in E]. exists c. split; [done|].
    assert (Hi : (fun c => length (printed_by 0 (log c))) <$> udp_run 0 0 = Some 1%nat) by by vm_compute.
    rewrite E in Hi. injection Hi as Hi.
    destruct (Hend 0%nat 0%nat c E) as (z1 & [(z0 & _ & port & ip & Hd)|(k & _ & _ & Hl)]);
      [by vm_compute| |done]. by rewrite Hd in Hi.
Defined.
