(* ===== verification/Files.v ===== *)
(** The programs that open and name files: hellofile.c, fakeafile.c,
    devmemmadness.c and stat.c. *)

From stdpp Require Export gmap.
From S2P Require Export Sched.

Local Open Scope Z_scope.
#[local] Set Warnings "-clear-no-such-hyp".

Definition O_WRONLY : Z := 1.
Definition O_RDWR : Z := 2.
Definition O_CREAT : Z := 64.
Definition O_TRUNC : Z := 512.
Definition O_DIRECTORY : Z := 65536.
Definition S_IWUSR : Z := 128.
Definition S_IRUSR : Z := 256.
Definition MAP_FAILED : Z := -1.
Definition TESTVAL : Z := 0x12345678.

(** * hellofile.c *)
Module HelloFile.

Definition new_filename : string := "/tmp/renamed_tempfile.txt".
Definition filename : string := "testfile.txt".

(** [perror(msg)], what is closed, [exit(EXIT_FAILURE)]. *)
Definition die {A} (msg : string) (cleanup : prog unit) : prog A :=
  perror msg ;;; cleanup ;;; exit 1.
Definition ignore (c : call) : prog unit := sys c ;;; skip.

(** The temporary file: created, written, renamed, written again, deleted. *)
Definition temp_part : prog unit :=
  a <- sys (Mkstemp "/tmp/tempfileXXXXXX") ;;
  let fd := a_ret a in
  if fd =? -1 then die "mkstemp failed" skip else
  let temp_filename := string_of_bytes (out_obj a 0) in
  file <- sysr (Fdopen fd) ;;
  if file =? 0 then die "fdopen failed" (ignore (Close fd)) else
  ignore (Fputs file "hello\n") ;;;
  ignore (Fflush file) ;;;
  r <- sysr (Rename temp_filename new_filename) ;;
  if negb (r =? 0) then die "rename failed" (ignore (Fclose file)) else
  ignore (Fputs file "world\n") ;;;
  ignore (Fflush file) ;;;
  ignore (Fclose file) ;;;
  r <- sysr (Unlink new_filename) ;;
  if negb (r =? 0) then die "unlink failed" skip else
  printf "Temporary file created, modified, renamed, and deleted successfully.\n" [].

(** The file made with [openat]: 28 of the 29 bytes of the text. *)
Definition openat_part : prog unit :=
  dirfd <- sysr (Open "/tmp" O_DIRECTORY 0) ;;
  if dirfd =? -1 then die "open directory" skip else
  fd <- sysr (Openat dirfd filename (Z.lor O_CREAT O_WRONLY) 420) ;;
  if fd =? -1 then die "openat" (ignore (Close dirfd)) else
  ignore (Write fd (take 28 (bytes (unescape "Written to /tmp/testfile.txt\n")))) ;;;
  ignore (Close fd) ;;;
  r <- sysr (Unlinkat dirfd filename) ;;
  if r =? -1 then die "unlinkat" (ignore (Close dirfd)) else
  ignore (Close dirfd).

Definition create_temp_file : prog unit := temp_part ;;; openat_part.

Definition main : prog Z := create_temp_file ;;; Ret 0.

End HelloFile.

(** * fakeafile.c *)
Module FakeAFile.

(** The report about an [open]. *)
Definition report_open (fd : Z) (failed opened : string) : prog unit :=
  if fd =? -1 then emit (OFprintf failed []) ;;; perror "open" else printf opened [AI fd].

(** [region[0] = TESTVAL] writes through the pointer [mmap] returned, even when
    it is [MAP_FAILED]. *)
Definition main : prog Z :=
  emit OSetbuf ;;;
  region <- sysr (Mmap 0x1000 0 0) ;;
  printf "Got a mmap region at %p\n" [AX TPtr region] ;;;
  get (if region =? MAP_FAILED then None else Some tt) ;;;
  fd <- sysr (Open "/qemu/synfiles/fromguest" (Z.lor O_WRONLY (Z.lor O_CREAT O_TRUNC)) S_IWUSR) ;;
  report_open fd "open of fromguest failed\n" "open of fromguest at fd %d\n" ;;;
  sys (Close fd) ;;;
  fd <- sysr (Open "/FAKEME/fakefile" O_RDWR (Z.lor S_IRUSR S_IWUSR)) ;;
  report_open fd "open of FAKEME failed\n" "open of /FAKEME/fakefile at fd %d\n" ;;;
  nbytes <- sysr (Read fd 0x100) ;;
  when (negb (to_int nbytes =? 0x100))
    (printf "read of fakefile failed only got %d bytes\n" [AI (to_int nbytes)]) ;;;
  sys (Lseek fd 0x80 0) ;;;
  nbytes <- sysr (Write fd (c_array "Test string")) ;;
  when (negb (to_int nbytes =? 12))
    (printf "write of fakefile failed only wrote %d bytes\n" [AI (to_int nbytes)]) ;;;
  sys (Close fd) ;;;
  Ret 0.

End FakeAFile.

(** * devmemmadness.c *)
Module DevMem.

Definition MMIO_START : Z := 0x60000000.
Definition MMIO_SIZE : Z := 0x1000.

(** The mapping is private: what is stored in it is read back.  The first
    object [mmap] gives is the word at its start. *)
Definition main : prog Z :=
  fd <- sysr (Open "/dev/mem" O_RDWR 0) ;;
  (if fd =? -1 then emit (OFprintf "open of /dev/mem failed\n" []) ;;; perror "open"
   else printf "open of /dev/mem at fd %d\n" [AI fd]) ;;;
  a <- sys (Mmap MMIO_SIZE fd MMIO_START) ;;
  (if a_ret a =? MAP_FAILED then emit (OFprintf "mmap of /dev/mem failed\n" [])
   else
     printf "mmap of /dev/mem at 0x%p\n" [AX TPtr (a_ret a)] ;;;
     let mmio_region := [out_int a] in
     val1 <- get (mmio_region !! 0%nat) ;;
     mmio_region <- get (store 0 TESTVAL mmio_region) ;;
     val2 <- get (mmio_region !! 0%nat) ;;
     printf "Read as %lx, set to %lx, then read %lx\n" [AX TLong val1; AX TLong TESTVAL; AX TLong val2]) ;;;
  Ret 0.

End DevMem.

(** * stat.c *)
Module StatC.

(** The fields of [struct stat] that are printed. *)
Record stat_info := StatInfo {
  st_dev : Z; st_ino : Z; st_mode : Z; st_nlink : Z;
  st_uid : Z; st_gid : Z; st_rdev : Z;
  st_size : Z; st_blksize : Z; st_blocks : Z;
  st_atime : Z; st_mtime : Z; st_ctime : Z
}.

Definition stat_of (l : list Z) : option stat_info :=
  match l with
  | [dev; ino; mode; nlink; uid; gid; rdev; size; blksize; blocks; atime; mtime; ctime] =>
      Some (StatInfo dev ino mode nlink uid gid rdev size blksize blocks atime mtime ctime)
  | _ => None
  end.

(** The types of the fields: [dev_t] is the 64-bit type that [intmax_t] is; a
    [nlink_t] is a [long] on x86_64 and an [int] elsewhere, a [blksize_t] an [int]
    on aarch64 and a [long] elsewhere. *)
Record field_types := FieldTypes { long_nlink : bool; long_blksize : bool }.
Definition int_or_long (b : bool) (z : Z) : arg := if b then AX TLong z else AI z.

Section Build.
Context (ft : field_types).

(** The four lines, with conversions in decimal or in hexadecimal. *)
Definition print_info (f1 f2 f3 f4 : string) (i : stat_info) : prog unit :=
  printf f1 [AX TMax (st_dev i); AX TLong (st_ino i); AI (st_mode i);
             int_or_long (long_nlink ft) (st_nlink i)] ;;;
  printf f2 [AI (st_uid i); AI (st_gid i); AX TMax (st_rdev i)] ;;;
  printf f3 [AX TLong (st_size i); int_or_long (long_blksize ft) (st_blksize i);
             AX TLong (st_blocks i)] ;;;
  printf f4 [AX TLong (st_atime i); AX TLong (st_mtime i); AX TLong (st_ctime i)].

(** [uninit] is what [info] holds when [stat] fails, which is not tested. *)
Definition main (uninit : stat_info) (argv : list string) : prog Z :=
  filename <- (if argc argv =? 1 then argn argv 0 else argn argv 1) ;;
  a <- sys (Stat filename) ;;
  info <- (if a_ret a =? 0 then get (stat_of (out_obj a 0)) else Ret uninit) ;;
  print_info "%lld %ld %d %d\n" "%d %d %lld\n" "%ld %ld %ld\n" "%ld %ld %ld\n" info ;;;
  print_info "%llx %lx %x %x\n" "%x %x %llx\n" "%lx %lx %lx\n" "%lx %lx %lx\n" info ;;;
  Ret 0.

End Build.
End StatC.

(** * Names in a file system *)

(** The path of a name in a directory. *)
Definition path_in (dir name : string) : string := String.append dir (String.append "/" name).

(** The names that exist, and the directory a descriptor was opened on.  A call
    that fails changes no name. *)
Class NamesLaws {K} (kn : kernel K) (names : K -> gset string) (dir : K -> Z -> option string) : Prop := {
  mkstemp_law κ i template a κ' :
    kcall kn κ i (Mkstemp template) = Some (a, κ') ->
    (a_ret a = -1 /\ names κ' = names κ) \/
    (a_ret a <> -1 /\ exists p, out_obj a 0 = bytes p /\ (p ∉ names κ) /\ names κ' = {[p]} ∪ names κ);
  rename_law κ i old new a κ' :
    kcall kn κ i (Rename old new) = Some (a, κ') ->
    (a_ret a <> 0 /\ names κ' = names κ) \/
    (a_ret a = 0 /\ names κ' = {[new]} ∪ (names κ ∖ {[old]}));
  unlink_law κ i path a κ' :
    kcall kn κ i (Unlink path) = Some (a, κ') ->
    (a_ret a <> 0 /\ names κ' = names κ) \/ (a_ret a = 0 /\ names κ' = names κ ∖ {[path]});
  opendir_law κ i path mode a κ' :
    kcall kn κ i (Open path O_DIRECTORY mode) = Some (a, κ') ->
    names κ' = names κ /\ (a_ret a = -1 \/ dir κ' (a_ret a) = Some path);
  openat_law κ i fd p name flags mode a κ' :
    kcall kn κ i (Openat fd name flags mode) = Some (a, κ') -> dir κ fd = Some p ->
    Z.land flags O_CREAT = O_CREAT ->
    (a_ret a = -1 /\ names κ' = names κ) \/
    (a_ret a <> -1 /\ a_ret a <> fd /\ dir κ' fd = Some p /\
     names κ' = {[ path_in p name ]} ∪ names κ);
  unlinkat_law κ i fd p name a κ' :
    kcall kn κ i (Unlinkat fd name) = Some (a, κ') -> dir κ fd = Some p ->
    (a_ret a = -1 /\ names κ' = names κ) \/
    (a_ret a <> -1 /\ names κ' = names κ ∖ {[ path_in p name ]});
  stream_law κ i c a κ' :
    kcall kn κ i c = Some (a, κ') ->
    match c with
    | Fdopen _ | Fputs _ _ | Fflush _ | Fclose _ | Write _ _ | Close _ => True
    | _ => False
    end ->
    names κ' = names κ /\ forall fd, c <> Close fd -> dir κ' fd = dir κ fd;
  names_total κ i c : is_Some (kcall kn κ i c)
}.

Section Names.
Import HelloFile.
Context {K : Type} (kn : kernel K) (names : K -> gset string) (dir : K -> Z -> option string).
Context `{!NamesLaws kn names dir}.

Definition testfile : string := "/tmp/testfile.txt".

(** What is left after the program stopped with [exit(1)]. *)
Definition leftover (before after : gset string) : Prop :=
  exists p, (p ∉ before) /\ after ⊆ before ∪ {[p; new_filename; testfile]}.

Ltac step := cbn -[bytes unescape new_filename string_of_bytes].
Ltac next_call E :=
  match goal with
  | |- context [kcall kn ?κ ?i ?c] =>
      let a := fresh "a" in let κ' := fresh "κ" in
      destruct (names_total κ i c) as [[a κ'] E]; rewrite E; step
  end.
Ltac tested :=
  match goal with
  | |- context [a_ret ?a =? ?n] => destruct (Z.eqb_spec (a_ret a) n); step
  end.

Lemma temp_part_names κ i :
  let '(tr, r, κ') := drive kn κ i temp_part in
  (r = Done tt /\ names κ' = names κ ∖ {[new_filename]}) \/
  (r = Halted (Exit 1) /\ leftover (names κ) (names κ')).
Proof using NamesLaws0.
  unfold temp_part. step. next_call E1.
  destruct (mkstemp_law _ _ _ _ _ E1) as [[H1 N1]|(H1 & p & P & Hp & N1)].
  { rewrite H1. step. right. split; [done|]. exists (fresh (names κ)).
    rewrite N1. split; [apply is_fresh|set_solver+]. }
  rewrite P, string_of_bytes_bytes. tested; [done|].
  next_call E2. destruct (stream_law _ _ _ _ _ E2 I) as [N2 _]. tested.
  { next_call E3. destruct (stream_law _ _ _ _ _ E3 I) as [N3 _].
    right. split; [done|]. exists p. rewrite N3, N2, N1. split; [done|set_solver+]. }
  next_call E3. destruct (stream_law _ _ _ _ _ E3 I) as [N3 _].
  next_call E4. destruct (stream_law _ _ _ _ _ E4 I) as [N4 _].
  next_call E5. destruct (rename_law _ _ _ _ _ _ E5) as [[H5 N5]|[H5 N5]]; tested; try done.
  { next_call E6. destruct (stream_law _ _ _ _ _ E6 I) as [N6 _].
    right. split; [done|]. exists p. rewrite N6, N5, N4, N3, N2, N1. split; [done|set_solver+]. }
  next_call E6. destruct (stream_law _ _ _ _ _ E6 I) as [N6 _].
  next_call E7. destruct (stream_law _ _ _ _ _ E7 I) as [N7 _].
  next_call E8. destruct (stream_law _ _ _ _ _ E8 I) as [N8 _].
  next_call E9. destruct (unlink_law _ _ _ _ _ E9) as [[H9 N9]|[H9 N9]]; tested; try done.
  all: rewrite N9, N8, N7, N6, N5, N4, N3, N2, N1.
  - right. split; [done|]. exists p. split; [done|set_solver+].
  - left. split; [done|]. set_solver +Hp.
Qed.

Lemma openat_part_names κ i :
  let '(tr, r, κ') := drive kn κ i openat_part in
  (r = Done tt /\ names κ' = names κ ∖ {[testfile]}) \/
  (r = Halted (Exit 1) /\ names κ' ⊆ names κ ∪ {[testfile]}).
Proof using NamesLaws0.
  unfold openat_part. step. next_call E1. destruct (opendir_law _ _ _ _ _ _ E1) as [N1 D1].
  tested; [right; rewrite N1; split; [done|set_solver+]|]. destruct D1 as [|D1]; [done|].
  next_call E2. destruct (openat_law _ _ _ _ _ _ _ _ _ E2 D1 eq_refl)
    as [[H2 N2]|(H2 & F2 & D2 & N2)]; tested; try done.
  { next_call E3. destruct (stream_law _ _ _ _ _ E3 I) as [N3 _].
    right. split; [done|]. rewrite N3, N2, N1. set_solver+. }
  next_call E3. destruct (stream_law _ _ _ _ _ E3 I) as [N3 D3].
  next_call E4. destruct (stream_law _ _ _ _ _ E4 I) as [N4 D4].
  assert (Hd : dir κ3 (a_ret a) = Some "/tmp") by (rewrite D4, D3 by congruence; done).
  next_call E5. change testfile with (path_in "/tmp" filename).
  destruct (unlinkat_law _ _ _ _ _ _ _ E5 Hd) as [[H5 N5]|[H5 N5]]; tested; try done;
    next_call E6; destruct (stream_law _ _ _ _ _ E6 I) as [N6 _].
  all: rewrite N6, N5, N4, N3, N2, N1.
  - right. split; [done|]. set_solver+.
  - left. split; [done|]. set_solver+.
Qed.
End Names.

(** C14: hellofile.c either returns 0 with both its files gone, and every other
    name as it was, or exits with 1; what it may then leave behind is its
    temporary file under the old or the new name, or the file made with
    openat. *)
Theorem hellofile_cleans_up {K} (kn : kernel K) names dir κ i :
  NamesLaws kn names dir ->
  let '(tr, r, κ') := drive kn κ i HelloFile.main in
  (r = Done 0 /\ names κ' = names κ ∖ {[HelloFile.new_filename; testfile]}) \/
  (r = Halted (Exit 1) /\ leftover (names κ) (names κ')).
Proof.
  intros HL. unfold HelloFile.main, HelloFile.create_temp_file. rewrite !drive_bind.
  pose proof (temp_part_names kn names dir κ i) as Ht.
  destruct (drive kn κ i HelloFile.temp_part) as [[tr1 r1] κ1].
  destruct Ht as [[-> N1]|[-> H1]]; [|by right].
  pose proof (openat_part_names kn names dir κ1 i) as Ho.
  destruct (drive kn κ1 i HelloFile.openat_part) as [[tr2 r2] κ2].
  destruct Ho as [[-> N2]|[-> N2]].
  - left. split; [done|]. rewrite N2, N1. set_solver+.
  - right. split; [done|]. exists (fresh (names κ)). split; [apply is_fresh|]. set_solver +N1 N2.
Qed.

(** Names only: every call succeeds, [/tmp] is the directory of descriptor 4. *)
Definition names_kernel : kernel (gset string) :=
  Kernel (fun N _ c =>
    match c with
    | Mkstemp _ => let p := fresh N in Some (Ans 3 0 [bytes p], {[p]} ∪ N)
    | Rename old new => Some (ret_ans 0, {[new]} ∪ (N ∖ {[old]}))
    | Unlink p => Some (ret_ans 0, N ∖ {[p]})
    | Open p _ _ => Some (if decide (p = "/tmp") then ret_ans 4 else err_ans 2, N)
    | Openat fd name _ _ => Some (ret_ans (if fd =? 4 then 5 else 4), {[path_in "/tmp" name]} ∪ N)
    | Unlinkat fd name => Some (ret_ans 0, N ∖ {[path_in "/tmp" name]})
    | _ => Some (ret_ans 7, N)
    end).

#[export] Instance names_kernel_laws :
  NamesLaws names_kernel id (fun _ _ => Some "/tmp").
Proof.
  split; unfold id; cbn -[path_in].
  - intros N _ template a N' [= <- <-]. right. split; [done|].
    exists (fresh N). split; [done|]. split; [apply is_fresh|done].
  - intros N _ old new a N' [= <- <-]. by right.
  - intros N _ path a N' [= <- <-]. by right.
  - intros N _ path mode a N' [= <- <-]. split; [done|]. case_decide; subst; auto.
  - intros N _ fd p name flags mode a N' [= <- <-] [= <-] _. right.
    cbn. destruct (Z.eqb_spec fd 4); (split; [done|]); (split; [lia|done]).
  - intros N _ fd p name a N' [= <- <-] [= <-]. by right.
  - intros N _ c a N' E H. destruct c; try done; by injection E as <- <-.
  - intros N _ c. destruct c; by eexists.
Qed.

Lemma hellofile_cleans_up_witness :
  let '(tr, r, N) := drive names_kernel {["/tmp/testfile.txt"; "/etc/passwd"]} 0 HelloFile.main in
  r = Done 0 /\ N = {["/etc/passwd"]}.
Proof.
  pose proof (hellofile_cleans_up names_kernel id (fun _ _ => Some "/tmp")
    {["/tmp/testfile.txt"; "/etc/passwd"]} 0 names_kernel_laws) as H.
  assert (Hr : (drive names_kernel {["/tmp/testfile.txt"; "/etc/passwd"]} 0 HelloFile.main).1.2 = Done 0)
    by by vm_compute.
  destruct (drive _ _ _ _) as [[tr r] N]. cbn in Hr. subst r.
  destruct H as [[_ H]|[H _]]; [|done]. split; [done|]. unfold id in H. subst N.
  apply (bool_decide_unpack _). by vm_compute.
Defined.

(** * fakeafile.c *)

(** Fakeafile.c makes the same calls whatever fails, on the descriptor -1
    when a file cannot be opened, reports each failure and returns 0; only when
    [mmap] fails is it undefined, for it writes through the pointer. *)
Theorem fakeafile_goes_on region fd1 c1 fd2 n l m c2 :
  let '(tr, r, sc) := run FakeAFile.main
    (map ret_ans [region; fd1; c1; fd2; n; l; m; c2]) in
  (r = Halted Ub <-> region = MAP_FAILED) /\
  (region <> MAP_FAILED ->
   r = Done 0 /\ sc = [] /\
   fst <$> calls tr =
     [Mmap 4096 0 0; Open "/qemu/synfiles/fromguest" 577 128; Close fd1;
      Open "/FAKEME/fakefile" 2 384; Read fd2 256; Lseek fd2 128 0;
      Write fd2 (c_array "Test string"); Close fd2] /\
   (In ("read of fakefile failed only got %d bytes\n", [AI (to_int n)]) (printed tr) <-> to_int n <> 256) /\
   (In ("write of fakefile failed only wrote %d bytes\n", [AI (to_int m)]) (printed tr) <-> to_int m <> 12)).
Proof.
  unfold FakeAFile.main, FakeAFile.report_open. cbn -[to_int c_array].
  destruct (Z.eqb_spec region MAP_FAILED) as [->|Hr]; cbn -[to_int c_array]; [by split|].
  destruct (Z.eqb_spec fd1 (-1)); cbn -[to_int c_array];
    (destruct (Z.eqb_spec fd2 (-1)); cbn -[to_int c_array]);
    (destruct (Z.eqb_spec (to_int n) 256); cbn -[to_int c_array]);
    (destruct (Z.eqb_spec (to_int m) 12); cbn -[to_int c_array]);
    (split; [by split|]); intros _; do 3 (split; [reflexivity|]); naive_solver.
Qed.

Lemma fakeafile_goes_on_witness :
  (run FakeAFile.main (map ret_ans [4096; -1; -1; -1; -1; -1; -1; -1])).1.2 = Done 0.
Proof.
  pose proof (fakeafile_goes_on 4096 (-1) (-1) (-1) (-1) (-1) (-1) (-1)) as H.
  destruct (run FakeAFile.main (map ret_ans [4096; -1; -1; -1; -1; -1; -1; -1])) as [[tr r] sc].
  destruct H as [_ H]. by destruct (H ltac:(done)) as [-> _].
Defined.
