(* ===== verification/Ident.v ===== *)
(** The programs that print who and what they run as: hello.c, helloargs.c,
    identity.c and termios.c. *)

From S2P Require Export Logic.

Local Open Scope Z_scope.

(** * hello.c *)
Module Hello.

Definition main (argv : list string) : prog Z :=
  (if argc argv =? 1 then printf "x86 ahoy!\n" []
   else a <- argn argv 1 ;; printf "x86 hello %s\n" [AS a]) ;;;
  Ret 0.

End Hello.

(** * helloargs.c *)
Module HelloArgs.

Definition MAXENV : Z := 3.

(** The format of a variable's line, with its two double quotes. *)
Definition quote : string := String "034" EmptyString.
Definition env_format : string := "envp[%d] = " +:+ quote +:+ "%s" +:+ quote +:+ "\n".

(** [while (envp[index])], from the variables that are left; the result is the
    last [index]. *)
Fixpoint print_env (maxenv index : Z) (envp : list string) : prog Z :=
  match envp with
  | [] => Ret index
  | e :: envp =>
      when (index <=? maxenv) (printf env_format [AI index; AS e]) ;;;
      print_env maxenv (index + 1) envp
  end.

Definition main (t : target) (argv envp : list string) : prog Z :=
  (if argc argv =? 1 then printf "ahoy!\n" []
   else
     a0 <- argn argv 0 ;;
     printf "%s had args:" [AS a0] ;;;
     for_ 1 (argc argv) tt (fun i _ =>
       a <- argn argv (Z.to_nat i) ;; printf "| %s|" [AS a]) ;;;
     printf "\n" [] ;;;
     maxenv <- (if 1 <? argc argv then a1 <- argn argv 1 ;; Ret (atoi t a1) else Ret MAXENV) ;;
     index <- print_env maxenv 0 envp ;;
     printf "Number of environment vars= %d\n" [AI index]) ;;;
  Ret 0.

End HelloArgs.

(** * identity.c *)
Module Identity.

(** The fields of [struct utsname] are arrays of characters, in the order
    [uname] stores them; its result is not used. *)
Definition main : prog Z :=
  emit OSetbuf ;;;
  uts <- sys Uname ;;
  printf "%s %s %s %s %s\n" (AB <$> [out_obj uts 0; out_obj uts 1; out_obj uts 2; out_obj uts 3; out_obj uts 4]) ;;;
  u1 <- sysr Getuid ;; u2 <- sysr Getuid ;; e1 <- sysr Geteuid ;; e2 <- sysr Geteuid ;;
  printf "%d 0x%x %d 0x%x\n" [AI u1; AI u2; AI e1; AI e2] ;;;
  g1 <- sysr Getgid ;; g2 <- sysr Getgid ;; h1 <- sysr Getegid ;; h2 <- sysr Getegid ;;
  printf "%d 0x%x %d 0x%x\n" [AI g1; AI g2; AI h1; AI h2] ;;;
  Ret 0.

End Identity.

(** * termios.c *)
Module TermiosC.

Definition main : prog Z := sys (Tcgetattr 1) ;;; Ret 0.

End TermiosC.

(** * The variables helloargs.c prints *)
Section Env.
Context (t : target).

Definition env_line (i : nat) (e : string) : string * list arg :=
  (HelloArgs.env_format, [AI (Z.of_nat i); AS e]).

Lemma run_print_env maxenv index envp sc :
  runs_to (HelloArgs.print_env maxenv (Z.of_nat index) envp) sc (Z.of_nat (index + length envp))
    (take (Z.to_nat (maxenv + 1 - Z.of_nat index)) (imap (fun i => env_line (index + i)) envp)) [] sc.
Proof using Type.
  revert index. induction envp as [|e envp IH]; intros index; cbn [HelloArgs.print_env].
  - exists []. cbn. by rewrite Nat.add_0_r, take_nil.
  - destruct (IH (S index)) as (tr & E & Hp & Hc). rewrite Nat2Z.inj_succ in E, Hp.
    replace (Z.succ (Z.of_nat index)) with (Z.of_nat index + 1) in E by lia.
    assert (Hi : imap (fun i => env_line (index + i)) (e :: envp) =
                 env_line index e :: imap (fun i => env_line (S index + i)) envp).
    { cbn. rewrite Nat.add_0_r. f_equal. apply imap_ext. intros i x _. cbn. by rewrite Nat.add_succ_r. }
    rewrite Hi. cbn [length]. rewrite Nat.add_succ_r, <- Nat.add_succ_l.
    unfold when. destruct (Z.leb_spec (Z.of_nat index) maxenv); cbn; unfold runs_to; cbn;
      rewrite E; eexists; (split; [reflexivity|]); (split; [|exact Hc]).
    + replace (Z.to_nat (maxenv + 1 - Z.of_nat index)) with
        (S (Z.to_nat (maxenv + 1 - Z.succ (Z.of_nat index)))) by lia.
      exact (f_equal (cons _) Hp).
    + rewrite Hp. by replace (Z.to_nat (maxenv + 1 - Z.of_nat index)) with 0%nat by lia;
        replace (Z.to_nat (maxenv + 1 - Z.succ (Z.of_nat index))) with 0%nat by lia.
Qed.

End Env.

(** With arguments, helloargs.c prints its name and each of them, then the
    first [atoi(argv[1]) + 1] variables of the environment with their numbers,
    and how many there are. *)
Theorem helloargs_env t name a args envp :
  let '(tr, r, sc) := run (HelloArgs.main t (name :: a :: args) envp) [] in
  r = Done 0 /\ calls tr = [] /\
  printed tr =
    ("%s had args:", [AS name]) :: map (fun x => ("| %s|", [AS x])) (a :: args) ++
    [("\n", [])] ++
    take (Z.to_nat (atoi t a + 1)) (imap env_line envp) ++
    [("Number of environment vars= %d\n", [AI (Z.of_nat (length envp))])].
Proof.
  assert (Hc : 1 < argc (name :: a :: args)) by (unfold argc; rewrite !length_cons; lia).
  eassert (R : runs_to (HelloArgs.main t (name :: a :: args) envp) [] 0 _ _ []).
  { unfold HelloArgs.main.
    rewrite (proj2 (Z.eqb_neq (argc (name :: a :: args)) 1)), (proj2 (Z.ltb_lt 1 (argc (name :: a :: args)))) by lia.
    eapply runs_bind; [|by eexists].
    change (argn (name :: a :: args) 0) with (Ret name). change (argn (name :: a :: args) 1) with (Ret a).
    cbn [pbind]. eapply runs_bind; [apply runs_emit|].
    eapply runs_bind; [exact (run_for_argv (fun _ x => ("| %s|", [AS x])) name (a :: args) [])|].
    eapply runs_bind; [apply runs_emit|]. eapply runs_bind; [apply (run_print_env (atoi t a) 0)|].
    apply runs_emit. }
  destruct R as (tr & -> & Hp & Hcs). rewrite Hp, Hcs, Z.sub_0_r, app_nil_r.
  replace (map (fun x => ("| %s|", [AS x])) (a :: args))
    with (imap (fun _ x => ("| %s|", [AS x])) (a :: args)); [cbn; by rewrite app_nil_r|].
  exact (imap_const (fun x => ("| %s|", [AS x])) (a :: args)).
Qed.

(** One variable more than asked for. *)
Example helloargs_prints_one_more :
  printed (run (HelloArgs.main x86_64 ["helloargs"; "0"] ["A=1"; "B=2"]) []).1.1 =
    [("%s had args:", [AS "helloargs"]); ("| %s|", [AS "0"]); ("\n", []);
     (HelloArgs.env_format, [AI 0; AS "A=1"]); ("Number of environment vars= %d\n", [AI 2])].
Proof. by vm_compute. Qed.
