(* ===== verification/ArchPrctl.v ===== *)
(** arch_prctl.c: the segment bases of a thread read, set, checked and restored,
    and probes of the other [arch_prctl] commands. *)

From S2P Require Export Sched.

Local Open Scope Z_scope.

Section Build.

(** The [ARCH_] macros the headers define, with their values; the text of
    [strerror]; the addresses of the variables passed to the kernel. *)
Context (macro : string -> option Z) (strerror : Z -> string) (addr : string -> Z).

Definition SYS_arch_prctl : Z := 158.
Definition test_val : Z := 0xdeadbeef.
Definition pattern : Z := 0xfeedface.

Definition defined (x : string) : bool := if macro x is Some _ then true else false.
Definition cmd (x : string) : Z := default 0 (macro x).

Definition print_result (name : string) (a : ans) : prog unit :=
  if a_ret a =? -1 then
    printf "%-28s -> retval=-1 errno=%d (%s)\n" [AS name; AI (a_errno a); AS (strerror (a_errno a))]
  else printf "%-28s -> retval=%ld\n" [AS name; AX TLong (a_ret a)].

(** [syscall(SYS_arch_prctl, cmd, arg)] *)
Definition arch_prctl (x : string) (arg : Z) : prog ans := sys (Syscall "arch_prctl" [cmd x; arg]).

(** The variable the command was given the address of, afterwards. *)
Definition stored (old : Z) (a : ans) : Z := default old (head (out_obj a 0)).

Definition assert_ (b : bool) : prog unit := if b then skip else Halt Aborted.

(** The base of [GS], with every result printed; the result is [out_val]. *)
Definition gs_part : prog Z :=
  a <- arch_prctl "ARCH_GET_GS" (addr "orig_val") ;;
  let orig_val := stored pattern a in
  (if a_ret a =? 0 then printf "orig  -> %s = 0x%lx\n" [AS "GS"; AX TLong orig_val]
   else print_result "ARCH_GET" a) ;;;
  a <- arch_prctl "ARCH_SET_GS" test_val ;;
  print_result "ARCH_SET" a ;;;
  a <- arch_prctl "ARCH_GET_GS" (addr "out_val") ;;
  let out_val := stored pattern a in
  print_result "ARCH_GET" a ;;;
  assert_ (out_val =? test_val) ;;;
  when (a_ret a =? 0) (printf "check set  -> GS = 0x%lx\n" [AX TLong out_val]) ;;;
  a <- arch_prctl "ARCH_SET_GS" orig_val ;;
  print_result "ARCH_SET reset to orig" a ;;;
  a <- arch_prctl "ARCH_GET_GS" (addr "out_val") ;;
  let out_val := stored pattern a in
  print_result "ARCH_GET" a ;;;
  assert_ (out_val =? orig_val) ;;;
  when (a_ret a =? 0) (printf "check restored  -> %s = 0x%lx\n" [AS "GS"; AX TLong out_val]) ;;;
  Ret out_val.

(** The base of [FS], with nothing printed while it is not the thread's own;
    the result is [out_val]. *)
Definition fs_part : prog Z :=
  a <- arch_prctl "ARCH_GET_FS" (addr "orig_val") ;;
  let orig_val := stored pattern a in
  (if a_ret a =? 0 then printf "orig  -> %s = 0x%lx\n" [AS "FS"; AX TLong orig_val]
   else print_result "ARCH_GET" a) ;;;
  arch_prctl "ARCH_SET_FS" test_val ;;;
  a <- arch_prctl "ARCH_GET_FS" (addr "out_val") ;;
  let out_val := stored pattern a in
  assert_ (out_val =? test_val) ;;;
  arch_prctl "ARCH_SET_FS" orig_val ;;;
  a <- arch_prctl "ARCH_GET_FS" (addr "out_val") ;;
  let out_val := stored out_val a in
  assert_ (out_val =? orig_val) ;;;
  Ret out_val.

(** The four words of a buffer after a command. *)
Definition print_cpuid (fmt : string) (a : ans) : prog unit :=
  let buf := overwrite (take 4 (out_obj a 0)) (replicate 4 0) in
  printf fmt (AX TLong <$> buf).

Definition cpuid_part : prog unit :=
  if defined "ARCH_GET_CPUID" && defined "ARCH_SET_CPUID" then
    a <- arch_prctl "ARCH_GET_CPUID" (addr "cpuid_buf") ;;
    print_result "ARCH_GET_CPUID" a ;;;
    print_cpuid "orig  -> cpuid[0..3] = %lx %lx %lx %lx\n" a ;;;
    s <- arch_prctl "ARCH_SET_CPUID" (addr "cpuid_set_buf") ;;
    print_result "ARCH_SET_CPUID" s ;;;
    a <- arch_prctl "ARCH_GET_CPUID" (addr "set_cpuid_buf") ;;
    print_result "ARCH_GET_CPUID" a ;;;
    print_cpuid "new  -> cpuid[0..3] = %lx %lx %lx %lx\n" a
  else printf "ARCH_GET/SET_CPUID not defined on this build (skipping)\n" [].

Definition vdso_part : prog unit :=
  if defined "ARCH_MAP_VDSO" then
    a <- arch_prctl "ARCH_MAP_VDSO" 0 ;; print_result "ARCH_MAP_VDSO" a
  else printf "ARCH_MAP_VDSO not defined on this build (skipping)\n" [].

(** [#ifdef x]: the command is tried; the result is [out_val]. *)
Definition probe_get (x : string) (out_val : Z) : prog Z :=
  if defined x then
    a <- arch_prctl x (addr "out_val") ;;
    print_result x a ;;;
    let out_val := stored out_val a in
    when ((x =? "ARCH_GET_XSTATE_SIZE")%string && (a_ret a =? 0))
      (printf "  -> xstate size = %lu\n" [AX TLong out_val]) ;;;
    Ret out_val
  else Ret out_val.

Definition probe_set (x : string) : prog unit :=
  if defined x then a <- arch_prctl x test_val ;; print_result x a else skip.

(** The commands each tried when its macro is defined. *)
Definition optional_probes (o : Z) : prog unit :=
  o <- probe_get "ARCH_GET_L1I" o ;;
  o <- probe_get "ARCH_GET_L1D" o ;;
  probe_set "ARCH_SET_L1I" ;;;
  probe_set "ARCH_SET_L1D" ;;;
  o <- probe_get "ARCH_GET_XCOMP_SUPP" o ;;
  probe_set "ARCH_SET_XCOMP" ;;;
  o <- probe_get "ARCH_GET_XCOMP" o ;;
  o <- probe_get "ARCH_GET_XSTATE_SIZE" o ;;
  o <- probe_get "ARCH_GET_KERNEL_BP" o ;;
  probe_set "ARCH_SET_KERNEL_BP".

Definition main : prog Z :=
  printf "arch_prctl exercise program\n" [] ;;;
  printf "Using syscall number SYS_arch_prctl = %d\n" [AI SYS_arch_prctl] ;;;
  o <- (if defined "ARCH_GET_GS" && defined "ARCH_SET_GS" then gs_part
        else printf "ARCH_SET_GS not defined on this build (skipping)\n" [] ;;; Ret 0) ;;
  o <- (if defined "ARCH_GET_FS" && defined "ARCH_SET_FS" then fs_part
        else printf "ARCH_GET/SET_GS not defined on this build (skipping)\n" [] ;;; Ret o) ;;
  cpuid_part ;;;
  vdso_part ;;;
  optional_probes o ;;;
  when (negb (defined "ARCH_SET_GS") && negb (defined "ARCH_GET_GS") &&
        negb (defined "ARCH_SET_FS") && negb (defined "ARCH_GET_FS"))
    (printf "No common ARCH_* macros detected at compile time. Check your kernel headers (/usr/include/asm/prctl.h or /usr/include/linux/prctl.h).\n" []) ;;;
  printf "Finished arch_prctl probes.\n" [] ;;;
  Ret 0.

End Build.

(** * The bases of the segments *)

(** What a thread may set a base to: an address of user space. *)
Definition canonical (v : Z) : Prop := 0 <= v < 2 ^ 47.

(** The bases a thread has.  Reading one into a variable of the program succeeds,
    and so does setting one to an address of user space; no other command
    changes them, and no other macro is the number of one that does. *)
Class ArchLaws {K} (macro : string -> option Z) (addr : string -> Z) (kn : kernel K) (gs fs : K -> Z)
    : Prop := {
  set_gs_name x c : macro "ARCH_SET_GS" = Some c -> macro x = Some c -> x = "ARCH_SET_GS";
  set_fs_name x c : macro "ARCH_SET_FS" = Some c -> macro x = Some c -> x = "ARCH_SET_FS";
  get_gs_law κ i c p a κ' :
    kcall kn κ i (Syscall "arch_prctl" [c; p]) = Some (a, κ') ->
    macro "ARCH_GET_GS" = Some c -> p = addr "orig_val" \/ p = addr "out_val" ->
    a_ret a = 0 /\ out_obj a 0 = [gs κ] /\ gs κ' = gs κ /\ fs κ' = fs κ;
  set_gs_law κ i c v a κ' :
    kcall kn κ i (Syscall "arch_prctl" [c; v]) = Some (a, κ') ->
    macro "ARCH_SET_GS" = Some c -> canonical v -> a_ret a = 0 /\ gs κ' = v /\ fs κ' = fs κ;
  get_fs_law κ i c p a κ' :
    kcall kn κ i (Syscall "arch_prctl" [c; p]) = Some (a, κ') ->
    macro "ARCH_GET_FS" = Some c -> p = addr "orig_val" \/ p = addr "out_val" ->
    a_ret a = 0 /\ out_obj a 0 = [fs κ] /\ gs κ' = gs κ /\ fs κ' = fs κ;
  set_fs_law κ i c v a κ' :
    kcall kn κ i (Syscall "arch_prctl" [c; v]) = Some (a, κ') ->
    macro "ARCH_SET_FS" = Some c -> canonical v -> a_ret a = 0 /\ fs κ' = v /\ gs κ' = gs κ;
  arch_other κ i c v a κ' :
    kcall kn κ i (Syscall "arch_prctl" [c; v]) = Some (a, κ') ->
    macro "ARCH_SET_GS" <> Some c -> macro "ARCH_SET_FS" <> Some c ->
    gs κ' = gs κ /\ fs κ' = fs κ;
  arch_total κ i c v : is_Some (kcall kn κ i (Syscall "arch_prctl" [c; v]))
}.

Section Bases.
Context {K : Type} (macro : string -> option Z) (strerror : Z -> string) (addr : string -> Z).
Context (kn : kernel K) (gs fs : K -> Z) `{!ArchLaws macro addr kn gs fs}.

(** The program returns and both bases are as before. *)
Definition keeps {A} (P : A -> Prop) (p : prog A) : Prop :=
  forall κ i, canonical (gs κ) -> canonical (fs κ) -> exists tr a κ', drive kn κ i p = (tr, Done a, κ') /\ P a /\ gs κ' = gs κ /\ fs κ' = fs κ.
Definition any {A} : A -> Prop := fun _ => True.

Lemma keeps_ret {A} (P : A -> Prop) a : P a -> keeps P (Ret a).
Proof using Type. intros Ha κ i _ _. by eexists _, _, _. Qed.

Lemma keeps_bind {A B} P (p : prog A) (f : A -> prog B) :
  keeps any p -> (forall a, keeps P (f a)) -> keeps P (pbind p f).
Proof using Type.
  intros Hp Hf κ i Hg Hh. destruct (Hp κ i Hg Hh) as (tr & a & κ1 & E & _ & G & F).
  destruct (Hf a κ1 i) as (tr2 & b & κ2 & E2 & HP & G2 & F2); [congruence..|].
  exists (tr ++ tr2), b, κ2. rewrite drive_bind, E, E2. split; [done|]. split; [done|].
  split; congruence.
Qed.

Lemma keeps_emit {A} P o (p : prog A) : keeps P p -> keeps P (Emit o p).
Proof using Type.
  intros Hp κ i Hg Hh. destruct (Hp κ i Hg Hh) as (tr & a & κ1 & E & H). exists (EOut o :: tr), a, κ1. cbn.
  by rewrite E.
Qed.

Lemma keeps_command {A} P x v (k : ans -> prog A) :
  defined macro x = true -> x <> "ARCH_SET_GS" -> x <> "ARCH_SET_FS" -> (forall a, keeps P (k a)) ->
  keeps P (pbind (arch_prctl macro x v) k).
Proof using ArchLaws0.
  intros Hx H1 H2 Hk. apply keeps_bind; [|done]. intros κ i _ _. unfold arch_prctl, sys, cmd. cbn.
  unfold defined in Hx. destruct (macro x) as [c|] eqn:Ec; [|done]. cbn.
  destruct (arch_total κ i c v) as [[a κ'] E]. rewrite E.
  apply arch_other in E.
  - by eexists _, _, _.
  - intros Hc. by destruct H1; eapply set_gs_name.
  - intros Hc. by destruct H2; eapply set_fs_name.
Qed.

Ltac keeps_tac :=
  repeat match goal with
  | |- keeps _ (Ret _) => apply keeps_ret; done
  | |- keeps _ (Emit _ _) => apply keeps_emit
  | |- keeps _ (if ?b then _ else _) => destruct b eqn:?; bool_cases
  | |- keeps _ (pbind (arch_prctl _ _ _) _) => apply keeps_command; [done|done|done|intros]
  | |- keeps _ (pbind _ _) => apply keeps_bind; [|intros]
  | |- keeps _ ?p => progress unfold printf, emit, skip, when, print_result, print_cpuid
  end.

Lemma keeps_cpuid : keeps any (cpuid_part macro strerror addr).
Proof using ArchLaws0. unfold cpuid_part. keeps_tac. Qed.

Lemma keeps_vdso : keeps any (vdso_part macro strerror).
Proof using ArchLaws0. unfold vdso_part. keeps_tac. Qed.

Lemma keeps_probe_get x o :
  x <> "ARCH_SET_GS" -> x <> "ARCH_SET_FS" -> keeps any (probe_get macro strerror addr x o).
Proof using ArchLaws0. intros. unfold probe_get. keeps_tac. Qed.

Lemma keeps_probe_set x :
  x <> "ARCH_SET_GS" -> x <> "ARCH_SET_FS" -> keeps any (probe_set macro strerror x).
Proof using ArchLaws0. intros. unfold probe_set. keeps_tac. Qed.

Lemma keeps_probes o : keeps any (optional_probes macro strerror addr o).
Proof using ArchLaws0.
  unfold optional_probes.
  repeat first [ by apply keeps_probe_get | by apply keeps_probe_set | apply keeps_bind; [|intros] ].
Qed.

(** The next command of the driven program, by its law. *)
Ltac step :=
  repeat (cbn -[Z.eqb test_val]; change (0 =? 0) with true; change (0 =? -1) with false).
Ltac next_call law :=
  let E := fresh "E" in let R := fresh "R" in
  match goal with
  | |- context [kcall kn ?κ ?i (Syscall _ [?c; ?v])] =>
      let a := fresh "a" in let κ' := fresh "κ" in
      destruct (arch_total κ i c v) as [[a κ'] E]; rewrite E; step;
      apply law in E as (R & E);
        [|eassumption|first [done | by left | by right | by (unfold canonical, test_val; lia)]];
      let O := fresh "O" in destruct E as (O & E); rewrite ?R, ?O; destruct_and?; step
  end.
Ltac asserted :=
  match goal with
  | |- context [?x =? ?y] => replace (x =? y) with true by (symmetry; apply Z.eqb_eq; congruence)
  end; step.

(** The base is set, checked and restored. *)
Lemma keeps_gs : defined macro "ARCH_GET_GS" = true -> defined macro "ARCH_SET_GS" = true ->
  keeps any (gs_part macro strerror addr).
Proof using ArchLaws0.
  unfold defined. destruct (macro "ARCH_GET_GS") as [g|] eqn:Eg, (macro "ARCH_SET_GS") as [s|] eqn:Es; try done.
  intros _ _ κ i Hg _. unfold gs_part, arch_prctl, print_result, assert_, when, stored, cmd.
  rewrite Eg, Es. step.
  next_call get_gs_law. next_call set_gs_law. next_call get_gs_law. asserted.
  next_call set_gs_law. next_call get_gs_law. asserted.
  eexists _, _, _. split; [reflexivity|]. split; [done|]. split; congruence.
Qed.

Lemma keeps_fs : defined macro "ARCH_GET_FS" = true -> defined macro "ARCH_SET_FS" = true ->
  keeps any (fs_part macro strerror addr).
Proof using ArchLaws0.
  unfold defined. destruct (macro "ARCH_GET_FS") as [g|] eqn:Eg, (macro "ARCH_SET_FS") as [s|] eqn:Es; try done.
  intros _ _ κ i _ Hf. unfold fs_part, arch_prctl, print_result, assert_, when, stored, cmd.
  rewrite Eg, Es. step.
  next_call get_fs_law. next_call set_fs_law. next_call get_fs_law. asserted.
  next_call set_fs_law. next_call get_fs_law. asserted.
  eexists _, _, _. split; [reflexivity|]. split; [done|]. split; congruence.
Qed.
End Bases.

(** C13: on a kernel that lets a thread read its segment bases and set them to
    addresses of user space, where they are at the start, arch_prctl.c passes all
    its assertions, returns 0 whatever the other commands answer and whichever
    macros the headers define, and leaves both bases as they were. *)
Theorem arch_prctl_restores {K} macro strerror addr (kn : kernel K) gs fs κ i :
  ArchLaws macro addr kn gs fs -> canonical (gs κ) -> canonical (fs κ) ->
  exists tr κ', drive kn κ i (main macro strerror addr) = (tr, Done 0, κ') /\
    gs κ' = gs κ /\ fs κ' = fs κ.
Proof.
  intros HL Hg Hf.
  assert (Hk : keeps kn gs fs (eq 0) (main macro strerror addr)).
  { unfold main.
    repeat first
      [ apply keeps_emit | (apply keeps_ret; done)
      | by apply keeps_gs | by apply keeps_fs | by apply keeps_cpuid | by apply (keeps_vdso _ _ addr)
      | by apply keeps_probes
      | apply keeps_bind; [|intros] | progress unfold printf, emit, when, skip
      | match goal with |- keeps _ _ _ _ (if ?b then _ else _) => destruct b eqn:?; bool_cases end ]. }
  destruct (Hk κ i Hg Hf) as (tr & z & κ' & E & <- & H). by exists tr, κ'.
Qed.

(** The bases of one thread as a pair. *)
Definition prctl_macros (x : string) : option Z :=
  if (x =? "ARCH_SET_GS")%string then Some 0x1001
  else if (x =? "ARCH_SET_FS")%string then Some 0x1002
  else if (x =? "ARCH_GET_FS")%string then Some 0x1003
  else if (x =? "ARCH_GET_GS")%string then Some 0x1004
  else if (x =? "ARCH_GET_XCOMP_SUPP")%string then Some 0x1021 else None.
Definition prctl_kernel : kernel (Z * Z) :=
  Kernel (fun κ _ c =>
    match c with
    | Syscall _ [0x1001; v] => Some (ret_ans 0, (v, κ.2))
    | Syscall _ [0x1002; v] => Some (ret_ans 0, (κ.1, v))
    | Syscall _ [0x1003; _] => Some (Ans 0 0 [[κ.2]], κ)
    | Syscall _ [0x1004; _] => Some (Ans 0 0 [[κ.1]], κ)
    | _ => Some (err_ans 22, κ)
    end).

Lemma prctl_macros_set x y :
  y = "ARCH_SET_GS" \/ y = "ARCH_SET_FS" -> prctl_macros x = prctl_macros y -> x = y.
Proof.
  intros [-> | ->]; unfold prctl_macros; repeat case_match; try done;
    by repeat match goal with H : (_ =? _)%string = true |- _ => apply String.eqb_eq in H end.
Qed.

#[export] Instance prctl_kernel_laws : ArchLaws prctl_macros (fun _ => 64) prctl_kernel fst snd.
Proof.
  split.
  - intros x c Hc Hx. apply prctl_macros_set; [by left|congruence].
  - intros x c Hc Hx. apply prctl_macros_set; [by right|congruence].
  - intros κ i c p a κ' E [= <-] _. by injection E as <- <-.
  - intros κ i c v a κ' E [= <-] _. by injection E as <- <-.
  - intros κ i c p a κ' E [= <-] _. by injection E as <- <-.
  - intros κ i c v a κ' E [= <-] _. by injection E as <- <-.
  - intros κ i c v a κ' E H1 H2. cbn in E, H1, H2.
    repeat case_match; simplify_eq; done.
  - intros κ i c v. cbn. repeat case_match; by eexists.
Qed.

Lemma arch_prctl_restores_witness :
  exists tr κ', drive prctl_kernel (5, 7) 0 (main prctl_macros (fun _ => "?") (fun _ => 64)) = (tr, Done 0, κ') /\
    κ' = (5, 7).
Proof.
  destruct (arch_prctl_restores prctl_macros (fun _ => "?") (fun _ => 64) prctl_kernel fst snd (5, 7) 0
    prctl_kernel_laws ltac:(by unfold canonical) ltac:(by unfold canonical)) as (tr & [g f] & E & G & F).
  exists tr, (g, f). split; [exact E|]. cbn in *. by subst.
Defined.

(** When the base cannot be set and is not the test value, the first assertion
    fails: the failure is reported but not handled. *)
Lemma gs_part_aborts macro strerror addr o e :
  o <> test_val ->
  result (gs_part macro strerror addr) [Ans 0 0 [[o]]; err_ans e; Ans 0 0 [[o]]] = Halted Aborted.
Proof.
  intros Ho%Z.eqb_neq. unfold result, gs_part, arch_prctl, print_result, assert_, stored.
  repeat (cbn -[Z.eqb test_val]; change (0 =? 0) with true; change (-1 =? -1) with true;
          change (0 =? -1) with false). by rewrite Ho.
Qed.
