(* ===== verification/Enough.v ===== *)
(** Fuel is enough: no program stops for lack of fuel.

    Every loop that waits on the system takes an answer at each turn, so fuel
    above the length of the script decides a run.  The tactic [fuel_tac] unfolds
    a program down to its constructs and applies the rules of [enough]. *)

From S2P Require Import Logic Wait Fork Pthread ForkTree Shm Control Socket.
From S2P Require Import Futex Clone.

Local Open Scope Z_scope.

(** [decided p]: with fuel above the number of answers a run does not stop for
    lack of fuel, and does not depend on the fuel. *)
Definition decided {A} (p : nat -> prog A) : Prop :=
  forall n m sc, (length sc < n)%nat -> (length sc < m)%nat ->
    run (p n) sc = run (p m) sc /\ result (p n) sc <> Halted Fuel.

Lemma decided_enough {A} (p : nat -> prog A) : decided p -> enough p.
Proof. intros H n sc Hn. by apply (H n n). Qed.

Section Rules.
Lemma decided_ret {A} (a : A) : decided (fun _ => Ret a).
Proof. intros n m sc _ _. by split. Qed.

Lemma decided_halt {A} s : s <> Fuel -> decided (A:=A) (fun _ => Halt s).
Proof. intros Hs n m sc _ _. split; [done|]. intros [= E]. done. Qed.

Lemma decided_emit {A} o (p : nat -> prog A) : decided p -> decided (fun n => Emit o (p n)).
Proof.
  intros H n m sc Hn Hm. destruct (H n m sc Hn Hm) as [E F]. unfold result in *. cbn.
  rewrite E in *. by destruct (run (p m) sc) as [[??]?].
Qed.

Lemma decided_vis {A} c (k : nat -> ans -> prog A) :
  (forall a, decided (fun n => k n a)) -> decided (fun n => Vis c (k n)).
Proof.
  intros H n m [|a sc] Hn Hm; [by split|]. cbn in Hn, Hm.
  destruct (H a n m sc) as [E F]; [lia..|]. unfold result in *. cbn.
  rewrite E in *. by destruct (run (k m a) sc) as [[??]?].
Qed.

Lemma decided_bind {A B} (p : nat -> prog A) (f : nat -> A -> prog B) :
  decided p -> (forall a, decided (fun n => f n a)) -> decided (fun n => pbind (p n) (f n)).
Proof.
  intros Hp Hf n m sc Hn Hm. destruct (Hp n m sc Hn Hm) as [E F]. unfold result in *.
  rewrite !run_bind, E in *.
  destruct (run (p m) sc) as [[t [a|s|c]] sc'] eqn:E'; [|by split; [|intros [= ->]]|by split].
  apply run_length in E'. destruct (Hf a n m sc') as [G K]; [lia..|].
  unfold result in K. rewrite G in *. by destruct (run (f m a) sc') as [[??]?].
Qed.

Lemma decided_get {A} (o : option A) : decided (fun _ => get o).
Proof. destruct o; cbn; [apply decided_ret|by apply decided_halt]. Qed.

Lemma decided_when (b : bool) p : decided p -> decided (fun n => when b (p n)).
Proof. intros. destruct b; [done|apply decided_ret]. Qed.

Lemma decided_for {S} k (body : nat -> Z -> S -> prog S) :
  (forall i s, decided (fun n => body n i s)) ->
  forall i s, decided (fun n => for_n k i s (body n)).
Proof.
  intros H. induction k as [|k IH]; intros i s; cbn; [apply decided_ret|].
  apply decided_bind; [apply H|]. intros s'. apply IH.
Qed.

(** A loop whose turns each take an answer before they go on. *)
Lemma decided_loop {S A} (body : nat -> S -> prog (S + A)) :
  (forall s, decided (fun n => body n s)) ->
  (forall n s, consumes (fun r => exists s', r = inl s') (body n s)) ->
  forall s, decided (fun n => loop n s (body n)).
Proof.
  intros Hb Hc.
  assert (H : forall j k n m sc s, (length sc < n)%nat -> (length sc < m)%nat ->
            (length sc < j)%nat -> (length sc < k)%nat ->
            run (loop j s (body n)) sc = run (loop k s (body m)) sc /\
            result (loop j s (body n)) sc <> Halted Fuel).
  { induction j as [|j IH]; intros [|k] n m sc s Hn Hm Hj Hk; [lia..|].
    cbn [loop]. destruct (Hb s n m sc Hn Hm) as [E F]. unfold result in *.
    rewrite !run_bind, E in *.
    destruct (run (body m s) sc) as [[t [r|h|c]] sc'] eqn:E'; [|by split; [|intros [= ->]]|by split].
    destruct r as [s'|a]; [|by split].
    pose proof (Hc m s _ _ _ _ E' (ex_intro _ s' eq_refl)).
    destruct (IH k n m sc' s') as [G K]; [lia..|].
    rewrite G in *. by destruct (run (loop k s' (body m)) sc') as [[??]?]. }
  intros s n m sc Hn Hm. by apply H.
Qed.
End Rules.

Create HintDb fuel.
#[local] Hint Resolve decided_ret decided_get : fuel.

(** [consumes]: the first call, or what is before it, taken apart. *)
Ltac consumes_step :=
  match goal with
  | |- consumes _ (Vis _ _) => apply consumes_vis
  | |- consumes _ (Emit _ _) => apply consumes_emit
  | |- consumes _ (Halt _) => apply consumes_halt
  | |- consumes _ (Ret _) => apply consumes_ret; by intros [? [=]]
  | |- consumes _ (if ?b then _ else _) => destruct b
  | |- consumes _ (pbind _ _) =>
      first [ apply consumes_bind_l; solve [repeat consumes_step]
            | apply consumes_bind_r; intros ?; solve [repeat consumes_step] ]
  | |- consumes _ ?p => let h := head_of p in progress (unfold h at 1); cbv beta zeta
  end.

Ltac fuel_step :=
  match goal with
  | |- forall _, _ => intros ?
  | |- decided ?f =>
      let p := eval cbv beta in (f O) in
      lazymatch p with
      | Ret _ => apply decided_ret
      | get _ => apply decided_get
      | Halt _ => apply decided_halt; discriminate
      | Emit _ _ => apply decided_emit
      | Vis _ _ => apply decided_vis
      | pbind _ _ => apply decided_bind
      | when _ _ => apply decided_when
      | for_n _ _ _ ?b => apply (decided_for _ (fun _ => b)) || apply decided_for
      | loop _ _ ?b =>
          apply (decided_loop (fun _ => b)); [|intros _ ?; repeat consumes_step]
      | match ?x with _ => _ end =>
          first [ progress cbv beta iota zeta delta [SocketC.params ForkServer.params]
                | destruct x ]
      | _ => first [ solve [eauto 2 with fuel]
                   | let h := head_of p in progress (unfold h at 1); cbv beta zeta ]
      end
  end.
Ltac fuel_tac := repeat fuel_step.

Lemma lock_acquire_decided head list : decided (fun n => lock_acquire head list n).
Proof. fuel_tac. Qed.
Lemma shm_decided t : decided (fun n => Shm.main t n).
Proof. fuel_tac. Qed.
Lemma thread1_decided head list : decided (fun n => thread1 head list n).
Proof. fuel_tac. Qed.
Lemma thread2_decided head list : decided (fun n => thread2 head list n).
Proof. fuel_tac. Qed.
Lemma socket_server_decided t : decided (fun n => SocketC.server t n).
Proof. fuel_tac. Qed.
Lemma forkserver_decided t : decided (fun n => ForkServer.main t n).
Proof. fuel_tac. Qed.
Lemma sample_decided argv : decided (fun n => SampleC.main n argv).
Proof. fuel_tac. Qed.
Lemma processesgalore_decided id : decided (fun n => ProcessesGalore.do_thread n id).
Proof. fuel_tac. Qed.
Lemma fork_decided argv : decided (fun n => ForkC.main n argv).
Proof. fuel_tac. Qed.
Lemma serialfork_decided t argv : decided (fun n => SerialFork.main t n argv).
Proof. fuel_tac. Qed.
Lemma parallelfork_decided t argv : decided (fun n => ParallelFork.main t n argv).
Proof. fuel_tac. Qed.
Lemma forkexec_decided argv : decided (fun n => ForkExec.main n argv).
Proof. fuel_tac. Qed.
Lemma multiforkexec_decided t argv : decided (fun n => MultiForkExec.main t n argv).
Proof. fuel_tac. Qed.
Lemma controlthreads_decided t : decided (fun n => Control.main t n).
Proof. fuel_tac. Qed.
Lemma controlled_decided t fn id : decided (fun n => thread_fn t n fn id).
Proof. fuel_tac. Qed.

(** With fuel above the number of answers no run of these programs stops for
    lack of fuel, and the run is the same whatever the fuel: every turn of
    every loop makes a call to the system, so none of them spins without one,
    and what the models observe is what the loops of the code do, in runs of
    any length. *)
Theorem loops_enough t argv fn id head list :
  decided (fun n => ForkC.main n argv) /\
  decided (fun n => SerialFork.main t n argv) /\
  decided (fun n => ParallelFork.main t n argv) /\
  decided (fun n => ForkExec.main n argv) /\
  decided (fun n => MultiForkExec.main t n argv) /\
  decided (fun n => ProcessesGalore.do_thread n id) /\
  decided (fun n => Shm.main t n) /\
  decided (fun n => Control.main t n) /\
  decided (fun n => thread_fn t n fn id) /\
  decided (fun n => SocketC.server t n) /\
  decided (fun n => ForkServer.main t n) /\
  decided (fun n => thread1 head list n) /\
  decided (fun n => thread2 head list n) /\
  decided (fun n => SampleC.main n argv).
Proof.
  split_and!; eauto 2 using fork_decided, serialfork_decided, parallelfork_decided,
    forkexec_decided, multiforkexec_decided, processesgalore_decided, shm_decided,
    controlthreads_decided, controlled_decided, socket_server_decided, forkserver_decided,
    thread1_decided, thread2_decided, sample_decided.
Qed.
