(* ===== verification/LoopEnd.v ===== *)
(** The loops that wait on the system end, each at the first answer that ends it
    and not before. *)

From S2P Require Import Logic Wait Fork Pthread ForkTree Shm Control Futex.

Local Open Scope Z_scope.

(** [ends_with p going last r c]: given the answers [going] alone [p] still waits,
    in the call [c]; when [last] follows, it ends with [r] and takes no further
    answer. *)
Definition ends_with {A} (p : prog A) (going last : list ans) (r : res A) (c : call) : Prop :=
  result p going = Blocked c /\
  forall rest, exists tr, run p (going ++ last ++ rest) = (tr, r, rest).

Section Rules.

Lemma ew_emit {A} o (p : prog A) g l r c :
  ends_with p g l r c -> ends_with (Emit o p) g l r c.
Proof.
  intros [Hb He]. split.
  - unfold result in *. cbn. by destruct (run p g) as [[??]?].
  - intros rest. destruct (He rest) as [tr E]. cbn. rewrite E. by eexists.
Qed.

Lemma ew_vis {A} c0 (k : ans -> prog A) a g l r c :
  ends_with (k a) g l r c -> ends_with (Vis c0 k) (a :: g) l r c.
Proof.
  intros [Hb He]. split.
  - unfold result in *. cbn. by destruct (run (k a) g) as [[??]?].
  - intros rest. destruct (He rest) as [tr E]. cbn. rewrite E. by eexists.
Qed.

(** What follows the loop, with the answers [l'] it takes itself. *)
Lemma ew_bind {A B} (p : prog A) (f : A -> prog B) g l l' a r c :
  ends_with p g l (Done a) c -> (forall rest, exists tr, run (f a) (l' ++ rest) = (tr, r, rest)) ->
  ends_with (pbind p f) g (l ++ l') r c.
Proof.
  intros [Hb He] Hf. split.
  - unfold result in *. rewrite run_bind. destruct (run p g) as [[? [| |]] ?]; try discriminate Hb.
    by injection Hb as ->.
  - intros rest. destruct (He (l' ++ rest)) as [tr E], (Hf rest) as [tr' E'].
    rewrite run_bind, <- app_assoc, E, E'. by eexists.
Qed.

(** The turns of a loop from the variables [s] to [s'], with the answers each
    takes. *)
Inductive turns {S A} (body : S -> prog (S + A)) : S -> list (list ans) -> S -> Prop :=
  | turns_nil s : turns body s [] s
  | turns_cons s l s1 ls s2 :
      (forall rest, exists tr, run (body s) (l ++ rest) = (tr, Done (inl s1), rest)) ->
      turns body s1 ls s2 -> turns body s (l :: ls) s2.

(** How the turn that ends a loop ends it. *)
Definition leaves {S A} (q : res (S + A)) (r : res A) : Prop :=
  match q with Done (inr a) => r = Done a | Halted h => r = Halted h | _ => False end.

Lemma ew_loop {S A} (body : S -> prog (S + A)) s ls s' last q r c :
  turns body s ls s' ->
  result (body s') [] = Blocked c ->
  (forall rest, exists tr, run (body s') (last ++ rest) = (tr, q, rest)) -> leaves q r ->
  forall fuel, (length ls < fuel)%nat -> ends_with (loop fuel s body) (concat ls) last r c.
Proof.
  intros Ht Hb Hl Hq. induction Ht as [s|s l s1 ls s2 H1 Ht IH]; intros [|fuel] Hf; cbn in Hf; try lia.
  - split; [|intros rest]; cbn [loop concat app].
    + unfold result in *. rewrite run_bind.
      destruct (run (body s) []) as [[? [| |]] ?]; try discriminate Hb.
      by injection Hb as ->.
    + rewrite run_bind. destruct (Hl rest) as [tr ->].
      destruct q as [[?|a]|h|]; cbn in Hq; try done; subst r; by eexists.
  - destruct (IH Hb Hl fuel) as [Hb' He']; [lia|]. split; [|intros rest]; cbn [loop concat].
    + unfold result in *. rewrite run_bind. destruct (H1 (concat ls)) as [tr ->].
      by destruct (run (loop fuel s1 body) (concat ls)) as [[??]?].
    + rewrite run_bind, <- app_assoc. destruct (H1 (concat ls ++ last ++ rest)) as [tr ->].
      destruct (He' rest) as [tr' ->]. by eexists.
Qed.
End Rules.

(** * Waiting for children *)

(** An outcome of a child as [waitpid] reports it. *)
Definition seen (o : Z * wstatus) : ans := wait_ans o.1 o.2.
Definition goes_on (o : Z * wstatus) : Prop :=
  o.1 <> -1 /\ wstatus_ok o.2 /\ terminal o.2 = false.

Lemma concat_singles {A B} (f : A -> B) l : concat ((fun x => [f x]) <$> l) = f <$> l.
Proof. induction l as [|x l IH]; [done|]. cbn. by rewrite IH. Qed.

Section Waiting.
Context (pid : Z) (outs : list (Z * wstatus)) (last : Z * wstatus).
Context (Houts : Forall goes_on outs) (Hlast : last.1 <> -1 /\ wstatus_ok last.2 /\ terminal last.2 = true).

(** The body all the wait loops share: each prints an outcome in its own way, and
    goes on unless the child has ended. *)
Definition wait_body (on_error : prog (unit + unit)) (say : ans -> prog (unit + unit)) (_ : unit)
  : prog (unit + unit) :=
  a <- sys (Waitpid pid wait_options) ;;
  if a_ret a =? -1 then on_error else say a.

Definition says (say : ans -> prog (unit + unit)) : Prop :=
  forall a sc, exists tr,
    run (say a) sc = (tr, Done (if still_running (out_int a) then inl tt else inr tt), sc).

Lemma wait_body_run on_error say o rest :
  o.1 <> -1 -> wstatus_ok o.2 -> says say ->
  exists tr, run (wait_body on_error say tt) (seen o :: rest) =
    (tr, Done (if terminal o.2 then inr tt else inl tt), rest).
Proof.
  intros Hc Hw Hsay. unfold wait_body, seen. cbn [pbind sys run].
  change (a_ret (wait_ans o.1 o.2)) with o.1.
  change (out_int (wait_ans o.1 o.2)) with (encode_status o.2).
  destruct (Z.eqb_spec o.1 (-1)); [done|].
  destruct (Hsay (seen o) rest) as [tr E]. unfold seen in E. rewrite E.
  change (out_int (wait_ans o.1 o.2)) with (encode_status o.2).
  rewrite still_running_encode by done. destruct (terminal o.2); cbn; by eexists.
Qed.

Lemma wait_turns on_error say :
  says say ->
  turns (wait_body on_error say) tt ((fun o => [seen o]) <$> outs) tt.
Proof using Houts.
  intros Hsay. induction Houts as [|o l (Hc & Hw & Ht) Hl IH]; [constructor|].
  econstructor; [|exact (IH Hl)]. intros rest. cbn [app].
  destruct (wait_body_run on_error say o rest) as [tr E]; [done..|]. rewrite Ht in E. eauto.
Qed.

Lemma wait_ends on_error say fuel :
  says say -> (length outs < fuel)%nat ->
  ends_with (loop fuel tt (wait_body on_error say)) (seen <$> outs) [seen last] (Done tt)
    (Waitpid pid wait_options).
Proof using Houts Hlast.
  intros Hsay Hf. rewrite <- concat_singles. destruct Hlast as (Hc & Hw & Ht).
  eapply (ew_loop _ _ _ _ _ (Done (inr tt)));
    [by apply wait_turns|reflexivity| |reflexivity|by rewrite length_fmap].
  intros rest. destruct (wait_body_run on_error say last rest) as [tr E]; [done..|].
  rewrite Ht in E. by exists tr.
Qed.

Lemma wait_error_ends say fuel e q r :
  says say -> (length outs < fuel)%nat ->
  forall on_error, (forall sc, exists tr, run on_error sc = (tr, q, sc)) -> leaves q r ->
  ends_with (loop fuel tt (wait_body on_error say)) (seen <$> outs) [err_ans e] r
    (Waitpid pid wait_options).
Proof using Houts.
  intros Hsay Hf on_error He Hq. rewrite <- concat_singles.
  eapply ew_loop; [by apply wait_turns|reflexivity| |exact Hq|by rewrite length_fmap].
  intros rest. destruct (He rest) as [tr E]. cbn. rewrite E. by eexists.
Qed.
End Waiting.

Lemma report_says pre who : says (fun a => report_as pre (who a) (out_int a) ;;;
  Ret (if still_running (out_int a) then inl tt else inr tt)).
Proof.
  intros a sc. unfold report_as, when, printf, emit, skip.
  destruct (still_running (out_int a)); repeat case_match; by eexists.
Qed.

Lemma flushed_report_says pre who : says (fun a => report_as pre (who a) (out_int a) ;;; fflush ;;;
  Ret (if still_running (out_int a) then inl tt else inr tt)).
Proof.
  intros a sc. unfold report_as, when, printf, emit, skip.
  destruct (still_running (out_int a)); repeat case_match; by eexists.
Qed.

(** The wait loops of the programs, as loops with the shared body. *)
Section WaitLoops.
Context (pid : Z) (outs : list (Z * wstatus)) (last : Z * wstatus) (fuel : nat).
Context (Houts : Forall goes_on outs) (Hlast : last.1 <> -1 /\ wstatus_ok last.2 /\ terminal last.2 = true).
Context (Hfuel : (length outs < fuel)%nat).

Lemma wait_loop_ends on_error :
  ends_with (wait_loop fuel pid on_error) (seen <$> outs) [seen last] (Done tt) (Waitpid pid wait_options).
Proof using Houts Hlast Hfuel.
  exact (wait_ends pid outs last Houts Hlast on_error _ fuel (report_says "" (fun _ => [])) Hfuel).
Qed.

Lemma wait_loop_fails e :
  ends_with (wait_loop fuel pid wait_fail) (seen <$> outs) [err_ans e] (Halted (Exit (-1)))
    (Waitpid pid wait_options) /\
  ends_with (wait_loop fuel pid wait_break) (seen <$> outs) [err_ans e] (Done tt)
    (Waitpid pid wait_options).
Proof using Houts Hfuel.
  pose proof (report_says "" (fun _ => [])) as Hr. split.
  - apply (wait_error_ends pid outs Houts _ fuel e (Halted (Exit (-1))) _ Hr Hfuel wait_fail); [|done].
    intros sc. by eexists.
  - apply (wait_error_ends pid outs Houts _ fuel e (Done (inr tt)) _ Hr Hfuel wait_break); [|done].
    intros sc. by eexists.
Qed.

Lemma wait_children_ends id e :
  ends_with (ProcessesGalore.wait_children fuel id pid) (seen <$> outs) [seen last] (Done tt)
    (Waitpid pid wait_options) /\
  ends_with (ProcessesGalore.wait_children fuel id pid) (seen <$> outs) [err_ans e] (Done tt)
    (Waitpid pid wait_options).
Proof using Houts Hlast Hfuel.
  pose proof (flushed_report_says "Parent of thread %d: saw child %d "
    (fun a => [AI id; AI (a_ret a)])) as Hr. split.
  - exact (wait_ends pid outs last Houts Hlast _ _ fuel Hr Hfuel).
  - apply (wait_error_ends pid outs Houts _ fuel e (Done (inr tt)) _ Hr Hfuel
             (perror "Waitpid failed" ;;; Ret (inr tt))); [|done].
    intros sc. by eexists.
Qed.
End WaitLoops.

Lemma waitchildren_ends outs last fuel lev e :
  Forall goes_on outs -> last.1 <> -1 /\ wstatus_ok last.2 /\ terminal last.2 = true ->
  (length outs < fuel)%nat ->
  ends_with (waitchildren fuel lev) (seen <$> outs) [seen last] (Done tt) (Waitpid 0 wait_options) /\
  ends_with (waitchildren fuel lev) (seen <$> outs) [err_ans e] (Done tt) (Waitpid 0 wait_options).
Proof.
  intros Ho Hl Hf. unfold waitchildren. split.
  - apply (ew_bind _ _ _ [seen last] [] tt); [by apply wait_loop_ends|]. intros rest. by eexists.
  - apply (ew_bind _ _ _ [err_ans e] [] tt); [by apply wait_loop_fails|]. intros rest. by eexists.
Qed.

(** * Reading one character *)
Section ReadOne.
Context (t : target) (fd : Z).

Definition read_body (inchar : list (option Z)) : prog (list (option Z) + list (option Z)) :=
  r <- read_into fd 1 inchar ;; Ret (if r.1 =? 1 then inr r.2 else inl r.2).

Lemma read_turns rs s :
  Forall (fun a => to_int (a_ret a) <> 1) rs ->
  exists s', turns read_body s ((fun a => [a]) <$> rs) s'.
Proof using Type.
  intros Hr. revert s. induction Hr as [|a rs Ha _ IH]; intros s; [eexists; constructor|].
  destruct (IH (overwrite (Some <$> out_obj a 0) s)) as [s' Hs]. exists s'.
  econstructor; [|exact Hs]. intros rest. cbn.
  destruct (Z.eqb_spec (to_int (a_ret a)) 1); [done|]. by eexists.
Qed.

Lemma read_one_ends rs b fuel :
  Forall (fun a => to_int (a_ret a) <> 1) rs -> (length rs < fuel)%nat ->
  ends_with (read_one t fuel fd) rs [Ans 1 0 [[b]]] (Done (char_int t b)) (Read fd 1).
Proof using Type.
  intros Hr Hf. destruct (read_turns rs [None] Hr) as [s' Hs].
  rewrite <- (list_fmap_id rs), <- (concat_singles id). unfold id.
  apply (ew_bind _ _ _ [Ans 1 0 [[b]]] [] (overwrite [Some b] s')).
  - eapply (ew_loop _ _ _ _ _ (Done (inr (overwrite [Some b] s'))));
      [exact Hs|reflexivity| |reflexivity|by rewrite length_fmap].
    intros rest. by eexists.
  - intros rest. by eexists.
Qed.
End ReadOne.

(** * Taking the lock *)

(** What a turn of [lock_acquire] receives when the lock is not taken. *)
Definition refused (p : ans * ans) : Prop := a_ret p.1 = 0.
Definition tries (l : list (ans * ans)) : list ans := concat ((fun p => [p.1; p.2]) <$> l).

Lemma lock_acquire_ends head list fuel self ps took s1 s2 :
  Forall refused ps -> a_ret took <> 0 -> (length ps < fuel)%nat ->
  ends_with (lock_acquire head list fuel) (self :: tries ps) [took; s1; s2] (Done tt)
    (AtomicCas 0 (to_int (a_ret self))).
Proof.
  intros Hp Ht Hf. unfold lock_acquire. apply ew_vis. cbn -[loop try_acquire].
  apply (ew_bind _ _ _ [took] [s1; s2] tt).
  - apply (ew_loop _ _ _ tt _ (Done (inr tt))); [|reflexivity| |reflexivity|by rewrite length_fmap].
    + clear Hf. induction Hp as [|p ps Hp _ IH]; [constructor|]. econstructor; [|exact IH].
      intros rest. cbn. rewrite Hp. by eexists.
    + intros rest. cbn. destruct (Z.eqb_spec (a_ret took) 0); [done|]. by eexists.
  - intros rest. by eexists.
Qed.

(** * Reading the segment *)
Section Reader.
Context (t : target).

Definition loaded (a : ans) : Z := to_int (uint_value t (out_obj a 0)).

(** What a turn of the reader receives while [complete] is not set. *)
Definition turn_reads (l : list ans) : Prop :=
  exists c text n n' s, l = [c; text; n; n'; s] /\ loaded c <> 1 /\ loaded n <> -1.

Lemma reader_ends fuel gets at_ ls complete dt :
  a_ret gets <> -1 -> a_ret at_ <> -1 -> Forall turn_reads ls ->
  loaded complete = 1 -> a_ret dt <> -1 -> (length ls < fuel)%nat ->
  ends_with (reader t fuel) (gets :: at_ :: concat ls) [complete; dt] (Done 0) (ShLoad off_complete 4).
Proof using Type.
  intros Hg Ha Hl Hc Hd Hf. unfold reader. apply ew_vis. cbn -[loop].
  destruct (Z.eqb_spec (a_ret gets) (-1)); [done|]. apply ew_vis. cbn -[loop].
  destruct (Z.eqb_spec (a_ret at_) (-1)); [done|]. apply ew_emit, ew_emit. cbn -[loop].
  apply (ew_bind _ _ _ [complete] [dt] None).
  - apply (ew_loop _ _ _ tt _ (Done (inr None))); [|reflexivity| |reflexivity|done].
    + clear Hf. induction Hl as [|l ls (c & x & m & m' & z & -> & H1 & H2) _ IH]; [constructor|].
      econstructor; [|exact IH]. intros rest. unfold loaded in *. cbn.
      destruct (Z.eqb_spec (to_int (uint_value t (out_obj c 0))) 1); [done|]. cbn.
      destruct (Z.eqb_spec (to_int (uint_value t (out_obj m 0))) (-1)); [done|]. cbn. by eexists.
    + intros rest. unfold loaded in Hc. cbn. rewrite Hc. cbn. by eexists.
  - intros rest. cbn. destruct (Z.eqb_spec (a_ret dt) (-1)); [done|]. by eexists.
Qed.
End Reader.

(** C18: each of these loops goes on while what it waits for has not come and ends
    at the first answer that brings it, taking no answer after it.  The wait
    loops wait again after every outcome that leaves the child running, in the
    same [waitpid], and end at the first that does not; a failed [waitpid] ends
    them too, and the process with exit(-1) where the code exits.  The input loop
    of controlthreads.c reads until a read of one byte and returns its value as a
    [char]; the lock is tried again, after a wait, until a compare-and-set
    succeeds; the reader of shmtest.c reads until [complete] is 1. *)
Theorem loops_end t pid outs last fuel e id lev fd rs b head list self ps took s1 s2 gets at_ ls
    complete dt :
  Forall goes_on outs -> last.1 <> -1 /\ wstatus_ok last.2 /\ terminal last.2 = true ->
  (length outs < fuel)%nat ->
  Forall (fun a => to_int (a_ret a) <> 1) rs -> (length rs < fuel)%nat ->
  Forall refused ps -> a_ret took <> 0 -> (length ps < fuel)%nat ->
  a_ret gets <> -1 -> a_ret at_ <> -1 -> Forall (turn_reads t) ls ->
  loaded t complete = 1 -> a_ret dt <> -1 -> (length ls < fuel)%nat ->
  let wait p := ends_with p (seen <$> outs) in
  let call := Waitpid pid wait_options in
  (forall on_error, wait (wait_loop fuel pid on_error) [seen last] (Done tt) call) /\
  wait (wait_loop fuel pid wait_fail) [err_ans e] (Halted (Exit (-1))) call /\
  wait (wait_loop fuel pid wait_break) [err_ans e] (Done tt) call /\
  wait (ProcessesGalore.wait_children fuel id pid) [seen last] (Done tt) call /\
  wait (ProcessesGalore.wait_children fuel id pid) [err_ans e] (Done tt) call /\
  wait (waitchildren fuel lev) [seen last] (Done tt) (Waitpid 0 wait_options) /\
  wait (waitchildren fuel lev) [err_ans e] (Done tt) (Waitpid 0 wait_options) /\
  ends_with (read_one t fuel fd) rs [Ans 1 0 [[b]]] (Done (char_int t b)) (Read fd 1) /\
  ends_with (lock_acquire head list fuel) (self :: tries ps) [took; s1; s2] (Done tt)
    (AtomicCas 0 (to_int (a_ret self))) /\
  ends_with (reader t fuel) (gets :: at_ :: concat ls) [complete; dt] (Done 0) (ShLoad off_complete 4).
Proof.
  intros Ho Hl Hf Hr Hrf Hp Ht Hpf Hg Ha Hs Hc Hd Hsf wait call.
  destruct (wait_loop_fails pid outs fuel Ho Hf e), (waitchildren_ends outs last fuel lev e Ho Hl Hf),
    (wait_children_ends pid outs last fuel Ho Hl Hf id e).
  split; [intros on_error; by apply wait_loop_ends|]. split_and!; try done.
  - by apply read_one_ends.
  - by apply lock_acquire_ends.
  - by apply reader_ends.
Qed.

(** A child that stops, continues and exits; an interrupted and an empty read; a
    lock that is refused once; one turn of the reader. *)
Lemma loops_end_witness :
  ends_with (wait_loop 3 7 wait_fail) [wait_ans 7 (Stopped 19); wait_ans 7 Continued]
    [wait_ans 7 (Exited 2)] (Done tt) (Waitpid 7 wait_options) /\
  ends_with (read_one x86_64 3 5) [err_ans 4; ret_ans 0] [Ans 1 0 [[200]]] (Done (-56)) (Read 5 1).
Proof.
  pose proof (loops_end x86_64 7 [(7, Stopped 19); (7, Continued)] (7, Exited 2) 3 10 0 0 5
    [err_ans 4; ret_ans 0] 200 0 0 (ret_ans 8) [(ret_ans 0, err_ans 11)] (ret_ans 1) (ret_ans 0) (ret_ans 0)
    (ret_ans 9) (ret_ans 4096)
    [[Ans 0 0 [[0; 0; 0; 0]]; Ans 0 0 [[65; 0]]; Ans 0 0 [[1; 0; 0; 0]]; Ans 0 0 [[1; 0; 0; 0]]; ret_ans 0]]
    (Ans 0 0 [[1; 0; 0; 0]]) (ret_ans 0)) as H.
  destruct H as (Hw & _ & _ & _ & _ & _ & _ & Hr & _);
    [by repeat constructor|by repeat constructor|cbn; lia|by repeat constructor|cbn; lia
    |by repeat constructor|done|cbn; lia|done|done| |done|done|cbn; lia|split; [apply Hw|apply Hr]].
  constructor; [|constructor]. by eexists _, _, _, _, _.
Defined.
