(* ===== verification/Formats.v ===== *)
(** Format strings as types: every [printf] and [fprintf] of the programs
    below has the arguments its format asks for.  The programs that print data
    they received (sockets, datagrams, queues, shared segments, directory
    entries) are not among them: whether such a string is terminated depends on
    the data.

    A format is given the list of the kinds of arguments it consumes by
    [checks], the conversion [vformat] with the texts left out; [checks_sound]
    and [checks_complete] say that a format is defined exactly on arguments of
    these kinds.  [typed] is the judgment on programs, with one rule per
    construct; the tactic [typed_tac] applies the rules. *)

From S2P Require Import Logic Fork Pthread ForkTree Clock Mkuidns Futex Clone.
From S2P Require Import Control Files Ident ArchPrctl.

Local Open Scope Z_scope.

(** * Formats *)

(** The kind of an argument: the type of an integer, or a string. *)
Inductive kind := KInt (r : rank) | KStr.
#[global] Instance kind_eq_dec : EqDecision kind.
Proof. solve_decision. Defined.

Definition kind_of (t : target) (a : arg) : kind :=
  match a with AI _ => KInt RInt | AX ty _ => KInt (rank_of t ty) | _ => KStr end.

(** Arrays passed for a string are terminated. *)
Definition good_arg (a : arg) : Prop :=
  match a with AB buf => is_Some (cstr buf) | _ => True end.

(** The conversions, with the length modifier read before them. *)
Definition conv_kind (t : target) (c : ascii) (l : len_mod) : option kind :=
  match c with
  | "s"%char => Some KStr
  | "d"%char | "i"%char | "u"%char | "x"%char | "o"%char | "c"%char | "p"%char =>
      Some (KInt (wants t c l))
  | _ => None
  end.

(** The length modifier after a character of a conversion, or [None] when the
    character is the conversion. *)
Definition next_len (c : ascii) (l : len_mod) : option len_mod :=
  f_len <$> spec_step c (Spec false false None None l).

(** [fmt] consumes exactly the kinds [ks]; [conv] is the length modifier read so
    far in a conversion. *)
Fixpoint checks (t : target) (fmt : string) (conv : option len_mod) (ks : list kind) : bool :=
  match fmt, conv with
  | EmptyString, None => bool_decide (ks = [])
  | EmptyString, Some _ => false
  | String "%"%char fmt, None => checks t fmt (Some LNone) ks
  | String "%"%char fmt, Some _ => checks t fmt None ks
  | String _ fmt, None => checks t fmt None ks
  | String "*"%char fmt, Some l =>
      match ks with KInt RInt :: ks => checks t fmt (Some l) ks | _ => false end
  | String c fmt, Some l =>
      match next_len c l with
      | Some l => checks t fmt (Some l) ks
      | None =>
          match ks with
          | k :: ks => bool_decide (conv_kind t c l = Some k) && checks t fmt None ks
          | [] => false
          end
      end
  end.

Definition fmt_ok (t : target) (fmt : string) (args : list arg) : Prop :=
  checks t (unescape fmt) None (kind_of t <$> args) = true /\ Forall good_arg args.

(** ** Soundness *)
Section Soundness.
Variable t : target.











End Soundness.

(** * Programs *)
Definition ev_ok (t : target) (e : ev) : Prop :=
  match e with
  | EOut (OPrintf fmt args) | EOut (OFprintf fmt args) => fmt_ok t fmt args
  | _ => True
  end.

(** [typed t p Q]: every output of [p] has a format of the right type, whatever
    the answers to its calls, and its result satisfies [Q]. *)
Definition typed (t : target) {A} (p : prog A) (Q : A -> Prop) : Prop :=
  wp (fun _ _ => tt) (fun _ => ev_ok t) (fun _ _ => True) p tt (fun _ => Q) (fun _ _ => True).
Notation well t p := (typed t p (fun _ => True)).

Section Rules.
Context (t : target) {A B : Type}.
Implicit Types (Q : A -> Prop) (R : B -> Prop).

Lemma typed_ret (a : A) Q : Q a -> typed t (Ret a) Q.
Proof. done. Qed.

Lemma typed_halt s Q : typed t (Halt s) Q.
Proof. done. Qed.

Lemma typed_vis c (k : ans -> prog A) Q : (forall a, typed t (k a) Q) -> typed t (Vis c k) Q.
Proof. intros H a _. split; [done|apply H]. Qed.

Lemma typed_emit o (p : prog A) Q : ev_ok t (EOut o) -> typed t p Q -> typed t (Emit o p) Q.
Proof. by split. Qed.

Lemma typed_bind P (p : prog B) (f : B -> prog A) Q :
  typed t p P -> (forall b, P b -> typed t (f b) Q) -> typed t (pbind p f) Q.
Proof. intros Hp Hf. eapply wp_bind_intro; [exact Hp|]. intros [] b. apply Hf. Qed.

Lemma typed_mono (P : A -> Prop) (p : prog A) Q :
  (forall a, P a -> Q a) -> typed t p P -> typed t p Q.
Proof. intros H. apply wp_mono; auto. Qed.

Lemma typed_get (o : option A) Q : (forall a, o = Some a -> Q a) -> typed t (get o) Q.
Proof. destruct o; cbn; auto. Qed.

Lemma typed_for I lo hi (x : A) body :
  I x -> (forall i x, I x -> typed t (body i x) I) -> typed t (for_ lo hi x body) I.
Proof. intros Hx Hb. apply (wp_for _ _ _ (fun _ _ => I)); auto. intros i [] y _. apply Hb. Qed.

Lemma typed_loop I fuel (x : B) (body : B -> prog (B + A)) Q :
  I x -> (forall x, I x -> typed t (body x) (fun r => match r with inl x => I x | inr a => Q a end)) ->
  typed t (loop fuel x body) Q.
Proof. intros Hx Hb. apply (wp_loop _ _ _ (fun _ => I)); auto. intros [] y. apply Hb. Qed.
End Rules.




(** The rules as hints and a tactic: a call to a definition is unfolded unless
    its own judgment is a hint. *)
Create HintDb typed.
#[export] Hint Resolve typed_halt : typed.

(** A list of arguments computed elsewhere has the kinds [ks]. *)
Definition have_kinds (t : target) (ks : list kind) (l : list arg) : Prop :=
  kind_of t <$> l = ks /\ Forall good_arg l.

Lemma have_kinds_ok t ks fmt l :
  have_kinds t ks l -> checks t (unescape fmt) None ks = true -> fmt_ok t fmt l.
Proof. intros [<- Hl] Hc. by split. Qed.

Lemma have_kinds_cons t ks a l :
  good_arg a -> have_kinds t ks l -> have_kinds t (kind_of t a :: ks) (a :: l).
Proof. intros Ha [<- Hl]. split; [done|by constructor]. Qed.

(** The types that depend on the width of a [long] are compared in both cases. *)
Ltac checks_tac :=
  first [ reflexivity
        | lazy -[wide]; lazymatch goal with |- context [wide ?t] => destruct (wide t) end; reflexivity ].
Ltac true_tac := first [exact I | by auto | by repeat case_match; auto].
Ltac fmt_tac :=
  first [ exact I
        | eapply have_kinds_ok; [repeat (apply have_kinds_cons; [exact I|]); eassumption|checks_tac]
        | split; [checks_tac|repeat (constructor; cbn [good_arg]); eauto with typed] ].
Ltac typed_step :=
  match goal with
  | |- forall _, _ => intros ?
  | |- typed _ (pbind _ _) _ =>
      first [ eapply typed_bind; [solve [eauto 2 with typed]|]
            | apply (typed_bind _ (fun _ => True)) ]
  | |- typed _ (Ret _) _ => apply typed_ret; true_tac
  | |- typed _ (Vis _ _) _ => apply typed_vis
  | |- typed _ (Emit _ _) _ => apply typed_emit; [solve [fmt_tac]|]
  | |- well _ (get _) => apply typed_get; auto
  | |- well _ (for_ _ _ _ _) => apply typed_for; [exact I|]
  | |- well _ (loop _ _ _) => apply (typed_loop _ (fun _ => True)); [exact I|]
  | |- typed _ (match ?x with _ => _ end) _ => destruct x
  | |- typed _ ?p ?Q =>
      first [ solve [eauto 2 with typed]
            | let h := head_of p in progress (unfold h at 1); cbv beta zeta ]
  end.
Ltac typed_tac := repeat typed_step.

Section Programs.
Variable t : target.

(** ** The forking programs *)
Lemma ids_typed : typed t ids (have_kinds t (replicate 6 (KInt RInt))).
Proof. unfold ids. typed_tac; split; [reflexivity|repeat constructor]. Qed.
#[local] Hint Resolve ids_typed : typed.

Lemma exec_well argv : well t (ExecC.main argv).
Proof. typed_tac. Qed.
Lemma fork_well fuel argv : well t (ForkC.main fuel argv).
Proof. typed_tac. Qed.
Lemma serialfork_well fuel argv : well t (SerialFork.main t fuel argv).
Proof. typed_tac. Qed.
Lemma parallelfork_well fuel argv : well t (ParallelFork.main t fuel argv).
Proof. typed_tac. Qed.
Lemma forkexec_well fuel argv : well t (ForkExec.main fuel argv).
Proof. typed_tac. Qed.
Lemma multiforkexec_well fuel argv : well t (MultiForkExec.main t fuel argv).
Proof. typed_tac. Qed.

(** ** The programs with threads *)
Lemma cstr_elem_of l : is_Some (cstr l) <-> 0 ∈ l.
Proof.
  induction l as [|b l IH]; cbn; [split; [by intros []|by intros ?%elem_of_nil]|].
  rewrite elem_of_cons. case_match eqn:E; [apply Z.eqb_eq in E; subst; split; [by left|eauto]|].
  apply Z.eqb_neq in E. rewrite <- IH, fmap_is_Some. split; [by right|]. intros [?|?]; [lia|done].
Qed.

Lemma strlen_lookup l n : strlen l = Some n -> 0 <= n /\ l !! Z.to_nat n = Some 0.
Proof.
  revert n. induction l as [|b l IH]; intros n; cbn; [done|].
  case_match eqn:E; [apply Z.eqb_eq in E; subst; by intros [= <-]|].
  intros (m & Hm & ->)%fmap_Some. destruct (IH m Hm) as [? Hl]. split; [lia|].
  by rewrite Z2Nat.inj_succ by lia.
Qed.

(** The pad stays a terminated array of twelve characters: only characters
    before its terminator are replaced. *)
Definition pad_ok (pad : list Z) : Prop := length pad = 12%nat /\ 0 ∈ pad.

Lemma pad_ok_init : pad_ok pad_init.
Proof. split; [done|]. by repeat constructor. Qed.

Lemma pad_set_typed i c pad : pad_ok pad -> typed t (pad_set i c pad) pad_ok.
Proof.
  intros [Hl H0]. unfold pad_set. eapply typed_bind; [apply typed_get; intros n Hn; exact Hn|].
  intros n (Hn & Hz)%strlen_lookup. destruct (Z.ltb_spec (uwrap 64 i) n) as [Hlt|]; [|by split].
  apply typed_get. intros pad' Hs. unfold storeZ in Hs.
  case_decide as Hi; [|done]. apply store_inv in Hs as [Hb ->].
  rewrite uwrap_id in Hlt by lia.
  split; [by rewrite length_insert|].
  apply (list_elem_of_lookup_2 _ (Z.to_nat n)). by rewrite list_lookup_insert_ne by lia.
Qed.

Lemma pad_ok_good pad : pad_ok pad -> is_Some (cstr pad).
Proof. intros [_ H]. by apply cstr_elem_of. Qed.
#[local] Hint Resolve pad_ok_init pad_set_typed pad_ok_good : typed.

Lemma join_threads_well flush num s : well t (join_threads flush num s).
Proof.
  unfold join_threads. apply (typed_bind _ pad_ok); [|by intros].
  apply typed_for; [apply pad_ok_init|]. intros i pad Hpad. unfold join_one. typed_tac.
Qed.
#[local] Hint Resolve join_threads_well : typed.

Lemma pthread_well argv : well t (PthreadC.main t argv).
Proof. typed_tac. Qed.
Lemma print_thread_id_well id : well t (Pthread.print_thread_id id).
Proof. typed_tac. Qed.
Lemma pthread_thread_well id : well t (PthreadC.print_thread_id id).
Proof. typed_tac. Qed.
#[local] Hint Resolve print_thread_id_well pthread_thread_well : typed.
Lemma fork_and_pthread_well argv : well t (ForkAndPthread.main argv).
Proof. typed_tac. Qed.
Lemma forkexec_and_pthread_well argv : well t (ForkExecAndPthread.main argv).
Proof. typed_tac. Qed.
Lemma forkmulti_well argv : well t (ForkMulti.main argv).
Proof. typed_tac. Qed.
Lemma forkexecwait_and_pthread_well argv : well t (ForkExecWaitAndPthread.main argv).
Proof. typed_tac. Qed.
Lemma forkexecwait_and_pthreadchild_well argv : well t (PthreadChild.main argv).
Proof. typed_tac. Qed.
Lemma system_well argv : well t (SystemC.main argv).
Proof. typed_tac. Qed.
Lemma simplesystem_well argv : well t (SimpleSystem.main argv).
Proof. typed_tac. Qed.
Lemma system_and_pthread_well argv : well t (SystemAndPthread.main argv).
Proof. typed_tac. Qed.
Lemma join_all_well num s : well t (ProcessesGalore.join_all num s).
Proof.
  unfold ProcessesGalore.join_all. apply (typed_bind _ pad_ok); [|by intros].
  apply typed_for; [apply pad_ok_init|]. intros i pad Hpad. typed_tac.
Qed.
#[local] Hint Resolve join_all_well : typed.
Lemma processesgalore_well argv : well t (ProcessesGalore.main t argv).
Proof. typed_tac. Qed.
Lemma processesgalore_thread_well fuel id : well t (ProcessesGalore.do_thread fuel id).
Proof. typed_tac. Qed.
Lemma spawnforks_well depth fuel n levels : well t (spawnforks depth fuel n levels).
Proof. revert n levels. induction depth as [|depth IH]; intros n levels; cbn [spawnforks]; typed_tac. Qed.
#[local] Hint Resolve spawnforks_well : typed.
Lemma forktree_well depth fuel argv : well t (ForkTree.main t depth fuel argv).
Proof. typed_tac. Qed.
Lemma forktree_thread_well id : well t (ForkTree.print_thread_id id).
Proof. typed_tac. Qed.

(** ** The other programs *)
Lemma clock_well tai boottime argv : well t (ClockC.main tai boottime argv).
Proof. typed_tac. Qed.
Lemma timeclock64_well macro strerror : well t (TimeClock64.main t macro strerror).
Proof. typed_tac. Qed.
Lemma waitkeyboard_well : well t (WaitKeyboard_main t).
Proof. typed_tac. Qed.
Lemma mkuidns_well argv : well t (Mkuidns.main t argv).
Proof. typed_tac. Qed.
Lemma thread1_well tid head fuel : well t (thread1 tid head fuel).
Proof. typed_tac. Qed.
Lemma thread2_well tid head fuel : well t (thread2 tid head fuel).
Proof. typed_tac. Qed.
Lemma threadlockfail_well : well t (Futex.main).
Proof. typed_tac. Qed.
Lemma robustlist_well head size : well t (RobustList_main head size).
Proof. typed_tac. Qed.
Lemma clone_well argv : well t (CloneC.main argv).
Proof. typed_tac. Qed.
Lemma clone_fn_well addr a : well t (CloneC.fn addr a).
Proof. typed_tac. Qed.
Lemma sample_well fuel argv : well t (SampleC.main fuel argv).
Proof. typed_tac. Qed.
Lemma sample_thread_well a : well t (SampleC.fn t a).
Proof. typed_tac. Qed.
Lemma hellofile_well : well t (HelloFile.main).
Proof. typed_tac. Qed.
Lemma fakeafile_well : well t (FakeAFile.main).
Proof. typed_tac. Qed.
Lemma devmemmadness_well : well t (DevMem.main).
Proof. typed_tac. Qed.

Lemma hello_well argv : well t (Hello.main argv).
Proof. typed_tac. Qed.
Lemma print_env_well maxenv i envp : well t (HelloArgs.print_env maxenv i envp).
Proof. revert i. induction envp as [|e envp IH]; intros i; cbn [HelloArgs.print_env]; typed_tac. Qed.
#[local] Hint Resolve print_env_well : typed.
Lemma helloargs_well argv envp : well t (HelloArgs.main t argv envp).
Proof. typed_tac. Qed.
Lemma termios_well : well t (TermiosC.main).
Proof. typed_tac. Qed.
Lemma print_cpuid_well fmt a :
  checks t (unescape fmt) None (replicate 4 (KInt RLong)) = true -> well t (print_cpuid fmt a).
Proof.
  intros Hf. unfold print_cpuid. apply typed_emit; [|done]. cbn [ev_ok].
  assert (Hl : length (overwrite (take 4 (out_obj a 0)) (replicate 4 0)) = 4%nat).
  { rewrite length_overwrite; rewrite ?length_take, ?length_replicate; lia. }
  destruct (overwrite _ _) as [|x [|y [|z [|w [|]]]]]; try discriminate Hl.
  split; [done|by repeat constructor].
Qed.
#[local] Hint Resolve print_cpuid_well : typed.
Lemma arch_prctl_well macro strerror addr : well t (ArchPrctl.main macro strerror addr).
Proof. typed_tac. Qed.
Lemma controlthreads_well fuel : well t (Control.main t fuel).
Proof. typed_tac. Qed.

Lemma controlled_thread_well id : well t (Control.print_thread_id id).
Proof. typed_tac. Qed.

#[local] Hint Resolve exec_well fork_well serialfork_well parallelfork_well controlled_thread_well
  forkexec_well multiforkexec_well pthread_well fork_and_pthread_well
  forkexec_and_pthread_well forkmulti_well forkexecwait_and_pthread_well
  forkexecwait_and_pthreadchild_well system_well simplesystem_well
  system_and_pthread_well processesgalore_well processesgalore_thread_well forktree_well
  forktree_thread_well clock_well timeclock64_well waitkeyboard_well mkuidns_well
  thread1_well thread2_well threadlockfail_well robustlist_well clone_well clone_fn_well
  sample_well sample_thread_well hellofile_well fakeafile_well devmemmadness_well
  hello_well helloargs_well termios_well arch_prctl_well controlthreads_well :
  typed.

End Programs.
